(* ===== verification/_CoqProject ===== *)
-Q . S2P
Prelude.v
GoStrings.v
GoNet.v
GoHTTP.v
GoBase64.v
GoTime.v
GoRFC3339.v
Downtime.v
Password.v
UserTable.v
UserDB.v
UserDBLemmas.v
UserDBOps.v
UserDBCoherence.v
UserDBReach.v
UserDBSpec.v
RateLimit.v
Bypass.v
Dns.v
Config.v
ConfigLoad.v
Proxy.v
Connect.v
Forward.v
ProxyFrame.v
ProxySafety.v
ProxySpec.v
Challenge.v
ProxyOutcomes.v
ForwardSpec.v
HeaderDump.v
UserPorts.v
UserPortsSpec.v
Sockets.v
ProxyOverDB.v
CertCache.v
Mitm.v
Minting.v
BlockPage.v
Hijack.v
Collector.v
CollectorSpec.v
LogStream.v
Counter.v
Tunnel.v
LogBuffer.v
Logging.v
Doh.v
Metrics.v
Registry.v
MetricsSpec.v
DeviceTokens.v
AdminSession.v
ClientIP.v
AdminServer.v
Pairing.v
AdminAPI.v
AccessLog.v
UserDBCalm.v
AdminLemmas.v
AdminAccess.v
AdminSpec.v
AdminPorts.v
Running.v
AdminFrame.v
AdminExamples.v
Main.v
Services.v
World.v
System.v
PauseHolds.v
