(* ===== verification/Prelude.v ===== *)
(** * evan-proxy: a verification development

    The program (cmd/evan-proxy, pkg/...) is a forward proxy for a household: every
    user has a password and a dedicated TCP port, a proxied request needs the
    password of the owner of the port it came in on, users can be disabled or paused
    (a weekly schedule, an ad-hoc pause, an override), and a small admin server
    manages all this while the proxy runs.  This file holds the vocabulary the other
    files share; this comment is the guide to all of them.

    ** Conventions

    Methods on a shared object are functions from its state to a result and the new
    state: [M] where the Go method returns an error (what was written before the
    error stays written), [ST] where it cannot fail.  What a handler sends, logs and
    dials is a list of effects, the trace of the state.  A section under a mutex is
    atomic; a method that takes a lock twice is two definitions, so that what other
    goroutines do in between can be put between them.  Instants are nanoseconds (Z)
    and arguments; a Go [int] that can overflow wraps through [wrap64].  Strings are
    byte strings.  A Go map is a gmap; where the code ranges over one the order is
    that of [map_to_list] and the results are shown not to depend on it.

    What the program calls and does not contain is a parameter: argon2 and SHA-256
    (class [Crypto]), the JSON codec of schedules ([ScheduleCodec]), SQLite's clock
    text ([SQLiteClock]), bcrypt, crypto/x509, the DNS message codec, JSON encoders,
    the answers of the network ([Network]).  SQLite is a list of rows and a list of
    injected failures, one for each statement to come; the laws assumed of a
    parameter are class fields or named hypotheses, and every property that uses one
    is applied to concrete functions in its witness.  Go's own library (strings,
    strconv, net, net/http headers, base64, RFC 3339) is written out in the Go*.v
    files, for ASCII where case or white space matter.

    ** The parts, bottom up

    - Prelude, GoStrings, GoNet, GoHTTP, GoBase64, GoTime, GoRFC3339: shared notions.
    - Downtime (pkg/userdb/downtime.go): [parseHHMM], [ValidateSchedule],
      [isInDowntime], against sets of minutes of the week.
    - Password (password and Basic-header parts of pkg/userdb/userdb.go).
    - UserTable (the SQL statements), UserDB (userdb.go, every method but Close),
      with UserDBLemmas, UserDBOps (each method on every branch), UserDBCoherence
      and UserDBReach (the methods as a transition system, its invariants),
      UserDBSpec (what clients may rely on), UserDBCalm (runs without failures).
    - DeviceTokens (pkg/userdb/devicetokens.go) on the same tables.
    - RateLimit (pkg/ratelimit, pkg/admin/globalcounter.go): both sliding windows.
    - Bypass (pkg/mitm/bypass.go), Dns (pkg/dns/resolver.go), Doh (pkg/dns/doh.go).
    - Config, ConfigLoad (pkg/config/config.go): settings, environment, [validate].
    - Proxy (pkg/proxy/handler.go: the Handler, sessions, dialling), Connect
      (connect.go), Forward and HeaderDump (forward.go, pkg/pac), UserPorts
      (userports.go) with Sockets (which of the servers started still listen).  The
      proxy sees the database through the class [UserStore], as the Go code does
      through its interfaces; ProxyOverDB discharges the class with the database.
      ProxyFrame, ProxySafety, ProxySpec, ProxyOutcomes, ForwardSpec and
      UserPortsSpec hold the theorems; Challenge cuts CONNECT where it waits for the
      answer to its challenge.
    - CertCache (pkg/mitm/lru.go), Mitm (mint.go, ca.go: loading, and handshakes and
      rotations that run in one piece), Minting (the same as steps that overlap),
      BlockPage (the template of blockpage.go), Hijack (hijack.go and the response of
      blockpage.go): the TLS block page of paused users.
    - Collector, CollectorSpec (pkg/stats/collector.go), LogStream (the live log of
      the admin API), Counter (counter.go, an atomic operation or a channel send a
      step), Tunnel (the copy goroutines at the end of connect.go, with the flushers
      of counter.go as state machines), Metrics, Registry, MetricsSpec
      (pkg/metrics/metrics.go).
    - LogBuffer (pkg/logging/jsonhttp.go), Logging (logger.go, backend.go,
      console.go, jsonudp.go): the logger is generic in the class [Backend], its
      theorem uses only the laws of [BackendSpec].
    - AdminSession (pkg/admin/session.go, enroll.go), ClientIP (clientip.go),
      AdminServer (server.go, cookie.go, pkg/auth/admin.go, log-in), Pairing (the
      link and the code of devices.go), AdminAPI (api.go, devices.go, the routes of
      server.go), AccessLog (access_log.go).
      The state [api] contains the proxy's Handler: both servers of the program
      work on one database and one set of ports.  AdminLemmas, AdminAccess,
      AdminSpec, AdminPorts, AdminFrame, AdminExamples hold the theorems; Running
      (every server the handler knows listens) is preserved by them too.
    - Main (cmd/evan-proxy/main.go up to serving), Services (the servers main starts,
      what each answers, the shutdown), World (the running program as a step
      function of events, with CONNECT whole or cut at the challenge) and System: the
      started program under any sequence of events, with PauseHolds on top.

    ** What the theorems show

    - End to end (System), for databases with distinct, non-empty, colon-free names and
      events that create no user with a colon ([event_ok]; with one, sessions can be
      shared): from the start on, every dial, tunnel and forwarded request was made on
      a running port for its owner, who was not paused (or reached a host a pause never
      intercepts, with the block page) and whose current password had been shown from
      that client address, also when other events come between challenge and answer;
      and as long as no statement fails and ticks are undisturbed ([orderly]), the
      listening ports are those of the table, with no server left behind, and outside
      demo mode after a tick of the reconciler exactly the wanted ones, where a user
      who may pass does pass; nothing listens after a shutdown.  Main: what holds
      when the program starts to serve; Services: where metrics and profiles are
      served and where not, for every configuration.
    - Tunnels: in every interleaving the bytes arrive in order and uncut, half-closes
      follow the last byte, and a tunnel whose ends are over winds down: copies,
      flushers and handler have a bounded number of steps left, two more for each tick
      of a flusher's timer, and with none left everything is closed.
    - The block page: whatever handshakes and rotations overlap, pages are served under
      a certificate that fits the name and the CA (up to the race of a finding), each
      in answer to its request, a bounded number of them.
    - Texts: the block page shows the host as text and nothing else, the pairing link
      and its drawing read back, the live log is the entries in order.
    - Blocking: [isInDowntime] is membership in the scheduled minutes, [ValidateSchedule]
      accepts exactly the well-formed schedules, a pause takes effect at once, a
      paused client gets the block page, and (PauseHolds) through the events of a
      running program the pause holds until it ends or the pause route names the user.
    - The database: caches agree with the table in every reachable state, [Check]
      accepts exactly the stored password, operations on one user do not show on
      another, and the API only ever produces histories of the database's methods.
    - The admin server: nothing behind the guards without a credential, log-in on
      every branch, a bound on evaluated guesses, sessions, codes and devices over
      their lifetimes, no choice of address by the client.
    - Data structures against references: the limiters and the traffic ring against
      unbounded records, the leaf cache (answers, order and counters) against a
      recency list, the top lists against counted visits, live bytes conserved in
      every interleaving; every call on the instruments fits their declaration.
    - Logs: every message reaches every backend in order and the console can be read
      back; the access log reports the status that was sent.
    - Theorems about what goes wrong, listed in the findings; among them
      [interleaved_Check_revives_old_password], [stale_plan_restarts_stopped_port],
      [retired_leaf_reaches_the_cache], [logged_out_session_revives],
      [interleaved_port_updates_share_a_port], [oversized_pause_is_lost],
      [colon_names_share_sessions], [zero_window_crashes],
      [access_log_line_can_be_forged], [waiting_request_outlives_disabling],
      [panicked_copy_leaves_flusher].

    ** Bounds

    Fuel appears where Go loops: [itoa_loop] 20 (digits of a 64-bit integer; round
    trip [Atoi_Itoa]); [ipv6_groups] (groups of an address); [evict] and
    [drain_rest] (length of the list they empty, shown to empty it); [runes] (length
    in bytes); [template.parse] (length of the text); [serve_loop] (MaxRequests, which is the bound of the Go loop).  The
    goroutine loops that never end are steps of a history instead.

    ** Not modelled

    Sockets, read deadlines and connection reuse inside http.Transport (in the
    handler a tunnel is one effect with its totals, its bytes are in Tunnel);
    durations in log entries (an argument where they are printed); the two-slot
    semaphore around argon2; signals, autocert, the handlers behind the pprof paths
    and the static files; of html/template what the block page does not use; what
    client_golang does with a call; header decoding by net/http (requests come
    parsed, bodies come decoded).  A server that lost its port keeps the connections it had:
    requests arrive only on servers that listen.  The proxied traffic of a
    run feeds the collector in System; its metrics and live bytes are followed in
    MetricsSpec and Counter. *)

From stdpp Require Export base tactics option list list_numbers strings gmap fin_maps sorting.
From Stdlib Require Export ZArith Lia.

#[export] Set Warnings "-clear-no-such-hyp".

Open Scope Z_scope.

Declare Scope go_scope.
Delimit Scope go_scope with go.

(** ** Error-or-value results

    Go's [(value, error)] pairs: [Err e] is a non-nil error. *)

Inductive result (E A : Type) : Type :=
| Ok (a : A)
| Err (e : E).

Arguments Ok {E A} a.
Arguments Err {E A} e.

Definition is_ok {E A} (r : result E A) : bool :=
  match r with Ok _ => true | Err _ => false end.

#[global] Instance result_eq_dec {E A} `{EqDecision E, EqDecision A} : EqDecision (result E A).
Proof. solve_decision. Defined.

(** ** Stateful code that may return an error

    A method on a shared object is a function from the object's state to a
    result and the new state.  The state is threaded through an error: Go does
    not roll back what was written before [return err]. *)

Definition M (S E A : Type) : Type := S -> result E A * S.

#[global] Instance M_ret {S E} : MRet (M S E) := fun A a s => (Ok a, s).
#[global] Instance M_bind {S E} : MBind (M S E) := fun A B k m s =>
  match m s with
  | (Ok a, s') => k a s'
  | (Err e, s') => (Err e, s')
  end.

Definition throw {S E A} (e : E) : M S E A := fun s => (Err e, s).
Definition get {S E} : M S E S := fun s => (Ok s, s).
Definition modify {S E} (f : S -> S) : M S E unit := fun s => (Ok tt, f s).

(** [fmt.Errorf] with a percent-w verb around a failed call. *)
Definition wrap {S E A} (f : E -> E) (m : M S E A) : M S E A :=
  fun s => match m s with
           | (Ok a, s') => (Ok a, s')
           | (Err e, s') => (Err (f e), s')
           end.

(** ** Stateful code that cannot fail *)

Definition ST (S A : Type) : Type := S -> A * S.

#[global] Instance ST_ret {S} : MRet (ST S) := fun A a s => (a, s).
#[global] Instance ST_bind {S} : MBind (ST S) := fun A B k m s => let '(a, s') := m s in k a s'.

Definition gets {S A} (f : S -> A) : ST S A := fun s => (f s, s).
Definition update {S} (f : S -> S) : ST S unit := fun s => (tt, f s).

(** One step of a sequence whose result is known. *)
Lemma ST_step {S A B} (m : ST S A) (k : A -> ST S B) (s s' : S) (x : A) :
  m s = (x, s') -> (y ← m; k y) s = k x s'.
Proof. unfold mbind, ST_bind. by intros ->. Qed.

(** ** Machine integers *)

Definition int64_min : Z := - 2 ^ 63.
Definition int64_max : Z := 2 ^ 63 - 1.

(** Two's complement wrap-around of Go's [int], [int64] and [time.Duration]. *)
Definition wrap64 (z : Z) : Z := (z + 2 ^ 63) mod 2 ^ 64 - 2 ^ 63.

Lemma wrap64_id z : int64_min <= z <= int64_max -> wrap64 z = z.
Proof.
  unfold int64_min, int64_max, wrap64. intros H.
  rewrite Z.mod_small; lia.
Qed.

Lemma wrap64_range z : int64_min <= wrap64 z <= int64_max.
Proof.
  unfold int64_min, int64_max, wrap64.
  pose proof (Z.mod_pos_bound (z + 2 ^ 63) (2 ^ 64)). lia.
Qed.

(** ** Automation *)

Create HintDb evan discriminated.

(** Splits every [match] and [if] in sight and cleans up. *)
Ltac go_cases :=
  repeat (case_match; simplify_eq/=; try done).

(** Turns the boolean tests of the code into arithmetic facts. *)
Ltac reflect_bools :=
  repeat match goal with
  | H : _ && _ = true |- _ => apply andb_true_iff in H as [? ?]
  | H : _ && _ = false |- _ => apply andb_false_iff in H
  | H : _ || _ = true |- _ => apply orb_true_iff in H
  | H : _ || _ = false |- _ => apply orb_false_iff in H as [? ?]
  | H : negb _ = true |- _ => apply negb_true_iff in H
  | H : negb _ = false |- _ => apply negb_false_iff in H
  | H : (_ <? _)%Z = true |- _ => apply Z.ltb_lt in H
  | H : (_ <? _)%Z = false |- _ => apply Z.ltb_ge in H
  | H : (_ <=? _)%Z = true |- _ => apply Z.leb_le in H
  | H : (_ <=? _)%Z = false |- _ => apply Z.leb_gt in H
  | H : (_ =? _)%Z = true |- _ => apply Z.eqb_eq in H
  | H : (_ =? _)%Z = false |- _ => apply Z.eqb_neq in H
  | H : (_ =? _)%string = true |- _ => apply String.eqb_eq in H
  | H : (_ =? _)%string = false |- _ => apply String.eqb_neq in H
  | H : bool_decide _ = true |- _ => apply bool_decide_eq_true in H
  | H : bool_decide _ = false |- _ => apply bool_decide_eq_false in H
  end.

(** ** Lists *)

Section lists.
Context {A : Type}.

Lemma existsb_true_iff (f : A -> bool) (l : list A) :
  existsb f l = true <-> exists x, x ∈ l /\ f x = true.
Proof.
  rewrite existsb_exists. by setoid_rewrite list_elem_of_In.
Qed.

(** The first match is the only one. *)
Lemma find_only (f : A -> bool) (l : list A) (x : A) :
  x ∈ l -> f x = true -> (forall y, y ∈ l -> f y = true -> y = x) -> List.find f l = Some x.
Proof.
  intros Hx Hf Ho. destruct (List.find f l) as [y|] eqn:E.
  - apply List.find_some in E as [Hin Hy]. f_equal. apply Ho; [by apply list_elem_of_In|done].
  - apply list_elem_of_In in Hx. by rewrite (List.find_none _ _ E _ Hx) in Hf.
Qed.

(** Every pair of elements at two different positions is related. *)
Fixpoint pairwise (R : A -> A -> Prop) (l : list A) : Prop :=
  match l with
  | [] => True
  | x :: l' => Forall (R x) l' /\ pairwise R l'
  end.

Lemma pairwise_app (R : A -> A -> Prop) l k :
  pairwise R (l ++ k) <-> pairwise R l /\ pairwise R k /\ Forall (fun x => Forall (R x) k) l.
Proof.
  induction l as [|x l IH]; simpl; [naive_solver|].
  rewrite IH, Forall_app, Forall_cons. naive_solver.
Qed.

#[global] Instance pairwise_perm (R : A -> A -> Prop) `{!Symmetric R} :
  Proper ((≡ₚ) ==> iff) (pairwise R).
Proof.
  intros l k Hp. induction Hp as [|x l k Hp IH|x y l|l1 l2 l3 _ IH1 _ IH2]; simpl; [done| | |].
  - by rewrite IH, Hp.
  - rewrite !Forall_cons. naive_solver.
  - by rewrite IH1.
Qed.

Lemma pairwise_lookup (R : A -> A -> Prop) `{!Symmetric R} l :
  pairwise R l <-> forall i j x y, i <> j -> l !! i = Some x -> l !! j = Some y -> R x y.
Proof.
  induction l as [|z l IH]; simpl; [naive_solver|]. rewrite IH, Forall_lookup. split.
  - intros [Hz Hl] [|i] [|j] x y Hij Hx Hy; simplify_eq/=; eauto.
  - intros H. split.
    + intros i y Hy. by apply (H 0%nat (S i)).
    + intros i j x y Hij Hx Hy. apply (H (S i) (S j)); auto.
Qed.
End lists.

(** ** Strings *)

Lemma string_app_assoc (s t u : string) : ((s +:+ t) +:+ u = s +:+ (t +:+ u))%string.
Proof. induction s as [|a s IH]; [done|]. exact (f_equal (String a) IH). Qed.

Lemma string_app_cons a (s t : string) : (String a s +:+ t = String a (s +:+ t))%string.
Proof. reflexivity. Qed.

Lemma string_app_empty (s : string) : (s +:+ EmptyString = s)%string.
Proof. induction s as [|a s IH]; [done|]. exact (f_equal (String a) IH). Qed.
