(* ===== verification/GoStrings.v ===== *)
(** * The parts of Go's [strings], [strconv] and [net] that the program calls

    A Go string is a sequence of bytes, here [string].  [ToLower], [EqualFold]
    and [TrimSpace] are given for ASCII: bytes from 0x80 up are left alone and
    are not white space. *)

From S2P Require Import Prelude.
From Stdlib Require Export Ascii.

Open Scope string_scope.
Open Scope Z_scope.

Module strings.

Definition HasPrefix (s prefix : string) : bool := String.prefix prefix s.

Fixpoint drop (n : nat) (s : string) : string :=
  match n, s with
  | S n', String _ s' => drop n' s'
  | _, _ => s
  end.

Fixpoint take (n : nat) (s : string) : string :=
  match n, s with
  | S n', String a s' => String a (take n' s')
  | _, _ => EmptyString
  end.

Definition TrimPrefix (s prefix : string) : string :=
  if HasPrefix s prefix then drop (String.length prefix) s else s.

Fixpoint HasSuffix (s suffix : string) : bool :=
  (s =? suffix)%string ||
  match s with String _ s' => HasSuffix s' suffix | EmptyString => false end.

Fixpoint TrimSuffix (s suffix : string) : string :=
  if (s =? suffix)%string then EmptyString else
  match s with String a s' => String a (TrimSuffix s' suffix) | EmptyString => EmptyString end.

Fixpoint Contains (s sub : string) : bool :=
  HasPrefix s sub ||
  match s with String _ s' => Contains s' sub | EmptyString => false end.

(** [strings.IndexByte] and [LastIndexByte]; [None] is -1. *)
Fixpoint IndexByte (s : string) (c : ascii) : option nat :=
  match s with
  | EmptyString => None
  | String a s' => if Ascii.eqb a c then Some O else S <$> IndexByte s' c
  end.

Fixpoint LastIndexByte (s : string) (c : ascii) : option nat :=
  match s with
  | EmptyString => None
  | String a s' =>
      match LastIndexByte s' c with
      | Some i => Some (S i)
      | None => if Ascii.eqb a c then Some O else None
      end
  end.

Definition HasByte (s : string) (c : ascii) : bool :=
  match IndexByte s c with Some _ => true | None => false end.

(** [strings.SplitN(s, c, 2)] when it yields two parts. *)
Fixpoint Cut (s : string) (c : ascii) : option (string * string) :=
  match s with
  | EmptyString => None
  | String a s' =>
      if Ascii.eqb a c then Some (EmptyString, s')
      else '(x, y) ← Cut s' c; Some (String a x, y)
  end.

(** [strings.Split(s, c)] for a one-byte separator. *)
Fixpoint Split (s : string) (c : ascii) : list string :=
  match s with
  | EmptyString => [EmptyString]
  | String a s' =>
      if Ascii.eqb a c then EmptyString :: Split s' c
      else match Split s' c with
           | x :: xs => String a x :: xs
           | [] => [String a EmptyString]
           end
  end.

Fixpoint Join (l : list string) (sep : string) : string :=
  match l with
  | [] => EmptyString
  | [x] => x
  | x :: l' => x +:+ sep +:+ Join l' sep
  end.

Definition lower_ascii (a : ascii) : ascii :=
  let n := N_of_ascii a in
  if (65 <=? n)%N && (n <=? 90)%N then ascii_of_N (n + 32) else a.

Fixpoint ToLower (s : string) : string :=
  match s with
  | EmptyString => EmptyString
  | String a s' => String (lower_ascii a) (ToLower s')
  end.

Definition EqualFold (s t : string) : bool := (ToLower s =? ToLower t)%string.

Definition is_space (a : ascii) : bool :=
  let n := N_of_ascii a in ((9 <=? n)%N && (n <=? 13)%N) || (n =? 32)%N.

Fixpoint TrimLeft (s : string) : string :=
  match s with
  | String a s' => if is_space a then TrimLeft s' else s
  | EmptyString => EmptyString
  end.

Fixpoint TrimRight (s : string) : string :=
  match s with
  | EmptyString => EmptyString
  | String a s' =>
      let r := TrimRight s' in
      if is_space a && (r =? EmptyString)%string then EmptyString else String a r
  end.

Definition TrimSpace (s : string) : string := TrimRight (TrimLeft s).

End strings.

Module strconv.

Definition digit_val (a : ascii) : option Z :=
  let n := Z.of_N (N_of_ascii a) in
  if (48 <=? n) && (n <=? 57) then Some (n - 48) else None.

(** Decimal digits from the left, [acc] the value so far. *)
Fixpoint digits (acc : Z) (s : string) : option Z :=
  match s with
  | EmptyString => Some acc
  | String a s' => d ← digit_val a; digits (acc * 10 + d) s'
  end.

Definition udigits (s : string) : option Z :=
  match s with EmptyString => None | _ => digits 0 s end.

(** [strconv.Atoi]: an optional sign, at least one digit, and a value that
    fits [int]; [None] is a non-nil error. *)
Definition Atoi (s : string) : option Z :=
  let v := match s with
           | String "-" s' => Z.opp <$> udigits s'
           | String "+" s' => udigits s'
           | _ => udigits s
           end in
  n ← v; if (int64_min <=? n) && (n <=? int64_max) then Some n else None.

Definition digit_ascii (d : Z) : ascii := ascii_of_N (Z.to_N (d + 48)).

Fixpoint itoa_loop (fuel : nat) (n : Z) (acc : string) : string :=
  match fuel with
  | O => acc
  | S fuel' =>
      let acc' := String (digit_ascii (n mod 10)) acc in
      if n <? 10 then acc' else itoa_loop fuel' (n / 10) acc'
  end.

(** Twenty digits are enough for a 64-bit value. *)
Definition Itoa (n : Z) : string :=
  if n <? 0 then String "-" (itoa_loop 20 (- n) EmptyString)
  else itoa_loop 20 n EmptyString.

Lemma digit_val_ascii d : 0 <= d <= 9 -> digit_val (digit_ascii d) = Some d.
Proof.
  intros H.
  assert (d = 0 \/ d = 1 \/ d = 2 \/ d = 3 \/ d = 4 \/ d = 5 \/ d = 6 \/ d = 7 \/ d = 8 \/ d = 9) as Hd by lia.
  destruct_or!; by subst.
Qed.

Lemma digits_itoa_loop fuel n s :
  0 <= n < 10 ^ Z.of_nat fuel -> digits 0 (itoa_loop fuel n s) = digits n s.
Proof.
  revert n s. induction fuel as [|fuel IH]; intros n s Hn.
  - simpl. f_equal. change (10 ^ Z.of_nat 0) with 1 in Hn. lia.
  - rewrite Nat2Z.inj_succ, Z.pow_succ_r in Hn by lia. cbn [itoa_loop].
    pose proof (Z.div_mod n 10 ltac:(lia)). pose proof (Z.mod_pos_bound n 10 ltac:(lia)).
    destruct (Z.ltb_spec n 10).
    + cbn [digits]. rewrite Z.mod_small by lia. rewrite digit_val_ascii by lia. simpl. by f_equal.
    + rewrite IH by (split; [apply Z.div_pos; lia | apply Z.div_lt_upper_bound; lia]).
      cbn [digits]. rewrite digit_val_ascii by lia. cbn. f_equal. lia.
Qed.

Lemma itoa_loop_not_empty fuel n s : (0 < fuel)%nat -> itoa_loop fuel n s <> EmptyString.
Proof.
  intros Hf. assert (forall f m t, t <> EmptyString -> itoa_loop f m t <> EmptyString) as Haux.
  { induction f as [|f IH]; intros m t Ht; [done|]. cbn [itoa_loop].
    case_match; [done|]. by apply IH. }
  destruct fuel as [|fuel]; [lia|]. cbn [itoa_loop]. case_match; [done|]. by apply Haux.
Qed.

Lemma udigits_itoa_loop n :
  0 <= n < 10 ^ 20 -> udigits (itoa_loop 20 n EmptyString) = Some n.
Proof.
  intros Hn. pose proof (itoa_loop_not_empty 20 n EmptyString ltac:(lia)) as Hne.
  unfold udigits. destruct (itoa_loop 20 n EmptyString) as [|a s] eqn:E; [done|].
  rewrite <- E, digits_itoa_loop by done. done.
Qed.

(** The first byte of a printed number is a digit, never a sign. *)
Lemma itoa_loop_head fuel n s :
  (exists a t, s = String a t /\ digit_val a <> None) \/ (0 < fuel)%nat ->
  0 <= n ->
  exists a t, itoa_loop fuel n s = String a t /\ digit_val a <> None.
Proof.
  revert n s. induction fuel as [|fuel IH]; intros n s Hs Hn.
  - destruct Hs as [?|?]; [done|lia].
  - pose proof (Z.mod_pos_bound n 10 ltac:(lia)).
    assert (digit_val (digit_ascii (n mod 10)) <> None) by (by rewrite digit_val_ascii by lia).
    cbn [itoa_loop]. case_match; [by eauto|].
    apply IH; [left; eauto|]. apply Z.div_pos; lia.
Qed.

Lemma Atoi_unsigned a t :
  digit_val a <> None ->
  Atoi (String a t) = n ← digits 0 (String a t);
    if (int64_min <=? n) && (n <=? int64_max) then Some n else None.
Proof.
  intros Ha. destruct a as [[] [] [] [] [] [] [] []]; try reflexivity; by destruct Ha.
Qed.

(** Parsing a printed number gives the number back. *)
Lemma Atoi_Itoa n : int64_min <= n <= int64_max -> Atoi (Itoa n) = Some n.
Proof.
  unfold int64_min, int64_max. intros Hn. unfold Itoa. destruct (Z.ltb_spec n 0).
  - unfold Atoi. rewrite udigits_itoa_loop by lia. cbn [fmap option_fmap option_map mbind option_bind].
    rewrite Z.opp_involutive. unfold int64_min, int64_max.
    by rewrite (proj2 (Z.leb_le _ _)), (proj2 (Z.leb_le _ _)) by lia.
  - destruct (itoa_loop_head 20 n EmptyString) as (a & t & E & Ha); [right; lia|lia|].
    rewrite E, Atoi_unsigned by done. rewrite <- E, digits_itoa_loop by lia. cbn [digits mbind option_bind].
    unfold int64_min, int64_max.
    by rewrite (proj2 (Z.leb_le _ _)), (proj2 (Z.leb_le _ _)) by lia.
Qed.

Lemma Itoa_inj m n :
  int64_min <= m <= int64_max -> int64_min <= n <= int64_max -> Itoa m = Itoa n -> m = n.
Proof.
  intros Hm Hn E. apply (f_equal Atoi) in E. rewrite !Atoi_Itoa in E by done. by simplify_eq.
Qed.

End strconv.

(** ** Strings without a given byte *)

(** [c] does not occur in [s]. *)
Fixpoint free_of (c : ascii) (s : string) : Prop :=
  match s with
  | EmptyString => True
  | String a s' => a <> c /\ free_of c s'
  end.

Lemma Split_app_free c s t :
  free_of c s -> strings.Split (s +:+ String c t) c = s :: strings.Split t c.
Proof.
  induction s as [|a s IH]; intros Hf.
  - change (EmptyString +:+ String c t) with (String c t). simpl. by rewrite Ascii.eqb_refl.
  - destruct Hf as [Ha Hf]. change (String a s +:+ String c t) with (String a (s +:+ String c t)).
    simpl. apply Ascii.eqb_neq in Ha. by rewrite Ha, IH.
Qed.

Lemma Split_free c s : free_of c s -> strings.Split s c = [s].
Proof.
  induction s as [|a s IH]; simpl; [done|]. intros [Ha Hf]. apply Ascii.eqb_neq in Ha. by rewrite Ha, IH.
Qed.

Lemma Cut_app_free c s t : free_of c s -> strings.Cut (s +:+ String c t) c = Some (s, t).
Proof.
  induction s as [|a s IH]; intros Hf.
  - change (EmptyString +:+ String c t) with (String c t). simpl. by rewrite Ascii.eqb_refl.
  - destruct Hf as [Ha Hf]. change (String a s +:+ String c t) with (String a (s +:+ String c t)).
    simpl. apply Ascii.eqb_neq in Ha. by rewrite Ha, IH.
Qed.

Lemma Cut_Some c s x y : strings.Cut s c = Some (x, y) -> s = x +:+ String c y /\ free_of c x.
Proof.
  revert x. induction s as [|a s IH]; intros x; simpl; [done|].
  destruct (Ascii.eqb_spec a c) as [->|Ha]; [by intros [= <- <-]|].
  destruct (strings.Cut s c) as [[x' y']|]; [|done]. intros [= <- <-].
  destruct (IH _ eq_refl) as [-> ?]. done.
Qed.

Lemma free_of_string c l : Forall (fun a => a <> c) l -> free_of c (String.string_of_list_ascii l).
Proof. induction 1; simpl; auto. Qed.

Lemma free_of_app c s t : free_of c (s +:+ t) <-> free_of c s /\ free_of c t.
Proof. induction s as [|a s IH]; [by split; [|intros [_ ?]]|]. change (String a s +:+ t) with (String a (s +:+ t)). simpl. rewrite IH. naive_solver. Qed.

Lemma free_of_digit c d : (strconv.digit_val c = None) -> 0 <= d <= 9 -> strconv.digit_ascii d <> c.
Proof. intros Hc Hd <-. by rewrite strconv.digit_val_ascii in Hc. Qed.

Lemma free_of_Itoa c n : strconv.digit_val c = None -> c <> "-"%char -> free_of c (strconv.Itoa n).
Proof.
  intros Hc Hm. assert (forall fuel n s, free_of c s -> free_of c (strconv.itoa_loop fuel n s)) as H.
  { induction fuel as [|fuel IH]; intros m s Hs; [done|]. cbn [strconv.itoa_loop].
    pose proof (Z.mod_pos_bound m 10 ltac:(lia)). assert (free_of c (String (strconv.digit_ascii (m mod 10)) s)) as Hs'
      by (split; [apply free_of_digit; [done|lia]|done]).
    case_match; [done|by apply IH]. }
  unfold strconv.Itoa. case_match; [split; [congruence|]|]; by apply H.
Qed.

Lemma Split_not_nil s c : strings.Split s c <> [].
Proof.
  induction s as [|a s IH]; simpl; [done|]. destruct (Ascii.eqb a c); [done|]. by destruct (strings.Split s c).
Qed.

Lemma Split_app s c t : strings.Split (s +:+ String c t) c = (strings.Split s c ++ strings.Split t c)%list.
Proof.
  induction s as [|a s IH]; simpl; [by rewrite Ascii.eqb_refl|].
  destruct (Ascii.eqb a c); [by rewrite IH|]. rewrite IH.
  pose proof (Split_not_nil s c). by destruct (strings.Split s c).
Qed.

Lemma free_of_HasByte c s : strings.HasByte s c = false -> free_of c s.
Proof.
  unfold strings.HasByte. induction s as [|a s IH]; cbn [strings.IndexByte free_of]; [done|]. destruct (Ascii.eqb_spec a c) as [->|Hne]; [done|].
  intros H. split; [done|]. apply IH. by destruct (strings.IndexByte s c).
Qed.

(** A property of every byte, by evaluation. *)
Lemma ascii_forall (P : ascii -> bool) : forallb P (map ascii_of_nat (seq 0 256)) = true -> forall a, P a = true.
Proof.
  intros H a. rewrite forallb_forall in H. apply H. rewrite <- (ascii_nat_embedding a). apply List.in_map, List.in_seq.
  pose proof (nat_ascii_bounded a). lia.
Qed.

(** ** Raw literals

    Go's raw strings hold no backquote; here a backquote in one stands for a double
    quote. *)
Fixpoint quoted (s : string) : string :=
  match s with
  | EmptyString => EmptyString
  | String a s' => String (if Ascii.eqb a "`" then "034" else a)%char (quoted s')
  end.
