(* ===== verification/GoNet.v ===== *)
(** * Go's [net]: host:port text and IP addresses

    [SplitHostPort], [JoinHostPort], [ParseIP], [IP.String] and the membership
    test of [IPNet].  An address is the list of its 16 (or 4) bytes. *)

From S2P Require Import Prelude GoStrings.

Module net.

(** ** host:port *)

(** [None] is a non-nil error; the program never looks at which one. *)
Definition SplitHostPort (hostport : string) : option (string * string) :=
  match strings.LastIndexByte hostport ":" with
  | None => None
  | Some i =>
      let port := strings.drop (S i) hostport in
      let checked (host : string) (j k : nat) :=
        if strings.HasByte (strings.drop j hostport) "[" then None
        else if strings.HasByte (strings.drop k hostport) "]" then None
        else Some (host, port) in
      match hostport with
      | String "[" rest =>
          match strings.IndexByte hostport "]" with
          | None => None
          | Some e =>
              if (S e =? String.length hostport)%nat then None
              else if (S e =? i)%nat then checked (strings.take (e - 1) rest) 1%nat (S e)
              else None
          end
      | _ =>
          let host := strings.take i hostport in
          if strings.HasByte host ":" then None else checked host 0%nat 0%nat
      end
  end.

Definition JoinHostPort (host port : string) : string :=
  if strings.HasByte host ":" then "[" +:+ host +:+ "]:" +:+ port else host +:+ ":" +:+ port.

(** ** Addresses *)

Definition IP : Type := list Z.

Definition v4_prefix : list Z := [0; 0; 0; 0; 0; 0; 0; 0; 0; 0; 255; 255].

Definition To4 (ip : IP) : option IP :=
  if (length ip =? 4)%nat then Some ip
  else if (length ip =? 16)%nat && bool_decide (firstn 12 ip = v4_prefix) then Some (skipn 12 ip)
  else None.

Definition octet (s : string) : option Z :=
  match s with
  | String "0" (String _ _) => None
  | _ => n ← strconv.udigits s; if n <=? 255 then Some n else None
  end.

Definition parseIPv4Fields (s : string) : option (list Z) :=
  match strings.Split s "." with
  | [a; b; c; d] => a ← octet a; b ← octet b; c ← octet c; d ← octet d; Some [a; b; c; d]
  | _ => None
  end.

Definition hex_val (a : ascii) : option Z :=
  let n := Z.of_N (N_of_ascii a) in
  if (48 <=? n) && (n <=? 57) then Some (n - 48)
  else if (97 <=? n) && (n <=? 102) then Some (n - 87)
  else if (65 <=? n) && (n <=? 70) then Some (n - 55)
  else None.

(** The hex digits at the front: how many, their value, and what follows. *)
Fixpoint hex_run (off : nat) (acc : Z) (s : string) : nat * Z * string :=
  match s with
  | String a s' => match hex_val a with Some d => hex_run (S off) (acc * 16 + d) s' | None => (off, acc, s) end
  | EmptyString => (off, acc, s)
  end.

(** One group per round, at most eight: the bytes so far, where the double colon
    stood, and the text left over. *)
Fixpoint ipv6_groups (fuel : nat) (ip : list Z) (ellipsis : option nat) (s : string)
    : option (list Z * option nat * string) :=
  match fuel with
  | O => Some (ip, ellipsis, s)
  | S fuel' =>
      let '(off, acc, rest) := hex_run 0 0 s in
      if (off =? 0)%nat || (4 <? off)%nat then None else
      match rest with
      | String "." _ =>
          if (match ellipsis with None => negb (length ip =? 12)%nat | Some _ => false end) ||
             (12 <? length ip)%nat then None
          else v4 ← parseIPv4Fields s; Some ((ip ++ v4)%list, ellipsis, EmptyString)
      | EmptyString => Some ((ip ++ [acc / 256; acc mod 256])%list, ellipsis, EmptyString)
      | String ":" EmptyString => None
      | String ":" (String ":" s2) =>
          let ip' := (ip ++ [acc / 256; acc mod 256])%list in
          match ellipsis with
          | Some _ => None
          | None => if (s2 =? EmptyString)%string then Some (ip', Some (length ip'), EmptyString)
                    else ipv6_groups fuel' ip' (Some (length ip')) s2
          end
      | String ":" s1 => ipv6_groups fuel' (ip ++ [acc / 256; acc mod 256])%list ellipsis s1
      | _ => None
      end
  end.

Definition expand_ellipsis (r : list Z * option nat * string) : option (list Z) :=
  let '(ip, ellipsis, s) := r in
  if negb (s =? EmptyString)%string then None else
  let n := (16 - length ip)%nat in
  match ellipsis with
  | None => if (length ip =? 16)%nat then Some ip else None
  | Some e => if (n =? 0)%nat then None else Some (firstn e ip ++ repeat 0%Z n ++ skipn e ip)%list
  end.

Definition parseIPv6 (s : string) : option (list Z) :=
  match s with
  | String ":" (String ":" EmptyString) => Some (repeat 0 16)
  | String ":" (String ":" s') => r ← ipv6_groups 8 [] (Some O) s'; expand_ellipsis r
  | _ => r ← ipv6_groups 8 [] None s; expand_ellipsis r
  end.

(** The first of dot, colon and percent decides the family; a zone is refused. *)
Fixpoint addr_kind (s : string) : option ascii :=
  match s with
  | EmptyString => None
  | String a s' => if Ascii.eqb a "." || Ascii.eqb a ":" || Ascii.eqb a "%" then Some a else addr_kind s'
  end.

Definition ParseIP (s : string) : option IP :=
  match addr_kind s with
  | Some "."%char => ip ← parseIPv4Fields s; Some (v4_prefix ++ ip)%list
  | Some ":"%char => if strings.HasByte s "%" then None else parseIPv6 s
  | _ => None
  end.

(** ** Text of an address *)

Definition hex_digit (d : Z) : ascii := ascii_of_N (Z.to_N (if d <? 10 then d + 48 else d + 87)).

Definition hex16 (g : Z) : string :=
  let d3 := g / 4096 in let d2 := g / 256 mod 16 in let d1 := g / 16 mod 16 in let d0 := g mod 16 in
  let s0 := String (hex_digit d0) EmptyString in
  let s1 := if (d3 =? 0) && (d2 =? 0) && (d1 =? 0) then s0 else String (hex_digit d1) s0 in
  let s2 := if (d3 =? 0) && (d2 =? 0) then s1 else String (hex_digit d2) s1 in
  if d3 =? 0 then s2 else String (hex_digit d3) s2.

Fixpoint groups (ip : list Z) : list Z :=
  match ip with a :: b :: rest => (a * 256 + b) :: groups rest | _ => [] end.

(** Length of the run of zero groups at the front. *)
Fixpoint zero_run (gs : list Z) : nat :=
  match gs with g :: gs' => if g =? 0 then S (zero_run gs') else O | [] => O end.

(** The first longest run: where it starts and how long it is. *)
Fixpoint longest_zero_run (i : nat) (gs : list Z) : nat * nat :=
  match gs with
  | [] => (O, O)
  | _ :: gs' =>
      let here := zero_run gs in
      let '(j, n) := longest_zero_run (S i) gs' in
      if (n <=? here)%nat then (i, here) else (j, n)
  end.

Definition String_ (ip : IP) : string :=
  match To4 ip with
  | Some v4 => strings.Join (map strconv.Itoa v4) "."
  | None =>
      let gs := groups ip in
      let '(i, n) := longest_zero_run 0 gs in
      if (2 <=? n)%nat
      then strings.Join (map hex16 (firstn i gs)) ":" +:+ "::" +:+ strings.Join (map hex16 (skipn (i + n) gs)) ":"
      else strings.Join (map hex16 gs) ":"
  end.

(** ** Classes of addresses *)

Definition Equal (a b : IP) : bool :=
  match To4 a, To4 b with
  | Some x, Some y => bool_decide (x = y)
  | None, None => bool_decide (a = b)
  | _, _ => false
  end.

Definition IPv4 (a b c d : Z) : IP := (v4_prefix ++ [a; b; c; d])%list.
Definition IPv4zero : IP := IPv4 0 0 0 0.
Definition IPv6loopback : IP := (repeat 0 15 ++ [1])%list.

Definition IsLoopback (ip : IP) : bool :=
  match To4 ip with
  | Some (a :: _) => a =? 127
  | _ => Equal ip IPv6loopback
  end.

Record IPNet := mkIPNet { NetIP : IP; Mask : list Z }.

(** [networkNumberAndMask]; two empty lists stand for the nil results. *)
Definition networkNumberAndMask (n : IPNet) : IP * list Z :=
  let ip := default (NetIP n) (To4 (NetIP n)) in
  if negb (length ip =? 4)%nat && negb (length ip =? 16)%nat then ([], []) else
  match length (Mask n) with
  | 4%nat => if (length ip =? 4)%nat then (ip, Mask n) else ([], [])
  | 16%nat => if (length ip =? 4)%nat then (ip, skipn 12 (Mask n)) else (ip, Mask n)
  | _ => ([], [])
  end.

Fixpoint masked_equal (a b m : list Z) : bool :=
  match a, b, m with
  | x :: a', y :: b', k :: m' => (Z.land x k =? Z.land y k) && masked_equal a' b' m'
  | _, _, _ => true
  end.

Definition Contains (n : IPNet) (ip : IP) : bool :=
  let '(nn, m) := networkNumberAndMask n in
  let ip := default ip (To4 ip) in
  (length ip =? length nn)%nat && masked_equal nn ip m.

(** ** Lemmas *)

#[local] Arguments String.append !_ _ /.

Lemma LastIndexByte_app s c t :
  strings.HasByte t c = false -> strings.LastIndexByte (s +:+ String c t) c = Some (String.length s).
Proof.
  intros Ht. assert (forall t', strings.HasByte t' c = false -> strings.LastIndexByte t' c = None) as Hn.
  { unfold strings.HasByte. induction t' as [|a t' IH]; simpl; [done|]. destruct (Ascii.eqb_spec a c); [done|].
    destruct (strings.IndexByte t' c); [done|]. intros _. by rewrite IH. }
  induction s as [|a s IH]; simpl; [by rewrite Hn, Ascii.eqb_refl by done|by rewrite IH].
Qed.

Lemma HasByte_app s t c : strings.HasByte (s +:+ t) c = strings.HasByte s c || strings.HasByte t c.
Proof.
  unfold strings.HasByte. induction s as [|a s IH]; simpl; [done|].
  destruct (Ascii.eqb a c); [done|]. by destruct (strings.IndexByte (s +:+ t) c), (strings.IndexByte s c).
Qed.

Lemma take_app s t : strings.take (String.length s) (s +:+ t) = s.
Proof. induction s as [|a s IH]; simpl; [by destruct t|by rewrite IH]. Qed.

Lemma drop_app s t : strings.drop (String.length s) (s +:+ t) = t.
Proof. induction s as [|a s IH]; simpl; [done|done]. Qed.

Lemma drop_S_app s c t : strings.drop (S (String.length s)) (s +:+ String c t) = t.
Proof. induction s as [|a s IH]; [by destruct t|exact IH]. Qed.

Lemma IndexByte_app s c t :
  strings.HasByte s c = false -> strings.IndexByte (s +:+ String c t) c = Some (String.length s).
Proof.
  unfold strings.HasByte. induction s as [|a s IH]; simpl; [by rewrite Ascii.eqb_refl|].
  destruct (Ascii.eqb_spec a c); [done|]. destruct (strings.IndexByte s c); [done|]. intros _. by rewrite IH.
Qed.

Lemma HasByte_cons a s c : strings.HasByte (String a s) c = Ascii.eqb a c || strings.HasByte s c.
Proof. unfold strings.HasByte. simpl. destruct (Ascii.eqb a c); [done|]. by destruct (strings.IndexByte s c). Qed.

Lemma length_app s t : String.length (s +:+ t) = (String.length s + String.length t)%nat.
Proof. induction s as [|a s IH]; simpl; [done|]. by rewrite IH. Qed.

(** No bracket in [s]. *)
Definition unbracketed (s : string) : Prop := strings.HasByte s "[" = false /\ strings.HasByte s "]" = false.

Lemma SplitHostPort_plain host port :
  unbracketed host -> unbracketed port ->
  strings.HasByte host ":" = false -> strings.HasByte port ":" = false ->
  SplitHostPort (host +:+ String ":" port) = Some (host, port).
Proof.
  intros [Hh1 Hh2] [Hp1 Hp2] Hc Hpc. unfold SplitHostPort. rewrite LastIndexByte_app by done.
  rewrite drop_S_app, take_app, Hc. cbn [strings.drop].
  rewrite !HasByte_app, !HasByte_cons, Hh1, Hh2, Hp1, Hp2. cbn [orb].
  destruct host as [|a host]; [done|]. rewrite HasByte_cons in Hh1.
  apply orb_false_iff in Hh1 as [Ha _]. destruct a as [[] [] [] [] [] [] [] []]; try reflexivity. discriminate Ha.
Qed.

Lemma SplitHostPort_bracketed host port :
  unbracketed host -> unbracketed port -> strings.HasByte port ":" = false ->
  SplitHostPort ("[" +:+ host +:+ "]:" +:+ port) = Some (host, port).
Proof.
  intros [Hh1 Hh2] [Hp1 Hp2] Hpc.
  set (pre := "[" +:+ host +:+ "]").
  assert ("[" +:+ host +:+ "]:" +:+ port = pre +:+ String ":" port) as E
    by (unfold pre; simpl; f_equal; clear; induction host; simpl; congruence).
  rewrite E. unfold SplitHostPort. rewrite LastIndexByte_app by done.
  assert (String.length pre = (String.length host + 2)%nat) as Hl by (unfold pre; simpl; rewrite length_app; simpl; lia).
  rewrite drop_S_app.
  rewrite <- E. cbn [String.append]. 
  assert (strings.IndexByte (String "[" (host +:+ String "]" (String ":" port))) "]" = Some (S (String.length host))) as Ei
    by (simpl; by rewrite IndexByte_app).
  rewrite Ei. cbn [String.length]. rewrite length_app. cbn [String.length].
  rewrite (proj2 (Nat.eqb_neq _ _)) by lia. rewrite Hl, (proj2 (Nat.eqb_eq _ _)) by lia.
  replace (S (String.length host) - 1)%nat with (String.length host) by lia. rewrite take_app.
  change (strings.drop (S (S (String.length host))) (String "[" (host +:+ String "]" (String ":" port))))
    with (strings.drop (S (String.length host)) (host +:+ String "]" (String ":" port))).
  rewrite drop_S_app. cbn [strings.drop].
  by rewrite HasByte_app, !HasByte_cons, Hh1, Hp1, Hp2.
Qed.

(** Joining and splitting are inverse on text without brackets. *)
Lemma SplitHostPort_JoinHostPort host port :
  unbracketed host -> unbracketed port -> strings.HasByte port ":" = false ->
  SplitHostPort (JoinHostPort host port) = Some (host, port).
Proof.
  intros. unfold JoinHostPort. destruct (strings.HasByte host ":") eqn:E.
  - by apply SplitHostPort_bracketed.
  - by apply SplitHostPort_plain.
Qed.

Example parse_v4 : ParseIP "10.0.200.7" = Some (IPv4 10 0 200 7).
Proof. reflexivity. Qed.
Example parse_v4_bad : map ParseIP ["10.0.0"; "1.2.3.04"; "1.2.3.256"; "host"; "1.2.3.4.5"; ""] = repeat None 6.
Proof. reflexivity. Qed.
Example parse_v6 : map ParseIP ["2001:db8::1:ada"; "::"; "::ffff:1.2.3.4"; "fe80::1%eth0"; "1::2::3"; ":1"; "12345::"] =
  [Some [32; 1; 13; 184; 0; 0; 0; 0; 0; 0; 0; 0; 0; 1; 10; 218]; Some (repeat 0 16); Some (IPv4 1 2 3 4);
   None; None; None; None].
Proof. reflexivity. Qed.
Example text_v6 : String_ <$> ParseIP "2001:0DB8:0:0:0:0:1:ADA" = Some "2001:db8::1:ada".
Proof. reflexivity. Qed.
Example contains_v4 : Contains (mkIPNet (IPv4 10 0 0 0) [255; 0; 0; 0]) (IPv4 10 9 8 7) = true.
Proof. reflexivity. Qed.

End net.
