(* ===== verification/GoHTTP.v ===== *)
(** * Go's [net/http]: headers, requests and the values the handlers look at *)

From S2P Require Import Prelude GoStrings GoNet.

Module http.

(** ** Header *)

Definition upper_ascii (a : ascii) : ascii :=
  let n := N_of_ascii a in if (97 <=? n)%N && (n <=? 122)%N then ascii_of_N (n - 32) else a.

Definition is_token_byte (a : ascii) : bool :=
  let n := N_of_ascii a in
  ((97 <=? n)%N && (n <=? 122)%N) || ((65 <=? n)%N && (n <=? 90)%N) || ((48 <=? n)%N && (n <=? 57)%N) ||
  existsb (fun c => Ascii.eqb a c)
    ["!"; "#"; "$"; "%"; "&"; "'"; "*"; "+"; "-"; "."; "^"; "_"; "`"; "|"; "~"]%char.

Fixpoint all_token (s : string) : bool :=
  match s with String a s' => is_token_byte a && all_token s' | EmptyString => true end.

Fixpoint canonical_from (up : bool) (s : string) : string :=
  match s with
  | String a s' =>
      String (if up then upper_ascii a else strings.lower_ascii a) (canonical_from (Ascii.eqb a "-") s')
  | EmptyString => EmptyString
  end.

(** Names with a byte that is not a token byte are left as they are. *)
Definition CanonicalHeaderKey (s : string) : string := if all_token s then canonical_from true s else s.

Abbreviation Header := (gmap string (list string)).

Definition Values (h : Header) (key : string) : list string := default [] (h !! CanonicalHeaderKey key).

Definition Get (h : Header) (key : string) : string := match Values h key with v :: _ => v | [] => EmptyString end.

Definition Set_ (h : Header) (key value : string) : Header := <[CanonicalHeaderKey key := [value]]> h.

Definition Add (h : Header) (key value : string) : Header :=
  <[CanonicalHeaderKey key := (Values h key ++ [value])%list]> h.

Definition Del (h : Header) (key : string) : Header := delete (CanonicalHeaderKey key) h.

(** ** Request

    The parts of a request that the handlers look at.  [Cookies] and [Query] are
    the parsed Cookie header and query string; [TLS] says whether it arrived
    over TLS. *)

Record Request := mkRequest {
  Method : string;
  Host : string;
  URL_Host : string;
  URL_Path : string;
  RequestURI : string;
  RemoteAddr : string;
  HeaderOf : Header;
  Cookies : list (string * string);
  Query : list (string * string);
  TLS : bool;
}.

Definition MethodConnect : string := "CONNECT".
Definition MethodGet : string := "GET".
Definition MethodPost : string := "POST".
Definition MethodPut : string := "PUT".
Definition MethodDelete : string := "DELETE".

Definition find_pair (name : string) (l : list (string * string)) : option string :=
  snd <$> List.find (fun p => (p.1 =? name)%string) l.

(** [r.Cookie(name)]; [None] is ErrNoCookie. *)
Definition Cookie (r : Request) (name : string) : option string := find_pair name (Cookies r).

(** [r.URL.Query().Get(name)]. *)
Definition QueryGet (r : Request) (name : string) : string := default EmptyString (find_pair name (Query r)).

(** ** Lemmas *)

Lemma Get_Del_same h k : Get (Del h k) k = EmptyString.
Proof. unfold Get, Values, Del. by rewrite lookup_delete_eq. Qed.

Lemma lookup_Del h k k' :
  Del h k !! k' = if decide (CanonicalHeaderKey k = k') then None else h !! k'.
Proof. unfold Del. case_decide as E; [by subst; rewrite lookup_delete_eq|by rewrite lookup_delete_ne]. Qed.

Example canonical_example :
  map CanonicalHeaderKey ["proxy-authorization"; "TE"; "x-forwarded-for"; "a b"] =
  ["Proxy-Authorization"; "Te"; "X-Forwarded-For"; "a b"].
Proof. reflexivity. Qed.

End http.
