(* ===== verification/GoBase64.v ===== *)
(** * Go's [encoding/base64]: the standard and URL alphabets, with and without padding

    Bytes are integers below 256; a Go string is turned into its bytes and back
    by [bytes_of] and [of_bytes].  Decoding is Go's non-strict decoding: line
    breaks are skipped and the unused low bits of the last digit are ignored. *)

From S2P Require Import Prelude GoStrings.

Definition bytes_of (s : string) : list Z :=
  map (fun a => Z.of_N (N_of_ascii a)) (String.list_ascii_of_string s).

Definition of_bytes (l : list Z) : string :=
  String.string_of_list_ascii (map (fun z => ascii_of_N (Z.to_N z)) l).

Definition is_byte (z : Z) : Prop := 0 <= z < 256.

Lemma of_bytes_of s : of_bytes (bytes_of s) = s.
Proof.
  unfold of_bytes, bytes_of. rewrite map_map.
  rewrite (map_ext _ id), map_id, String.string_of_list_ascii_of_string; [done|].
  intros a. by rewrite N2Z.id, ascii_N_embedding.
Qed.

Lemma bytes_of_is_byte s : Forall is_byte (bytes_of s).
Proof.
  unfold bytes_of. apply Forall_map, Forall_true. intros a. unfold is_byte.
  pose proof (N_ascii_bounded a). simpl. lia.
Qed.

Module base64.

Record Encoding := { url : bool; padded : bool }.

Definition StdEncoding := {| url := false; padded := true |}.
Definition RawStdEncoding := {| url := false; padded := false |}.
Definition RawURLEncoding := {| url := true; padded := false |}.

Definition digit (u : bool) (n : Z) : ascii :=
  if n <? 26 then ascii_of_N (Z.to_N (n + 65))
  else if n <? 52 then ascii_of_N (Z.to_N (n + 71))
  else if n <? 62 then ascii_of_N (Z.to_N (n - 4))
  else if n =? 62 then (if u then "-" else "+")%char
  else (if u then "_" else "/")%char.

Definition value (u : bool) (a : ascii) : option Z :=
  let n := Z.of_N (N_of_ascii a) in
  if (65 <=? n) && (n <=? 90) then Some (n - 65)
  else if (97 <=? n) && (n <=? 122) then Some (n - 71)
  else if (48 <=? n) && (n <=? 57) then Some (n + 4)
  else if Ascii.eqb a (if u then "-" else "+")%char then Some 62
  else if Ascii.eqb a (if u then "_" else "/")%char then Some 63
  else None.

Fixpoint encode (enc : Encoding) (l : list Z) : list ascii :=
  let c := digit (url enc) in
  let pad := if padded enc then ["="%char] else [] in
  match l with
  | [] => []
  | [x] => [c (x / 4); c (x mod 4 * 16)] ++ pad ++ pad
  | [x; y] => [c (x / 4); c (x mod 4 * 16 + y / 16); c (y mod 16 * 4)] ++ pad
  | x :: y :: z :: l' =>
      [c (x / 4); c (x mod 4 * 16 + y / 16); c (y mod 16 * 4 + z / 64); c (z mod 64)] ++ encode enc l'
  end.

Fixpoint decode_quads (enc : Encoding) (l : list ascii) : option (list Z) :=
  let v := value (url enc) in
  match l with
  | [] => Some []
  | [a; b] =>
      if padded enc then None
      else x ← v a; y ← v b; Some [x * 4 + y / 16]
  | [a; b; c] =>
      if padded enc then None
      else x ← v a; y ← v b; z ← v c; Some [x * 4 + y / 16; y mod 16 * 16 + z / 4]
  | a :: b :: c :: d :: l' =>
      x ← v a; y ← v b;
      if padded enc && Ascii.eqb c "=" then
        if Ascii.eqb d "=" && match l' with [] => true | _ => false end
        then Some [x * 4 + y / 16] else None
      else
        z ← v c;
        if padded enc && Ascii.eqb d "=" then
          match l' with [] => Some [x * 4 + y / 16; y mod 16 * 16 + z / 4] | _ => None end
        else
          w ← v d; r ← decode_quads enc l';
          Some (x * 4 + y / 16 :: y mod 16 * 16 + z / 4 :: z mod 4 * 64 + w :: r)
  | _ => None
  end.

Definition is_newline (a : ascii) : bool := Ascii.eqb a "010" || Ascii.eqb a "013".

Definition EncodeToString (enc : Encoding) (s : string) : string :=
  String.string_of_list_ascii (encode enc (bytes_of s)).

Definition DecodeString (enc : Encoding) (s : string) : option string :=
  of_bytes <$> decode_quads enc (List.filter (fun a => negb (is_newline a)) (String.list_ascii_of_string s)).

(** ** Round trip *)

(** A property of every six-bit value, by evaluation. *)
Lemma sextet_ind (P : Z -> bool) :
  forallb P (seqZ 0 64) = true -> forall n, 0 <= n < 64 -> P n = true.
Proof.
  intros H n Hn. rewrite forallb_forall in H. apply H, list_elem_of_In, elem_of_seqZ. lia.
Qed.

Lemma value_digit u n : 0 <= n < 64 -> value u (digit u n) = Some n.
Proof.
  intros Hn. apply (bool_decide_eq_true_1 (value u (digit u n) = Some n)). revert n Hn.
  apply (sextet_ind (fun n => bool_decide (value u (digit u n) = Some n))). by destruct u.
Qed.

(** The characters that have a meaning of their own to the program's parsers. *)
Definition plain (a : ascii) : bool :=
  negb (Ascii.eqb a "=" || is_newline a || Ascii.eqb a "$" || Ascii.eqb a ":" || Ascii.eqb a "<" || Ascii.eqb a ">" || Ascii.eqb a "{").

Lemma digit_plain u n : 0 <= n < 64 -> plain (digit u n) = true.
Proof. revert n. apply (sextet_ind (fun n => plain (digit u n))). by destruct u. Qed.

Lemma digit_not_pad u n : 0 <= n < 64 -> Ascii.eqb (digit u n) "=" = false.
Proof.
  intros H. pose proof (digit_plain u n H) as Hp. unfold plain in Hp. by destruct (Ascii.eqb _ "=").
Qed.

(** Induction three bytes at a time. *)
Lemma triple_ind (P : list Z -> Prop) :
  P [] -> (forall x, P [x]) -> (forall x y, P [x; y]) ->
  (forall x y z l, P l -> P (x :: y :: z :: l)) -> forall l, P l.
Proof.
  intros H0 H1 H2 H3. fix IH 1. intros [|x [|y [|z l]]]; [exact H0|apply H1|apply H2|apply H3, IH].
Qed.

Lemma decode_encode enc l : Forall is_byte l -> decode_quads enc (encode enc l) = Some l.
Proof.
  induction l as [|x|x y|x y z l IH] using triple_ind; intros Hl; [done|..];
    decompose_Forall_hyps; unfold is_byte in *; cbn [encode].
  - destruct (padded enc) eqn:E; cbn [app decode_quads]; rewrite ?E;
      rewrite !value_digit by (Z.to_euclidean_division_equations; lia); simpl;
      do 2 f_equal; Z.to_euclidean_division_equations; lia.
  - destruct (padded enc) eqn:E; cbn [app decode_quads]; rewrite ?E;
      rewrite !value_digit by (Z.to_euclidean_division_equations; lia); cbn [mbind option_bind andb];
      rewrite ?digit_not_pad by (Z.to_euclidean_division_equations; lia); simpl;
      repeat f_equal; Z.to_euclidean_division_equations; lia.
  - cbn [app decode_quads].
    rewrite !value_digit by (Z.to_euclidean_division_equations; lia). cbn [mbind option_bind].
    rewrite !digit_not_pad, !andb_false_r by (Z.to_euclidean_division_equations; lia).
    rewrite IH by done. cbn [mbind option_bind].
    repeat f_equal; Z.to_euclidean_division_equations; lia.
Qed.

Definition pad_or_plain (a : ascii) : bool := plain a || Ascii.eqb a "=".

(** The six-bit groups of three bytes. *)
Lemma sextet_bounds x y z :
  is_byte x -> is_byte y -> is_byte z ->
  (0 <= x / 4 < 64 /\ 0 <= x mod 4 * 16 < 64 /\ 0 <= x mod 4 * 16 + y / 16 < 64) /\
  (0 <= y mod 16 * 4 < 64 /\ 0 <= y mod 16 * 4 + z / 64 < 64 /\ 0 <= z mod 64 < 64).
Proof.
  unfold is_byte. intros Hx Hy Hz.
  split; (split; [|split]); Z.to_euclidean_division_equations; lia.
Qed.

Lemma encode_chars enc l :
  Forall is_byte l -> Forall (fun a => pad_or_plain a = true) (encode enc l).
Proof.
  assert (forall u n, 0 <= n < 64 -> pad_or_plain (digit u n) = true) as Hd.
  { intros u n Hn. unfold pad_or_plain. by rewrite digit_plain. }
  assert (is_byte 0) as H0 by (unfold is_byte; lia).
  induction l as [|x|x y|x y z l IH] using triple_ind; intros Hl; [constructor|..];
    decompose_Forall_hyps; cbn [encode].
  - destruct (sextet_bounds x 0 0) as ((? & ? & ?) & _); [done..|].
    destruct (padded enc); cbn [app]; repeat apply Forall_cons_2; auto using Forall_nil_2.
  - destruct (sextet_bounds x y 0) as ((? & ? & ?) & ? & _); [done..|].
    destruct (padded enc); cbn [app]; repeat apply Forall_cons_2; auto using Forall_nil_2.
  - destruct (sextet_bounds x y z) as ((? & ? & ?) & ? & ? & ?); [done..|].
    cbn [app]; repeat apply Forall_cons_2; auto.
Qed.

Lemma filter_newlines enc l :
  Forall is_byte l ->
  List.filter (fun a => negb (is_newline a)) (encode enc l) = encode enc l.
Proof.
  intros Hl. apply encode_chars with (enc := enc) in Hl.
  induction Hl as [|a k Ha Hk IH]; simpl; [done|]. rewrite IH.
  unfold pad_or_plain, plain in Ha. destruct (is_newline a) eqn:E; [|done].
  exfalso. revert Ha E. unfold is_newline. destruct a as [[] [] [] [] [] [] [] []]; discriminate.
Qed.

Theorem DecodeString_EncodeToString enc s :
  DecodeString enc (EncodeToString enc s) = Some s.
Proof.
  unfold DecodeString, EncodeToString. rewrite String.list_ascii_of_string_of_list_ascii.
  pose proof (bytes_of_is_byte s) as H. rewrite filter_newlines, decode_encode by done.
  simpl. by rewrite of_bytes_of.
Qed.

End base64.
