(* ===== verification/GoTime.v ===== *)
(** * Go's [time]: instants, local clock fields and RFC 3339 text

    An instant is a number of nanoseconds since the Unix epoch.  [time.Time]'s
    zero value is the instant of January 1 of year 1.  A location is its offset
    east of UTC, in seconds, at each Unix second. *)

From S2P Require Import Prelude GoStrings.

Module time.

Definition Time : Type := Z.

Definition Nanosecond : Z := 1.
Definition Second : Z := 1000000000.
Definition Minute : Z := 60 * Second.
Definition Hour : Z := 60 * Minute.

Definition zero : Z := - 62135596800 * Second.

Definition IsZero (t : Z) : bool := t =? zero.
Definition Before (t u : Z) : bool := t <? u.
Definition After (t u : Z) : bool := u <? t.
Definition Add (t d : Z) : Z := t + d.
Definition Unix (t : Z) : Z := t / Second.

(** [Time.Truncate] on instants: multiples of [d] since the zero time. *)
Definition Truncate (t d : Z) : Z := t - (t - zero) mod d.

(** ** Clock fields in a location *)

Definition Location : Type := Z -> Z.
Definition UTC : Location := fun _ => 0.

Section fields.
Context (loc : Location).

Definition local_seconds (t : Z) : Z := let s := Unix t in s + loc s.

(** January 1, 1970 was a Thursday; Go counts Sunday as 0. *)
Definition Weekday (t : Z) : Z := (local_seconds t / 86400 + 4) mod 7.
Definition HourOf (t : Z) : Z := local_seconds t mod 86400 / 3600.
Definition MinuteOf (t : Z) : Z := local_seconds t mod 3600 / 60.

Lemma Weekday_range t : 0 <= Weekday t < 7.
Proof. apply Z.mod_pos_bound; lia. Qed.

Lemma HourOf_range t : 0 <= HourOf t < 24.
Proof.
  unfold HourOf. pose proof (Z.mod_pos_bound (local_seconds t) 86400).
  split; [apply Z.div_pos; lia | apply Z.div_lt_upper_bound; lia].
Qed.

Lemma MinuteOf_range t : 0 <= MinuteOf t < 60.
Proof.
  unfold MinuteOf. pose proof (Z.mod_pos_bound (local_seconds t) 3600).
  split; [apply Z.div_pos; lia | apply Z.div_lt_upper_bound; lia].
Qed.

(** The fields are the digits of the local clock. *)
Lemma fields_minute_of_week t :
  Weekday t * 1440 + HourOf t * 60 + MinuteOf t = (local_seconds t / 60 + 4 * 1440) mod 10080.
Proof.
  unfold Weekday, HourOf, MinuteOf. generalize (local_seconds t) as s. intros s.
  pose proof (Z.div_mod s 86400 ltac:(lia)). pose proof (Z.mod_pos_bound s 86400 ltac:(lia)).
  set (q := s / 86400) in *. set (r := s mod 86400) in *.
  replace (s / 60) with (q * 1440 + r / 60); cycle 1.
  { replace s with (r + (q * 1440) * 60) by lia. rewrite Z.div_add by lia. lia. }
  replace (s mod 3600 / 60) with (r / 60 - 60 * (r / 3600)); cycle 1.
  { replace s with (r + (q * 24) * 3600) by lia. rewrite Z.mod_add by lia.
    pose proof (Z.div_mod r 3600 ltac:(lia)). pose proof (Z.mod_pos_bound r 3600 ltac:(lia)).
    replace (r / 60) with (r / 3600 * 60 + r mod 3600 / 60); [lia|].
    replace (r / 60) with ((r mod 3600 + (r / 3600 * 60) * 60) / 60) by (f_equal; lia).
    rewrite Z.div_add by lia. lia. }
  assert (0 <= r / 60 < 1440) by (split; [apply Z.div_pos; lia | apply Z.div_lt_upper_bound; lia]).
  pose proof (Z.div_mod (q + 4) 7 ltac:(lia)). pose proof (Z.mod_pos_bound (q + 4) 7 ltac:(lia)).
  apply Z.mod_unique_pos with (q := (q + 4) / 7); lia.
Qed.
End fields.

End time.
