(* ===== verification/GoRFC3339.v ===== *)
(** * RFC 3339 text of UTC instants

    [time.Time.UTC().Format(time.RFC3339)] and [time.Parse] of the text it
    writes: four-digit years, whole seconds, suffix Z.  Fractions and numeric
    offsets, which the program never writes, do not parse here. *)

From S2P Require Import Prelude GoStrings GoTime.

Module rfc3339.

(** ** Civil dates *)

(** Day of the 400-year era that starts on March 1 -> (year of era, month, day). *)
Definition civil_of_doe (doe : Z) : Z * Z * Z :=
  let yoe := (doe - doe / 1460 + doe / 36524 - doe / 146096) / 365 in
  let doy := doe - (365 * yoe + yoe / 4 - yoe / 100) in
  let mp := (5 * doy + 2) / 153 in
  let d := doy - (153 * mp + 2) / 5 + 1 in
  let m := if mp <? 10 then mp + 3 else mp - 9 in
  (yoe + (if m <=? 2 then 1 else 0), m, d).

Definition civil_of_days (z : Z) : Z * Z * Z :=
  let z' := z + 719468 in
  let '(y, m, d) := civil_of_doe (z' mod 146097) in
  (y + z' / 146097 * 400, m, d).

Definition days_of_civil (y m d : Z) : Z :=
  let y' := if m <=? 2 then y - 1 else y in
  let yoe := y' mod 400 in
  let doy := (153 * (if 2 <? m then m - 3 else m + 9) + 2) / 5 + d - 1 in
  let doe := yoe * 365 + yoe / 4 - yoe / 100 + doy in
  y' / 400 * 146097 + doe - 719468.

Definition is_leap (y : Z) : bool :=
  (y mod 4 =? 0) && (negb (y mod 100 =? 0) || (y mod 400 =? 0)).

Definition days_in (m y : Z) : Z :=
  if m =? 2 then (if is_leap y then 29 else 28)
  else if (m =? 4) || (m =? 6) || (m =? 9) || (m =? 11) then 30 else 31.

(** First day of a year of the era. *)
Definition year_start (y : Z) : Z := 365 * y + y / 4 - y / 100 + y / 400.

Lemma year_of_era doe :
  0 <= doe < 146097 ->
  let yoe := (doe - doe / 1460 + doe / 36524 - doe / 146096) / 365 in
  0 <= yoe <= 399 /\ year_start yoe <= doe < year_start (yoe + 1).
Proof. unfold year_start. intros Hd. cbn zeta. Z.to_euclidean_division_equations. lia. Qed.

Lemma year_start_leap y :
  0 <= y -> year_start (y + 1) - year_start y = if is_leap (y + 1) then 366 else 365.
Proof.
  intros Hy. unfold year_start, is_leap.
  destruct (Z.eqb_spec ((y + 1) mod 4) 0), (Z.eqb_spec ((y + 1) mod 100) 0),
    (Z.eqb_spec ((y + 1) mod 400) 0); simpl; Z.to_euclidean_division_equations; lia.
Qed.

(** Month and day of a day of the year that starts on March 1. *)
Definition month_of_doy (doy : Z) : Z :=
  let mp := (5 * doy + 2) / 153 in if mp <? 10 then mp + 3 else mp - 9.
Definition day_of_doy (doy : Z) : Z :=
  let mp := (5 * doy + 2) / 153 in doy - (153 * mp + 2) / 5 + 1.

Definition doy_ok (doy : Z) : bool :=
  let m := month_of_doy doy in let d := day_of_doy doy in
  ((153 * (if 2 <? m then m - 3 else m + 9) + 2) / 5 + d - 1 =? doy) &&
  (1 <=? m) && (m <=? 12) && (1 <=? d) &&
  (d <=? (if doy =? 365 then 29 else days_in m 1)) &&
  (if doy =? 365 then m =? 2 else true) && (Bool.eqb (306 <=? doy) (m <=? 2)).

Lemma doy_ok_range doy : 0 <= doy <= 365 -> doy_ok doy = true.
Proof.
  intros H. assert (forallb doy_ok (seqZ 0 366) = true) as Hall by (vm_compute; reflexivity).
  rewrite forallb_forall in Hall. apply Hall, list_elem_of_In, elem_of_seqZ. lia.
Qed.

(** One day of the era. *)
Lemma civil_of_doe_spec doe :
  0 <= doe < 146097 ->
  let '(y, m, d) := civil_of_doe doe in
  days_of_civil y m d = doe - 719468 /\ 1 <= m <= 12 /\ 1 <= d <= days_in m y /\
  0 <= y /\ (if doe <? 146037 then y <= 399 else y = 400).
Proof.
  intros Hdoe. pose proof (year_of_era doe Hdoe) as Hy. unfold civil_of_doe.
  set (yoe := (doe - doe / 1460 + doe / 36524 - doe / 146096) / 365) in *. cbn zeta in Hy.
  destruct Hy as [Hy Hs]. pose proof (year_start_leap yoe ltac:(lia)) as Hl.
  assert (365 * yoe + yoe / 4 - yoe / 100 = year_start yoe) as E.
  { unfold year_start. rewrite (Z.div_small yoe 400) by lia. lia. }
  rewrite E. remember (doe - year_start yoe) as doy eqn:Edoy.
  assert (0 <= doy <= 365) as Hdoy by (destruct (is_leap (yoe + 1)); lia).
  assert (doy = 365 -> is_leap (yoe + 1) = true) as Hleap by (destruct (is_leap (yoe + 1)); [done|lia]).
  pose proof (doy_ok_range doy Hdoy) as Hok. unfold doy_ok in Hok.
  fold (month_of_doy doy). fold (day_of_doy doy).
  set (m := month_of_doy doy) in *. set (d := day_of_doy doy) in *. reflect_bools.
  assert ((306 <=? doy) = (m <=? 2)) as Hm by (by apply Bool.eqb_prop).
  assert (days_in m 1 <= days_in m (yoe + (if m <=? 2 then 1 else 0))) as Hdays.
  { unfold days_in. change (is_leap 1) with false. destruct (m =? 2); [|reflexivity].
    match goal with |- _ <= (if ?b then _ else _) => destruct b; lia end. }
  split; [|split; [lia|split; [split; [lia|]|split; [destruct (m <=? 2); lia|]]]].
  - unfold days_of_civil.
    replace (if m <=? 2 then yoe + (if m <=? 2 then 1 else 0) - 1 else yoe + (if m <=? 2 then 1 else 0))
      with yoe by (destruct (m <=? 2); lia).
    rewrite (Z.mod_small yoe), (Z.div_small yoe 400) by lia. lia.
  - destruct (Z.eqb_spec doy 365) as [E5|]; [|lia]. rewrite <- Hm. rewrite E5 in *. cbn [Z.leb] in *.
    simpl in *. reflect_bools. unfold days_in.
    assert (m = 2) as -> by lia. simpl. rewrite Hleap by done. lia.
  - rewrite <- Hm. destruct (Z.ltb_spec doe 146037), (Z.leb_spec 306 doy); try lia;
      unfold year_start, is_leap in *; Z.to_euclidean_division_equations; lia.
Qed.

Lemma days_of_civil_era y m d k : days_of_civil (y + k * 400) m d = days_of_civil y m d + k * 146097.
Proof.
  unfold days_of_civil. set (b := m <=? 2).
  replace (if b then y + k * 400 - 1 else y + k * 400) with ((if b then y - 1 else y) + k * 400)
    by (destruct b; lia).
  rewrite Z.mod_add, Z.div_add by lia. lia.
Qed.

Lemma is_leap_era y k : is_leap (y + k * 400) = is_leap y.
Proof.
  unfold is_leap.
  replace ((y + k * 400) mod 4) with (y mod 4)
    by (replace (y + k * 400) with (y + k * 100 * 4) by lia; by rewrite Z.mod_add by lia).
  replace ((y + k * 400) mod 100) with (y mod 100)
    by (replace (y + k * 400) with (y + k * 4 * 100) by lia; by rewrite Z.mod_add by lia).
  by rewrite Z.mod_add by lia.
Qed.

Lemma civil_of_days_spec z y m d :
  civil_of_days z = (y, m, d) ->
  days_of_civil y m d = z /\ 1 <= m <= 12 /\ 1 <= d <= days_in m y /\
  (-719528 <= z < 2932897 -> 0 <= y <= 9999).
Proof.
  unfold civil_of_days.
  pose proof (Z.mod_pos_bound (z + 719468) 146097 ltac:(lia)) as Hb.
  pose proof (Z.div_mod (z + 719468) 146097 ltac:(lia)) as Hd.
  pose proof (civil_of_doe_spec _ Hb) as Hok.
  set (doe := (z + 719468) mod 146097) in *. set (era := (z + 719468) / 146097) in *.
  destruct (civil_of_doe doe) as [[y0 m0] d0]. intros [= <- <- <-].
  destruct Hok as (Hc & Hm & Hd' & Hy0 & Hy). unfold days_in in *. rewrite days_of_civil_era, is_leap_era.
  destruct (Z.ltb_spec doe 146037); repeat split; lia.
Qed.

(** ** Text *)

Definition pad2 (n : Z) : string :=
  String (strconv.digit_ascii (n / 10 mod 10)) (String (strconv.digit_ascii (n mod 10)) EmptyString).

(** [appendInt(b, n, 4)]. *)
Definition pad4 (n : Z) : string :=
  if n <? 0 then String "-" (if - n <? 10000 then pad2 (- n / 100) +:+ pad2 (- n) else strconv.Itoa (- n))
  else if n <? 10000 then pad2 (n / 100) +:+ pad2 n else strconv.Itoa n.

Definition Format (t : Z) : string :=
  let s := time.Unix t in
  let '(y, m, d) := civil_of_days (s / 86400) in
  let r := s mod 86400 in
  pad4 y +:+ "-" +:+ pad2 m +:+ "-" +:+ pad2 d +:+ "T" +:+
  pad2 (r / 3600) +:+ ":" +:+ pad2 (r / 60 mod 60) +:+ ":" +:+ pad2 (r mod 60) +:+ "Z".

Definition num2 (a b : ascii) : option Z :=
  x ← strconv.digit_val a; y ← strconv.digit_val b; Some (x * 10 + y).

Definition Parse (s : string) : option Z :=
  match s with
  | String y1 (String y2 (String y3 (String y4 (String "-" (String m1 (String m2 (String "-"
      (String d1 (String d2 (String "T" (String h1 (String h2 (String ":" (String n1 (String n2
      (String ":" (String s1 (String s2 (String "Z" EmptyString))))))))))))))))))) =>
      yh ← num2 y1 y2; yl ← num2 y3 y4;
      m ← num2 m1 m2; d ← num2 d1 d2; h ← num2 h1 h2; mi ← num2 n1 n2; sec ← num2 s1 s2;
      let y := yh * 100 + yl in
      if (1 <=? m) && (m <=? 12) && (1 <=? d) && (d <=? days_in m y) &&
         (h <=? 23) && (mi <=? 59) && (sec <=? 59)
      then Some ((days_of_civil y m d * 86400 + h * 3600 + mi * 60 + sec) * time.Second)
      else None
  | _ => None
  end.

Lemma num2_pad2 n :
  0 <= n ->
  num2 (strconv.digit_ascii (n / 10 mod 10)) (strconv.digit_ascii (n mod 10)) = Some (n mod 100).
Proof.
  intros Hn. unfold num2.
  pose proof (Z.mod_pos_bound (n / 10) 10). pose proof (Z.mod_pos_bound n 10).
  rewrite !strconv.digit_val_ascii by lia. simpl. f_equal.
  apply Z.mod_unique_pos with (q := n / 100); [lia|].
  pose proof (Z.div_mod n 10 ltac:(lia)). pose proof (Z.div_mod (n / 10) 10 ltac:(lia)).
  rewrite Z.div_div in * by lia. change (10 * 10) with 100 in *. lia.
Qed.

#[local] Arguments String.append !_ _ /.

(** The instants whose year has four digits. *)
Definition four_digit_year (t : Z) : Prop := -62167219200 <= time.Unix t < 253402300800.

(** Reading a written instant back drops the fraction of a second. *)
Lemma Parse_Format t : four_digit_year t -> Parse (Format t) = Some (time.Unix t * time.Second).
Proof.
  unfold four_digit_year, Format. generalize (time.Unix t) as s. intros s Hs.
  destruct (civil_of_days (s / 86400)) as [[y m] d] eqn:E.
  apply civil_of_days_spec in E as (Hz & Hm & Hd & Hy).
  assert (-719528 <= s / 86400 < 2932897) as Hr.
  { split; [apply Z.div_le_lower_bound; lia | apply Z.div_lt_upper_bound; lia]. }
  specialize (Hy Hr).
  pose proof (Z.div_mod s 86400 ltac:(lia)). pose proof (Z.mod_pos_bound s 86400 ltac:(lia)).
  set (r := s mod 86400) in *.
  assert (0 <= r / 3600 < 24) by (split; [apply Z.div_pos; lia | apply Z.div_lt_upper_bound; lia]).
  assert (0 <= r / 60) by (apply Z.div_pos; lia).
  pose proof (Z.mod_pos_bound (r / 60) 60 ltac:(lia)). pose proof (Z.mod_pos_bound r 60 ltac:(lia)).
  assert (days_in m y <= 31) by (unfold days_in; repeat case_match; lia).
  unfold pad4. destruct (Z.ltb_spec y 0), (Z.ltb_spec y 10000); try lia.
  unfold pad2. cbn [String.append Parse].
  rewrite !num2_pad2 by (try apply Z.div_pos; lia). cbn [mbind option_bind].
  rewrite (Z.mod_small (y / 100)) by (split; [apply Z.div_pos; lia | apply Z.div_lt_upper_bound; lia]).
  rewrite (Z.mod_small m), (Z.mod_small d), (Z.mod_small (r / 3600)) by lia.
  rewrite (Z.mod_small (r / 60 mod 60)), (Z.mod_small (r mod 60)) by lia.
  replace (y / 100 * 100 + y mod 100) with y by (pose proof (Z.div_mod y 100); lia).
  rewrite !(proj2 (Z.leb_le _ _)) by lia. cbn [andb]. f_equal. f_equal.
  rewrite Hz. pose proof (Z.div_mod r 60 ltac:(lia)). pose proof (Z.div_mod (r / 60) 60 ltac:(lia)).
  assert (r / 60 / 60 = r / 3600) by (rewrite Z.div_div by lia; done). lia.
Qed.

Lemma Format_not_empty t : Format t <> EmptyString.
Proof.
  unfold Format. destruct (civil_of_days _) as [[y m] d]. by destruct (pad4 y).
Qed.

Example format_example : Format (1754000000 * time.Second + 5) = "2025-07-31T22:13:20Z".
Proof. reflexivity. Qed.

End rfc3339.
