(* ===== verification/Downtime.v ===== *)
(** * Downtime schedules (pkg/userdb/downtime.go)

    A schedule maps day keys to blocked windows.  [parseHHMM], [ValidateSchedule],
    [checkOverlaps] and [isInDowntime] are the functions of the same names.  The
    specifications below read a window as an interval of the minute-of-week
    circle and a set of windows as pairwise disjoint sets of minutes of a day. *)

From S2P Require Import Prelude GoStrings GoTime.

Record DowntimeWindow := mkWindow { Start : string; End_ : string }.

#[global] Instance DowntimeWindow_eq_dec : EqDecision DowntimeWindow.
Proof. solve_decision. Defined.

Abbreviation DowntimeSchedule := (gmap string (list DowntimeWindow)).

(** The error values, one constructor per [fmt.Errorf] of the file. *)
Inductive schedule_error :=
| InvalidTimeFormat (s : string)
| InvalidHour (s : string)
| InvalidMinute (s : string)
| InvalidDayKey (k : string)
| InDay (k : string) (e : schedule_error)
| ZeroLength (k start end_ : string)
| Overlapping (k : string).

#[global] Instance schedule_error_eq_dec : EqDecision schedule_error.
Proof. solve_decision. Defined.

Definition parseHHMM (s : string) : result schedule_error Z :=
  match strings.Cut s ":" with
  | None => Err (InvalidTimeFormat s)
  | Some (p0, p1) =>
      match strconv.Atoi p0 with
      | None => Err (InvalidHour s)
      | Some h =>
          if (h <? 0) || (23 <? h) then Err (InvalidHour s) else
          match strconv.Atoi p1 with
          | None => Err (InvalidMinute s)
          | Some m =>
              if (m <? 0) || (59 <? m) then Err (InvalidMinute s)
              else Ok (h * 60 + m)
          end
      end
  end.

(** [s, _ := parseHHMM(x)]: the value is 0 when there is an error. *)
Definition hhmm (s : string) : Z :=
  match parseHHMM s with Ok m => m | Err _ => 0 end.

Definition window_start (w : DowntimeWindow) : Z := hhmm (Start w).
Definition window_end (w : DowntimeWindow) : Z := hhmm (End_ w).

(** ** checkOverlaps *)

Record interval := mkInterval { istart : Z; iend : Z; idx : nat }.

Definition expand (i : nat) (w : DowntimeWindow) : list interval :=
  let s := window_start w in
  let e := window_end w in
  if s <? e then [mkInterval s e i]
  else mkInterval s 1440 i :: (if 0 <? e then [mkInterval 0 e i] else []).

Fixpoint intervals_from (i : nat) (windows : list DowntimeWindow) : list interval :=
  match windows with
  | [] => []
  | w :: ws => expand i w ++ intervals_from (S i) ws
  end.

Definition start_le (a b : interval) : Prop := istart a <= istart b.

#[global] Instance start_le_dec : RelDecision start_le.
Proof. intros a b. apply Z.le_dec. Defined.

(** The loop over neighbours in the sorted slice. *)
Fixpoint neighbours_overlap (l : list interval) : bool :=
  match l with
  | a :: ((b :: _) as l') => (istart b <? iend a) || neighbours_overlap l'
  | _ => false
  end.

Definition checkOverlaps (dayKey : string) (windows : list DowntimeWindow) : result schedule_error unit :=
  if (length windows <? 2)%nat then Ok tt else
  let intervals := merge_sort start_le (intervals_from 0 windows) in
  if neighbours_overlap intervals then Err (Overlapping dayKey) else Ok tt.

(** ** ValidateSchedule *)

Fixpoint validate_windows (dayKey : string) (windows : list DowntimeWindow) : result schedule_error unit :=
  match windows with
  | [] => Ok tt
  | w :: ws =>
      match parseHHMM (Start w) with
      | Err e => Err (InDay dayKey e)
      | Ok startMin =>
          match parseHHMM (End_ w) with
          | Err e => Err (InDay dayKey e)
          | Ok endMin =>
              if startMin =? endMin then Err (ZeroLength dayKey (Start w) (End_ w))
              else validate_windows dayKey ws
          end
      end
  end.

Definition validate_day (dayKey : string) (windows : list DowntimeWindow) : result schedule_error unit :=
  match strconv.Atoi dayKey with
  | None => Err (InvalidDayKey dayKey)
  | Some day =>
      if (day <? 0) || (6 <? day) then Err (InvalidDayKey dayKey) else
      match validate_windows dayKey windows with
      | Err e => Err e
      | Ok _ => checkOverlaps dayKey windows
      end
  end.

(** Go ranges over a map in an unspecified order; [entries] is that order. *)
Fixpoint validate_entries (entries : list (string * list DowntimeWindow)) : result schedule_error unit :=
  match entries with
  | [] => Ok tt
  | (dayKey, windows) :: rest =>
      match validate_day dayKey windows with
      | Err e => Err e
      | Ok _ => validate_entries rest
      end
  end.

Definition ValidateSchedule (s : DowntimeSchedule) : result schedule_error unit :=
  validate_entries (map_to_list s).

(** ** isInDowntime *)

Definition day_windows (schedule : DowntimeSchedule) (key : string) : list DowntimeWindow :=
  default [] (schedule !! key).

(** Body of the loop over today's windows. *)
Definition blocks_today (nowMin : Z) (w : DowntimeWindow) : bool :=
  let s := window_start w in
  let e := window_end w in
  if s <? e then (s <=? nowMin) && (nowMin <? e) else s <=? nowMin.

(** Body of the loop over yesterday's windows. *)
Definition spills_over (nowMin : Z) (w : DowntimeWindow) : bool :=
  let s := window_start w in
  let e := window_end w in
  (e <=? s) && (nowMin <? e).

Definition isInDowntime (loc : time.Location) (schedule : DowntimeSchedule) (now : Z) : bool :=
  if (size schedule =? 0)%nat then false else
  let nowMin := time.HourOf loc now * 60 + time.MinuteOf loc now in
  let today := strconv.Itoa (time.Weekday loc now) in
  let yesterday := strconv.Itoa ((time.Weekday loc now + 6) mod 7) in
  existsb (blocks_today nowMin) (day_windows schedule today) ||
  existsb (spills_over nowMin) (day_windows schedule yesterday).

(** ** Lemmas: times of day *)

Lemma parseHHMM_range s m : parseHHMM s = Ok m -> 0 <= m < 1440.
Proof. unfold parseHHMM. intros H. go_cases. reflect_bools. lia. Qed.

Lemma hhmm_range s : 0 <= hhmm s < 1440.
Proof.
  unfold hhmm. destruct (parseHHMM s) eqn:E; [|lia]. by apply parseHHMM_range in E.
Qed.

Lemma window_start_range w : 0 <= window_start w < 1440.
Proof. apply hhmm_range. Qed.

Lemma window_end_range w : 0 <= window_end w < 1440.
Proof. apply hhmm_range. Qed.

#[export] Hint Resolve window_start_range window_end_range : evan.

(** Brings the range facts of a window into the context. *)
Ltac window_bounds w :=
  pose proof (window_start_range w); pose proof (window_end_range w).

(** ** What a window blocks *)

(** Minutes [0, 1440) of the day on which [checkOverlaps] places a window. *)
Definition covers (w : DowntimeWindow) (m : Z) : Prop :=
  if window_start w <? window_end w
  then window_start w <= m < window_end w
  else window_start w <= m \/ m < window_end w.

(** Length of a window in minutes; a window that does not end after it starts
    runs over midnight. *)
Definition window_length (w : DowntimeWindow) : Z :=
  if window_start w <? window_end w
  then window_end w - window_start w
  else 1440 - window_start w + window_end w.

(** The window [w] of day [d], on the circle of the 10080 minutes of a week. *)
Definition blocks_minute (d : Z) (w : DowntimeWindow) (wm : Z) : Prop :=
  (wm - (d * 1440 + window_start w)) mod 10080 < window_length w.

Definition minute_of_week (loc : time.Location) (now : Z) : Z :=
  time.Weekday loc now * 1440 + time.HourOf loc now * 60 + time.MinuteOf loc now.

Definition blocked_in_week (schedule : DowntimeSchedule) (wm : Z) : Prop :=
  exists d w, 0 <= d < 7 /\ w ∈ day_windows schedule (strconv.Itoa d) /\ blocks_minute d w wm.

(** The week circle: a difference of less than two days, by its number of days. *)
Lemma mod_week k x :
  0 <= k <= 6 -> -1440 < x < 1440 ->
  (k * 1440 + x) mod 10080 = if (k =? 0) && (x <? 0) then 10080 + x else k * 1440 + x.
Proof.
  intros Hk Hx. destruct (Z.eqb_spec k 0) as [->|]; simpl.
  - destruct (Z.ltb_spec x 0).
    + symmetry. apply Z.mod_unique_pos with (q := -1); lia.
    + apply Z.mod_small; lia.
  - apply Z.mod_small; lia.
Qed.

Lemma blocks_minute_cases d k w nowMin :
  0 <= k <= 6 -> 0 <= nowMin < 1440 ->
  blocks_minute d w ((d + k) * 1440 + nowMin) <->
  (k = 0 /\ blocks_today nowMin w = true) \/ (k = 1 /\ spills_over nowMin w = true).
Proof.
  intros Hk Hm. unfold blocks_minute, blocks_today, spills_over, window_length.
  window_bounds w. set (s := window_start w) in *. set (e := window_end w) in *.
  replace ((d + k) * 1440 + nowMin - (d * 1440 + s)) with (k * 1440 + (nowMin - s)) by lia.
  rewrite mod_week by lia.
  destruct (Z.ltb_spec s e), (Z.eqb_spec k 0), (Z.ltb_spec (nowMin - s) 0); simpl;
    rewrite ?andb_true_iff, ?Z.leb_le, ?Z.ltb_lt; lia.
Qed.

Lemma blocks_minute_week d w wm : blocks_minute d w (wm + 10080) <-> blocks_minute d w wm.
Proof.
  unfold blocks_minute.
  replace (wm + 10080 - (d * 1440 + window_start w))
    with (wm - (d * 1440 + window_start w) + 1 * 10080) by lia.
  by rewrite Z.mod_add by lia.
Qed.

(** On day [wd] a window of day [d] blocks today, or is yesterday's and spills over. *)
Lemma blocks_minute_days d wd w nowMin :
  0 <= d < 7 -> 0 <= wd < 7 -> 0 <= nowMin < 1440 ->
  blocks_minute d w (wd * 1440 + nowMin) <->
  (d = wd /\ blocks_today nowMin w = true) \/ (d = (wd + 6) mod 7 /\ spills_over nowMin w = true).
Proof.
  intros Hd Hwd Hm.
  assert ((wd + 6) mod 7 = if wd =? 0 then 6 else wd - 1) as ->.
  { destruct (Z.eqb_spec wd 0) as [->|]; [done|].
    symmetry. apply Z.mod_unique_pos with (q := 1); lia. }
  destruct (Z.leb_spec d wd).
  - replace wd with (d + (wd - d)) at 1 by lia.
    rewrite blocks_minute_cases by lia. destruct (Z.eqb_spec wd 0); naive_solver lia.
  - rewrite <- blocks_minute_week.
    replace (wd * 1440 + nowMin + 10080) with ((d + (wd + 7 - d)) * 1440 + nowMin) by lia.
    rewrite blocks_minute_cases by lia. destruct (Z.eqb_spec wd 0); naive_solver lia.
Qed.

Lemma day_windows_size schedule k w : w ∈ day_windows schedule k -> size schedule <> 0%nat.
Proof.
  unfold day_windows. destruct (schedule !! k) as [ws|] eqn:E; [|by intros ?%elem_of_nil].
  intros _ Hs. apply map_size_empty_inv in Hs as ->. by rewrite lookup_empty in E.
Qed.

Lemma in_downtime_blocked_in_week (loc : time.Location) (schedule : DowntimeSchedule) (now : Z) :
  isInDowntime loc schedule now = true <-> blocked_in_week schedule (minute_of_week loc now).
Proof.
  unfold isInDowntime, blocked_in_week, minute_of_week.
  pose proof (time.Weekday_range loc now) as Hwd.
  pose proof (time.HourOf_range loc now). pose proof (time.MinuteOf_range loc now).
  set (wd := time.Weekday loc now) in *. set (nowMin := time.HourOf loc now * 60 + time.MinuteOf loc now).
  replace (wd * 1440 + time.HourOf loc now * 60 + time.MinuteOf loc now) with (wd * 1440 + nowMin) by lia.
  assert (0 <= nowMin < 1440) by lia.
  pose proof (Z.mod_pos_bound (wd + 6) 7 ltac:(lia)).
  split.
  - destruct (Nat.eqb_spec (size schedule) 0); [done|].
    rewrite orb_true_iff, !existsb_true_iff. intros [(w & Hw & Hb)|(w & Hw & Hb)].
    + exists wd, w. rewrite blocks_minute_days by lia. naive_solver.
    + exists ((wd + 6) mod 7), w. rewrite blocks_minute_days by lia. naive_solver.
  - intros (d & w & Hd & Hw & Hb). rewrite blocks_minute_days in Hb by lia.
    pose proof (day_windows_size _ _ _ Hw).
    destruct (Nat.eqb_spec (size schedule) 0); [done|].
    rewrite orb_true_iff, !existsb_true_iff. destruct Hb as [[-> ?]|[-> ?]]; eauto.
Qed.

(** [C7] For every schedule, location and instant, [isInDowntime] answers yes
    exactly when the local minute of the week lies in a window of the schedule,
    each window read as the arc of the week circle that starts on its day and
    runs to its end, over midnight when the end is not after the start: the two
    loops over today's and yesterday's windows lose and add nothing, also over
    the Saturday to Sunday wrap. *)
Theorem isInDowntime_iff_blocked_in_week (loc : time.Location) (schedule : DowntimeSchedule) (now : Z) :
  isInDowntime loc schedule now = true <-> blocked_in_week schedule (minute_of_week loc now).
Proof. apply in_downtime_blocked_in_week. Qed.

(** ** Overlap detection *)

Definition disjoint_intervals (a b : interval) : Prop := iend a <= istart b \/ iend b <= istart a.

#[global] Instance disjoint_intervals_sym : Symmetric disjoint_intervals.
Proof. unfold disjoint_intervals. intros a b ?; naive_solver. Qed.

#[global] Instance start_le_trans : Transitive start_le.
Proof. unfold start_le. intros a b c; lia. Qed.

#[global] Instance start_le_total : Total start_le.
Proof. unfold start_le. intros a b; lia. Qed.

Definition nonempty_interval (a : interval) : Prop := istart a < iend a.

(** Comparing neighbours of a list sorted by start compares all pairs. *)
Lemma neighbours_overlap_pairwise l :
  StronglySorted start_le l -> Forall nonempty_interval l ->
  neighbours_overlap l = false <-> pairwise disjoint_intervals l.
Proof.
  induction l as [|a l IH]; intros Hs Hn; [done|].
  apply StronglySorted_inv in Hs as [Hs Ha]. apply Forall_cons in Hn as [Hna Hn].
  specialize (IH Hs Hn). destruct l as [|b l]; [simpl; naive_solver|].
  change (neighbours_overlap (a :: b :: l)) with
    ((istart b <? iend a) || neighbours_overlap (b :: l)).
  change (pairwise disjoint_intervals (a :: b :: l)) with
    (Forall (disjoint_intervals a) (b :: l) /\ pairwise disjoint_intervals (b :: l)).
  rewrite orb_false_iff, IH, Z.ltb_ge. split; intros [H1 H2]; split; try done.
  - apply StronglySorted_inv in Hs as [_ Hb].
    apply Forall_cons; split; [left; lia|].
    apply Forall_forall. intros c Hc. rewrite Forall_forall in Hb.
    specialize (Hb c Hc). unfold start_le in Hb. left; lia.
  - apply Forall_cons in H1 as [H1 _]. apply Forall_cons in Ha as [Ha _].
    apply Forall_cons in Hn as [Hb _].
    unfold disjoint_intervals, start_le, nonempty_interval in *. lia.
Qed.

Definition nonzero_window (w : DowntimeWindow) : Prop := window_start w <> window_end w.

Lemma expand_nonempty i w : nonzero_window w -> Forall nonempty_interval (expand i w).
Proof.
  unfold nonzero_window, expand, nonempty_interval. intros. window_bounds w.
  destruct (Z.ltb_spec (window_start w) (window_end w)); [by repeat constructor|].
  destruct (Z.ltb_spec 0 (window_end w)); repeat constructor; simpl; lia.
Qed.

Lemma expand_pairwise i w : pairwise disjoint_intervals (expand i w).
Proof.
  unfold expand, disjoint_intervals. window_bounds w.
  destruct (Z.ltb_spec (window_start w) (window_end w)); [by repeat constructor|].
  destruct (Z.ltb_spec 0 (window_end w)); repeat constructor; simpl; lia.
Qed.

(** The minutes of the intervals of a window are the minutes it covers. *)
Lemma expand_covers i w m :
  0 <= m < 1440 -> covers w m <-> Exists (fun a => istart a <= m < iend a) (expand i w).
Proof.
  unfold covers, expand. intros. window_bounds w.
  destruct (Z.ltb_spec (window_start w) (window_end w)).
  - rewrite Exists_cons, Exists_nil. simpl. naive_solver.
  - destruct (Z.ltb_spec 0 (window_end w)); rewrite ?Exists_cons, ?Exists_nil; simpl; naive_solver lia.
Qed.

Lemma expand_in_day i w : Forall (fun a => 0 <= istart a /\ iend a <= 1440) (expand i w).
Proof.
  unfold expand. window_bounds w.
  destruct (Z.ltb_spec (window_start w) (window_end w)); [repeat constructor; simpl; lia|].
  destruct (Z.ltb_spec 0 (window_end w)); repeat constructor; simpl; lia.
Qed.

Definition no_common_minute (w1 w2 : DowntimeWindow) : Prop :=
  forall m, 0 <= m < 1440 -> ~ (covers w1 m /\ covers w2 m).

#[global] Instance no_common_minute_sym : Symmetric no_common_minute.
Proof. unfold no_common_minute. intros w1 w2 H m Hm [? ?]. by apply (H m). Qed.

Lemma expand_disjoint i j w1 w2 :
  nonzero_window w1 -> nonzero_window w2 ->
  Forall (fun a => Forall (disjoint_intervals a) (expand j w2)) (expand i w1) <-> no_common_minute w1 w2.
Proof.
  intros N1 N2. apply (expand_nonempty i) in N1. apply (expand_nonempty j) in N2.
  pose proof (expand_in_day i w1) as D1. pose proof (expand_in_day j w2) as D2.
  split.
  - intros H m Hm [H1 H2]. apply (expand_covers i) in H1; [|done]. apply (expand_covers j) in H2; [|done].
    apply Exists_exists in H1 as (a & Ha & ?). apply Exists_exists in H2 as (b & Hb & ?).
    rewrite Forall_forall in H. specialize (H a Ha). rewrite Forall_forall in H. specialize (H b Hb).
    unfold disjoint_intervals in H. lia.
  - intros H. apply Forall_forall. intros a Ha. apply Forall_forall. intros b Hb.
    rewrite Forall_forall in N1, N2, D1, D2.
    specialize (N1 a Ha). specialize (N2 b Hb). specialize (D1 a Ha). specialize (D2 b Hb).
    unfold disjoint_intervals, nonempty_interval in *.
    destruct (decide (iend a <= istart b \/ iend b <= istart a)) as [?|Hn]; [done|exfalso].
    apply (H (Z.max (istart a) (istart b))); [lia|].
    split; [apply (expand_covers i)|apply (expand_covers j)]; try lia;
      apply Exists_exists; eexists; (split; [eassumption|lia]).
Qed.

Lemma intervals_from_forall_disjoint i j w ws :
  nonzero_window w -> Forall nonzero_window ws ->
  Forall (fun a => Forall (disjoint_intervals a) (intervals_from j ws)) (expand i w) <->
  Forall (no_common_minute w) ws.
Proof.
  intros Hw Hws. revert j. induction Hws as [|w' ws Hw' Hws IH]; intros j; simpl.
  - split; [done|]. intros _. by apply Forall_true.
  - rewrite Forall_cons, <- (IH (S j)), <- (expand_disjoint i j) by done.
    rewrite <- Forall_and. apply Forall_iff. intros a. by rewrite Forall_app.
Qed.

Lemma intervals_from_pairwise i ws :
  Forall nonzero_window ws ->
  pairwise disjoint_intervals (intervals_from i ws) <-> pairwise no_common_minute ws.
Proof.
  intros Hws. revert i. induction Hws as [|w ws Hw Hws IH]; intros i; simpl; [done|].
  rewrite pairwise_app, IH, intervals_from_forall_disjoint by done.
  pose proof (expand_pairwise i w). naive_solver.
Qed.

Lemma intervals_from_nonempty i ws :
  Forall nonzero_window ws -> Forall nonempty_interval (intervals_from i ws).
Proof.
  intros H. revert i. induction H as [|w ws Hw _ IH]; intros i; simpl; [done|].
  apply Forall_app; auto using expand_nonempty.
Qed.

(** The verdict does not depend on how [sort.Slice] orders equal starts. *)
Lemma neighbours_overlap_sorted i ws l :
  Forall nonzero_window ws -> l ≡ₚ intervals_from i ws -> StronglySorted start_le l ->
  neighbours_overlap l = false <-> pairwise no_common_minute ws.
Proof.
  intros Hws Hp Hs. rewrite neighbours_overlap_pairwise.
  - by rewrite Hp, intervals_from_pairwise.
  - done.
  - rewrite Hp. by apply intervals_from_nonempty.
Qed.

Lemma checkOverlaps_pairwise k ws :
  Forall nonzero_window ws -> checkOverlaps k ws = Ok tt <-> pairwise no_common_minute ws.
Proof.
  intros Hws. unfold checkOverlaps. destruct (Nat.ltb_spec (length ws) 2).
  - split; [|done]. intros _. destruct ws as [|w [|w' ws]]; simpl in *; [done|by repeat constructor|lia].
  - rewrite <- (neighbours_overlap_sorted 0 ws (merge_sort start_le (intervals_from 0 ws)) Hws).
    + case_match; naive_solver.
    + apply merge_sort_Permutation.
    + by apply (StronglySorted_merge_sort start_le).
Qed.

(** ** Validation *)

Definition valid_window (w : DowntimeWindow) : Prop :=
  exists s e, parseHHMM (Start w) = Ok s /\ parseHHMM (End_ w) = Ok e /\ s <> e.

Definition valid_day_key (k : string) : Prop :=
  exists d, strconv.Atoi k = Some d /\ 0 <= d <= 6.

Definition valid_day (k : string) (ws : list DowntimeWindow) : Prop :=
  valid_day_key k /\ Forall valid_window ws /\
  forall i j w1 w2, i <> j -> ws !! i = Some w1 -> ws !! j = Some w2 -> no_common_minute w1 w2.

Lemma valid_window_nonzero w : valid_window w -> nonzero_window w.
Proof.
  intros (s & e & Hs & He & Hne). unfold nonzero_window, window_start, window_end, hhmm.
  by rewrite Hs, He.
Qed.

Lemma validate_windows_ok k ws : validate_windows k ws = Ok tt <-> Forall valid_window ws.
Proof.
  induction ws as [|w ws IH]; simpl; [naive_solver|]. rewrite Forall_cons, <- IH. unfold valid_window.
  destruct (parseHHMM (Start w)) as [s|]; [|naive_solver].
  destruct (parseHHMM (End_ w)) as [e|]; [|naive_solver].
  destruct (Z.eqb_spec s e); naive_solver.
Qed.

Lemma validate_day_ok k ws : validate_day k ws = Ok tt <-> valid_day k ws.
Proof.
  unfold validate_day, valid_day, valid_day_key.
  destruct (strconv.Atoi k) as [d|]; [|naive_solver].
  destruct (Z.ltb_spec d 0), (Z.ltb_spec 6 d); simpl; try (split; [done|naive_solver lia]).
  rewrite <- (validate_windows_ok k). destruct (validate_windows k ws) as [[]|] eqn:E; [|naive_solver].
  apply validate_windows_ok in E.
  rewrite checkOverlaps_pairwise by (eapply Forall_impl; [done|apply valid_window_nonzero]).
  rewrite pairwise_lookup by apply _. naive_solver lia.
Qed.

Lemma validate_entries_ok l :
  validate_entries l = Ok tt <-> Forall (fun '(k, ws) => valid_day k ws) l.
Proof.
  induction l as [|[k ws] l IH]; simpl; [naive_solver|].
  rewrite Forall_cons, <- IH, <- validate_day_ok. destruct (validate_day k ws) as [[]|]; naive_solver.
Qed.

(** [C16] In whatever order Go's map iteration visits the days, validation
    succeeds exactly when every day key parses to a number from 0 to 6, every
    window has two well-formed and different times, and no minute of the day is
    covered by two windows of the same day.  In particular the verdict does not
    depend on the iteration order, nor on how sort.Slice breaks ties. *)
Theorem ValidateSchedule_ok_iff (schedule : DowntimeSchedule) (order : list (string * list DowntimeWindow)) :
  order ≡ₚ map_to_list schedule ->
  (validate_entries order = Ok tt <-> map_Forall valid_day schedule) /\
  (ValidateSchedule schedule = Ok tt <-> validate_entries order = Ok tt).
Proof.
  intros Hp. unfold ValidateSchedule. rewrite !validate_entries_ok, Hp.
  rewrite (map_Forall_to_list valid_day schedule). unfold uncurry. by split.
Qed.

Definition example_schedule : DowntimeSchedule :=
  <["1" := [mkWindow "08:00" "15:00"; mkWindow "21:00" "07:00"]]>
    {["6" := [mkWindow "22:30" "06:00"]]}.

Lemma ValidateSchedule_ok_iff_witness :
  map_to_list example_schedule ≡ₚ map_to_list example_schedule /\
  ValidateSchedule example_schedule = Ok tt /\ map_Forall valid_day example_schedule.
Proof.
  split; [reflexivity|]. split; [vm_compute; reflexivity|].
  apply (proj1 (ValidateSchedule_ok_iff example_schedule (map_to_list example_schedule) (reflexivity _))).
  vm_compute. reflexivity.
Defined.

(** ** Day keys that validation accepts and enforcement never reads *)

Definition canonical_key (k : string) : Prop := exists d, 0 <= d < 7 /\ k = strconv.Itoa d.

(** A schedule none of whose keys is the plain decimal of a day never puts
    anyone in downtime, at any instant and in any location.  Validation accepts
    such keys (a sign or leading zeros), so a schedule can be stored that is
    never enforced. *)
Theorem noncanonical_keys_never_block (loc : time.Location) (schedule : DowntimeSchedule) (now : Z) :
  map_Forall (fun k _ => ~ canonical_key k) schedule ->
  isInDowntime loc schedule now = false.
Proof.
  intros Hk. apply not_true_iff_false. rewrite in_downtime_blocked_in_week.
  intros (d & w & Hd & Hw & _). unfold day_windows in Hw.
  destruct (schedule !! strconv.Itoa d) as [ws|] eqn:E; [|by apply elem_of_nil in Hw].
  apply (Hk _ _ E). by exists d.
Qed.

Lemma noncanonical_keys_never_block_witness :
  ValidateSchedule {["+1" := [mkWindow "00:00" "23:59"]]} = Ok tt /\
  isInDowntime time.UTC {["+1" := [mkWindow "00:00" "23:59"]]} (4 * 86400 * time.Second) = false /\
  isInDowntime time.UTC {["1" := [mkWindow "00:00" "23:59"]]} (4 * 86400 * time.Second) = true.
Proof.
  split; [vm_compute; reflexivity|]. split; [|vm_compute; reflexivity].
  apply (noncanonical_keys_never_block time.UTC {["+1" := [mkWindow "00:00" "23:59"]]}).
  apply map_Forall_singleton. intros (d & Hd & E). pose proof (f_equal strconv.Atoi E) as E'.
  rewrite strconv.Atoi_Itoa in E' by (unfold int64_min, int64_max; lia).
  assert (d = 1) as -> by (vm_compute in E'; congruence). discriminate.
Defined.
