(* ===== verification/Password.v ===== *)
(** * Passwords and Basic credentials (pkg/userdb/userdb.go)

    [hashPassword], [verifyPassword], [needsRehash] and [parseBasicAuth].  The
    argon2id key derivation of golang.org/x/crypto and SHA-256 are the
    parameters of [Crypto]; the only law assumed of them is that argon2id
    returns a key of the requested length.  The semaphore around argon2 calls
    bounds memory and has no effect on results. *)

From S2P Require Import Prelude GoStrings GoBase64.

Class Crypto := {
  (** [sha256.Sum256]. *)
  Sum256 : string -> string;
  (** [argon2.IDKey password salt time memory threads keyLen]. *)
  IDKey : string -> string -> Z -> Z -> Z -> nat -> string;
  IDKey_length password salt t m p n : String.length (IDKey password salt t m p n) = n;
}.

Definition argonTime : Z := 1.
Definition argonMemory : Z := 16 * 1024.
Definition argonThreads : Z := 4.
Definition argonKeyLen : nat := 32.
Definition argonSaltLen : nat := 16.

(** ** fmt.Sscanf with the format m=%d,t=%d,p=%d *)

Fixpoint skip_blanks (s : string) : string :=
  match s with
  | String a s' => if Ascii.eqb a " " || Ascii.eqb a "009" then skip_blanks s' else s
  | EmptyString => EmptyString
  end.

(** The longest run of digits, as a number, and the rest. *)
Fixpoint scan_digits (acc : Z) (s : string) : Z * string :=
  match s with
  | String a s' => match strconv.digit_val a with
                   | Some d => scan_digits (acc * 10 + d) s'
                   | None => (acc, s)
                   end
  | EmptyString => (acc, s)
  end.

(** The percent-d verb into an unsigned integer of [width] bits. *)
Definition scan_uint (width : Z) (s : string) : option (Z * string) :=
  match skip_blanks s with
  | String a s' =>
      d ← strconv.digit_val a;
      let '(n, rest) := scan_digits d s' in
      if n <? 2 ^ width then Some (n, rest) else None
  | EmptyString => None
  end.

Definition scan_literal (lit s : string) : option string :=
  if strings.HasPrefix s lit then Some (strings.TrimPrefix s lit) else None.

Definition scan_params (s : string) : option (Z * Z * Z) :=
  s1 ← scan_literal "m=" s; '(memory, s2) ← scan_uint 32 s1;
  s3 ← scan_literal ",t=" s2; '(t, s4) ← scan_uint 32 s3;
  s5 ← scan_literal ",p=" s4; '(threads, _) ← scan_uint 8 s5;
  Some (memory, t, threads).

(** [fmt.Sprintf] of the current parameters. *)
Definition current_params : string :=
  "m=" +:+ strconv.Itoa argonMemory +:+ ",t=" +:+ strconv.Itoa argonTime +:+ ",p=" +:+ strconv.Itoa argonThreads.

Section password.
Context {crypto : Crypto}.

(** [salt] is what [rand.Read] put into the salt buffer. *)
Definition hashPassword (password salt : string) : string :=
  let hash := IDKey password salt argonTime argonMemory argonThreads argonKeyLen in
  "$argon2id$v=19$" +:+ current_params +:+ "$" +:+
  base64.EncodeToString base64.RawStdEncoding salt +:+ "$" +:+
  base64.EncodeToString base64.RawStdEncoding hash.

Definition verifyPassword (password encoded : string) : bool :=
  match strings.Split encoded "$" with
  | [_; p1; _; p3; p4; p5] =>
      if negb (p1 =? "argon2id")%string then false else
      match scan_params p3 with
      | None => false
      | Some (memory, t, threads) =>
          match base64.DecodeString base64.RawStdEncoding p4 with
          | None => false
          | Some salt =>
              match base64.DecodeString base64.RawStdEncoding p5 with
              | None => false
              | Some expectedHash =>
                  let hash := IDKey password salt t memory threads (String.length expectedHash) in
                  (hash =? expectedHash)%string
              end
          end
      end
  | _ => false
  end.

Definition needsRehash (encoded : string) : bool :=
  match strings.Split encoded "$" with
  | [_; _; _; p3; _; _] => negb (p3 =? current_params)%string
  | _ => true
  end.
End password.

Definition parseBasicAuth (header : string) : option (string * string) :=
  if negb (strings.HasPrefix header "Basic ") then None else
  match base64.DecodeString base64.StdEncoding (strings.drop 6 header) with
  | None => None
  | Some decoded => strings.Cut decoded ":"
  end.

(** ** Lemmas *)

Lemma EncodeToString_free c enc s :
  base64.pad_or_plain c = false -> free_of c (base64.EncodeToString enc s).
Proof.
  intros Hc. apply free_of_string. pose proof (base64.encode_chars enc _ (bytes_of_is_byte s)) as He.
  eapply Forall_impl; [exact He|]. simpl. intros a Ha ->. congruence.
Qed.

Lemma scan_current : scan_params current_params = Some (argonMemory, argonTime, argonThreads).
Proof. reflexivity. Qed.

Section password_lemmas.
Context {crypto : Crypto}.

Lemma split_hashPassword password salt :
  strings.Split (hashPassword password salt) "$" =
  [""; "argon2id"; "v=19"; current_params;
   base64.EncodeToString base64.RawStdEncoding salt;
   base64.EncodeToString base64.RawStdEncoding
     (IDKey password salt argonTime argonMemory argonThreads argonKeyLen)].
Proof.
  unfold hashPassword. set (b := base64.EncodeToString base64.RawStdEncoding (IDKey _ _ _ _ _ _)).
  set (a := base64.EncodeToString base64.RawStdEncoding salt).
  assert (free_of "$" a) by (by apply EncodeToString_free).
  assert (free_of "$" b) by (by apply EncodeToString_free).
  change (strings.Split (EmptyString +:+ String "$" ("argon2id" +:+ String "$" ("v=19" +:+ String "$"
    (current_params +:+ String "$" (a +:+ String "$" b))))) "$" =
    [""; "argon2id"; "v=19"; current_params; a; b]).
  rewrite !Split_app_free, Split_free by (try assumption; repeat split; discriminate). done.
Qed.

Lemma verify_hashPassword password salt : verifyPassword password (hashPassword password salt) = true.
Proof.
  unfold verifyPassword. rewrite split_hashPassword. cbn [negb String.eqb].
  rewrite scan_current, !base64.DecodeString_EncodeToString. rewrite IDKey_length.
  apply String.eqb_refl.
Qed.

Lemma hashPassword_current password salt : needsRehash (hashPassword password salt) = false.
Proof. unfold needsRehash. rewrite split_hashPassword. by rewrite String.eqb_refl. Qed.

Lemma hashPassword_not_empty password salt : hashPassword password salt <> "".
Proof. unfold hashPassword. intros E. apply (f_equal String.length) in E. discriminate. Qed.

(** A stored password hash verifies the password it was made from, for
    every password and salt, and is never picked for re-hashing; so an upgrade
    of old hashes happens at most once per password. *)
Theorem hash_then_verify (password salt : string) :
  verifyPassword password (hashPassword password salt) = true /\
  needsRehash (hashPassword password salt) = false.
Proof. split; [apply verify_hashPassword | apply hashPassword_current]. Qed.
End password_lemmas.

(** Basic credentials survive the wire: the header a client builds from a
    user name without a colon and any password parses back to that pair. *)
Theorem parseBasicAuth_roundtrip (user pass : string) :
  free_of ":" user ->
  parseBasicAuth ("Basic " +:+ base64.EncodeToString base64.StdEncoding (user +:+ ":" +:+ pass))
  = Some (user, pass).
Proof.
  intros Hu. unfold parseBasicAuth.
  set (e := base64.EncodeToString base64.StdEncoding (user +:+ ":" +:+ pass)).
  change (strings.HasPrefix ("Basic " +:+ e) "Basic ") with (String.prefix "" e).
  change (strings.drop 6 ("Basic " +:+ e)) with e.
  replace (String.prefix "" e) with true by (by destruct e). cbn [negb].
  unfold e. rewrite base64.DecodeString_EncodeToString.
  change (":" +:+ pass) with (String ":" pass). by apply Cut_app_free.
Qed.

Lemma parseBasicAuth_roundtrip_witness :
  free_of ":" "kid" /\
  parseBasicAuth "Basic a2lkOmh1bnRlcjI=" = Some ("kid", "hunter2") /\
  parseBasicAuth ("Basic " +:+ base64.EncodeToString base64.StdEncoding ("kid" +:+ ":" +:+ "a:b"))
    = Some ("kid", "a:b").
Proof.
  assert (free_of ":" "kid") by (repeat split; discriminate).
  split; [done|]. split; [reflexivity|]. by apply (parseBasicAuth_roundtrip "kid" "a:b").
Defined.

(** What a header that parses looks like: the user has no colon. *)
Lemma parseBasicAuth_user header user pass :
  parseBasicAuth header = Some (user, pass) -> free_of ":" user.
Proof.
  unfold parseBasicAuth. intros H. repeat case_match; try done. by apply Cut_Some in H as [_ ?].
Qed.

(** ** A toy instance, for examples *)

Fixpoint pad_to (n : nat) (s : string) : string :=
  match n, s with
  | O, _ => EmptyString
  | S n', String a s' => String a (pad_to n' s')
  | S n', EmptyString => String "." (pad_to n' EmptyString)
  end.

Lemma pad_to_length n s : String.length (pad_to n s) = n.
Proof. revert s. induction n as [|n IH]; intros [|a s]; simpl; auto. Qed.

(** The "key" is the password followed by the salt, padded with dots. *)
Definition toy_crypto : Crypto := {|
  Sum256 s := s;
  IDKey password salt t m p n := pad_to n (password +:+ salt);
  IDKey_length password salt t m p n := pad_to_length n (password +:+ salt);
|}.
