(* ===== verification/UserTable.v ===== *)
(** * The SQLite tables and the statements the program runs on them

    The [users] table is the list of its rows in rowid order, the
    [device_tokens] table likewise.  A statement of the source is a function on
    the tables with the meaning its SQL text has.  The engine itself is outside
    the repository: any statement may fail, and [faults] says which ones do, one
    entry per statement in the order they run ([Some msg] makes the statement
    fail with that message and change nothing). *)

From S2P Require Import Prelude GoStrings.

Record Row := mkRow {
  r_username : string;
  r_password_hash : string;
  r_created_at : string;
  r_dns_server : string;
  r_dns_protocol : string;
  r_port : Z;
  r_enabled : Z;
  r_downtime_schedule : string;
  r_override_until : string;
  r_downtime_until : string;
}.

Record TokenRow := mkTokenRow {
  t_id : string;
  t_sha256 : string;
  t_name : string;
  t_created_at : string;
  t_last_seen_at : option string;
}.

(** ** Errors of the package *)

Inductive db_error :=
| ErrNoCredentials
| ErrMalformedAuth
| ErrUnknownUser
| ErrWrongPassword
| ErrUserExists
| ErrNoPortAvailable
| ErrUnknownDevice
| ErrEmptyInput
| ErrNoRows
| ErrRand
| ErrSQL (msg : string)
| Wrapped (context : string) (e : db_error).

#[global] Instance db_error_eq_dec : EqDecision db_error.
Proof. solve_decision. Defined.

(** [errors.Is]: the error itself or one it wraps. *)
Fixpoint errors_Is (e target : db_error) : bool :=
  bool_decide (e = target) || match e with Wrapped _ e' => errors_Is e' target | _ => false end.

(** The text of an engine error somewhere in the chain. *)
Fixpoint sql_message (e : db_error) : option string :=
  match e with
  | ErrSQL msg => Some msg
  | Wrapped _ e' => sql_message e'
  | _ => None
  end.

(** ** Rows *)

Section row_updates.
Context (r : Row).

Definition set_password_hash (x : string) : Row :=
  mkRow (r_username r) x (r_created_at r) (r_dns_server r) (r_dns_protocol r) (r_port r) (r_enabled r)
    (r_downtime_schedule r) (r_override_until r) (r_downtime_until r).
Definition set_dns (server protocol : string) : Row :=
  mkRow (r_username r) (r_password_hash r) (r_created_at r) server protocol (r_port r) (r_enabled r)
    (r_downtime_schedule r) (r_override_until r) (r_downtime_until r).
Definition set_port (x : Z) : Row :=
  mkRow (r_username r) (r_password_hash r) (r_created_at r) (r_dns_server r) (r_dns_protocol r) x (r_enabled r)
    (r_downtime_schedule r) (r_override_until r) (r_downtime_until r).
Definition set_enabled (x : Z) : Row :=
  mkRow (r_username r) (r_password_hash r) (r_created_at r) (r_dns_server r) (r_dns_protocol r) (r_port r) x
    (r_downtime_schedule r) (r_override_until r) (r_downtime_until r).
Definition set_downtime_schedule (x : string) : Row :=
  mkRow (r_username r) (r_password_hash r) (r_created_at r) (r_dns_server r) (r_dns_protocol r) (r_port r)
    (r_enabled r) x (r_override_until r) (r_downtime_until r).
Definition set_override_until (x : string) : Row :=
  mkRow (r_username r) (r_password_hash r) (r_created_at r) (r_dns_server r) (r_dns_protocol r) (r_port r)
    (r_enabled r) (r_downtime_schedule r) x (r_downtime_until r).
Definition set_downtime_until (x : string) : Row :=
  mkRow (r_username r) (r_password_hash r) (r_created_at r) (r_dns_server r) (r_dns_protocol r) (r_port r)
    (r_enabled r) (r_downtime_schedule r) (r_override_until r) x.
End row_updates.

(** [WHERE username = ?]; the primary key makes the row unique. *)
Definition row_of (rows : list Row) (u : string) : option Row :=
  List.find (fun r => (r_username r =? u)%string) rows.

(** [UPDATE users SET ... WHERE username = ?]. *)
Definition update_rows (rows : list Row) (u : string) (f : Row -> Row) : list Row :=
  map (fun r => if (r_username r =? u)%string then f r else r) rows.

(** [DELETE FROM users WHERE username = ?]. *)
Definition delete_rows (rows : list Row) (u : string) : list Row :=
  List.filter (fun r => negb (r_username r =? u)%string) rows.

Definition rows_affected (rows : list Row) (u : string) : nat :=
  length (List.filter (fun r => (r_username r =? u)%string) rows).

Definition usernames (rows : list Row) : list string := map r_username rows.

(** The primary-key constraint. *)
Definition unique_usernames (rows : list Row) : Prop := NoDup (usernames rows).

(** ** Lemmas *)

Definition keeps_username (f : Row -> Row) : Prop := forall r, r_username (f r) = r_username r.

Lemma row_of_username rows u r : row_of rows u = Some r -> r_username r = u.
Proof.
  unfold row_of. intros H. apply List.find_some in H as [_ H]. by apply String.eqb_eq in H.
Qed.

Lemma row_of_elem rows u r : row_of rows u = Some r -> r ∈ rows.
Proof. unfold row_of. intros H. apply List.find_some in H as [H _]. by apply list_elem_of_In. Qed.

Lemma row_of_None rows u : row_of rows u = None <-> u ∉ usernames rows.
Proof.
  induction rows as [|r rows IH]; simpl.
  - split; [|done]. intros _. apply not_elem_of_nil.
  - rewrite not_elem_of_cons. destruct (String.eqb_spec (r_username r) u); naive_solver.
Qed.

Lemma row_of_unique rows r :
  unique_usernames rows -> r ∈ rows -> row_of rows (r_username r) = Some r.
Proof.
  unfold unique_usernames. induction rows as [|r' rows IH]; intros Hu Hr; [by apply elem_of_nil in Hr|].
  simpl in Hu. apply NoDup_cons in Hu as [Hn Hu]. apply elem_of_cons in Hr as [->|Hr]; simpl.
  - by rewrite String.eqb_refl.
  - destruct (String.eqb_spec (r_username r') (r_username r)) as [E|_]; [|by apply IH].
    exfalso. apply Hn. rewrite E. by apply list_elem_of_fmap_2.
Qed.

Lemma row_of_update rows u v f :
  keeps_username f ->
  row_of (update_rows rows u f) v = if decide (u = v) then f <$> row_of rows v else row_of rows v.
Proof.
  intros Hf. induction rows as [|r rows IH]; simpl; [by case_decide|].
  destruct (String.eqb_spec (r_username r) u) as [E|E]; rewrite ?Hf;
    destruct (String.eqb_spec (r_username r) v) as [E'|E']; simpl; try done; case_decide; congruence.
Qed.

Lemma row_of_delete rows u v :
  row_of (delete_rows rows u) v = if decide (u = v) then None else row_of rows v.
Proof.
  induction rows as [|r rows IH]; simpl; [by case_decide|].
  destruct (String.eqb_spec (r_username r) u) as [E|E]; simpl;
    destruct (String.eqb_spec (r_username r) v) as [E'|E']; simpl; try done; case_decide; congruence.
Qed.

Lemma row_of_snoc rows r v :
  row_of rows (r_username r) = None ->
  row_of (rows ++ [r]) v = if decide (r_username r = v) then Some r else row_of rows v.
Proof.
  intros Hn. induction rows as [|r' rows IH]; simpl in *.
  - destruct (String.eqb_spec (r_username r) v); case_decide; congruence.
  - destruct (String.eqb_spec (r_username r') (r_username r)) as [E|E]; [done|].
    destruct (String.eqb_spec (r_username r') v) as [E'|E']; [|by apply IH].
    case_decide; congruence.
Qed.

Lemma usernames_update rows u f : keeps_username f -> usernames (update_rows rows u f) = usernames rows.
Proof.
  intros Hf. unfold usernames, update_rows. rewrite map_map. apply map_ext. intros r.
  case_match; [apply Hf|done].
Qed.

Lemma unique_update rows u f :
  keeps_username f -> unique_usernames rows -> unique_usernames (update_rows rows u f).
Proof. intros Hf. unfold unique_usernames. by rewrite usernames_update. Qed.

Lemma unique_delete rows u : unique_usernames rows -> unique_usernames (delete_rows rows u).
Proof.
  unfold unique_usernames, usernames, delete_rows. induction rows as [|r rows IH]; simpl; [done|].
  rewrite NoDup_cons. intros [Hn Hu]. destruct (String.eqb_spec (r_username r) u); simpl; [by apply IH|].
  apply NoDup_cons. split; [|by apply IH]. intros Hr. apply Hn.
  apply list_elem_of_In in Hr. apply list_elem_of_In. apply in_map_iff in Hr as (r' & Hr & Hin).
  apply filter_In in Hin as [Hin _]. apply in_map_iff. by exists r'.
Qed.

Lemma unique_snoc rows r :
  unique_usernames rows -> row_of rows (r_username r) = None -> unique_usernames (rows ++ [r]).
Proof.
  unfold unique_usernames, usernames. rewrite row_of_None. intros Hu Hn. rewrite map_app.
  apply NoDup_app. split; [done|]. split; [|apply NoDup_singleton].
  intros x Hx ->%list_elem_of_singleton. by apply Hn.
Qed.

Lemma rows_affected_0 rows u : (rows_affected rows u =? 0)%nat = true <-> row_of rows u = None.
Proof.
  unfold rows_affected. rewrite Nat.eqb_eq. induction rows as [|r rows IH]; simpl; [done|].
  destruct (String.eqb_spec (r_username r) u); simpl; [|done]. split; [lia|done].
Qed.

Lemma update_rows_absent rows u f : row_of rows u = None -> update_rows rows u f = rows.
Proof.
  induction rows as [|r rows IH]; simpl; [done|].
  destruct (String.eqb_spec (r_username r) u); [done|]. intros H. by rewrite IH.
Qed.

Lemma delete_rows_absent rows u : row_of rows u = None -> delete_rows rows u = rows.
Proof.
  induction rows as [|r rows IH]; simpl; [done|].
  destruct (String.eqb_spec (r_username r) u); [done|]. intros H. simpl. by rewrite IH.
Qed.

#[export] Hint Extern 1 (keeps_username _) => (intros ?; reflexivity) : evan.
#[export] Hint Resolve unique_update unique_delete : evan.

#[global] Arguments row_of : simpl never.
#[global] Arguments update_rows : simpl never.
#[global] Arguments delete_rows : simpl never.
#[global] Arguments rows_affected : simpl never.
