(* ===== verification/UserDB.v ===== *)
(** * The user database (pkg/userdb/userdb.go)

    [DB] is the tables with the five in-memory caches beside them and the cache
    of checked passwords.  Every method of the Go type is a definition of the
    same name in the error-and-state monad.  The mutexes make each cache access
    atomic; [time.Now] is read once per call and given as [now]. *)

From S2P Require Import Prelude GoStrings GoTime GoRFC3339 Downtime Password UserTable.

(** JSON text of a schedule, as encoding/json writes and reads it. *)
Class ScheduleCodec := {
  Marshal : DowntimeSchedule -> string;
  Unmarshal : string -> option DowntimeSchedule;
  Unmarshal_Marshal s : ValidateSchedule s = Ok tt -> Unmarshal (Marshal s) = Some s;
  Marshal_not_empty s : Marshal s <> "";
}.

(** The engine's [datetime('now')] as the driver returns it. *)
Class SQLiteClock := { datetime_now : Z -> string }.

Record cachedAuth := mkCachedAuth { passwordSHA256 : string; validUntil : Z }.

Record DNSEntry := mkDNSEntry { Server : string; Protocol : string }.

Record UserInfo := mkUserInfo {
  Username : string;
  CreatedAt : string;
  DNSServer : string;
  DNSProtocol : string;
  Port : Z;
  Enabled : bool;
  UserSchedule : DowntimeSchedule;
  DowntimeOverrideUntil : string;
  DowntimeUntil : string;
}.

Record DB := mkDB {
  users : list Row;
  device_tokens : list TokenRow;
  columns : gset string;
  faults : list (option string);
  cache : gmap string cachedAuth;
  dnsCache : gmap string DNSEntry;
  downtimeCache : gmap string DowntimeSchedule;
  overrideCache : gmap string Z;
  downtimeUntilCache : gmap string Z;
  enabledCache : gmap string bool;
}.

Section setters.
Context (d : DB).

Definition set_users (x : list Row) : DB :=
  mkDB x (device_tokens d) (columns d) (faults d) (cache d) (dnsCache d) (downtimeCache d) (overrideCache d)
    (downtimeUntilCache d) (enabledCache d).
Definition set_device_tokens (x : list TokenRow) : DB :=
  mkDB (users d) x (columns d) (faults d) (cache d) (dnsCache d) (downtimeCache d) (overrideCache d)
    (downtimeUntilCache d) (enabledCache d).
Definition set_columns (x : gset string) : DB :=
  mkDB (users d) (device_tokens d) x (faults d) (cache d) (dnsCache d) (downtimeCache d) (overrideCache d)
    (downtimeUntilCache d) (enabledCache d).
Definition set_faults (x : list (option string)) : DB :=
  mkDB (users d) (device_tokens d) (columns d) x (cache d) (dnsCache d) (downtimeCache d) (overrideCache d)
    (downtimeUntilCache d) (enabledCache d).
Definition set_cache (x : gmap string cachedAuth) : DB :=
  mkDB (users d) (device_tokens d) (columns d) (faults d) x (dnsCache d) (downtimeCache d) (overrideCache d)
    (downtimeUntilCache d) (enabledCache d).
Definition set_dnsCache (x : gmap string DNSEntry) : DB :=
  mkDB (users d) (device_tokens d) (columns d) (faults d) (cache d) x (downtimeCache d) (overrideCache d)
    (downtimeUntilCache d) (enabledCache d).
Definition set_downtimeCache (x : gmap string DowntimeSchedule) : DB :=
  mkDB (users d) (device_tokens d) (columns d) (faults d) (cache d) (dnsCache d) x (overrideCache d)
    (downtimeUntilCache d) (enabledCache d).
Definition set_overrideCache (x : gmap string Z) : DB :=
  mkDB (users d) (device_tokens d) (columns d) (faults d) (cache d) (dnsCache d) (downtimeCache d) x
    (downtimeUntilCache d) (enabledCache d).
Definition set_downtimeUntilCache (x : gmap string Z) : DB :=
  mkDB (users d) (device_tokens d) (columns d) (faults d) (cache d) (dnsCache d) (downtimeCache d)
    (overrideCache d) x (enabledCache d).
Definition set_enabledCache (x : gmap string bool) : DB :=
  mkDB (users d) (device_tokens d) (columns d) (faults d) (cache d) (dnsCache d) (downtimeCache d)
    (overrideCache d) (downtimeUntilCache d) x.
End setters.

Definition Op (A : Type) : Type := M DB db_error A.

(** ** Statements *)

(** One statement: it fails if the engine says so, and runs otherwise. *)
Definition sql {A} (run : DB -> result db_error A * DB) : M DB db_error A := fun d =>
  match faults d with
  | Some msg :: fs => (Err (ErrSQL msg), set_faults d fs)
  | None :: fs => run (set_faults d fs)
  | [] => run d
  end.

Definition query {A} (f : DB -> A) : M DB db_error A := sql (fun d => (Ok (f d), d)).

(** A statement that rewrites the rows WHERE username = ?, with its affected rows. *)
Definition exec_where (u : string) (g : list Row -> list Row) : M DB db_error nat :=
  sql (fun d => (Ok (rows_affected (users d) u), set_users d (g (users d)))).

Definition exec_update (u : string) (f : Row -> Row) : M DB db_error nat :=
  exec_where u (fun rows => update_rows rows u f).

Definition exec_delete (u : string) : M DB db_error nat :=
  exec_where u (fun rows => delete_rows rows u).

Definition unique_failure : string := "UNIQUE constraint failed: users.username".

Definition exec_insert (r : Row) : M DB db_error unit :=
  sql (fun d => match row_of (users d) (r_username r) with
                | Some _ => (Err (ErrSQL unique_failure), d)
                | None => (Ok tt, set_users d (users d ++ [r]))
                end).

(** The pattern [res, err := Exec(...); if err ...; if n == 0 { ErrUnknownUser }]. *)
Definition affected_user (context u : string) (exec : M DB db_error nat) : M DB db_error unit :=
  n ← wrap (Wrapped context) exec;
  if (n =? 0)%nat then throw (Wrapped u ErrUnknownUser) else mret tt.

(** ** Schema migration *)

(** [ALTER TABLE users ADD COLUMN c ... DEFAULT v], when [c] is missing. *)
Definition add_column (cols : gset string) (c : string) (default_ : Row -> Row) : M DB db_error unit :=
  if bool_decide (c ∈ cols) then mret tt
  else wrap (Wrapped ("adding " +:+ c +:+ " column")) (sql (fun d =>
    (Ok tt, set_columns (set_users d (map default_ (users d))) ({[c]} ∪ columns d)))).

Definition migrate : M DB db_error unit :=
  cols ← query columns;
  _ ← add_column cols "dns_server" (fun r => set_dns r "" (r_dns_protocol r));
  _ ← add_column cols "dns_protocol" (fun r => set_dns r (r_dns_server r) "");
  _ ← add_column cols "port" (fun r => set_port r 0);
  _ ← add_column cols "enabled" (fun r => set_enabled r 1);
  _ ← add_column cols "downtime_schedule" (fun r => set_downtime_schedule r "");
  _ ← add_column cols "downtime_override_until" (fun r => set_override_until r "");
  add_column cols "downtime_until" (fun r => set_downtime_until r "").

(** ** Loading the caches *)

(** A load loop: rows in table order, each adding at most one entry. *)
Definition load_rows {A} (f : Row -> option A) (rows : list Row) (m : gmap string A) : gmap string A :=
  foldl (fun m r => match f r with Some a => <[r_username r := a]> m | None => m end) m rows.

Definition row_dns (r : Row) : option DNSEntry :=
  if (r_dns_server r =? "")%string then None else Some (mkDNSEntry (r_dns_server r) (r_dns_protocol r)).

Definition row_enabled (r : Row) : bool := negb (r_enabled r =? 0).

(** A stored expiry is loaded only while it lies in the future. *)
Definition raw_until (now : Z) (raw : string) : option Z :=
  if (raw =? "")%string then None else
  match rfc3339.Parse raw with
  | None => None
  | Some t => if time.After t now then Some t else None
  end.

Section userdb.
Context {crypto : Crypto} {codec : ScheduleCodec} {sqlite : SQLiteClock}.

Definition row_schedule (r : Row) : option DowntimeSchedule :=
  if (r_downtime_schedule r =? "")%string then None else Unmarshal (r_downtime_schedule r).

Definition loadDNSCache : M DB db_error unit :=
  rows ← query users;
  modify (fun d => set_dnsCache d (load_rows row_dns rows (dnsCache d))).

Definition loadDowntimeCache : M DB db_error unit :=
  rows ← query users;
  modify (fun d => set_downtimeCache d (load_rows row_schedule rows (downtimeCache d))).

Definition loadOverrideCache (now : Z) : M DB db_error unit :=
  rows ← query users;
  modify (fun d => set_overrideCache d
    (load_rows (fun r => raw_until now (r_override_until r)) rows (overrideCache d))).

Definition loadDowntimeUntilCache (now : Z) : M DB db_error unit :=
  rows ← query users;
  modify (fun d => set_downtimeUntilCache d
    (load_rows (fun r => raw_until now (r_downtime_until r)) rows (downtimeUntilCache d))).

Definition loadEnabledCache : M DB db_error unit :=
  rows ← query users;
  modify (fun d => set_enabledCache d
    (load_rows (fun r => Some (row_enabled r)) rows (enabledCache d))).

(** The two CREATE TABLE IF NOT EXISTS statements; without a users table there
    are no columns yet. *)
Definition create_users : M DB db_error unit :=
  sql (fun d => (Ok tt, if bool_decide (columns d = ∅)
                        then set_columns d {["username"; "password_hash"; "created_at"]} else d)).

Definition create_device_tokens : M DB db_error unit := sql (fun d => (Ok tt, d)).

(** [Open] on a database file: the tables, fresh caches, migration, the loads. *)
Definition Open (rows : list Row) (tokens : list TokenRow) (cols : gset string)
    (fs : list (option string)) (now : Z) : result db_error unit * DB :=
  (_ ← wrap (Wrapped "creating users table") create_users;
   _ ← wrap (Wrapped "creating device_tokens table") create_device_tokens;
   _ ← wrap (Wrapped "migrating database") migrate;
   _ ← wrap (Wrapped "loading DNS cache") loadDNSCache;
   _ ← wrap (Wrapped "loading downtime cache") loadDowntimeCache;
   _ ← wrap (Wrapped "loading override cache") (loadOverrideCache now);
   _ ← wrap (Wrapped "loading downtime-until cache") (loadDowntimeUntilCache now);
   wrap (Wrapped "loading enabled cache") loadEnabledCache)
  (mkDB rows tokens cols fs ∅ ∅ ∅ ∅ ∅ ∅).

(** ** Per-user settings *)

Definition GetDNS (d : DB) (username : string) : string * string :=
  match dnsCache d !! username with
  | Some e => (Server e, Protocol e)
  | None => ("", "")
  end.

Definition UpdateDNS (username server protocol : string) : M DB db_error unit :=
  _ ← affected_user "updating DNS config" username
        (exec_update username (fun r => set_dns r server protocol));
  modify (fun d => set_dnsCache d
    (if (server =? "")%string then delete username (dnsCache d)
     else <[username := mkDNSEntry server protocol]> (dnsCache d))).

Definition GetDowntime (d : DB) (username : string) : DowntimeSchedule :=
  default ∅ (downtimeCache d !! username).

Definition UpdateDowntime (username : string) (schedule : DowntimeSchedule) : M DB db_error unit :=
  let raw := if (0 <? size schedule)%nat then Marshal schedule else "" in
  _ ← affected_user "updating downtime schedule" username
        (exec_update username (fun r => set_downtime_schedule r raw));
  modify (fun d => set_downtimeCache d
    (if (size schedule =? 0)%nat then delete username (downtimeCache d)
     else <[username := schedule]> (downtimeCache d))).

Definition GetDowntimeOverride (d : DB) (username : string) : Z :=
  default time.zero (overrideCache d !! username).

Definition SetDowntimeOverride (username : string) (until : Z) : M DB db_error unit :=
  let raw := rfc3339.Format until in
  _ ← affected_user "setting downtime override" username
        (exec_update username (fun r => set_override_until r raw));
  modify (fun d => set_overrideCache d (<[username := until]> (overrideCache d))).

Definition ClearDowntimeOverride (username : string) : M DB db_error unit :=
  _ ← affected_user "clearing downtime override" username
        (exec_update username (fun r => set_override_until r ""));
  modify (fun d => set_overrideCache d (delete username (overrideCache d))).

Definition GetDowntimeUntil (d : DB) (username : string) : Z :=
  default time.zero (downtimeUntilCache d !! username).

Definition SetDowntimeUntil (username : string) (until : Z) : M DB db_error unit :=
  let raw := rfc3339.Format until in
  _ ← affected_user "setting downtime_until" username
        (exec_update username (fun r => set_downtime_until r raw));
  modify (fun d => set_downtimeUntilCache d (<[username := until]> (downtimeUntilCache d))).

Definition ClearDowntimeUntil (username : string) : M DB db_error unit :=
  _ ← affected_user "clearing downtime_until" username
        (exec_update username (fun r => set_downtime_until r ""));
  modify (fun d => set_downtimeUntilCache d (delete username (downtimeUntilCache d))).

Definition IsInDowntime (loc : time.Location) (now : Z) (d : DB) (username : string) : bool :=
  let adHoc := GetDowntimeUntil d username in
  if negb (time.IsZero adHoc) && time.Before now adHoc then true else
  let override := GetDowntimeOverride d username in
  if negb (time.IsZero override) && time.Before now override then false else
  let sched := GetDowntime d username in
  if (size sched =? 0)%nat then false else isInDowntime loc sched now.

(** ** Users *)

(** The loop [for p := min; p <= max; p++]; fuel is the size of the range. *)
Fixpoint first_free (fuel : nat) (p max : Z) (used : gset Z) : option Z :=
  match fuel with
  | O => None
  | S fuel' =>
      if max <? p then None
      else if bool_decide (p ∈ used) then first_free fuel' (p + 1) max used
      else Some p
  end.

Definition used_ports (min max : Z) (rows : list Row) : gset Z :=
  list_to_set (filter (fun p => min <= p /\ p <= max) (map r_port rows)).

Definition nextAvailablePort (min max : Z) : M DB db_error Z :=
  used ← wrap (Wrapped "querying ports") (query (fun d => used_ports min max (users d)));
  match first_free (Z.to_nat (max - min + 1)) min max used with
  | Some p => mret p
  | None => throw ErrNoPortAvailable
  end.

Definition insert_error (username : string) (e : db_error) : db_error :=
  match sql_message e with
  | Some msg => if strings.Contains msg "UNIQUE constraint" then Wrapped username ErrUserExists
                else Wrapped "inserting user" e
  | None => Wrapped "inserting user" e
  end.

(** The row an INSERT of name, hash and port creates: the column defaults. *)
Definition new_row (now : Z) (username hash : string) (port : Z) : Row :=
  mkRow username hash (datetime_now now) "" "" port 1 "" "" "".

(** [salt] is the outcome of [rand.Read]. *)
Definition Add (username password : string) (portMin portMax : Z) (salt : option string) (now : Z)
    : M DB db_error Z :=
  if (username =? "")%string || (password =? "")%string then throw ErrEmptyInput else
  match salt with
  | None => throw (Wrapped "hashing password" ErrRand)
  | Some salt =>
      let hash := hashPassword password salt in
      port ← nextAvailablePort portMin portMax;
      _ ← wrap (insert_error username) (exec_insert (new_row now username hash port));
      _ ← modify (fun d => set_enabledCache d (<[username := true]> (enabledCache d)));
      mret port
  end.

Definition SetEnabled (username : string) (enabled : bool) : M DB db_error unit :=
  let val := if enabled then 1 else 0 in
  _ ← affected_user "updating enabled" username (exec_update username (fun r => set_enabled r val));
  modify (fun d => set_enabledCache d (<[username := enabled]> (enabledCache d))).

Definition IsEnabled (d : DB) (username : string) : bool :=
  default false (enabledCache d !! username).

Definition Delete (username : string) : M DB db_error unit :=
  _ ← affected_user "deleting user" username (exec_delete username);
  _ ← modify (fun d => set_cache d (delete username (cache d)));
  _ ← modify (fun d => set_dnsCache d (delete username (dnsCache d)));
  _ ← modify (fun d => set_downtimeCache d (delete username (downtimeCache d)));
  _ ← modify (fun d => set_overrideCache d (delete username (overrideCache d)));
  modify (fun d => set_enabledCache d (delete username (enabledCache d))).

Definition ChangePassword (username newPassword : string) (salt : option string) : M DB db_error unit :=
  if (newPassword =? "")%string then throw ErrEmptyInput else
  match salt with
  | None => throw (Wrapped "hashing password" ErrRand)
  | Some salt =>
      let hash := hashPassword newPassword salt in
      _ ← affected_user "updating password" username
            (exec_update username (fun r => set_password_hash r hash));
      modify (fun d => set_cache d (delete username (cache d)))
  end.

Definition name_le (a b : Row) : Prop := String.leb (r_username a) (r_username b) = true.

#[global] Instance name_le_dec : RelDecision name_le.
Proof. intros a b. unfold name_le. apply _. Defined.

(** A stored expiry is shown, as stored, only while it lies in the future. *)
Definition shown_until (now : Z) (raw : string) : string :=
  match raw_until now raw with Some _ => raw | None => "" end.

Definition user_info (now : Z) (r : Row) : UserInfo :=
  mkUserInfo (r_username r) (r_created_at r) (r_dns_server r) (r_dns_protocol r) (r_port r) (row_enabled r)
    (default ∅ (row_schedule r)) (shown_until now (r_override_until r)) (shown_until now (r_downtime_until r)).

(** [SELECT ... ORDER BY username]. *)
Definition List_ (now : Z) : M DB db_error (list UserInfo) :=
  rows ← wrap (Wrapped "listing users") (query (fun d => merge_sort name_le (users d)));
  mret (map (user_info now) rows).

Definition ListPorts : M DB db_error (gmap Z string) :=
  rows ← wrap (Wrapped "listing ports") (query (fun d => filter (fun r => 0 < r_port r) (users d)));
  mret (foldl (fun m r => <[r_port r := r_username r]> m) ∅ rows).

Definition UpdatePort (username : string) (port : Z) : M DB db_error unit :=
  affected_user "updating port" username (exec_update username (fun r => set_port r port)).

Definition PortOwner (port : Z) : M DB db_error string :=
  r ← wrap (Wrapped "querying port owner")
        (query (fun d => List.find (fun r => r_port r =? port) (users d)));
  mret (match r with Some r => r_username r | None => "" end).

(** ** Checking a Proxy-Authorization header *)

Definition cacheTTL : Z := 5 * time.Minute.

(** What the header and the cache decide before the database is asked. *)
Inductive check_start :=
| Decided (r : result db_error string)
| AskDB (user pass : string).

Definition check_cache (d : DB) (now : Z) (header : string) : check_start :=
  if (header =? "")%string then Decided (Err ErrNoCredentials) else
  match parseBasicAuth header with
  | None => Decided (Err ErrMalformedAuth)
  | Some (user, pass) =>
      match cache d !! user with
      | Some cached =>
          if time.Before now (validUntil cached) then
            if (Sum256 pass =? passwordSHA256 cached)%string then Decided (Ok user)
            else Decided (Err (Wrapped user ErrWrongPassword))
          else AskDB user pass
      | None => AskDB user pass
      end
  end.

Definition select_hash (user : string) : M DB db_error string :=
  sql (fun d => match row_of (users d) user with
                | Some r => (Ok (r_password_hash r), d)
                | None => (Err ErrNoRows, d)
                end).

Definition select_error (user : string) (e : db_error) : db_error :=
  match e with ErrNoRows => Wrapped user ErrUnknownUser | _ => Wrapped "querying user" e end.

(** An [Exec] whose results are ignored. *)
Definition ignore {A} (m : M DB db_error A) : M DB db_error unit := fun d => (Ok tt, snd (m d)).

(** After the stored hash was read: verify, upgrade the hash, fill the cache. *)
Definition check_finish (user pass storedHash : string) (salt : option string) (now : Z)
    : M DB db_error string :=
  if negb (verifyPassword pass storedHash) then throw (Wrapped user ErrWrongPassword) else
  _ ← (if needsRehash storedHash then
         match salt with
         | Some salt => ignore (exec_update user (fun r => set_password_hash r (hashPassword pass salt)))
         | None => mret tt
         end
       else mret tt);
  _ ← modify (fun d => set_cache d
        (<[user := mkCachedAuth (Sum256 pass) (time.Add now cacheTTL)]> (cache d)));
  mret user.

Definition Check (header : string) (salt : option string) (now : Z) : M DB db_error string :=
  d ← get;
  match check_cache d now header with
  | Decided (Ok user) => mret user
  | Decided (Err e) => throw e
  | AskDB user pass =>
      storedHash ← wrap (select_error user) (select_hash user);
      check_finish user pass storedHash salt now
  end.

End userdb.
