(* ===== verification/UserDBLemmas.v ===== *)
(** * What the statements and methods of the user database do to its state

    Shared lemmas: a failed statement changes nothing but the list of pending
    faults, and a successful one changes one user. *)

From S2P Require Import Prelude GoStrings GoTime GoRFC3339 Downtime Password UserTable UserDB.

(** The state after statements that failed or only read. *)
Definition only_faults (d d' : DB) : Prop := exists fs, d' = set_faults d fs.

#[global] Instance only_faults_refl : Reflexive only_faults.
Proof. intros []. by eexists. Qed.

#[global] Instance only_faults_trans : Transitive only_faults.
Proof. intros d1 d2 d3 [fs ->] [fs' ->]. by exists fs'. Qed.

Lemma set_faults_id d : set_faults d (faults d) = d.
Proof. by destruct d. Qed.

Lemma sql_inv {A} (run : DB -> result db_error A * DB) d r d' :
  sql run d = (r, d') ->
  (exists msg, r = Err (ErrSQL msg) /\ only_faults d d') \/
  (exists fs, run (set_faults d fs) = (r, d')).
Proof.
  unfold sql. destruct (faults d) as [|[msg|] fs] eqn:E; intros H; simplify_eq.
  - right. exists []. by rewrite <- E, set_faults_id.
  - left. exists msg. split; [done|]. by exists fs.
  - right. by exists fs.
Qed.

Lemma query_inv {A} (f : DB -> A) d r d' :
  (forall fs, f (set_faults d fs) = f d) ->
  query f d = (r, d') ->
  only_faults d d' /\ (r = Ok (f d) \/ exists msg, r = Err (ErrSQL msg)).
Proof.
  intros Hf [(msg & -> & Ho)|(fs & H)]%sql_inv; [eauto|].
  simplify_eq. rewrite Hf. split; [by exists fs|auto].
Qed.

Lemma wrap_inv {A} (f : db_error -> db_error) (m : M DB db_error A) d r d' :
  wrap f m d = (r, d') ->
  (exists a, r = Ok a /\ m d = (Ok a, d')) \/ (exists e, r = Err (f e) /\ m d = (Err e, d')).
Proof. unfold wrap. destruct (m d) as [[a|e] d1] eqn:E; intros H; simplify_eq; eauto. Qed.

Lemma bind_inv {A B} (m : M DB db_error A) (k : A -> M DB db_error B) d r d' :
  (x ← m; k x) d = (r, d') ->
  (exists a d1, m d = (Ok a, d1) /\ k a d1 = (r, d')) \/ (exists e, m d = (Err e, d') /\ r = Err e).
Proof.
  unfold mbind, M_bind. destruct (m d) as [[a|e] d1] eqn:E; intros H; simplify_eq; eauto 6.
Qed.

Lemma set_users_id d fs : set_users (set_faults d fs) (users d) = set_faults d fs.
Proof. by destruct d. Qed.

(** A rewriting of the rows of one user, such as an UPDATE or a DELETE. *)
Definition rewrites_user (u : string) (g : list Row -> list Row) : Prop :=
  forall rows, row_of rows u = None -> g rows = rows.

Lemma update_rewrites u f : rewrites_user u (fun rows => update_rows rows u f).
Proof. intros rows. apply update_rows_absent. Qed.

Lemma delete_rewrites u : rewrites_user u (fun rows => delete_rows rows u).
Proof. intros rows. apply delete_rows_absent. Qed.

#[export] Hint Resolve update_rewrites delete_rewrites : evan.

(** The call returned an error and changed nothing: the user does not exist, or
    the engine failed. *)
Definition rejected (ctx u : string) (d : DB) (r : result db_error unit) (d' : DB) : Prop :=
  exists e, r = Err e /\ only_faults d d' /\
    (e = Wrapped u ErrUnknownUser /\ row_of (users d) u = None \/ exists msg, e = Wrapped ctx (ErrSQL msg)).

Lemma affected_user_inv ctx u g d r d' :
  rewrites_user u g ->
  affected_user ctx u (exec_where u g) d = (r, d') ->
  rejected ctx u d r d' \/
  exists row fs, r = Ok tt /\ row_of (users d) u = Some row /\
    d' = set_users (set_faults d fs) (g (users d)).
Proof.
  intros Hg. unfold affected_user, rejected.
  intros [(n & d1 & [(? & ? & H)|(? & ? & H)]%wrap_inv & Hk)|(e & H & ->)]%bind_inv; simplify_eq.
  - apply sql_inv in H as [(? & ? & ?)|(fs & H)]; [done|]. simplify_eq/=.
    destruct (rows_affected (users d) u =? 0)%nat eqn:E.
    + left. apply rows_affected_0 in E. unfold throw in Hk. simplify_eq.
      eexists. split; [done|]. rewrite Hg by done. split; [by exists fs; rewrite set_users_id|auto].
    + right. unfold mret, M_ret in Hk. simplify_eq.
      destruct (row_of (users d) u) as [row|] eqn:Er; [by exists row, fs|].
      apply rows_affected_0 in Er. congruence.
  - apply wrap_inv in H as [(? & ? & ?)|(e' & [= ->] & H)]; [done|].
    apply sql_inv in H as [(msg & [= ->] & ?)|(fs & H)]; [|done]. left. eexists. split; [done|]. eauto.
Qed.

(** A statement on one user followed by the matching cache update. *)
Lemma write_through_inv ctx u g h d r d' :
  rewrites_user u g ->
  (_ ← affected_user ctx u (exec_where u g); modify h) d = (r, d') ->
  rejected ctx u d r d' \/
  exists row fs, r = Ok tt /\ row_of (users d) u = Some row /\
    d' = h (set_users (set_faults d fs) (g (users d))).
Proof.
  intros Hg [(a & d1 & H & Hk)|(e & H & ->)]%bind_inv; apply affected_user_inv in H as [H|H]; try done.
  - by destruct H as (? & ? & _).
  - destruct H as (row & fs & _ & Hr & ->). unfold modify in Hk. simplify_eq. right. eauto.
  - by left.
  - by destruct H as (? & ? & ? & _).
Qed.

(** The converse: with a row and no fault, the call succeeds. *)
Lemma write_through_ok ctx u g h d row :
  faults d = [] -> row_of (users d) u = Some row ->
  (_ ← affected_user ctx u (exec_where u g); modify h) d = (Ok tt, h (set_users d (g (users d)))).
Proof.
  intros Hf Hr. unfold affected_user, exec_where, wrap, sql, mbind, M_bind. rewrite Hf. cbn.
  destruct (rows_affected (users d) u =? 0)%nat eqn:E; [|done].
  apply rows_affected_0 in E. congruence.
Qed.

(** ** What the program can observe of one user *)

Record user_view := mkView {
  v_row : option Row;
  v_cache : option cachedAuth;
  v_dns : option DNSEntry;
  v_schedule : option DowntimeSchedule;
  v_override : option Z;
  v_until : option Z;
  v_enabled : option bool;
}.

Definition view (d : DB) (u : string) : user_view :=
  mkView (row_of (users d) u) (cache d !! u) (dnsCache d !! u) (downtimeCache d !! u) (overrideCache d !! u)
    (downtimeUntilCache d !! u) (enabledCache d !! u).

Lemma view_only_faults d d' u : only_faults d d' -> view d' u = view d u.
Proof. by intros [fs ->]. Qed.

Lemma rejected_view ctx u d r d' v : rejected ctx u d r d' -> view d' v = view d v.
Proof. intros (e & _ & Ho & _). by apply view_only_faults. Qed.

Lemma only_faults_users d d' : only_faults d d' -> users d' = users d.
Proof. by intros [fs ->]. Qed.

#[export] Hint Resolve view_only_faults rejected_view : evan.

(** ** Methods that only the engine can make fail *)

Definition quiet {A} (m : M DB db_error A) : Prop :=
  forall d, faults d = [] -> exists a d', m d = (Ok a, d') /\ faults d' = [].

Section quiet.
Context {A B : Type}.

Lemma quiet_ret (a : A) : quiet (mret a : M DB db_error A).
Proof. intros d Hd. by exists a, d. Qed.

Lemma quiet_bind (m : M DB db_error A) (k : A -> M DB db_error B) :
  quiet m -> (forall a, quiet (k a)) -> quiet (x ← m; k x).
Proof.
  intros Hm Hk d Hd. unfold mbind, M_bind. destruct (Hm d Hd) as (a & d1 & -> & Hd1). by apply Hk.
Qed.

Lemma quiet_wrap f (m : M DB db_error A) : quiet m -> quiet (wrap f m).
Proof. intros Hm d Hd. unfold wrap. destruct (Hm d Hd) as (a & d1 & -> & Hd1). eauto. Qed.

Lemma quiet_query (f : DB -> A) : quiet (query f).
Proof. intros d Hd. unfold query, sql. rewrite Hd. eauto. Qed.
End quiet.

Lemma quiet_exec f : (forall d, faults (f d) = faults d) -> quiet (sql (fun d => (Ok tt, f d))).
Proof. intros Hf d Hd. unfold sql. rewrite Hd. do 2 eexists. split; [done|]. by rewrite Hf. Qed.

Lemma quiet_modify f : (forall d, faults (f d) = faults d) -> quiet (modify f).
Proof. intros Hf d Hd. do 2 eexists. split; [done|]. by rewrite Hf. Qed.

Lemma quiet_add_column cols c f : quiet (add_column cols c f).
Proof.
  unfold add_column. case_bool_decide; [apply quiet_ret|]. apply quiet_wrap. by apply quiet_exec.
Qed.

#[export] Hint Resolve quiet_ret quiet_bind quiet_wrap quiet_query quiet_add_column : evan.
#[export] Hint Extern 2 (quiet (sql _)) => (apply quiet_exec; intros ?; repeat case_match; reflexivity) : evan.
#[export] Hint Extern 2 (quiet (modify _)) => (apply quiet_modify; intros ?; repeat case_match; reflexivity) : evan.
