(* ===== verification/UserDBOps.v ===== *)
(** * Functional behaviour of the user database, method by method

    Each method either is rejected with the state untouched (but for pending
    faults) or has exactly one effect.  From this follow: a method on one user
    never changes what is observable of another, port assignment, and the
    soundness of [Check]. *)

From S2P Require Import Prelude GoStrings GoTime GoRFC3339 Downtime Password UserTable UserDB UserDBLemmas.

(** Closes the case of a call that returned an error and changed nothing. *)
Ltac refused := left; split; [by eexists | first [reflexivity | by eexists | done]].

(** ** Port assignment *)

Lemma first_free_Some fuel p max used q :
  first_free fuel p max used = Some q ->
  p <= q <= max /\ (q ∉ used) /\ (forall x, p <= x < q -> x ∈ used).
Proof.
  revert p. induction fuel as [|fuel IH]; intros p; simpl; [done|].
  destruct (Z.ltb_spec max p); [done|]. case_bool_decide as Hp.
  - intros (? & ? & Hx)%IH. split; [lia|]. split; [done|]. intros x Hxq.
    destruct (decide (x = p)) as [->|]; [done|]. apply Hx. lia.
  - intros [= <-]. split; [lia|]. split; [done|]. intros x ?. lia.
Qed.

Lemma first_free_None fuel p max used :
  max - p < Z.of_nat fuel -> first_free fuel p max used = None -> forall x, p <= x <= max -> x ∈ used.
Proof.
  revert p. induction fuel as [|fuel IH]; intros p Hf; [lia|]. simpl.
  destruct (Z.ltb_spec max p); [intros; lia|]. case_bool_decide as Hp; [|done].
  intros Hn x Hx. destruct (decide (x = p)) as [->|]; [done|]. apply (IH (p + 1)); [lia|done|lia].
Qed.

Lemma elem_of_used_ports lo hi rows p :
  p ∈ used_ports lo hi rows <-> (lo <= p <= hi /\ exists r, r ∈ rows /\ r_port r = p).
Proof.
  unfold used_ports. rewrite elem_of_list_to_set, list_elem_of_filter, list_elem_of_In, in_map_iff.
  setoid_rewrite list_elem_of_In. naive_solver.
Qed.

(** No two users share a dedicated port. *)
Definition unique_ports (rows : list Row) : Prop :=
  pairwise (fun r1 r2 => r_port r1 = 0 \/ r_port r1 <> r_port r2) rows.

(** The port [nextAvailablePort] would pick from these rows. *)
Definition free_port (lo hi : Z) (rows : list Row) : option Z :=
  first_free (Z.to_nat (hi - lo + 1)) lo hi (used_ports lo hi rows).

Section ops.
Context {crypto : Crypto} {codec : ScheduleCodec} {sqlite : SQLiteClock}.

Lemma nextAvailablePort_inv lo hi d r d' :
  nextAvailablePort lo hi d = (r, d') ->
  only_faults d d' /\
  ((exists p, r = Ok p /\ free_port lo hi (users d) = Some p) \/
   (r = Err ErrNoPortAvailable /\ free_port lo hi (users d) = None) \/
   (exists msg, r = Err (Wrapped "querying ports" (ErrSQL msg)))).
Proof.
  unfold nextAvailablePort, free_port. intros [(used & d1 & H & Hk)|(e & H & ->)]%bind_inv;
    (apply wrap_inv in H as [(? & ? & H)|(? & ? & H)]; simplify_eq);
    apply query_inv in H as [Ho Hr]; try done.
  - destruct Hr as [[= ->]|(? & ?)]; [|done].
    destruct (first_free _ _ _ _); unfold mret, M_ret, throw in Hk; simplify_eq; eauto.
  - destruct Hr as [?|(msg & [= ->])]; [done|]. split; [done|]. right. right. by exists msg.
Qed.

Lemma Add_inv u p lo hi salt now d r d' :
  Add u p lo hi salt now d = (r, d') ->
  ((exists e, r = Err e) /\ only_faults d d') \/
  exists s port fs, salt = Some s /\ r = Ok port /\ u <> "" /\ p <> "" /\
    row_of (users d) u = None /\ free_port lo hi (users d) = Some port /\
    d' = set_enabledCache
           (set_users (set_faults d fs) (users d ++ [new_row now u (hashPassword p s) port]))
           (<[u := true]> (enabledCache d)).
Proof.
  unfold Add. destruct ((u =? "")%string || (p =? "")%string) eqn:E.
  { unfold throw. intros H. simplify_eq. refused. }
  destruct salt as [s|]; [|unfold throw; intros H; simplify_eq; refused].
  intros [(port & d1 & H & Hk)|(e & H & ->)]%bind_inv; apply nextAvailablePort_inv in H as [Ho Hr]; [|eauto].
  destruct Hr as [(? & [= <-] & Hp)|[[? _]|(? & ?)]]; try done.
  apply bind_inv in Hk as [([] & d2 & H & Hk)|(e & H & ->)].
  - apply wrap_inv in H as [(? & ? & H)|(? & ? & H)]; [|done].
    apply sql_inv in H as [(? & ? & _)|(fs & H)]; [done|].
    destruct Ho as [fs' ->]. cbn in H. destruct (row_of (users d) u) eqn:Er in H; [done|]. unfold mbind, M_bind, modify, mret, M_ret in Hk. simplify_eq/=.
    right. exists s, port, fs. reflect_bools. done.
  - left. split; [eauto|]. apply wrap_inv in H as [(? & ? & _)|(? & ? & H)]; [done|].
    etrans; [exact Ho|]. apply sql_inv in H as [(? & _ & ?)|(fs & H)]; [done|].
    destruct (row_of _ _) in H; simplify_eq. by exists fs.
Qed.

Lemma Delete_inv u d r d' :
  Delete u d = (r, d') ->
  rejected "deleting user" u d r d' \/
  exists row fs, r = Ok tt /\ row_of (users d) u = Some row /\
    d' = mkDB (delete_rows (users d) u) (device_tokens d) (columns d) fs (delete u (cache d))
           (delete u (dnsCache d)) (delete u (downtimeCache d)) (delete u (overrideCache d))
           (downtimeUntilCache d) (delete u (enabledCache d)).
Proof.
  unfold Delete. intros [(a & d1 & H & Hk)|(e & H & ->)]%bind_inv;
    apply affected_user_inv in H as [H|H]; auto using delete_rewrites.
  - by destruct H as (? & ? & _).
  - destruct H as (row & fs & _ & Hr & ->). unfold mbind, M_bind, modify in Hk. simplify_eq/=.
    right. eauto.
  - by destruct H as (? & ? & ? & _).
Qed.

Lemma ChangePassword_inv u p salt d r d' :
  ChangePassword u p salt d = (r, d') ->
  ((exists e, r = Err e) /\ only_faults d d') \/
  exists s row fs, salt = Some s /\ r = Ok tt /\ row_of (users d) u = Some row /\
    d' = set_cache (set_users (set_faults d fs)
           (update_rows (users d) u (fun r => set_password_hash r (hashPassword p s)))) (delete u (cache d)).
Proof.
  unfold ChangePassword. destruct (p =? "")%string; [unfold throw; intros H; simplify_eq; refused|].
  destruct salt as [s|]; [|unfold throw; intros H; simplify_eq; refused].
  intros H. apply write_through_inv in H as [(e & -> & ? & _)|(row & fs & -> & Hr & ->)];
    auto using update_rewrites; [eauto|]. right. exists s, row, fs. done.
Qed.

(** The finishing half of [Check]: refuse, or remember the password and maybe
    re-hash it. *)
Lemma check_finish_inv user pass stored salt now d r d' :
  check_finish user pass stored salt now d = (r, d') ->
  (verifyPassword pass stored = false /\ r = Err (Wrapped user ErrWrongPassword) /\ d' = d) \/
  (verifyPassword pass stored = true /\ r = Ok user /\ exists rows' fs',
    (rows' = users d \/ exists s, salt = Some s /\ needsRehash stored = true /\
       rows' = update_rows (users d) user (fun r => set_password_hash r (hashPassword pass s))) /\
    d' = set_cache (set_users (set_faults d fs') rows')
           (<[user := mkCachedAuth (Sum256 pass) (now + cacheTTL)]> (cache d))).
Proof.
  unfold check_finish. destruct (verifyPassword pass stored); cbn [negb];
    [|unfold throw; intros H; simplify_eq; by left].
  unfold mbind, M_bind, modify, ignore, mret, M_ret. intros H. right. split; [done|].
  destruct (needsRehash stored) eqn:En; [destruct salt as [s|]|]; simplify_eq/=;
    [|split; [done|]; exists (users d), (faults d); destruct d; auto..].
  destruct (exec_update user _ d) as [r2 d2] eqn:Ex. simplify_eq/=. split; [done|].
  apply sql_inv in Ex as [(? & _ & [fs' ->])|(fs' & Ex)].
  - exists (users d), fs'. destruct d; auto.
  - simplify_eq/=. do 2 eexists. split; [|done]. right. eauto.
Qed.

(** What [Check] does: decide without touching the state, or accept a password
    that verifies against the stored hash, remember it, and maybe re-hash it. *)
Lemma Check_inv header salt now d r d' :
  Check header salt now d = (r, d') ->
  (only_faults d d' /\
    ((exists e, r = Err e) \/
     exists user pass c, r = Ok user /\ parseBasicAuth header = Some (user, pass) /\
       cache d !! user = Some c /\ now < validUntil c /\ Sum256 pass = passwordSHA256 c)) \/
  exists user pass row rows' fs, parseBasicAuth header = Some (user, pass) /\ r = Ok user /\
    row_of (users d) user = Some row /\ verifyPassword pass (r_password_hash row) = true /\
    (rows' = users d \/ exists s, salt = Some s /\ needsRehash (r_password_hash row) = true /\
       rows' = update_rows (users d) user (fun r => set_password_hash r (hashPassword pass s))) /\
    d' = set_cache (set_users (set_faults d fs) rows')
           (<[user := mkCachedAuth (Sum256 pass) (now + cacheTTL)]> (cache d)).
Proof.
  unfold Check. intros [(d0 & d1 & H & Hk)|(e & H & _)]%bind_inv; [|done].
  injection H as <- <-. destruct (check_cache d now header) as [r0|user pass] eqn:E.
  - left. assert (d = d' /\ r0 = r) as [-> ->].
    { destruct r0; unfold mret, M_ret, throw in Hk; by simplify_eq. }
    split; [done|]. unfold check_cache in E. go_cases; eauto.
    right. reflect_bools. unfold time.Before in *. reflect_bools. naive_solver.
  - assert (parseBasicAuth header = Some (user, pass)) as Hp by (unfold check_cache in E; go_cases).
    apply bind_inv in Hk as [(stored & d2 & H & Hk)|(e & H & ->)];
      (apply wrap_inv in H as [(? & ? & H)|(? & ? & H)]; simplify_eq);
      apply sql_inv in H as [(? & ? & ?)|(fs & H)]; simplify_eq; eauto.
    all: cbn in H; destruct (row_of (users d) user) as [row|] eqn:Er in H; simplify_eq.
    2: { left. split; [by exists fs|eauto]. }
    apply check_finish_inv in Hk as [(_ & -> & ->)|(Hv & -> & rows' & fs' & Hrows & ->)].
    + left. split; [by exists fs|eauto].
    + right. by exists user, pass, row, rows', fs'.
Qed.
End ops.
