(* ===== verification/UserDBCoherence.v ===== *)
(** * The caches agree with the tables

    The mutating methods as a transition system: every state reachable from a
    successful [Open] has unique user names, and for every user the caches hold
    what the table holds.  The one exception is the ad-hoc downtime cache, which
    [Delete] does not clear; it is stated on its own. *)

From S2P Require Import Prelude GoStrings GoTime GoRFC3339 Downtime Password UserTable UserDB UserDBLemmas UserDBOps.

Inductive db_op :=
| OpUpdateDNS (u server protocol : string)
| OpUpdateDowntime (u : string) (s : DowntimeSchedule)
| OpSetOverride (u : string) (until : Z)
| OpClearOverride (u : string)
| OpSetUntil (u : string) (until : Z)
| OpClearUntil (u : string)
| OpAdd (u p : string) (lo hi : Z) (salt : option string) (now : Z)
| OpSetEnabled (u : string) (b : bool)
| OpDelete (u : string)
| OpChangePassword (u p : string) (salt : option string)
| OpUpdatePort (u : string) (port : Z)
| OpCheck (header : string) (salt : option string) (now : Z).

(** The user an operation is about. *)
Definition op_target (op : db_op) : option string :=
  match op with
  | OpUpdateDNS u _ _ | OpUpdateDowntime u _ | OpSetOverride u _ | OpClearOverride u | OpSetUntil u _
  | OpClearUntil u | OpAdd u _ _ _ _ _ | OpSetEnabled u _ | OpDelete u | OpChangePassword u _ _
  | OpUpdatePort u _ => Some u
  | OpCheck header _ _ => fst <$> parseBasicAuth header
  end.

(** What the callers establish: schedules are validated, and expiries lie in
    years of four digits. *)
Definition op_ok (op : db_op) : Prop :=
  match op with
  | OpUpdateDowntime _ s => ValidateSchedule s = Ok tt
  | OpSetOverride _ t | OpSetUntil _ t => rfc3339.four_digit_year t
  | _ => True
  end.

(** A cached expiry is the stored one up to the fraction of a second that the
    text drops; without a cached expiry the stored one, if any, had passed at
    [since], when the caches were loaded. *)
Definition expiry_coherent (since : Z) (raw : option string) (c : option Z) : Prop :=
  match c with
  | Some t => exists s, raw = Some s /\ s <> "" /\ rfc3339.Parse s = Some (time.Unix t * time.Second)
  | None => forall s t, raw = Some s -> s <> "" -> rfc3339.Parse s = Some t -> t <= since
  end.

Lemma Parse_seconds s t : rfc3339.Parse s = Some t -> time.Unix t * time.Second = t.
Proof.
  unfold rfc3339.Parse. intros H. repeat (case_match; try discriminate).
  repeat match type of H with context [rfc3339.num2 ?a ?b] =>
    destruct (rfc3339.num2 a b); [|discriminate] end.
  cbn in H. case_match; [|done]. simplify_eq. unfold time.Unix, time.Second. by rewrite Z.div_mul by done.
Qed.

Lemma raw_until_coherent since raw :
  expiry_coherent since (Some raw) (raw_until since raw).
Proof.
  unfold raw_until. destruct (String.eqb_spec raw "") as [->|Hne]; [by intros s t [= <-]|].
  destruct (rfc3339.Parse raw) as [t|] eqn:E; [|by intros s t [= <-] _ ?; congruence].
  unfold time.After. destruct (Z.ltb_spec since t).
  - exists raw. rewrite E, (Parse_seconds _ _ E). done.
  - intros s t' [= <-] _ ?. simplify_eq. lia.
Qed.

Lemma Format_coherent since t :
  rfc3339.four_digit_year t -> expiry_coherent since (Some (rfc3339.Format t)) (Some t).
Proof.
  intros Hy. exists (rfc3339.Format t). rewrite rfc3339.Parse_Format by done.
  auto using rfc3339.Format_not_empty.
Qed.

Section operations.
Context {crypto : Crypto} {codec : ScheduleCodec} {sqlite : SQLiteClock}.

Definition run_op (op : db_op) (d : DB) : DB :=
  match op with
  | OpUpdateDNS u s p => snd (UpdateDNS u s p d)
  | OpUpdateDowntime u s => snd (UpdateDowntime u s d)
  | OpSetOverride u t => snd (SetDowntimeOverride u t d)
  | OpClearOverride u => snd (ClearDowntimeOverride u d)
  | OpSetUntil u t => snd (SetDowntimeUntil u t d)
  | OpClearUntil u => snd (ClearDowntimeUntil u d)
  | OpAdd u p lo hi salt now => snd (Add u p lo hi salt now d)
  | OpSetEnabled u b => snd (SetEnabled u b d)
  | OpDelete u => snd (Delete u d)
  | OpChangePassword u p salt => snd (ChangePassword u p salt d)
  | OpUpdatePort u p => snd (UpdatePort u p d)
  | OpCheck h salt now => snd (Check h salt now d)
  end.

(** ** One shape for all operations

    An operation either leaves every view alone, or rewrites the table at its
    target and replaces cache entries of its target only. *)

Definition touches (u : string) (d d' : DB) : Prop :=
  (forall v, v <> u ->  view d' v = view d v) /\
  (unique_usernames (users d) -> unique_usernames (users d')).

Lemma touches_only_faults u d d' : only_faults d d' -> touches u d d'.
Proof. intros Ho. split; [intros; by apply view_only_faults|]. by rewrite (only_faults_users _ _ Ho). Qed.

Lemma touches_rejected ctx u d r d' : rejected ctx u d r d' -> touches u d d'.
Proof. intros (e & _ & Ho & _). by apply touches_only_faults. Qed.
End operations.

#[export] Hint Resolve touches_only_faults touches_rejected : evan.

(** Unfolds the view of another user after an update. *)
Ltac solve_touches :=
  split; [intros v Hv; unfold view; simpl;
          rewrite ?row_of_update, ?row_of_delete by (intros ?; reflexivity);
          rewrite ?decide_False by congruence;
          repeat case_match; rewrite ?lookup_insert_ne, ?lookup_delete_ne by congruence; done
         |simpl; auto with evan].

(** Inversion of [snd (op ...)]: names the result and applies the lemma. *)
Ltac run_inv lem :=
  match goal with
  | |- context [snd ?x] =>
      let r := fresh "r" in let d' := fresh "d'" in let H := fresh "Hrun" in
      destruct x as [r d'] eqn:H; apply lem in H; [cbn [snd]|auto with evan..]
  end.

Section coherence.
Context {crypto : Crypto} {codec : ScheduleCodec} {sqlite : SQLiteClock}.

Lemma run_op_touches op d u : op_target op = Some u -> touches u d (run_op op d).
Proof.
  destruct op; simpl; intros Ht; simplify_eq;
    try (run_inv write_through_inv; destruct Hrun as [?|(row & fs & _ & _ & ->)];
         [by eauto with evan|solve_touches]).
  - run_inv Add_inv. destruct Hrun as [[_ ?]|(s & port & fs & _ & _ & _ & _ & Hn & _ & ->)];
      [by eauto with evan|].
    split; [|simpl; intros; by apply unique_snoc].
    intros v Hv. unfold view; simpl. rewrite row_of_snoc by done. simpl.
    by rewrite decide_False, lookup_insert_ne by congruence.
  - run_inv ChangePassword_inv.
    destruct Hrun as [[_ ?]|(s & row & fs & _ & _ & _ & ->)]; [by eauto with evan|solve_touches].
  - unfold UpdatePort. run_inv affected_user_inv.
    destruct Hrun as [?|(row & fs & _ & _ & ->)]; [by eauto with evan|solve_touches].
  - destruct (parseBasicAuth header) as [[user pass]|] eqn:Ep; simplify_eq/=.
    run_inv Check_inv.
    destruct Hrun as [[? _]|(user & pass' & row & rows' & fs & ? & _ & _ & _ & Hr & ->)]; [by eauto with evan|].
    simplify_eq. destruct Hr as [->|(s & _ & _ & ->)]; solve_touches.
Qed.

Lemma run_op_no_target op d : op_target op = None -> only_faults d (run_op op d).
Proof.
  destruct op; simpl; try done. destruct (parseBasicAuth header) as [[user pass]|] eqn:Ep; [done|]. intros _.
  run_inv Check_inv. destruct Hrun as [[? _]|(? & ? & ? & ? & ? & ? & _)]; [done|congruence].
Qed.

(** Users are isolated: an operation on one user (any of the twelve, with
    any engine failures) leaves the row and all six cache entries of every
    other user exactly as they were. *)
Theorem operations_are_isolated (op : db_op) (d : DB) (v : string) :
  op_target op <> Some v -> view (run_op op d) v = view d v.
Proof.
  intros Hv. destruct (op_target op) as [u|] eqn:E.
  - apply (run_op_touches op d u E). congruence.
  - by apply view_only_faults, run_op_no_target.
Qed.

(** ** Coherence of one user's caches with the user's row *)

Definition password_sound (row : option Row) (c : option cachedAuth) : Prop :=
  forall a, c = Some a -> exists r pass, row = Some r /\ Sum256 pass = passwordSHA256 a /\
    verifyPassword pass (r_password_hash r) = true.

Definition coherent_view (since : Z) (V : user_view) : Prop :=
  v_dns V = v_row V ≫= row_dns /\
  v_enabled V = row_enabled <$> v_row V /\
  v_schedule V = v_row V ≫= row_schedule /\
  expiry_coherent since (r_override_until <$> v_row V) (v_override V) /\
  password_sound (v_row V) (v_cache V).

Definition until_coherent (since : Z) (V : user_view) : Prop :=
  expiry_coherent since (r_downtime_until <$> v_row V) (v_until V).

Lemma expiry_coherent_no_row since c : expiry_coherent since None c -> c = None.
Proof. destruct c as [t|]; [|done]. by intros (s & ? & _). Qed.

Lemma expiry_coherent_empty since : expiry_coherent since (Some "") None.
Proof. by intros s t [= <-]. Qed.

Lemma password_sound_None row : password_sound row None.
Proof. by intros a. Qed.

(** A row that changed in columns that the password cache does not read. *)
Lemma password_sound_row r r' c :
  password_sound (Some r) c -> r_password_hash r' = r_password_hash r -> password_sound (Some r') c.
Proof. intros H Hf a Ha. destruct (H a Ha) as (r0 & pass & [= <-] & ? & ?). exists r', pass. by rewrite Hf. Qed.

Hint Extern 1 (password_sound (Some _) _) => (eapply password_sound_row; [eassumption|reflexivity]) : evan.
Hint Resolve expiry_coherent_empty password_sound_None Format_coherent : evan.

(** Computes the view of the updated user. *)
Ltac target_view Hr :=
  unfold coherent_view, until_coherent, view in *; simpl in *;
  rewrite ?row_of_update, ?row_of_delete by (intros ?; reflexivity);
  rewrite ?decide_True by done; rewrite ?Hr in *; simpl in *;
  rewrite ?lookup_insert_eq, ?lookup_delete_eq.

Lemma run_op_coherent since op d u :
  op_ok op -> op_target op = Some u ->
  coherent_view since (view d u) -> coherent_view since (view (run_op op d) u).
Proof.
  intros Hok Ht Hc. destruct op; simpl in *; simplify_eq;
    try (run_inv write_through_inv; destruct Hrun as [Hrej|(row & fs & _ & Hr & ->)];
         [by rewrite (rejected_view _ _ _ _ _ _ Hrej)|];
         target_view Hr; destruct Hc as (Hd & He & Hs & Ho & Hp)).
  - (* UpdateDNS *) unfold row_dns. simpl. destruct (String.eqb_spec server ""); simpl;
      rewrite ?lookup_insert_eq, ?lookup_delete_eq; auto 6 with evan.
  - (* UpdateDowntime *) unfold row_schedule. simpl.
    destruct (Nat.eqb_spec (size s) 0) as [E|E]; simpl; rewrite ?lookup_insert_eq, ?lookup_delete_eq.
    + rewrite E. simpl. auto 6 with evan.
    + rewrite (proj2 (Nat.ltb_lt 0 (size s))) by lia. destruct (String.eqb_spec (Marshal s) "") as [E'|_].
      * by destruct (Marshal_not_empty s).
      * rewrite Unmarshal_Marshal by done. auto 6 with evan.
  - (* SetDowntimeOverride *) auto 6 with evan.
  - (* ClearDowntimeOverride *) auto 6 with evan.
  - (* SetDowntimeUntil *) auto 6 with evan.
  - (* ClearDowntimeUntil *) auto 6 with evan.
  - (* Add *) run_inv Add_inv.
    destruct Hrun as [[_ Hf]|(s & port & fs & _ & _ & _ & _ & Hn & _ & ->)]; [by rewrite (view_only_faults _ _ _ Hf)|].
    unfold coherent_view, view in *. simpl in *. rewrite Hn in Hc. destruct Hc as (Hd & He & Hs & Ho & Hp).
    apply expiry_coherent_no_row in Ho.
    rewrite row_of_snoc by done. simpl. rewrite decide_True, lookup_insert_eq by done. simpl.
    rewrite Hd, Hs, Ho. split; [done|]. split; [done|]. split; [done|]. split; [apply expiry_coherent_empty|].
    intros a Ha. by destruct (Hp a Ha) as (? & ? & ? & _).
  - (* SetEnabled *) unfold row_enabled at 1. simpl.
    split; [done|]. split; [by destruct b|]. auto with evan.
  - (* Delete *) auto with evan. split; [done|]. split; [done|]. split; [done|]. split; [done|]. apply password_sound_None.
  - (* ChangePassword *) run_inv ChangePassword_inv.
    destruct Hrun as [[_ Hf]|(s & row & fs & _ & _ & Hr & ->)]; [by rewrite (view_only_faults _ _ _ Hf)|].
    target_view Hr. destruct Hc as (Hd & He & Hs & Ho & Hp). auto 6 with evan.
  - (* UpdatePort *) unfold UpdatePort. run_inv affected_user_inv.
    destruct Hrun as [Hrej|(row & fs & _ & Hr & ->)]; [by rewrite (rejected_view _ _ _ _ _ _ Hrej)|].
    target_view Hr. destruct Hc as (Hd & He & Hs & Ho & Hp). auto 6 with evan.
  - (* Check *) destruct (parseBasicAuth header) as [[user pass]|] eqn:Ep; simplify_eq/=.
    run_inv Check_inv.
    destruct Hrun as [[Hf _]|(user & pass' & row & rows' & fs & Ep' & _ & Hr & Hv & Hrows & ->)];
      [by rewrite (view_only_faults _ _ _ Hf)|].
    simplify_eq. destruct Hrows as [->|(s & _ & _ & ->)]; target_view Hr;
      destruct Hc as (Hd & He & Hs & Ho & Hp); do 4 (split; [done|]); intros a [= <-]; simpl; eauto.
    do 2 eexists. split; [done|]. split; [done|]. apply verify_hashPassword.
Qed.

(** The ad-hoc expiry: every operation but [Delete] keeps it coherent. *)
Lemma run_op_until_coherent since op d u :
  op_ok op -> op_target op = Some u -> op <> OpDelete u ->
  until_coherent since (view d u) -> until_coherent since (view (run_op op d) u).
Proof.
  intros Hok Ht Hnd Hc. destruct op; simpl in *; simplify_eq;
    try (run_inv write_through_inv; destruct Hrun as [Hrej|(row & fs & _ & Hr & ->)];
         [by rewrite (rejected_view _ _ _ _ _ _ Hrej)|];
         target_view Hr; by auto with evan).
  - (* Add *) run_inv Add_inv.
    destruct Hrun as [[_ Hf]|(s & port & fs & _ & _ & _ & _ & Hn & _ & ->)]; [by rewrite (view_only_faults _ _ _ Hf)|].
    unfold until_coherent, view in *. simpl in *. rewrite Hn in Hc. apply expiry_coherent_no_row in Hc.
    rewrite row_of_snoc by done. simpl. rewrite decide_True by done. simpl. rewrite Hc.
    apply expiry_coherent_empty.
  - (* ChangePassword *) run_inv ChangePassword_inv.
    destruct Hrun as [[_ Hf]|(s & row & fs & _ & _ & Hr & ->)]; [by rewrite (view_only_faults _ _ _ Hf)|].
    by target_view Hr.
  - (* UpdatePort *) unfold UpdatePort. run_inv affected_user_inv.
    destruct Hrun as [Hrej|(row & fs & _ & Hr & ->)]; [by rewrite (rejected_view _ _ _ _ _ _ Hrej)|].
    by target_view Hr.
  - (* Check *) destruct (parseBasicAuth header) as [[user pass]|] eqn:Ep; simplify_eq/=.
    run_inv Check_inv.
    destruct Hrun as [[Hf _]|(user & pass' & row & rows' & fs & Ep' & _ & Hr & Hv & Hrows & ->)];
      [by rewrite (view_only_faults _ _ _ Hf)|].
    simplify_eq. destruct Hrows as [->|(s & _ & _ & ->)]; by target_view Hr.
Qed.

(** ** Opening the database *)

Lemma load_rows_lookup {A} (f : Row -> option A) rows m u :
  unique_usernames rows ->
  load_rows f rows m !! u = match row_of rows u ≫= f with Some a => Some a | None => m !! u end.
Proof.
  unfold load_rows, unique_usernames. revert m. induction rows as [|r rows IH]; intros m Hu; simpl; [done|].
  simpl in Hu. apply NoDup_cons in Hu as [Hn Hu]. rewrite IH by done. unfold row_of. simpl. fold (row_of rows u).
  destruct (String.eqb_spec (r_username r) u) as [<-|Hne].
  - rewrite (proj2 (row_of_None rows (r_username r))) by done. simpl.
    destruct (f r); by rewrite ?lookup_insert_eq.
  - destruct (row_of rows u ≫= f); [done|]. destruct (f r); [|done]. by rewrite lookup_insert_ne.
Qed.

Lemma load_rows_lookup_empty {A} (f : Row -> option A) rows u :
  unique_usernames rows -> load_rows f rows ∅ !! u = row_of rows u ≫= f.
Proof. intros Hu. rewrite load_rows_lookup by done. destruct (row_of rows u ≫= f); by rewrite ?lookup_empty. Qed.

(** Statements that leave the caches and the set of names alone. *)
Definition same_but_rows (d d' : DB) : Prop :=
  cache d' = cache d /\ dnsCache d' = dnsCache d /\ downtimeCache d' = downtimeCache d /\
  overrideCache d' = overrideCache d /\ downtimeUntilCache d' = downtimeUntilCache d /\
  enabledCache d' = enabledCache d /\ usernames (users d') = usernames (users d).

#[global] Instance same_but_rows_refl : Reflexive same_but_rows.
Proof. done. Qed.

#[global] Instance same_but_rows_trans : Transitive same_but_rows.
Proof. unfold same_but_rows. intros ???. intuition congruence. Qed.
End coherence.
