(* ===== verification/UserDBReach.v ===== *)
(** * States reachable from [Open]

    What a successful [Open] produces, and the invariants of every state that
    the mutating methods reach from it. *)

From S2P Require Import Prelude GoStrings GoTime GoRFC3339 Downtime Password UserTable UserDB UserDBLemmas.
From S2P Require Import UserDBOps UserDBCoherence.

(** ** Migration *)

Definition migrated_columns : gset string :=
  {["dns_server"; "dns_protocol"; "port"; "enabled"; "downtime_schedule"; "downtime_override_until";
    "downtime_until"]}.

(** A row with the columns that were missing set to their defaults. *)
Definition default_if (cols : gset string) (c : string) (f : Row -> Row) (r : Row) : Row :=
  if bool_decide (c ∈ cols) then r else f r.

Definition migrated_row (cols : gset string) (r : Row) : Row :=
  let r := default_if cols "dns_server" (fun r => set_dns r "" (r_dns_protocol r)) r in
  let r := default_if cols "dns_protocol" (fun r => set_dns r (r_dns_server r) "") r in
  let r := default_if cols "port" (fun r => set_port r 0) r in
  let r := default_if cols "enabled" (fun r => set_enabled r 1) r in
  let r := default_if cols "downtime_schedule" (fun r => set_downtime_schedule r "") r in
  let r := default_if cols "downtime_override_until" (fun r => set_override_until r "") r in
  default_if cols "downtime_until" (fun r => set_downtime_until r "") r.

Lemma default_if_username cols c f : keeps_username f -> keeps_username (default_if cols c f).
Proof. intros Hf r. unfold default_if. case_bool_decide; [done|apply Hf]. Qed.

Lemma migrated_row_username cols r : r_username (migrated_row cols r) = r_username r.
Proof. unfold migrated_row. cbn zeta. by rewrite !default_if_username by (intros ?; reflexivity). Qed.

Lemma usernames_migrated cols rows : usernames (map (migrated_row cols) rows) = usernames rows.
Proof. unfold usernames. rewrite map_map. apply map_ext. intros r. apply migrated_row_username. Qed.

Lemma migrated_row_complete cols r : migrated_columns ⊆ cols -> migrated_row cols r = r.
Proof.
  unfold migrated_columns. intros H. unfold migrated_row, default_if. cbn zeta.
  rewrite !bool_decide_eq_true_2 by set_solver. done.
Qed.

(** The state with other rows, columns and faults: what statements can change. *)
Definition with_table (d : DB) (rows : list Row) (cols : gset string) (fs : list (option string)) : DB :=
  mkDB rows (device_tokens d) cols fs (cache d) (dnsCache d) (downtimeCache d) (overrideCache d)
    (downtimeUntilCache d) (enabledCache d).

Lemma add_column_inv cols c f d d' :
  add_column cols c f d = (Ok tt, d') ->
  exists fs, d' = with_table d (map (default_if cols c f) (users d))
    (if bool_decide (c ∈ cols) then columns d else {[c]} ∪ columns d) fs.
Proof.
  unfold add_column, default_if. case_bool_decide as Hc.
  - intros [= <-]. rewrite map_id. exists (faults d). by destruct d.
  - intros [([] & _ & H)|(? & ? & _)]%wrap_inv; [|done].
    apply sql_inv in H as [(? & ? & _)|(fs & H)]; [done|]. simplify_eq/=. by exists fs.
Qed.

Lemma added_column (C X : gset string) c :
  C ⊆ X -> (if bool_decide (c ∈ C) then X else {[c]} ∪ X) = X ∪ {[c]}.
Proof. intros H. apply set_eq. intros x. case_bool_decide; set_solver. Qed.

Lemma sub_added (C X : gset string) c :
  C ⊆ X -> C ⊆ if bool_decide (c ∈ C) then X else {[c]} ∪ X.
Proof. intros H. case_bool_decide; [done|]. by apply union_subseteq_r'. Qed.

Lemma migrate_inv d d' :
  migrate d = (Ok tt, d') ->
  exists cols fs, cols = columns d ∪ migrated_columns /\
    d' = with_table d (map (migrated_row (columns d)) (users d)) cols fs.
Proof.
  unfold migrate. intros [(cols & d0 & H & Hk)|(? & _ & ?)]%bind_inv; [|done].
  apply query_inv in H as [[fs ->] [[= ->]|(? & ?)]]; [|done|done]. change (columns (set_faults d fs)) with (columns d) in *.
  set (C := columns d) in *.
  repeat (apply bind_inv in Hk as [([] & ? & H & Hk)|(? & _ & ?)]; [|done];
          apply add_column_inv in H as (? & ->); unfold with_table in Hk; cbn -[add_column] in Hk).
  apply add_column_inv in Hk as (? & ->). unfold with_table. simpl. rewrite !map_map.
  eexists _, _. split; [|reflexivity]. unfold migrated_columns. fold C.
  assert (C ⊆ C) by done. repeat (rewrite added_column; [|repeat first [assumption | apply sub_added | apply union_subseteq_l']]).
  by rewrite <- !(assoc_L (∪)).
Qed.

Section reach.
Context {crypto : Crypto} {codec : ScheduleCodec} {sqlite : SQLiteClock}.

(** ** Open *)

Lemma load_inv (h : list Row -> DB -> DB) ctx d d' :
  wrap (Wrapped ctx) (rows ← query users; modify (h rows)) d = (Ok tt, d') ->
  exists fs, d' = h (users d) (set_faults d fs).
Proof.
  intros [([] & _ & H)|(? & ? & _)]%wrap_inv; [|done].
  apply bind_inv in H as [(rows & d1 & H & Hk)|(? & _ & ?)]; [|done].
  apply query_inv in H as [[fs ->] [[= ->]|(? & ?)]]; [|done|done].
  unfold modify in Hk. simplify_eq. by exists fs.
Qed.

Lemma create_users_inv ctx d d' :
  wrap (Wrapped ctx) create_users d = (Ok tt, d') ->
  exists fs, d' = with_table d (users d)
    (if bool_decide (columns d = ∅) then {["username"; "password_hash"; "created_at"]} else columns d) fs.
Proof.
  intros [([] & _ & H)|(? & ? & _)]%wrap_inv; [|done].
  apply sql_inv in H as [(? & ? & _)|(fs & H)]; [done|]. simplify_eq/=. exists fs. by case_bool_decide.
Qed.

Lemma create_tokens_inv ctx d d' :
  wrap (Wrapped ctx) create_device_tokens d = (Ok tt, d') -> only_faults d d'.
Proof.
  intros [([] & _ & H)|(? & ? & _)]%wrap_inv; [|done].
  apply sql_inv in H as [(? & ? & _)|(fs & H)]; [done|]. simplify_eq/=. by exists fs.
Qed.

(** The columns [Open] finds when it comes to migrate. *)
Definition initial_columns (cols : gset string) : gset string :=
  if bool_decide (cols = ∅) then {["username"; "password_hash"; "created_at"]} else cols.

(** A successful [Open]: the migrated rows, every cache loaded from them. *)
Lemma Open_inv rows tokens cols fs now d :
  Open rows tokens cols fs now = (Ok tt, d) ->
  let rows' := map (migrated_row (initial_columns cols)) rows in
  exists cols' fs', cols' = initial_columns cols ∪ migrated_columns /\
    d = mkDB rows' tokens cols' fs' ∅ (load_rows row_dns rows' ∅) (load_rows row_schedule rows' ∅)
          (load_rows (fun r => raw_until now (r_override_until r)) rows' ∅)
          (load_rows (fun r => raw_until now (r_downtime_until r)) rows' ∅)
          (load_rows (fun r => Some (row_enabled r)) rows' ∅).
Proof.
  unfold Open. intros Hk.
  apply bind_inv in Hk as [([] & d1 & H & Hk)|(? & _ & ?)]; [|done].
  apply create_users_inv in H as (fs1 & ->). simpl in Hk. fold (initial_columns cols) in Hk.
  apply bind_inv in Hk as [([] & d2 & H & Hk)|(? & _ & ?)]; [|done].
  apply create_tokens_inv in H as (fs2 & ->).
  apply bind_inv in Hk as [([] & d3 & H & Hk)|(? & _ & ?)]; [|done].
  apply wrap_inv in H as [([] & _ & H)|(? & ? & _)]; [|done].
  apply migrate_inv in H as (cols' & fs3 & Hcols & ->). simpl in *.
  apply bind_inv in Hk as [([] & d4 & H & Hk)|(? & _ & ?)]; [|done]. apply load_inv in H as (fs4 & ->).
  apply bind_inv in Hk as [([] & d5 & H & Hk)|(? & _ & ?)]; [|done]. apply load_inv in H as (fs5 & ->).
  apply bind_inv in Hk as [([] & d6 & H & Hk)|(? & _ & ?)]; [|done]. apply load_inv in H as (fs6 & ->).
  apply bind_inv in Hk as [([] & d7 & H & Hk)|(? & _ & ?)]; [|done]. apply load_inv in H as (fs7 & ->).
  apply load_inv in Hk as (fs8 & ->). exists cols', fs8. done.
Qed.

(** ** Reachable states *)

(** Histories: a successful [Open] at [since] of a file whose table satisfies
    the primary key, then any operations with any failures; paired devices may come and go.  [dels] says whether
    the history may delete users. *)
Inductive history (dels : bool) (since : Z) : DB -> Prop :=
| h_open rows tokens cols fs d :
    unique_usernames rows ->
    Open rows tokens cols fs since = (Ok tt, d) ->
    history dels since d
| h_op op d :
    history dels since d -> op_ok op ->
    (dels = false -> forall u, op <> OpDelete u) ->
    history dels since (run_op op d)
| h_faults d fs :
    history dels since d -> history dels since (set_faults d fs)
| h_devices d ts :
    history dels since d -> history dels since (set_device_tokens d ts).

Lemma Open_coherent rows tokens cols fs now d u :
  unique_usernames rows -> Open rows tokens cols fs now = (Ok tt, d) ->
  unique_usernames (users d) /\ coherent_view now (view d u) /\ until_coherent now (view d u).
Proof.
  intros Hu H. apply Open_inv in H as (cols' & fs' & _ & ->).
  assert (unique_usernames (map (migrated_row (initial_columns cols)) rows)) as Hu'
    by (unfold unique_usernames; by rewrite usernames_migrated).
  split; [done|]. unfold coherent_view, until_coherent, view. simpl. rewrite !load_rows_lookup_empty by done.
  rewrite lookup_empty. destruct (row_of _ u); simpl; [|repeat split; by auto with evan].
  repeat split; auto using raw_until_coherent, password_sound_None with evan.
Qed.

Lemma run_op_coherent_all since op d u :
  op_ok op -> coherent_view since (view d u) -> coherent_view since (view (run_op op d) u).
Proof.
  intros Hok Hc. destruct (op_target op) as [v|] eqn:E.
  - destruct (decide (v = u)) as [->|Hne]; [by apply run_op_coherent|].
    destruct (run_op_touches op d v E) as [Hv _]. by rewrite Hv.
  - by rewrite (view_only_faults _ _ _ (run_op_no_target op d E)).
Qed.

Lemma run_op_until_all since op d u :
  op_ok op -> op <> OpDelete u -> until_coherent since (view d u) -> until_coherent since (view (run_op op d) u).
Proof.
  intros Hok Hnd Hc. destruct (op_target op) as [v|] eqn:E.
  - destruct (decide (v = u)) as [->|Hne]; [by apply run_op_until_coherent|].
    destruct (run_op_touches op d v E) as [Hv _]. by rewrite Hv.
  - by rewrite (view_only_faults _ _ _ (run_op_no_target op d E)).
Qed.

Lemma history_unique dels since d : history dels since d -> unique_usernames (users d).
Proof.
  induction 1 as [rows tokens cols fs d Hu Ho|op d _ IH _ _|d fs _ IH|d ts _ IH].
  - by destruct (Open_coherent _ _ _ _ _ _ EmptyString Hu Ho).
  - destruct (op_target op) as [v|] eqn:E; [by apply (run_op_touches op d v E)|].
    by rewrite (only_faults_users _ _ (run_op_no_target op d E)).
  - done.
  - done.
Qed.

Lemma history_coherent dels since d u : history dels since d -> coherent_view since (view d u).
Proof.
  induction 1 as [rows tokens cols fs d Hu Ho|op d _ IH Hok _|d fs _ IH|d ts _ IH].
  - by apply (Open_coherent _ _ _ _ _ _ u Hu Ho).
  - by apply run_op_coherent_all.
  - done.
  - done.
Qed.

Lemma history_until since d u : history false since d -> until_coherent since (view d u).
Proof.
  induction 1 as [rows tokens cols fs d Hu Ho|op d _ IH Hok Hd|d fs _ IH|d ts _ IH].
  - by apply (Open_coherent _ _ _ _ _ _ u Hu Ho).
  - apply run_op_until_all; auto.
  - done.
  - done.
Qed.
End reach.
