(* ===== verification/UserDBSpec.v ===== *)
(** * What the user database promises

    The properties of reachable states: the caches answer as the tables would,
    accepted credentials are the stored ones, and the one cache [Delete] forgets. *)

From S2P Require Import Prelude GoStrings GoBase64 GoTime GoRFC3339 Downtime Password UserTable UserDB UserDBLemmas.
From S2P Require Import UserDBOps UserDBCoherence UserDBReach.

(** ** A concrete codec and engine clock, for the examples *)

#[local] Instance DowntimeWindow_countable : Countable DowntimeWindow.
Proof.
  refine (inj_countable' (fun w => (Start w, End_ w)) (fun p => mkWindow p.1 p.2) _). by intros [].
Defined.

Fixpoint bits_string (p : positive) : string :=
  match p with
  | xH => String "." EmptyString
  | xO p' => String "0" (bits_string p')
  | xI p' => String "1" (bits_string p')
  end.

Fixpoint string_bits (s : string) : positive :=
  match s with
  | String "0" s' => xO (string_bits s')
  | String "1" s' => xI (string_bits s')
  | _ => xH
  end.

Lemma string_bits_string p : string_bits (bits_string p) = p.
Proof. induction p as [p IH|p IH|]; simpl; by rewrite ?IH. Qed.

Definition toy_codec : ScheduleCodec.
Proof.
  refine {| Marshal s := bits_string (encode s); Unmarshal s := decode (string_bits s) |}.
  - intros s _. by rewrite string_bits_string, decode_encode.
  - intros s. by destruct (encode s).
Defined.

Definition toy_sqlite : SQLiteClock := {| datetime_now _ := "2025-01-01 00:00:00" |}.

Section spec.
Context {crypto : Crypto} {codec : ScheduleCodec} {sqlite : SQLiteClock}.

(** ** Decisions read off the table *)

Definition stored_until (t : Z) (raw : string) : bool :=
  match raw_until t raw with Some _ => true | None => false end.

(** What [IsInDowntime] would answer if it read the row instead of the caches. *)
Definition stored_decision (loc : time.Location) (t : Z) (r : Row) : bool :=
  if stored_until t (r_downtime_until r) then true else
  if stored_until t (r_override_until r) then false else
  let s := default ∅ (row_schedule r) in
  if (size s =? 0)%nat then false else isInDowntime loc s t.

(** The instant [t] is not within the second in which the expiry [c] falls,
    where the cache and the stored text may differ. *)
Definition clear_of (t : Z) (c : option Z) : Prop :=
  forall x, c = Some x -> time.Unix t <> time.Unix x.

Lemma Unix_lt t x : time.Unix t <> time.Unix x -> (t < x <-> t < time.Unix x * time.Second).
Proof.
  unfold time.Unix, time.Second. intros H.
  pose proof (Z.div_mod t 1000000000). pose proof (Z.mod_pos_bound t 1000000000).
  pose proof (Z.div_mod x 1000000000). pose proof (Z.mod_pos_bound x 1000000000). lia.
Qed.

Lemma cached_expiry since t raw c :
  expiry_coherent since (Some raw) c -> since <= t -> time.zero <= t -> clear_of t c ->
  let e := default time.zero c in
  negb (time.IsZero e) && time.Before t e = stored_until t raw.
Proof.
  intros Hc Hs Hz Hcl. cbn zeta. unfold stored_until, raw_until, time.IsZero, time.Before, time.After.
  destruct c as [x|]; simpl in *.
  - destruct Hc as (s & [= <-] & Hne & Hp). destruct (String.eqb_spec raw ""); [done|]. rewrite Hp.
    pose proof (Unix_lt t x (Hcl x eq_refl)) as Hlt.
    destruct (Z.ltb_spec t (time.Unix x * time.Second)), (Z.ltb_spec t x), (Z.eqb_spec x time.zero);
      simpl; try done; lia.
  - destruct (String.eqb_spec raw ""); [done|]. destruct (rfc3339.Parse raw) as [x|] eqn:E; [|done].
    specialize (Hc raw x eq_refl n E). by destruct (Z.ltb_spec t x); [lia|].
Qed.

(** [C10] In every history without deletions, [IsInDowntime] answers at any later
    instant what the user's row says: ad-hoc downtime, then override, then the
    schedule, except within the very second in which a cached expiry falls, where
    the stored text has dropped the fraction. *)
Theorem IsInDowntime_as_stored (loc : time.Location) (since t : Z) (d : DB) (u : string) (r : Row) :
  history false since d -> row_of (users d) u = Some r -> since <= t -> time.zero <= t ->
  clear_of t (overrideCache d !! u) -> clear_of t (downtimeUntilCache d !! u) ->
  IsInDowntime loc t d u = stored_decision loc t r.
Proof.
  intros Hh Hr Hs Hz Ho Hu.
  pose proof (history_until since d u Hh) as Hcu.
  pose proof (history_coherent false since d u Hh) as (_ & _ & Hsched & Hco & _).
  unfold until_coherent, view in *. simpl in *. rewrite Hr in *. simpl in *.
  unfold IsInDowntime, stored_decision, GetDowntime, GetDowntimeUntil, GetDowntimeOverride.
  by rewrite (cached_expiry since t _ _ Hcu), (cached_expiry since t _ _ Hco), Hsched by done.
Qed.

(** [C9] In every reachable state (deletions included, any engine failures along
    the way) user names are unique, and for every name the DNS, enabled, schedule
    and override caches hold what the row says, while a cached password digest
    belongs to a password that verifies against the stored hash. *)
Theorem caches_agree_with_table (dels : bool) (since : Z) (d : DB) :
  history dels since d ->
  unique_usernames (users d) /\ forall u, coherent_view since (view d u).
Proof. intros Hh. split; [by apply (history_unique dels since)|]. intros u. by apply (history_coherent dels). Qed.

(** ** Credentials *)

(** [pass] is the user's password, or has the digest of a password that is. *)
Definition current_password (r : Row) (pass : string) : Prop :=
  exists p, verifyPassword p (r_password_hash r) = true /\ (p = pass \/ Sum256 p = Sum256 pass).

Lemma Check_accepts_current since d dels header salt now user d' :
  history dels since d -> Check header salt now d = (Ok user, d') ->
  exists pass r, parseBasicAuth header = Some (user, pass) /\ row_of (users d) user = Some r /\
    current_password r pass.
Proof.
  intros Hh [[Hf Hr]|(u & pass & row & rows & fs & Hp & [= <-] & Hrow & Hv & _)]%Check_inv.
  - destruct Hr as [(? & ?)|(u & pass & c & [= <-] & Hp & Hc & _ & Hs)]; [done|].
    pose proof (history_coherent dels since d user Hh) as (_ & _ & _ & _ & Hps).
    destruct (Hps c Hc) as (r & p & Hr & Hsum & Hv). unfold view in Hr. simpl in Hr.
    exists pass, r. split; [done|]. split; [done|]. exists p. split; [done|]. right. congruence.
  - exists pass, row. split; [done|]. split; [done|]. exists pass. auto.
Qed.

(** [C8] Soundness of [Check]: in every reachable state it only accepts a
    well-formed header whose user has a row and whose password is the stored one,
    up to a SHA-256 collision with it; the five-minute cache never outlives a
    changed password or a deleted user. *)
Theorem Check_sound (dels : bool) (since now : Z) (d : DB) (header : string) (salt : option string)
    (user : string) (d' : DB) :
  history dels since d -> Check header salt now d = (Ok user, d') ->
  exists pass r, parseBasicAuth header = Some (user, pass) /\ row_of (users d) user = Some r /\
    current_password r pass.
Proof. apply Check_accepts_current. Qed.

(** Completeness of [Check]: without engine failures, a well-formed header
    with the password that verifies against the stored hash is accepted, unless a
    fresh cache entry holds another digest. *)
Theorem Check_complete (d : DB) (header user pass : string) (salt : option string) (now : Z) (r : Row) :
  faults d = [] -> parseBasicAuth header = Some (user, pass) -> row_of (users d) user = Some r ->
  verifyPassword pass (r_password_hash r) = true ->
  (forall c, cache d !! user = Some c -> now < validUntil c -> passwordSHA256 c = Sum256 pass) ->
  fst (Check header salt now d) = Ok user.
Proof.
  intros Hf Hp Hr Hv Hc. unfold Check, mbind at 1, M_bind at 1, get, check_cache.
  destruct (String.eqb_spec header "") as [->|_]; [by vm_compute in Hp|]. rewrite Hp.
  assert (forall d0, faults d0 = [] -> users d0 = users d ->
    fst ((storedHash ← wrap (select_error user) (select_hash user);
          check_finish user pass storedHash salt now) d0) = Ok user) as Hask.
  { intros d0 Hf0 Hu0. unfold select_hash, wrap, sql, mbind at 1, M_bind at 1. rewrite Hf0, Hu0, Hr.
    unfold check_finish. rewrite Hv. cbn [negb].
    destruct (needsRehash _), salt; reflexivity. }
  destruct (cache d !! user) as [c|]; [|by apply Hask].
  unfold time.Before. destruct (Z.ltb_spec now (validUntil c)); [|by apply Hask].
  rewrite (Hc c eq_refl) by done. by rewrite String.eqb_refl.
Qed.

(** A changed password takes effect at once: after a successful
    [ChangePassword] in any reachable state, the next [Check] of the user accepts
    a password only if it verifies against the new hash, up to a digest collision. *)
Theorem ChangePassword_takes_effect (dels : bool) (since now : Z) (d : DB) (u newPassword s header : string)
    (salt : option string) (d1 d2 : DB) :
  history dels since d ->
  ChangePassword u newPassword (Some s) d = (Ok tt, d1) ->
  Check header salt now d1 = (Ok u, d2) ->
  exists pass, parseBasicAuth header = Some (u, pass) /\
    verifyPassword pass (hashPassword newPassword s) = true.
Proof.
  intros Hh Hch Hck. apply ChangePassword_inv in Hch as [[(? & ?) _]|(s' & row & fs & [= <-] & _ & Hr & ->)]; [done|].
  apply Check_inv in Hck as [[_ [(? & ?)|(u' & pass & c & [= <-] & _ & Hc & _)]]|Hck]; [done|..].
  - simpl in Hc. by rewrite lookup_delete_eq in Hc.
  - destruct Hck as (u' & pass & row' & rows & fs' & Hp & [= <-] & Hrow & Hv & _).
    simpl in Hrow. rewrite row_of_update, decide_True, Hr in Hrow by (by auto with evan). simplify_eq/=. eauto.
Qed.

Lemma Delete_locks_out_core (d : DB) (u header : string) (salt : option string) (now : Z) (d1 : DB) :
  Delete u d = (Ok tt, d1) -> fst (Check header salt now d1) <> Ok u.
Proof.
  intros Hd. apply Delete_inv in Hd as [(? & ? & _)|(row & fs & _ & _ & ->)]; [done|].
  destruct (Check _ _ _ _) as [r d2] eqn:E. simpl. intros ->.
  apply Check_inv in E as [[_ [(? & ?)|(u' & pass & c & [= <-] & _ & Hc & _)]]|Hck]; [done|..].
  - simpl in Hc. by rewrite lookup_delete_eq in Hc.
  - destruct Hck as (u' & pass & row' & rows & fs' & _ & [= <-] & Hrow & _).
    simpl in Hrow. by rewrite row_of_delete, decide_True in Hrow.
Qed.

(** A deleted user is locked out at once: after a successful [Delete] in any
    reachable state no header of that user is accepted. *)
Theorem Delete_locks_out (d : DB) (u header : string) (salt : option string) (now : Z) (d1 : DB) :
  Delete u d = (Ok tt, d1) -> fst (Check header salt now d1) <> Ok u.
Proof. apply Delete_locks_out_core. Qed.

(** ** The cache that Delete forgets *)

(** [Delete] leaves the ad-hoc downtime cache alone: whoever is created
    under the same name starts in the deleted user's ad-hoc downtime, although
    the new row stores none. *)
Theorem recreated_user_inherits_adhoc_downtime (loc : time.Location) (d d1 d2 : DB) (u p s : string)
    (lo hi until now port : Z) :
  downtimeUntilCache d !! u = Some until -> now < until -> until <> time.zero ->
  Delete u d = (Ok tt, d1) -> Add u p lo hi (Some s) now d1 = (Ok port, d2) ->
  IsInDowntime loc now d2 u = true /\ r_downtime_until <$> row_of (users d2) u = Some "".
Proof.
  intros Hc Hnow Hz Hd Ha. apply Delete_inv in Hd as [(? & ? & _)|(row & fs & _ & _ & ->)]; [done|].
  apply Add_inv in Ha as [[(? & ?) _]|(s' & port' & fs' & _ & _ & _ & _ & Hn & _ & ->)]; [done|]. split.
  - unfold IsInDowntime, GetDowntimeUntil, time.IsZero, time.Before. simpl. rewrite Hc. simpl.
    destruct (Z.eqb_spec until time.zero), (Z.ltb_spec now until); [done..|done|lia].
  - simpl. rewrite row_of_snoc by done. simpl. by rewrite decide_True.
Qed.

(** ** Check and ChangePassword interleaved *)

(** [Check] reads the stored hash and finishes later.  When the user's
    password is changed in between, the finishing half still remembers the old
    password: the old one is accepted from the cache for five minutes, and if the
    old hash had outdated parameters the new password's hash is overwritten with
    one of the old password. *)
Theorem interleaved_Check_revives_old_password (d d1 d2 : DB) (header u old new s s' : string)
    (salt : option string) (now : Z) (r : Row) :
  parseBasicAuth header = Some (u, old) -> row_of (users d) u = Some r ->
  verifyPassword old (r_password_hash r) = true ->
  ChangePassword u new (Some s) d = (Ok tt, d1) -> faults d1 = [] ->
  check_finish u old (r_password_hash r) (Some s') now d1 = (Ok u, d2) ->
  fst (Check header salt now d2) = Ok u /\
  (needsRehash (r_password_hash r) = true ->
   r_password_hash <$> row_of (users d2) u = Some (hashPassword old s')).
Proof.
  intros Hp Hr Hv Hch Hf Hfin.
  apply ChangePassword_inv in Hch as [[(? & ?) _]|(s0 & row & fs & [= <-] & _ & _ & ->)]; [done|].
  apply check_finish_inv in Hfin as Hd2. destruct Hd2 as [(? & _)|(_ & _ & rows & fs' & _ & E)]; [congruence|]. split.
  - assert (cache d2 !! u = Some (mkCachedAuth (Sum256 old) (now + cacheTTL))) as Hc
      by (subst d2; simpl; by rewrite lookup_insert_eq).
    unfold Check, mbind, M_bind, get, check_cache.
    destruct (String.eqb_spec header "") as [->|_]; [by vm_compute in Hp|]. rewrite Hp, Hc. simpl.
    unfold time.Before. rewrite (proj2 (Z.ltb_lt _ _)) by (unfold cacheTTL, time.Minute, time.Second; lia).
    by rewrite String.eqb_refl.
  - intros Hn. clear E. unfold check_finish in Hfin. rewrite Hv, Hn in Hfin.
    simpl in Hf. subst fs. unfold mbind, M_bind, ignore, exec_update, exec_where, sql, modify, mret, M_ret in Hfin.
    simpl in Hfin. simplify_eq. simpl. rewrite !row_of_update, !decide_True, Hr by (by auto with evan). done.
Qed.

(** ** Ports *)

Lemma full_range lo hi rows p :
  free_port lo hi rows = None -> lo <= p <= hi -> exists r, r ∈ rows /\ r_port r = p.
Proof.
  unfold free_port. intros E Hp.
  assert (p ∈ used_ports lo hi rows) as Hx by (eapply first_free_None; [|exact E|done]; lia).
  by apply elem_of_used_ports in Hx as (_ & ?).
Qed.

Lemma free_port_Some lo hi rows p :
  free_port lo hi rows = Some p <->
  lo <= p <= hi /\ (forall r, r ∈ rows -> r_port r <> p) /\
  (forall q, lo <= q < p -> exists r, r ∈ rows /\ r_port r = q).
Proof.
  split.
  - intros (Hp & Hu & Hq)%first_free_Some. rewrite elem_of_used_ports in Hu. split; [done|]. split.
    + intros r Hr E. apply Hu. eauto.
    + intros q Hqp. apply Hq, elem_of_used_ports in Hqp. by destruct Hqp.
  - intros (Hp & Hu & Hq). destruct (free_port lo hi rows) as [p'|] eqn:E.
    + apply first_free_Some in E as (Hp' & Hu' & Hq'). rewrite elem_of_used_ports in Hu'.
      destruct (Z.lt_trichotomy p p') as [H|[->|H]]; [|done|].
      * destruct (proj1 (elem_of_used_ports lo hi rows p)) as (_ & r & Hr & E); [apply Hq'; lia|].
        by destruct (Hu r Hr).
      * exfalso. apply Hu'. split; [done|]. apply Hq. lia.
    + destruct (full_range lo hi rows p) as (r & Hr & ?); [done..|]. by destruct (Hu r Hr).
Qed.

Lemma free_port_None lo hi rows :
  free_port lo hi rows = None <-> forall p, lo <= p <= hi -> exists r, r ∈ rows /\ r_port r = p.
Proof.
  split.
  - intros E p Hp. by apply (full_range lo hi).
  - intros H. destruct (free_port lo hi rows) as [p|] eqn:E; [|done].
    apply free_port_Some in E as (Hp & Hu & _). destruct (H p Hp) as (r & Hr & ?). by destruct (Hu r Hr).
Qed.

Lemma unique_ports_snoc rows r :
  unique_ports rows -> (forall r', r' ∈ rows -> r_port r' <> r_port r) -> unique_ports (rows ++ [r]).
Proof.
  unfold unique_ports. intros Hu Hn. rewrite pairwise_app. split; [done|]. split; [by repeat constructor|].
  apply Forall_forall. intros r' Hr'. apply Forall_singleton. right. by apply Hn.
Qed.

(** The rows after a successful [Add]. *)
Definition added (now : Z) (u p s : string) (port : Z) (rows : list Row) : list Row :=
  rows ++ [new_row now u (hashPassword p s) port].

(** [Add] on every input, without engine failures: empty names and passwords
    and failed randomness are refused; with every port of the range taken it
    reports that; a taken name is reported as such; otherwise the new row, enabled
    and with the smallest free port of the range, is appended. *)
Theorem Add_spec (u p : string) (lo hi : Z) (salt : option string) (now : Z) (d : DB) :
  faults d = [] ->
  Add u p lo hi salt now d =
    if (u =? "")%string || (p =? "")%string then (Err ErrEmptyInput, d) else
    match salt, free_port lo hi (users d), row_of (users d) u with
    | None, _, _ => (Err (Wrapped "hashing password" ErrRand), d)
    | _, None, _ => (Err ErrNoPortAvailable, d)
    | _, _, Some _ => (Err (Wrapped u ErrUserExists), d)
    | Some s, Some port, None =>
        (Ok port, set_enabledCache (set_users d (added now u p s port (users d))) (<[u := true]> (enabledCache d)))
    end.
Proof.
  intros Hf. unfold Add. destruct (_ || _); [done|]. destruct salt as [s|]; [|done].
  unfold nextAvailablePort, query, exec_insert, sql, wrap, mbind, M_bind. rewrite Hf. cbn.
  fold (free_port lo hi (users d)). destruct (free_port lo hi (users d)) as [port|]; [|done].
  unfold mret, M_ret. rewrite Hf. cbn. destruct (row_of (users d) u); done.
Qed.

(** Dedicated ports stay dedicated: whatever range and failures, a successful
    [Add] returns a port of its range that no user had, gives it to the new user
    and keeps every port with at most one owner. *)
Theorem Add_keeps_ports_unique (u p : string) (lo hi : Z) (salt : option string) (now : Z) (d d' : DB) (port : Z) :
  unique_ports (users d) -> Add u p lo hi salt now d = (Ok port, d') ->
  lo <= port <= hi /\ (forall r, r ∈ users d -> r_port r <> port) /\
  r_port <$> row_of (users d') u = Some port /\ unique_ports (users d').
Proof.
  intros Hu [[(? & ?) _]|(s & port' & fs & _ & [= <-] & _ & _ & Hn & Hp & ->)]%Add_inv; [done|].
  apply free_port_Some in Hp as (Hp & Hfree & _). split; [done|]. split; [done|]. simpl.
  rewrite row_of_snoc by done. simpl. rewrite decide_True by done. split; [done|].
  by apply unique_ports_snoc.
Qed.

Lemma find_port rows p r :
  unique_ports rows -> 0 < p -> r ∈ rows -> r_port r = p ->
  List.find (fun r => r_port r =? p) rows = Some r.
Proof.
  unfold unique_ports. intros Hu Hp. induction rows as [|x rows IH]; intros Hr E; [by apply elem_of_nil in Hr|].
  simpl in *. destruct Hu as [Hx Hu]. apply elem_of_cons in Hr as [->|Hr]; [by rewrite (proj2 (Z.eqb_eq _ _))|].
  destruct (Z.eqb_spec (r_port x) p); [|by apply IH].
  rewrite Forall_forall in Hx. destruct (Hx r Hr); lia.
Qed.

Definition port_map (rows : list Row) (m : gmap Z string) : gmap Z string :=
  foldl (fun m r => <[r_port r := r_username r]> m) m (filter (fun r => 0 < r_port r) rows).

Lemma port_map_lookup rows m p :
  unique_ports rows -> 0 < p ->
  port_map rows m !! p =
    match List.find (fun r => r_port r =? p) rows with Some r => Some (r_username r) | None => m !! p end.
Proof.
  unfold unique_ports, port_map. intros Hu Hp. revert m. induction rows as [|x rows IH]; intros m; [done|].
  simpl in Hu. destruct Hu as [Hx Hu]. rewrite filter_cons. cbn [List.find].
  destruct (Z.eqb_spec (r_port x) p) as [E|E].
  - rewrite decide_True by lia. cbn [foldl]. rewrite IH by done.
    destruct (List.find _ rows) as [y|] eqn:Ey; [|by rewrite E, lookup_insert_eq].
    apply List.find_some in Ey as [Hy Hyp]. apply Z.eqb_eq in Hyp. rewrite Forall_forall in Hx.
    destruct (Hx y); [by apply list_elem_of_In|lia..].
  - case_decide; cbn [foldl]; rewrite IH by done; destruct (List.find _ rows); try done.
    by rewrite lookup_insert_ne.
Qed.

(** With unique ports, [PortOwner] and [ListPorts] describe the same
    ownership: asked for a positive port, the one names the user whom the other
    maps it to, or nobody. *)
Theorem PortOwner_agrees_with_ListPorts (d : DB) (p : Z) (m : gmap Z string) (d' : DB) :
  faults d = [] -> unique_ports (users d) -> 0 < p -> ListPorts d = (Ok m, d') ->
  fst (PortOwner p d) = Ok (default "" (m !! p)).
Proof.
  intros Hf Hu Hp. unfold ListPorts, PortOwner, query, sql, wrap, mbind, M_bind, mret, M_ret. rewrite Hf.
  intros H. injection H as <- _. cbn. fold (port_map (users d) ∅).
  rewrite port_map_lookup by done. by destruct (List.find _ _).
Qed.

(** ** Migration *)

Lemma Open_quiet rows tokens cols now : exists d, Open rows tokens cols [] now = (Ok tt, d).
Proof.
  unfold Open. match goal with |- context [?m (mkDB _ _ _ _ _ _ _ _ _ _)] => assert (quiet m) as Hq end.
  { unfold create_users, create_device_tokens, migrate, loadDNSCache, loadDowntimeCache, loadOverrideCache,
      loadDowntimeUntilCache, loadEnabledCache. auto 30 with evan. }
  destruct (Hq (mkDB rows tokens cols [] ∅ ∅ ∅ ∅ ∅ ∅) eq_refl) as ([] & d & -> & _). eauto.
Qed.

(** Opening twice changes nothing: a successful [Open] leaves a table with
    every column, and opening that table again succeeds with the same rows and
    columns. *)
Theorem Open_idempotent (rows : list Row) (tokens : list TokenRow) (cols : gset string)
    (fs : list (option string)) (now now' : Z) (d : DB) :
  Open rows tokens cols fs now = (Ok tt, d) ->
  let r := Open (users d) (device_tokens d) (columns d) [] now' in
  fst r = Ok tt /\ users (snd r) = users d /\ columns (snd r) = columns d.
Proof.
  intros H. cbn zeta. apply Open_inv in H as (cols' & fs' & Hcols & ->). cbn [users device_tokens columns].
  assert (fst (Open (map (migrated_row (initial_columns cols)) rows) tokens cols' [] now') = Ok tt) as Hok.
  { by destruct (Open_quiet (map (migrated_row (initial_columns cols)) rows) tokens cols' now') as (d' & ->). }
  split; [done|]. destruct (Open _ _ _ _ _) as [r d2] eqn:E. simpl in *. subst r.
  apply Open_inv in E as (cols2 & fs2 & Hcols2 & ->). simpl.
  assert (cols' <> ∅) by (unfold migrated_columns in *; set_solver).
  unfold initial_columns in *. rewrite (bool_decide_eq_false_2 (cols' = ∅)) in * by done. split.
  - rewrite map_map. apply map_ext. intros r. apply migrated_row_complete. set_solver.
  - set_solver.
Qed.
End spec.

(** ** The theorems at a concrete database *)

Section examples.
#[local] Existing Instance toy_crypto.
#[local] Existing Instance toy_codec.
#[local] Existing Instance toy_sqlite.

Definition ex_open : DB := snd (Open [] [] ∅ [] 0).
Definition ex_salt : string := "0123456789abcdef".
Definition ex_db : DB := run_op (OpAdd "amy" "pw" 9000 9010 (Some ex_salt) 0) ex_open.
Definition ex_header : string := ("Basic " +:+ base64.EncodeToString base64.StdEncoding "amy:pw")%string.
Definition ex_until : Z := 1754000000 * time.Second.
Definition ex_blocked : DB := run_op (OpSetUntil "amy" ex_until) ex_db.

Lemma ex_db_history dels : history dels 0 ex_db.
Proof.
  apply h_op; [|done|done]. apply (h_open dels 0 [] [] ∅ []); [apply NoDup_nil_2|]. by vm_compute.
Qed.

Lemma ex_blocked_history : history false 0 ex_blocked.
Proof. apply h_op; [apply ex_db_history|by vm_compute|done]. Qed.

Definition ex_row : Row := new_row 0 "amy" (hashPassword "pw" ex_salt) 9000.

Lemma IsInDowntime_as_stored_witness :
  IsInDowntime time.UTC (5 * time.Second) ex_blocked "amy" =
    stored_decision time.UTC (5 * time.Second) (set_downtime_until ex_row (rfc3339.Format ex_until)) /\
  IsInDowntime time.UTC (5 * time.Second) ex_blocked "amy" = true.
Proof.
  split; [|by vm_compute].
  apply (IsInDowntime_as_stored time.UTC 0); [apply ex_blocked_history|by vm_compute|by vm_compute|by vm_compute|..];
    intros x Hx; vm_compute in Hx; by simplify_eq.
Defined.

Lemma caches_agree_with_table_witness :
  unique_usernames (users ex_db) /\ forall u, coherent_view 0 (view ex_db u).
Proof. apply (caches_agree_with_table true). apply ex_db_history. Defined.

Lemma operations_are_isolated_witness :
  view (run_op (OpDelete "bob") ex_db) "amy" = view ex_db "amy".
Proof. apply (operations_are_isolated (OpDelete "bob") ex_db "amy"). by vm_compute. Defined.

Lemma Check_sound_witness :
  exists pass r, parseBasicAuth ex_header = Some ("amy", pass) /\ row_of (users ex_db) "amy" = Some r /\
    current_password r pass.
Proof.
  apply (Check_sound true 0 5 ex_db ex_header (Some ex_salt) "amy" (snd (Check ex_header (Some ex_salt) 5 ex_db)));
    [apply ex_db_history|by vm_compute].
Defined.

Lemma Check_complete_witness : fst (Check ex_header None 7 ex_db) = Ok "amy".
Proof.
  apply (Check_complete ex_db ex_header "amy" "pw" None 7 ex_row); [by vm_compute..|].
  intros c Hc. vm_compute in Hc. done.
Defined.

Lemma ChangePassword_takes_effect_witness :
  exists pass, parseBasicAuth ex_header = Some ("amy", pass) /\
    verifyPassword pass (hashPassword "pw" "fedcba9876543210") = true.
Proof.
  apply (ChangePassword_takes_effect true 0 5 ex_db "amy" "pw" "fedcba9876543210" ex_header None
    (snd (ChangePassword "amy" "pw" (Some "fedcba9876543210") ex_db))
    (snd (Check ex_header None 5 (snd (ChangePassword "amy" "pw" (Some "fedcba9876543210") ex_db)))));
    [apply ex_db_history|by vm_compute..].
Defined.

Lemma Delete_locks_out_witness :
  fst (Check ex_header None 5 (snd (Delete "amy" (snd (Check ex_header None 5 ex_db))))) <> Ok "amy".
Proof. apply (Delete_locks_out (snd (Check ex_header None 5 ex_db))). by vm_compute. Defined.

Lemma recreated_user_inherits_adhoc_downtime_witness :
  let d1 := snd (Delete "amy" ex_blocked) in
  let d2 := snd (Add "amy" "new" 9000 9010 (Some ex_salt) 5 d1) in
  IsInDowntime time.UTC 5 d2 "amy" = true /\ r_downtime_until <$> row_of (users d2) "amy" = Some "".
Proof.
  apply (recreated_user_inherits_adhoc_downtime time.UTC ex_blocked (snd (Delete "amy" ex_blocked)) _
    "amy" "new" ex_salt 9000 9010 ex_until 5 9000); by vm_compute.
Defined.

Lemma interleaved_Check_revives_old_password_witness :
  let d1 := snd (ChangePassword "amy" "new" (Some ex_salt) ex_db) in
  let d2 := snd (check_finish "amy" "pw" (r_password_hash ex_row) (Some ex_salt) 5 d1) in
  fst (Check ex_header None 5 d2) = Ok "amy" /\
  (needsRehash (r_password_hash ex_row) = true ->
   r_password_hash <$> row_of (users d2) "amy" = Some (hashPassword "pw" ex_salt)).
Proof.
  apply (interleaved_Check_revives_old_password ex_db (snd (ChangePassword "amy" "new" (Some ex_salt) ex_db)) _
    ex_header "amy" "pw" "new" ex_salt ex_salt None 5 ex_row); by vm_compute.
Defined.

Lemma ex_ports : unique_ports (users ex_db).
Proof.
  replace (users ex_db) with [ex_row] by (by vm_compute). unfold unique_ports. simpl. auto.
Qed.

Lemma Add_spec_witness :
  faults ex_db = [] /\ fst (Add "bob" "pw" 9000 9010 (Some ex_salt) 5 ex_db) = Ok 9001.
Proof. split; [by vm_compute|]. rewrite (Add_spec "bob" "pw" 9000 9010 (Some ex_salt) 5 ex_db); by vm_compute. Defined.

Lemma Add_keeps_ports_unique_witness :
  let d' := snd (Add "bob" "pw" 9000 9010 (Some ex_salt) 5 ex_db) in
  9000 <= 9001 <= 9010 /\ (forall r, r ∈ users ex_db -> r_port r <> 9001) /\
  r_port <$> row_of (users d') "bob" = Some 9001 /\ unique_ports (users d').
Proof.
  apply (Add_keeps_ports_unique "bob" "pw" 9000 9010 (Some ex_salt) 5 ex_db); [apply ex_ports|by vm_compute].
Defined.

Lemma PortOwner_agrees_with_ListPorts_witness :
  fst (PortOwner 9000 ex_db) = Ok (default "" (({[9000 := "amy"]} : gmap Z string) !! 9000)).
Proof.
  apply (PortOwner_agrees_with_ListPorts ex_db 9000 {[9000 := "amy"]} ex_db); [by vm_compute|apply ex_ports|done|by vm_compute].
Defined.

Lemma Open_idempotent_witness :
  let d := snd (Open [ex_row] [] {["username"; "password_hash"; "created_at"; "port"]} [] 5) in
  let r := Open (users d) (device_tokens d) (columns d) [] 9 in
  fst r = Ok tt /\ users (snd r) = users d /\ columns (snd r) = columns d.
Proof.
  apply (Open_idempotent [ex_row] [] {["username"; "password_hash"; "created_at"; "port"]} [] 5 9). by vm_compute.
Defined.
End examples.
