(* ===== verification/RateLimit.v ===== *)
(** * Sliding windows of failures (pkg/ratelimit/ratelimit.go, pkg/admin/globalcounter.go)

    The per-IP limiter and the global ceiling of the admin login.  Both keep
    failure times and prune them as they go; the specification keeps every
    failure ever recorded and counts those inside the window. *)

From S2P Require Import Prelude GoStrings GoTime.

Open Scope list_scope.

(** The pruning loop: [for _, t := range times { if t.After(cutoff) ... }]. *)
Definition active (cutoff : Z) (times : list Z) : list Z :=
  filter (fun t => cutoff < t) times.

(** ** The limiter *)

Record Limiter := mkLimiter {
  counts : gmap string (list Z);
  limit : Z;
  window : Z;
}.

Definition set_counts (l : Limiter) (c : gmap string (list Z)) : Limiter := mkLimiter c (limit l) (window l).

Definition newLimiter (limit window : Z) : Limiter := mkLimiter ∅ limit window.

Definition RecordFailure (ip : string) (now : Z) (l : Limiter) : Limiter :=
  set_counts l (<[ip := default [] (counts l !! ip) ++ [now]]> (counts l)).

Definition Allow (ip : string) (now : Z) (l : Limiter) : bool * Limiter :=
  match counts l !! ip with
  | None => (true, l)
  | Some times =>
      let act := active (time.Add now (- window l)) times in
      (Z.of_nat (length act) <? limit l, set_counts l (<[ip := act]> (counts l)))
  end.

(** One tick of the cleanup goroutine. *)
Definition limiter_cleanup (now : Z) (l : Limiter) : Limiter :=
  let cutoff := time.Add now (- window l) in
  set_counts l (omap (fun times => match active cutoff times with [] => None | act => Some act end) (counts l)).

(** ** The global counter *)

Record globalCounter := mkGlobalCounter {
  times : list Z;
  max : Z;
  gwindow : Z;
}.

Definition newGlobalCounter (max window : Z) : globalCounter := mkGlobalCounter [] max window.

Definition allow (now : Z) (g : globalCounter) : bool * globalCounter :=
  if max g <=? 0 then (true, g) else
  let act := active (time.Add now (- gwindow g)) (times g) in
  (Z.of_nat (length act) <? max g, mkGlobalCounter act (max g) (gwindow g)).

Definition record (now : Z) (g : globalCounter) : globalCounter :=
  if max g <=? 0 then g else mkGlobalCounter (times g ++ [now]) (max g) (gwindow g).

(** ** The specification: count the failures inside the window *)

(** Every failure recorded so far, in order. *)
Definition in_window (window now : Z) (failures : list Z) : Z :=
  Z.of_nat (length (active (now - window) failures)).

Lemma active_active c1 c2 l : c1 <= c2 -> active c2 (active c1 l) = active c2 l.
Proof. intros H. unfold active. rewrite list_filter_filter_l; [done|]. intros x Hx. lia. Qed.

Lemma active_app c l k : active c (l ++ k) = active c l ++ active c k.
Proof. apply filter_app. Qed.

(** [kept] is what is left of [all] after prunings whose cutoffs lie at or
    before [bound]: later questions get the same answer from either. *)
Definition faithful (bound : Z) (kept all : list Z) : Prop :=
  forall c, bound <= c -> active c kept = active c all.

Lemma faithful_prune bound c kept all : faithful bound kept all -> bound <= c -> faithful c (active c kept) all.
Proof. intros H Hc c' Hc'. rewrite active_active by done. apply H. lia. Qed.

Lemma faithful_snoc bound kept all t : faithful bound kept all -> faithful bound (kept ++ [t]) (all ++ [t]).
Proof. intros H c Hc. by rewrite !active_app, H. Qed.

Lemma faithful_later bound bound' kept all : faithful bound kept all -> bound <= bound' -> faithful bound' kept all.
Proof. intros H Hb c Hc. apply H. lia. Qed.

#[export] Hint Resolve faithful_prune faithful_snoc faithful_later : evan.

(** ** Histories of the limiter *)

Inductive limiter_event :=
| Failed (ip : string)
| Asked (ip : string)
| Ticked.

(** Runs the events, each at its time, and collects the answers of [Allow]. *)
Fixpoint run_limiter (events : list (Z * limiter_event)) (l : Limiter) : list bool :=
  match events with
  | [] => []
  | (now, Failed ip) :: rest => run_limiter rest (RecordFailure ip now l)
  | (now, Asked ip) :: rest => let '(b, l') := Allow ip now l in b :: run_limiter rest l'
  | (now, Ticked) :: rest => run_limiter rest (limiter_cleanup now l)
  end.

(** The answers that counting all failures would give. *)
Fixpoint spec_limiter (limit window : Z) (failed : string -> list Z) (events : list (Z * limiter_event)) : list bool :=
  match events with
  | [] => []
  | (now, Failed ip) :: rest =>
      spec_limiter limit window (fun ip' => if decide (ip' = ip) then failed ip ++ [now] else failed ip') rest
  | (now, Asked ip) :: rest => (in_window window now (failed ip) <? limit) :: spec_limiter limit window failed rest
  | (now, Ticked) :: rest => spec_limiter limit window failed rest
  end.

(** Times that never go back. *)
Fixpoint from_time (now : Z) (events : list (Z * limiter_event)) : Prop :=
  match events with
  | [] => True
  | (t, _) :: rest => now <= t /\ from_time t rest
  end.

Definition limiter_rel (bound : Z) (l : Limiter) (failed : string -> list Z) : Prop :=
  forall ip, faithful bound (default [] (counts l !! ip)) (failed ip).

Lemma limiter_rel_later b b' l failed : limiter_rel b l failed -> b <= b' -> limiter_rel b' l failed.
Proof. intros H Hb ip. eauto with evan. Qed.

Lemma RecordFailure_rel b l failed ip now :
  limiter_rel b l failed ->
  limiter_rel b (RecordFailure ip now l) (fun ip' => if decide (ip' = ip) then failed ip ++ [now] else failed ip').
Proof.
  intros H ip'. simpl. case_decide as E; [subst; rewrite lookup_insert_eq; by apply faithful_snoc|].
  rewrite lookup_insert_ne by done. apply H.
Qed.

Lemma Allow_rel b l failed ip now :
  0 < limit l -> limiter_rel b l failed -> b <= now - window l ->
  fst (Allow ip now l) = (in_window (window l) now (failed ip) <? limit l) /\
  limiter_rel (now - window l) (snd (Allow ip now l)) failed.
Proof.
  intros Hl H Hb. unfold Allow, in_window, time.Add. replace (now + - window l) with (now - window l) by lia.
  pose proof (H ip) as Hip. destruct (counts l !! ip) as [ts|] eqn:E; simpl in *.
  - rewrite (Hip (now - window l)) by lia. split; [done|]. intros ip'. simpl.
    destruct (decide (ip' = ip)) as [->|].
    + rewrite lookup_insert_eq. simpl. rewrite <- (Hip (now - window l)) by lia. by apply (faithful_prune b).
    + rewrite lookup_insert_ne by done. eapply faithful_later; [apply H|lia].
  - rewrite <- (Hip (now - window l)) by lia. simpl. split; [|by eapply limiter_rel_later].
    symmetry. by apply Z.ltb_lt.
Qed.

Lemma cleanup_rel b l failed now :
  limiter_rel b l failed -> b <= now - window l -> limiter_rel (now - window l) (limiter_cleanup now l) failed.
Proof.
  intros H Hb ip. unfold limiter_cleanup, time.Add. simpl. rewrite lookup_omap.
  replace (now + - window l) with (now - window l) by lia. pose proof (H ip) as Hip.
  assert (faithful (now - window l) (active (now - window l) (default [] (counts l !! ip))) (failed ip)) as Hf
    by (by eapply faithful_prune).
  destruct (counts l !! ip) as [ts|]; simpl in *; [|by eapply faithful_later].
  by destruct (active (now - window l) ts).
Qed.

Lemma run_limiter_spec events b l failed now :
  0 < limit l -> 0 <= window l -> limiter_rel b l failed -> b <= now - window l -> from_time now events ->
  run_limiter events l = spec_limiter (limit l) (window l) failed events.
Proof.
  revert b l failed now. induction events as [|[t [ip|ip|]] events IH]; intros b l failed now Hl Hw Hr Hb Ht;
    simpl in *; [done| | |].
  - destruct Ht as [? ?]. apply (IH b (RecordFailure ip t l) _ t); auto using RecordFailure_rel. simpl. lia.
  - destruct Ht as [? ?]. destruct (Allow_rel b l failed ip t) as [Ha Hr']; [done|done|lia|].
    assert (limit (snd (Allow ip t l)) = limit l /\ window (snd (Allow ip t l)) = window l) as [E1 E2]
      by (unfold Allow; by destruct (counts l !! ip)).
    destruct (Allow ip t l) as [a l']. simpl in *. rewrite Ha, <- E1, <- E2 in *. f_equal.
    apply (IH (t - window l') l' failed t); try done; lia.
  - destruct Ht as [? ?]. apply (IH (t - window l) (limiter_cleanup t l) failed t); simpl; try done; try lia.
    apply (cleanup_rel b); [done|lia].
Qed.

(** [C19] The limiter is a sliding window: over any sequence of failures,
    questions and cleanup ticks at times that do not go back, a fresh limiter
    with a positive limit answers every question exactly as if it had kept all
    failures and counted those of that IP younger than the window.  Pruning, lazy
    or periodic, is never observable. *)
Theorem limiter_is_a_sliding_window (lim win start : Z) (events : list (Z * limiter_event)) :
  0 < lim -> 0 <= win -> from_time start events ->
  run_limiter events (newLimiter lim win) = spec_limiter lim win (fun _ => []) events.
Proof.
  intros Hl Hw Ht. apply (run_limiter_spec events (start - win) (newLimiter lim win) _ start); simpl; try done; lia.
Qed.

Lemma limiter_is_a_sliding_window_witness :
  let events := [(1, Failed "a"); (2, Failed "a"); (3, Asked "a"); (3, Asked "b"); (9, Ticked); (9, Asked "a")] in
  from_time 0 events /\
  run_limiter events (newLimiter 2 5) = spec_limiter 2 5 (fun _ => []) events /\
  run_limiter events (newLimiter 2 5) = [false; true; true].
Proof.
  cbn zeta. split; [simpl; lia|]. split; [|by vm_compute].
  apply (limiter_is_a_sliding_window 2 5 0); simpl; lia.
Defined.

(** ** Histories of the global counter *)

(** [true] is a failure, [false] a question. *)
Fixpoint run_global (events : list (Z * bool)) (g : globalCounter) : list bool :=
  match events with
  | [] => []
  | (now, true) :: rest => run_global rest (record now g)
  | (now, false) :: rest => let '(b, g') := allow now g in b :: run_global rest g'
  end.

Fixpoint spec_global (max window : Z) (failed : list Z) (events : list (Z * bool)) : list bool :=
  match events with
  | [] => []
  | (now, true) :: rest => spec_global max window (failed ++ [now]) rest
  | (now, false) :: rest =>
      ((max <=? 0) || (in_window window now failed <? max)) :: spec_global max window failed rest
  end.

Lemma run_global_spec events b g failed now :
  0 <= gwindow g -> (0 < max g -> faithful b (times g) failed) -> b <= now - gwindow g ->
  Sorted Z.le (now :: map fst events) ->
  run_global events g = spec_global (max g) (gwindow g) failed events.
Proof.
  revert b g failed now. induction events as [|[t []] events IH]; intros b g failed now Hw Hf Hb Hs; simpl in *; [done| |];
    apply Sorted_inv in Hs as [Hs Ht]; apply HdRel_inv in Ht.
  - replace (max g) with (max (record t g)) by (unfold record; by destruct (max g <=? 0)).
    replace (gwindow g) with (gwindow (record t g)) by (unfold record; by destruct (max g <=? 0)).
    apply (IH b _ _ t); try done; unfold record; destruct (Z.leb_spec (max g) 0); simpl; try done; try lia.
    intros _. apply faithful_snoc. by apply Hf.
  - unfold allow, in_window, time.Add. replace (t + - gwindow g) with (t - gwindow g) by lia.
    destruct (Z.leb_spec (max g) 0); simpl.
    + f_equal. apply (IH b g failed t); try done; lia.
    + rewrite (Hf ltac:(lia) (t - gwindow g)) by lia. f_equal.
      apply (IH (t - gwindow g) (mkGlobalCounter _ (max g) (gwindow g)) failed t); simpl; try done; try lia.
      intros _. rewrite <- (Hf ltac:(lia) (t - gwindow g)) by lia. apply (faithful_prune b); [by apply Hf; lia|lia].
Qed.

(** The global login ceiling is a sliding window over all failures: at times
    that do not go back every question is answered by counting the recorded
    failures inside the window, and a ceiling of zero or less allows everything. *)
Theorem global_counter_is_a_sliding_window (mx win start : Z) (events : list (Z * bool)) :
  0 <= win -> Sorted Z.le (start :: map fst events) ->
  run_global events (newGlobalCounter mx win) = spec_global mx win [] events.
Proof.
  intros Hw Hs. apply (run_global_spec events (start - win) (newGlobalCounter mx win) [] start); simpl; try done; lia.
Qed.

Lemma global_counter_is_a_sliding_window_witness :
  run_global [(1, true); (2, true); (3, false); (8, false)] (newGlobalCounter 2 5) =
    spec_global 2 5 [] [(1, true); (2, true); (3, false); (8, false)] /\
  run_global [(1, true); (2, true); (3, false); (8, false)] (newGlobalCounter 2 5) = [false; true].
Proof.
  split; [|by vm_compute]. apply (global_counter_is_a_sliding_window 2 5 0); [lia|].
  simpl. repeat constructor; lia.
Defined.
