(* ===== verification/Bypass.v ===== *)
(** * Hosts that a block never intercepts (pkg/mitm/bypass.go, normalizeHost of mint.go)

    The specification reads a pattern as the set of hosts it names. *)

From S2P Require Import Prelude GoStrings GoNet.

Open Scope list_scope.

(** Lower case, no port, no trailing dot, no brackets. *)
Definition normalizeHost (host : string) : string :=
  let host := strings.TrimSpace (strings.ToLower host) in
  if (host =? "")%string then "" else
  let host := match net.SplitHostPort host with Some (h, _) => h | None => host end in
  let host := strings.TrimSuffix host "." in
  let host := strings.TrimPrefix host "[" in
  strings.TrimSuffix host "]".

Definition applePatterns : list string :=
  ["*.apple.com"; "*.icloud.com"; "*.push.apple.com"; "*.mzstatic.com"; "*.gc.apple.com"; "*.cdn-apple.com";
   "*.itunes.apple.com"; "*.apps.apple.com"; "*.aaplimg.com"; "mesu.apple.com"; "gs.apple.com"; "xp.apple.com";
   "configuration.apple.com"; "gdmf.apple.com"].

(** The loop of compilePatterns, with the two results so far. *)
Fixpoint compile_loop (patterns : list string) (exact : gset string) (suffixes : list string)
    : gset string * list string :=
  match patterns with
  | [] => (exact, suffixes)
  | p :: rest =>
      let p := normalizeHost p in
      if (p =? "")%string then compile_loop rest exact suffixes
      else if strings.HasPrefix p "*." then
        let base := strings.TrimPrefix p "*." in
        compile_loop rest ({[base]} ∪ exact) (suffixes ++ [("." +:+ base)%string])
      else compile_loop rest ({[p]} ∪ exact) suffixes
  end.

Definition compilePatterns (patterns : list string) : gset string * list string := compile_loop patterns ∅ [].

Definition exactHosts : gset string := fst (compilePatterns applePatterns).
Definition wildcardSuffixes : list string := snd (compilePatterns applePatterns).

Definition Passthrough (host : string) : bool :=
  let h := normalizeHost host in
  if (h =? "")%string then false
  else if bool_decide (h ∈ exactHosts) then true
  else existsb (fun suffix => strings.HasSuffix h suffix) wildcardSuffixes.

(** ** What a pattern names *)

(** A wildcard names its base domain and everything below it; any other pattern
    names itself. *)
Definition pattern_names (p h : string) : Prop :=
  if strings.HasPrefix p "*."
  then h = strings.TrimPrefix p "*." \/ exists sub, h = (sub +:+ "." +:+ strings.TrimPrefix p "*.")%string
  else h = p.

Lemma HasSuffix_iff s t : strings.HasSuffix s t = true <-> exists u, s = (u +:+ t)%string.
Proof.
  induction s as [|a s IH]; cbn [strings.HasSuffix]; rewrite orb_true_iff, String.eqb_eq.
  - split; [intros [<-|?]; [by exists ""|done]|]. intros [u E]. left. by destruct u.
  - rewrite IH. split.
    + intros [<-|[u ->]]; [by exists ""|by exists (String a u)].
    + intros [[|b u] E]; [by left|]. right. injection E as -> ->. by exists u.
Qed.

(** What the compiled patterns accept. *)
Definition compiled_match (c : gset string * list string) (h : string) : Prop :=
  h ∈ fst c \/ Exists (fun s => strings.HasSuffix h s = true) (snd c).

Lemma compiled_match_test c h :
  (if bool_decide (h ∈ fst c) then true else existsb (fun s => strings.HasSuffix h s) (snd c)) = true <->
  compiled_match c h.
Proof.
  unfold compiled_match. rewrite Exists_exists, <- existsb_true_iff.
  case_bool_decide; split; [by left|done|by right|by intros [?|?]].
Qed.

Lemma compile_loop_match patterns exact suffixes h :
  compiled_match (compile_loop patterns exact suffixes) h <->
  compiled_match (exact, suffixes) h \/
  exists p, p ∈ patterns /\ normalizeHost p <> "" /\ pattern_names (normalizeHost p) h.
Proof.
  revert exact suffixes. induction patterns as [|p ps IH]; intros exact suffixes; simpl.
  - split; [by left|]. intros [?|(p & Hp & _)]; [done|by apply elem_of_nil in Hp].
  - setoid_rewrite elem_of_cons.
    assert (forall Q : Prop, (Q \/ exists p', (p' = p \/ p' ∈ ps) /\ normalizeHost p' <> "" /\
        pattern_names (normalizeHost p') h) <->
      (Q \/ (normalizeHost p <> "" /\ pattern_names (normalizeHost p) h) \/
       exists p', p' ∈ ps /\ normalizeHost p' <> "" /\ pattern_names (normalizeHost p') h)) as Hsplit by naive_solver.
    rewrite Hsplit. clear Hsplit. destruct (String.eqb_spec (normalizeHost p) "") as [E|E].
    { rewrite IH. naive_solver. }
    unfold pattern_names at 1. destruct (strings.HasPrefix (normalizeHost p) "*.");
      rewrite IH; unfold compiled_match; simpl; rewrite ?elem_of_union, ?elem_of_singleton, ?Exists_app, ?Exists_cons,
        ?Exists_nil, ?HasSuffix_iff; naive_solver.
Qed.

(** A blocked user's CONNECT is tunnelled only for the hosts the pattern list
    names: a wildcard pattern names its base domain and the domains below it, at
    a label boundary, any other pattern names just itself; case, port, trailing
    dot and brackets of the host do not matter. *)
Theorem Passthrough_iff (host : string) :
  Passthrough host = true <->
  normalizeHost host <> "" /\ exists p, p ∈ applePatterns /\ pattern_names p (normalizeHost host).
Proof.
  unfold Passthrough. destruct (String.eqb_spec (normalizeHost host) "") as [E|E]; [naive_solver|].
  set (h := normalizeHost host) in *.
  assert (Forall (fun p => normalizeHost p = p /\ p <> "") applePatterns) as Hn
    by (repeat constructor; done).
  pose proof (compile_loop_match applePatterns ∅ [] h) as Hm.
  change (compile_loop applePatterns ∅ []) with (compilePatterns applePatterns) in Hm.
  assert ((if bool_decide (h ∈ exactHosts) then true
           else existsb (fun s => strings.HasSuffix h s) wildcardSuffixes) = true <->
          compiled_match (compilePatterns applePatterns) h) as ->.
  { apply (compiled_match_test (compilePatterns applePatterns)). }
  rewrite Hm. unfold compiled_match. simpl. rewrite Exists_nil, Forall_forall in *. split.
  - intros [[?%elem_of_empty|[]]|(p & Hp & _ & Hnames)]; [done|]. split; [done|].
    destruct (Hn p Hp) as [E' _]. rewrite E' in Hnames. eauto.
  - intros [_ (p & Hp & Hnames)]. right. exists p. destruct (Hn p Hp) as [-> ?]. done.
Qed.

Example passthrough_examples :
  map Passthrough ["gateway.icloud.com:443"; "APPLE.com."; "evilapple.com:443"; "apple.com.evil.net"; "xp.apple.com"; ""] =
  [true; true; false; false; true; false].
Proof. by vm_compute. Qed.
