(* ===== verification/Dns.v ===== *)
(** * Resolvers and their global cache (pkg/dns/resolver.go)

    A resolver is what its constructor captured: the lookups themselves are
    network traffic and belong to the environment. *)

From S2P Require Import Prelude GoStrings GoBase64 GoNet Password.

Inductive Resolver :=
| SystemResolver
| PlainResolver (server : string)
| TLSResolver (server serverName : string)
| DoHResolver (url : string).

#[global] Instance Resolver_eq_dec : EqDecision Resolver.
Proof. solve_decision. Defined.

Definition newPlain (server : string) : Resolver :=
  if (server =? "")%string then SystemResolver else PlainResolver server.

Definition newTLS (server : string) : Resolver :=
  match net.SplitHostPort server with
  | Some (host, _) => TLSResolver server host
  | None => TLSResolver (net.JoinHostPort server "853") server
  end.

Definition newDoH (serverURL : string) : option Resolver :=
  if (serverURL =? "")%string then None else Some (DoHResolver serverURL).

(** [edns.New]; [None] is a non-nil error. *)
Definition newResolver (protocol server : string) : option Resolver :=
  if (protocol =? "plain")%string || (protocol =? "")%string then Some (newPlain server)
  else if (protocol =? "tls")%string then Some (newTLS server)
  else if (protocol =? "https")%string then newDoH server
  else None.

(** The second look under the write lock sees the same map. *)
Definition GetOrCreate (protocol server : string) : ST (gmap string Resolver) (option Resolver) :=
  fun cache =>
    let key := (protocol +:+ ":" +:+ server)%string in
    match cache !! key with
    | Some r => (Some r, cache)
    | None =>
        match newResolver protocol server with
        | Some r => (Some r, <[key := r]> cache)
        | None => (None, cache)
        end
    end.

(** Every entry is what creating it anew would give. *)
Definition resolver_cache_ok (cache : gmap string Resolver) : Prop :=
  forall k r, cache !! k = Some r -> exists protocol server,
    k = (protocol +:+ ":" +:+ server)%string /\ free_of ":" protocol /\ newResolver protocol server = Some r.

Lemma newResolver_protocol protocol server r : newResolver protocol server = Some r -> free_of ":" protocol.
Proof.
  unfold newResolver. destruct (String.eqb_spec protocol "plain") as [->|]; [by repeat split|].
  destruct (String.eqb_spec protocol "") as [->|]; [by repeat split|].
  destruct (String.eqb_spec protocol "tls") as [->|]; [by repeat split|].
  destruct (String.eqb_spec protocol "https") as [->|]; [by repeat split|done].
Qed.

Lemma colon_inj p p' s s' :
  free_of ":" p -> free_of ":" p' -> (p +:+ ":" +:+ s)%string = (p' +:+ ":" +:+ s')%string -> p = p' /\ s = s'.
Proof.
  intros Hp Hp' E. change (":" +:+ s)%string with (String ":" s) in E. change (":" +:+ s')%string with (String ":" s') in E.
  pose proof (Cut_app_free ":" p s Hp) as H. rewrite E, Cut_app_free in H by done. by simplify_eq.
Qed.

Lemma GetOrCreate_ok protocol server cache :
  resolver_cache_ok cache -> resolver_cache_ok (snd (GetOrCreate protocol server cache)).
Proof.
  intros Hc. unfold GetOrCreate. destruct (cache !! _) eqn:E; [done|].
  destruct (newResolver protocol server) as [r|] eqn:En; [|done]. intros k r'. simpl.
  rewrite lookup_insert. case_decide as Hk; [|apply Hc]. intros [= <-]. subst k. exists protocol, server.
  eauto using newResolver_protocol.
Qed.

(** The resolver cache is transparent: from the empty cache on, whatever was
    created before, [GetOrCreate] for a protocol without a colon returns exactly
    what [New] would, errors included, and keeps the cache so. *)
Theorem GetOrCreate_transparent (protocol server : string) (cache : gmap string Resolver) :
  resolver_cache_ok cache -> free_of ":" protocol ->
  fst (GetOrCreate protocol server cache) = newResolver protocol server /\
  resolver_cache_ok (snd (GetOrCreate protocol server cache)).
Proof.
  intros Hc Hp. split; [|by apply GetOrCreate_ok]. unfold GetOrCreate. destruct (cache !! _) as [r|] eqn:E.
  - destruct (Hc _ _ E) as (p' & s' & Ek & Hp' & Hn). apply colon_inj in Ek as [-> ->]; auto.
  - by destruct (newResolver protocol server).
Qed.

Lemma GetOrCreate_transparent_witness :
  let cache := snd (GetOrCreate "tls" "1.1.1.1" ∅) in
  fst (GetOrCreate "https" "" cache) = newResolver "https" "" /\
  resolver_cache_ok (snd (GetOrCreate "https" "" cache)).
Proof.
  apply GetOrCreate_transparent; [|by repeat split]. apply GetOrCreate_ok. intros k r Hk. by rewrite lookup_empty in Hk.
Defined.
