(* ===== verification/Config.v ===== *)
(** * Configuration (pkg/config/config.go)

    The settings and [validate].  Durations are nanoseconds. *)

From S2P Require Import Prelude GoStrings GoNet.

Record Config := mkConfig {
  ProxyDBPath : string;
  AdminListen : string;
  MetricsListen : string;
  MetricsUserLabel : bool;
  AdminUser : string;
  AdminPassword : string;
  ForceHTTPS : bool;
  AutocertHost : string;
  AutocertDir : string;
  DNSServer : string;
  DNSProtocol : string;
  AuthRetryTimeout : Z;
  ConnectDialTimeout : Z;
  IdleTimeout : Z;
  HTTPTimeout : Z;
  AuthFailRateLimit : Z;
  AuthFailWindow : Z;
  AdminLoginRateLimit : Z;
  AdminLoginWindow : Z;
  AdminLoginGlobalMax : Z;
  TrustedProxyCIDRs : list string;
  UserPortMin : Z;
  UserPortMax : Z;
  LogFormat : string;
  LogHeaders : bool;
  LogNetMode : string;
  LogNetAddr : string;
  LogNetBatchSize : Z;
  LogNetFlushInterval : Z;
  PACEnabled : bool;
  PACPath : string;
  PACProxyEndpoint : string;
  PACBypassDomains : list string;
  PProfEnabled : bool;
  PProfListen : string;
  MITMEnabled : bool;
  MITMCACertFile : string;
  MITMCAKeyFile : string;
  MITMLeafTTL : Z;
  MITMCertCacheSize : Z;
  DemoMode : bool;
}.
