(* ===== verification/ConfigLoad.v ===== *)
(** * Reading and validating the configuration (pkg/config/config.go)

    The environment is a function from names to values, the empty string for an
    unset variable, as [os.Getenv] has it.  [time.ParseDuration] is a parameter. *)

From S2P Require Import Prelude GoStrings GoNet GoTime Dns Config.

Open Scope list_scope.

(** ** Library functions *)

(** [strconv.ParseBool]. *)
Definition ParseBool (s : string) : option bool :=
  if existsb (String.eqb s) ["1"; "t"; "T"; "true"; "TRUE"; "True"] then Some true
  else if existsb (String.eqb s) ["0"; "f"; "F"; "false"; "FALSE"; "False"] then Some false
  else None.

(** [net.CIDRMask] for a prefix of [n] ones in [bytes] bytes. *)
Fixpoint CIDRMask (bytes : nat) (n : Z) : list Z :=
  match bytes with
  | O => []
  | S bytes' => (if 8 <=? n then 255 else 255 - (2 ^ (8 - Z.max n 0) - 1)) :: CIDRMask bytes' (n - 8)
  end.

Definition mask_bytes (ip m : list Z) : list Z := zip_with Z.land ip m.

(** [net.ParseCIDR]: the network. *)
Definition ParseCIDR (s : string) : option net.IPNet :=
  match strings.Cut s "/" with
  | None => None
  | Some (addr, mask) =>
      ip ← net.ParseIP addr;
      n ← strconv.udigits mask;
      let four := match net.addr_kind addr with Some "."%char => true | _ => false end in
      if ((if four then 32 else 128) <? n) then None
      else if four then
        let ip4 := skipn 12 ip in let m := CIDRMask 4 n in Some (net.mkIPNet (mask_bytes ip4 m) m)
      else let m := CIDRMask 16 n in Some (net.mkIPNet (mask_bytes ip m) m)
  end.

Section load.
(** [time.ParseDuration] without its error text. *)
Variable ParseDuration : string -> option Z.

Section environment.
Variable Getenv : string -> string.

Definition envOr (key fallback : string) : string :=
  let v := Getenv key in if negb (v =? "")%string then v else fallback.

(** The three readers that parse: unset or unreadable gives the fallback. *)
Definition env_parsed {A} (parse : string -> option A) (key : string) (fallback : A) : A :=
  let v := Getenv key in if (v =? "")%string then fallback else default fallback (parse v).

Definition envDuration : string -> Z -> Z := env_parsed ParseDuration.
Definition envBool : string -> bool -> bool := env_parsed ParseBool.
Definition envInt : string -> Z -> Z := env_parsed strconv.Atoi.

Definition csv_fields (v : string) : list string :=
  filter (fun s => s <> ""%string) (map strings.TrimSpace (strings.Split v ",")).

Definition envCSV (key : string) (fallback : list string) : list string :=
  let v := Getenv key in
  if (v =? "")%string then fallback else
  match csv_fields v with [] => fallback | out => out end.

(** The record that [Load] fills in before it is validated. *)
Definition settings : Config := {|
  ProxyDBPath := envOr "PROXY_DB_PATH" "/data/evan-proxy/users.db";
  AdminListen := envOr "ADMIN_LISTEN" ":9090";
  MetricsListen := envOr "METRICS_LISTEN" "127.0.0.1:9091";
  MetricsUserLabel := envBool "METRICS_USER_LABEL" false;
  AdminUser := Getenv "ADMIN_USER";
  AdminPassword := Getenv "ADMIN_PASSWORD";
  ForceHTTPS := envBool "FORCE_HTTPS" false || negb (Getenv "AUTOCERT_HOST" =? "")%string;
  AutocertHost := Getenv "AUTOCERT_HOST";
  AutocertDir := envOr "AUTOCERT_DIR" "/data/evan-proxy/autocert";
  DNSServer := Getenv "DNS_SERVER";
  DNSProtocol := envOr "DNS_PROTOCOL" "plain";
  AuthRetryTimeout := envDuration "AUTH_RETRY_TIMEOUT" (5 * time.Second);
  ConnectDialTimeout := envDuration "CONNECT_DIAL_TIMEOUT" (10 * time.Second);
  IdleTimeout := envDuration "IDLE_TIMEOUT" (300 * time.Second);
  HTTPTimeout := envDuration "HTTP_TIMEOUT" (30 * time.Second);
  AuthFailRateLimit := envInt "AUTH_FAIL_RATE_LIMIT" 5;
  AuthFailWindow := envDuration "AUTH_FAIL_WINDOW" (60 * time.Second);
  AdminLoginRateLimit := envInt "ADMIN_LOGIN_RATE_LIMIT" 5;
  AdminLoginWindow := envDuration "ADMIN_LOGIN_WINDOW" (15 * time.Minute);
  AdminLoginGlobalMax := envInt "ADMIN_LOGIN_GLOBAL_MAX" 100;
  TrustedProxyCIDRs := envCSV "TRUSTED_PROXY_CIDRS" [];
  UserPortMin := envInt "USER_PORT_MIN" 8081;
  UserPortMax := envInt "USER_PORT_MAX" 8090;
  LogFormat := envOr "LOG_FORMAT" "human";
  LogHeaders := envBool "LOG_HEADERS" false;
  LogNetMode := Getenv "LOG_NET_MODE";
  LogNetAddr := Getenv "LOG_NET_ADDR";
  LogNetBatchSize := envInt "LOG_NET_BATCH_SIZE" 100;
  LogNetFlushInterval := envDuration "LOG_NET_FLUSH_INTERVAL" (5 * time.Second);
  PACEnabled := envBool "PAC_ENABLED" false;
  PACPath := envOr "PAC_PATH" "/proxy.pac";
  PACProxyEndpoint := Getenv "PAC_PROXY_ENDPOINT";
  PACBypassDomains := envCSV "PAC_BYPASS_DOMAINS"
    ["venmo.com"; "paypal.com"; "paypalobjects.com"; "braintreegateway.com"; "braintree-api.com"];
  PProfEnabled := envBool "PPROF_ENABLED" false;
  PProfListen := envOr "PPROF_LISTEN" "127.0.0.1:6060";
  MITMEnabled := envBool "MITM_ENABLED" false;
  MITMCACertFile := Getenv "MITM_CA_CERT_FILE";
  MITMCAKeyFile := Getenv "MITM_CA_KEY_FILE";
  MITMLeafTTL := envDuration "MITM_LEAF_TTL" (168 * time.Hour);
  MITMCertCacheSize := envInt "MITM_CERT_CACHE_SIZE" 1000;
  DemoMode := envBool "DEMO_MODE" false;
|}.
End environment.

(** The refusals of [validate], in its order. *)
Inductive config_error :=
| NoDBPath
| NoAdminUser
| NoAdminPassword
| BadLogFormat (v : string)
| BadDNSProtocol (v : string)
| NoDNSServer (protocol : string)
| PortsReversed (min max : Z)
| BadLogNetMode (v : string)
| NoLogNetAddr (mode : string)
| NoPACPath
| BadCIDR (cidr : string)
| BadLoginRateLimit (n : Z)
| BadLoginWindow (d : Z)
| NoMITMFiles
| BadLeafTTL (d : Z)
| BadCertCacheSize (n : Z).

(** Is the value one of the listed ones? *)
Definition one_of (v : string) (l : list string) : bool := existsb (String.eqb v) l.

Definition bad_cidr (l : list string) : option string :=
  List.find (fun cidr => match ParseCIDR cidr with None => true | Some _ => false end) l.

Definition validate (c : Config) : option config_error :=
  if (ProxyDBPath c =? "")%string then Some NoDBPath
  else if (AdminUser c =? "")%string then Some NoAdminUser
  else if (AdminPassword c =? "")%string then Some NoAdminPassword
  else if negb (one_of (LogFormat c) ["json"; "human"]) then Some (BadLogFormat (LogFormat c))
  else if negb (one_of (DNSProtocol c) ["plain"; "tls"; "https"]) then Some (BadDNSProtocol (DNSProtocol c))
  else if negb (DNSProtocol c =? "plain")%string && (DNSServer c =? "")%string then Some (NoDNSServer (DNSProtocol c))
  else if UserPortMax c <? UserPortMin c then Some (PortsReversed (UserPortMin c) (UserPortMax c))
  else if negb (one_of (LogNetMode c) [""; "json-udp"; "json-http"]) then Some (BadLogNetMode (LogNetMode c))
  else if negb (LogNetMode c =? "")%string && (LogNetAddr c =? "")%string then Some (NoLogNetAddr (LogNetMode c))
  else if PACEnabled c && (PACPath c =? "")%string then Some NoPACPath
  else match bad_cidr (TrustedProxyCIDRs c) with
  | Some cidr => Some (BadCIDR cidr)
  | None =>
      if AdminLoginRateLimit c <? 1 then Some (BadLoginRateLimit (AdminLoginRateLimit c))
      else if AdminLoginWindow c <=? 0 then Some (BadLoginWindow (AdminLoginWindow c))
      else if MITMEnabled c then
        if (MITMCACertFile c =? "")%string || (MITMCAKeyFile c =? "")%string then Some NoMITMFiles
        else if MITMLeafTTL c <=? 0 then Some (BadLeafTTL (MITMLeafTTL c))
        else if MITMCertCacheSize c <? 1 then Some (BadCertCacheSize (MITMCertCacheSize c))
        else None
      else None
  end.

Definition Load (Getenv : string -> string) : result config_error Config :=
  let cfg := settings Getenv in
  match validate cfg with Some e => Err e | None => Ok cfg end.

(** ** What a loaded configuration guarantees *)

Lemma one_of_elem v l : one_of v l = true <-> v ∈ l.
Proof.
  unfold one_of. rewrite existsb_true_iff. split; [intros (x & Hx & ->%String.eqb_eq); done|intros H; exists v; by rewrite String.eqb_refl].
Qed.

Lemma bad_cidr_none l : bad_cidr l = None <-> Forall (fun cidr => is_Some (ParseCIDR cidr)) l.
Proof.
  unfold bad_cidr. induction l as [|x l IH]; simpl; [split; [constructor|done]|]. rewrite Forall_cons. destruct (ParseCIDR x).
  - rewrite IH. naive_solver.
  - split; [done|]. intros [[? [=]] _].
Qed.

(** The promises the rest of the program relies on. *)
Record usable (c : Config) : Prop := {
  us_credentials : AdminUser c <> ""%string /\ AdminPassword c <> ""%string /\ ProxyDBPath c <> ""%string;
  us_ports : UserPortMin c <= UserPortMax c;
  us_resolver : is_Some (newResolver (DNSProtocol c) (DNSServer c));
  us_cidrs : Forall (fun cidr => is_Some (ParseCIDR cidr)) (TrustedProxyCIDRs c);
  us_login : 1 <= AdminLoginRateLimit c /\ 0 < AdminLoginWindow c;
  us_lognet : LogNetMode c = ""%string \/ ((LogNetMode c = "json-udp" \/ LogNetMode c = "json-http")%string /\ LogNetAddr c <> ""%string);
  us_format : LogFormat c = "json"%string \/ LogFormat c = "human"%string;
  us_pac : PACEnabled c = true -> PACPath c <> ""%string;
  us_mitm : MITMEnabled c = true ->
    MITMCACertFile c <> ""%string /\ MITMCAKeyFile c <> ""%string /\ 0 < MITMLeafTTL c /\ 1 <= MITMCertCacheSize c;
}.

Lemma resolver_usable protocol server :
  protocol ∈ ["plain"; "tls"; "https"]%string -> negb (protocol =? "plain")%string && (server =? "")%string = false ->
  is_Some (newResolver protocol server).
Proof.
  rewrite !elem_of_cons, elem_of_nil. intros [->|[->|[->|[]]]] H; [by eexists..|].
  unfold newResolver, newDoH. simpl in *. rewrite H. by eexists.
Qed.

Lemma validate_usable c : validate c = None -> usable c.
Proof.
  unfold validate. intros H.
  destruct (ProxyDBPath c =? "")%string eqn:E1; [done|]. destruct (AdminUser c =? "")%string eqn:E2; [done|].
  destruct (AdminPassword c =? "")%string eqn:E3; [done|]. destruct (one_of (LogFormat c) _) eqn:E4; [|done].
  destruct (one_of (DNSProtocol c) _) eqn:E5; [|done]. destruct (negb (DNSProtocol c =? "plain")%string && _) eqn:E6; [done|].
  destruct (UserPortMax c <? UserPortMin c) eqn:E7; [done|]. destruct (one_of (LogNetMode c) _) eqn:E8; [|done].
  destruct (negb (LogNetMode c =? "")%string && _) eqn:E9; [done|]. destruct (PACEnabled c && _) eqn:E10; [done|].
  destruct (bad_cidr _) eqn:E11; [done|]. destruct (AdminLoginRateLimit c <? 1) eqn:E12; [done|].
  destruct (AdminLoginWindow c <=? 0) eqn:E13; [done|]. cbn [negb] in H. apply bad_cidr_none in E11. apply one_of_elem in E4, E5, E8.
  constructor.
  - by apply String.eqb_neq in E1, E2, E3.
  - by apply Z.ltb_ge in E7.
  - by apply resolver_usable.
  - done.
  - apply Z.ltb_ge in E12. by apply Z.leb_gt in E13.
  - rewrite !elem_of_cons, elem_of_nil in E8. destruct E8 as [E8|E8]; [by left|right]. split; [tauto|].
    apply andb_false_iff in E9 as [E9|E9]; [|by apply String.eqb_neq].
    apply negb_false_iff, String.eqb_eq in E9. rewrite E9 in E8. by destruct E8 as [|[|]].
  - rewrite !elem_of_cons, elem_of_nil in E4. tauto.
  - intros Hp. rewrite Hp in E10. by apply String.eqb_neq in E10.
  - intros Hm. rewrite Hm in H. destruct (_ || _) eqn:E14 in H; [done|]. destruct (MITMLeafTTL c <=? 0) eqn:E15; [done|].
    destruct (MITMCertCacheSize c <? 1) eqn:E16; [done|]. reflect_bools. split_and!; done || lia.
Qed.

(** Variables by how they are read. *)
Definition int_keys : list string :=
  ["AUTH_FAIL_RATE_LIMIT"; "ADMIN_LOGIN_RATE_LIMIT"; "ADMIN_LOGIN_GLOBAL_MAX"; "USER_PORT_MIN"; "USER_PORT_MAX"; "LOG_NET_BATCH_SIZE";
   "MITM_CERT_CACHE_SIZE"].
Definition bool_keys : list string :=
  ["METRICS_USER_LABEL"; "FORCE_HTTPS"; "LOG_HEADERS"; "PAC_ENABLED"; "PPROF_ENABLED"; "DEMO_MODE"; "MITM_ENABLED"].
Definition duration_keys : list string :=
  ["AUTH_RETRY_TIMEOUT"; "CONNECT_DIAL_TIMEOUT"; "IDLE_TIMEOUT"; "HTTP_TIMEOUT"; "AUTH_FAIL_WINDOW"; "ADMIN_LOGIN_WINDOW";
   "LOG_NET_FLUSH_INTERVAL"; "MITM_LEAF_TTL"].

(** The environment with every unreadable value unset. *)
Definition readable (Getenv : string -> string) (key : string) : string :=
  let v := Getenv key in
  let keep {A} (parse : string -> option A) := match parse v with Some _ => v | None => ""%string end in
  if one_of key int_keys then keep strconv.Atoi
  else if one_of key bool_keys then keep ParseBool
  else if one_of key duration_keys then keep ParseDuration
  else v.

Lemma env_parsed_readable {A} (parse : string -> option A) (f g : string -> string) key (x : A) :
  g key = match parse (f key) with Some _ => f key | None => ""%string end -> env_parsed g parse key x = env_parsed f parse key x.
Proof.
  intros H. unfold env_parsed. rewrite H. destruct (parse (f key)) as [a|] eqn:E; [by rewrite E|].
  by destruct (f key =? "")%string.
Qed.

Lemma settings_readable Getenv : settings (readable Getenv) = settings Getenv.
Proof.
  unfold settings. f_equal;
    first [reflexivity | apply env_parsed_readable; reflexivity | apply (f_equal (fun b => b || _)); apply env_parsed_readable; reflexivity].
Qed.

(** [C36] A configuration that loads is usable: credentials are set, the port range
    is not reversed, the global resolver can be built (so that constructing the
    proxy does not panic), every trusted-proxy entry parses, the log-in limits are
    positive, network logging has an address, and with the block page on there are
    CA files and positive leaf settings; in-process TLS implies secure cookies.
    And a value that cannot be read counts as unset: it never stops the load and
    never changes the outcome. *)
Theorem loaded_config_is_usable (Getenv : string -> string) :
  Load (readable Getenv) = Load Getenv /\
  forall c, Load Getenv = Ok c -> usable c /\ (AutocertHost c <> ""%string -> ForceHTTPS c = true).
Proof.
  split; [unfold Load; by rewrite settings_readable|]. intros c. unfold Load.
  destruct (validate _) eqn:E; [done|]. intros [= <-]. split; [by apply validate_usable|]. intros H. cbn in *.
  rewrite (proj2 (String.eqb_neq _ _) H). by rewrite orb_true_r.
Qed.
End load.
