(* ===== verification/Proxy.v ===== *)
(** * The proxy handler's state (pkg/proxy/handler.go)

    [Handler] is the mutable part of the Go type: the user store behind its
    interfaces, the failure limiter, the authenticated-IP sessions, the dedicated
    ports and the resolver cache, with the trace of what was written, logged and
    dialled.  What the network answers is in [Network], a parameter. *)

From S2P Require Import Prelude GoStrings GoBase64 GoTime GoNet GoHTTP Password UserTable RateLimit Dns Config.

Open Scope list_scope.

(** ** What the proxy asks of its user database

    The interfaces UserChecker, UserDNSGetter, PortLister, UserEnabledChecker and
    DowntimeChecker, with what the proxy relies on. *)

Class UserStore (St : Type) := {
  us_Check : string -> option string -> Z -> St -> result db_error string * St;
  us_GetDNS : St -> string -> string * string;
  us_IsEnabled : St -> string -> bool;
  us_IsInDowntime : Z -> St -> string -> bool;
  us_ListPorts : St -> result db_error (gmap Z string) * St;
  us_UpdatePort : string -> Z -> St -> result db_error unit * St;
  us_Check_user : forall header salt now s user s',
    us_Check header salt now s = (Ok user, s') -> free_of ":" user;
  us_Check_enabled : forall header salt now s u,
    us_IsEnabled (snd (us_Check header salt now s)) u = us_IsEnabled s u;
  us_Check_downtime : forall header salt now s t u,
    us_IsInDowntime t (snd (us_Check header salt now s)) u = us_IsInDowntime t s u;
  us_ListPorts_enabled : forall s u, us_IsEnabled (snd (us_ListPorts s)) u = us_IsEnabled s u;
  us_ListPorts_downtime : forall s t u, us_IsInDowntime t (snd (us_ListPorts s)) u = us_IsInDowntime t s u;
  us_UpdatePort_enabled : forall v p s u, us_IsEnabled (snd (us_UpdatePort v p s)) u = us_IsEnabled s u;
  us_UpdatePort_downtime : forall v p s t u,
    us_IsInDowntime t (snd (us_UpdatePort v p s)) u = us_IsInDowntime t s u;
}.

(** ** Log entries (pkg/logging/logger.go)

    The error text of an entry, by where it comes from. *)

Inductive auth_error :=
| StoreError (e : db_error)
| NotAllowedOnPort (user owner : string).

Inductive dial_error :=
| ErrDNSBlocked (host : string)
| NetError (msg : string).

Inductive log_error :=
| NoError
| RateLimited
| AuthFailed (e : auth_error)
| RetryReadFailed (e : auth_error)
| Paused (reason : string)
| ACLDenied
| DialFailed (e : dial_error)
| PageFailed (msg : string).

Record Entry := mkEntry {
  e_Timestamp : Z;
  e_Event : string;
  e_ClientIP : string;
  e_Method : string;
  e_Host : string;
  e_URI : string;
  e_User : string;
  e_Error : log_error;
  e_Status : Z;
  e_BytesRead : Z;
  e_BytesWritten : Z;
}.

(** ** Effects *)

Inductive effect :=
| Write (bytes : string)
| HttpError (status : Z) (msg : string)
| Respond (status : Z) (header : http.Header) (body : string)
| Log (e : Entry)
| ObserveDNS (result_ : string)
| Dial (address : string)
| Tunnel (address : string) (sent received : Z)
| BlockPage (host user : string)
| RoundTrip (resolver : Resolver) (out : http.Request)
| Shutdown (port : Z) (server : nat)
| Listen (port : Z) (server : nat) (owner : string)
| ListenFailed (port : Z) (server : nat)
| Close.

(** Traffic to a destination on behalf of a client. *)
Definition contact (e : effect) : bool :=
  match e with Dial _ | Tunnel _ _ _ | RoundTrip _ _ => true | _ => false end.

(** Starts and ends of dedicated servers. *)
Definition socket (e : effect) : bool :=
  match e with Listen _ _ _ | Shutdown _ _ | ListenFailed _ _ => true | _ => false end.

(** A server that was started, was not shut down and did not fail: clients reach it
    whether or not the handler still knows it. *)
Definition listening (tr : list effect) (port : Z) (id : nat) (owner : string) : Prop :=
  Listen port id owner ∈ tr /\ Shutdown port id ∉ tr /\ ListenFailed port id ∉ tr.

Record authSession := mkAuthSession { as_user : string; as_expires : Z }.

(** A running server of a dedicated port; its identity, and the owner its
    handler closure captured. *)
Record server := mkServer { sv_id : nat; sv_owner : string }.

Record Handler (St : Type) := mkHandler {
  store : St;
  limiter : Limiter;
  authSessions : gmap string authSession;
  portUsers : gmap Z string;
  userServers : gmap Z server;
  nextServer : nat;
  resolvers : gmap string Resolver;
  trace : list effect;
}.

Arguments mkHandler {St}.
Arguments store {St}.
Arguments limiter {St}.
Arguments authSessions {St}.
Arguments portUsers {St}.
Arguments userServers {St}.
Arguments nextServer {St}.
Arguments resolvers {St}.
Arguments trace {St}.

Section setters.
Context {St : Type} (h : Handler St).

Definition set_store (x : St) : Handler St :=
  mkHandler x (limiter h) (authSessions h) (portUsers h) (userServers h) (nextServer h) (resolvers h) (trace h).
Definition set_limiter (x : Limiter) : Handler St :=
  mkHandler (store h) x (authSessions h) (portUsers h) (userServers h) (nextServer h) (resolvers h) (trace h).
Definition set_authSessions (x : gmap string authSession) : Handler St :=
  mkHandler (store h) (limiter h) x (portUsers h) (userServers h) (nextServer h) (resolvers h) (trace h).
Definition set_ports (pu : gmap Z string) (us : gmap Z server) : Handler St :=
  mkHandler (store h) (limiter h) (authSessions h) pu us (nextServer h) (resolvers h) (trace h).
Definition set_nextServer (x : nat) : Handler St :=
  mkHandler (store h) (limiter h) (authSessions h) (portUsers h) (userServers h) x (resolvers h) (trace h).
Definition set_resolvers (x : gmap string Resolver) : Handler St :=
  mkHandler (store h) (limiter h) (authSessions h) (portUsers h) (userServers h) (nextServer h) x (trace h).
Definition emit_effect (e : effect) : Handler St :=
  mkHandler (store h) (limiter h) (authSessions h) (portUsers h) (userServers h) (nextServer h) (resolvers h)
    (trace h ++ [e]).
End setters.

(** ** The environment *)

(** What lookups and connection attempts answer; errors are their texts. *)
Record Network := mkNetwork {
  LookupIPAddr : Resolver -> string -> result string (list net.IP);
  DialContext : string -> result string unit;
}.

(** A response as the transport returns it. *)
Record Response := mkResponse { StatusCode : Z; RespHeader : http.Header; Body : string }.

(** The fixed part of the handler: configuration, collaborators that may be nil,
    the access list and the default resolver. *)
Record Wiring := mkWiring {
  cfg : Config;
  has_dnsGetter : bool;
  has_enabledChecker : bool;
  has_downtimeChecker : bool;
  has_mitm : bool;
  acl_Allow : string -> bool;
  defaultResolver : Resolver;
}.

(** pkg/acl: the access list of the program. *)
Definition AllowAll : string -> bool := fun _ => true.

Definition emit {St} (e : effect) : ST (Handler St) unit := update (fun h => emit_effect h e).

(** ** Dialling *)

Definition isDNSBlocked (ip : net.IP) : bool :=
  net.IsLoopback ip || net.Equal ip net.IPv4zero ||
  net.Contains (net.mkIPNet (net.IPv4 127 0 0 0) [255; 0; 0; 0]) ip.

Definition classifyDialError (e : dial_error) : Z * string :=
  match e with
  | ErrDNSBlocked _ => (523, "dns-block")
  | NetError msg =>
      if strings.Contains msg "no such host" || strings.Contains msg "no addresses" ||
         strings.Contains msg "server misbehaving" then (502, "dns-err")
      else if strings.Contains msg "i/o timeout" || strings.Contains msg "deadline exceeded" then (504, "timeout")
      else if strings.Contains msg "connection refused" then (502, "refused")
      else (502, "")
  end.

Section dial.
Context {St : Type} (w : Wiring) (network : Network).

Definition dial_address (address : string) : ST (Handler St) (result dial_error string) :=
  _ ← emit (Dial address);
  match DialContext network address with
  | Ok _ => mret (Ok address)
  | Err msg => mret (Err (NetError msg))
  end.

(** [h.dial]: resolve names first and refuse sinkholed ones, dial the address. *)
Definition dialWithBlockCheck (resolver : option Resolver) (address : string)
    : ST (Handler St) (result dial_error string) :=
  match net.SplitHostPort address with
  | None => dial_address address
  | Some (host, port) =>
      match net.ParseIP host with
      | Some _ => dial_address address
      | None =>
          match LookupIPAddr network (default (defaultResolver w) resolver) host with
          | Err msg => _ ← emit (ObserveDNS "failure"); mret (Err (NetError msg))
          | Ok [] => _ ← emit (ObserveDNS "failure"); mret (Err (NetError ("dns: no addresses for " +:+ host)%string))
          | Ok (ip :: _) =>
              if isDNSBlocked ip then _ ← emit (ObserveDNS "blocked"); mret (Err (ErrDNSBlocked host))
              else _ ← emit (ObserveDNS "success"); dial_address (net.JoinHostPort (net.String_ ip) port)
          end
      end
  end.

Context {us : UserStore St}.

(** The resolver that the context carries; [None] falls back to the default. *)
Definition ctxWithUserDNS (username : string) : ST (Handler St) (option Resolver) := fun h =>
  if negb (has_dnsGetter w) then (None, h) else
  let '(server, protocol) := us_GetDNS (store h) username in
  if (server =? "")%string then (None, h) else
  let '(r, cache) := GetOrCreate protocol server (resolvers h) in
  (r, set_resolvers h cache).
End dial.

(** ** Sessions of authenticated addresses *)

Definition authSessionTTL : Z := 5 * time.Minute.

Definition authCacheKey (ip portUser : string) : string :=
  if (portUser =? "")%string then ip else (ip +:+ ":" +:+ portUser)%string.

Section sessions.
Context {St : Type}.

Definition recordAuthSuccess (ip user : string) (now : Z) : ST (Handler St) unit :=
  update (fun h => set_authSessions h
    (<[authCacheKey ip user := mkAuthSession user (time.Add now authSessionTTL)]> (authSessions h))).

Definition checkAuthSession (ip portUser : string) (now : Z) : ST (Handler St) string :=
  gets (fun h =>
    match authSessions h !! authCacheKey ip portUser with
    | Some s => if time.Before now (as_expires s) then as_user s else ""
    | None => ""
    end).

(** One tick of the cleanup goroutine. *)
Definition cleanupAuthSessions (now : Z) : ST (Handler St) unit :=
  update (fun h => set_authSessions h
    (filter (fun ks => time.After now (as_expires (snd ks)) = false) (authSessions h))).
End sessions.

Definition clientAddr (r : http.Request) : string :=
  match net.SplitHostPort (http.RemoteAddr r) with
  | Some (host, _) => host
  | None => strings.TrimSpace (http.RemoteAddr r)
  end.

(** ** Authentication, as both handlers do it *)

Section auth.
Context {St : Type} {us : UserStore St}.

(** [h.users.Check] and the owner test of the port. *)
Definition check_user (header portUser : string) (salt : option string) (now : Z)
    : ST (Handler St) (result auth_error string) := fun h =>
  let '(r, s) := us_Check header salt now (store h) in
  let h' := set_store h s in
  match r with
  | Err e => (Err (StoreError e), h')
  | Ok user =>
      if negb (portUser =? "")%string && negb (user =? portUser)%string
      then (Err (NotAllowedOnPort user portUser), h')
      else (Ok user, h')
  end.

(** The same with the fallback to a session of the address, for requests that
    carried no credentials. *)
Definition authenticate (clientIP header portUser : string) (salt : option string) (now : Z)
    : ST (Handler St) (result auth_error string) :=
  a ← check_user header portUser salt now;
  match a with
  | Ok user => mret (Ok user)
  | Err e =>
      if negb (header =? "")%string then mret (Err e) else
      s ← checkAuthSession clientIP portUser now;
      if (s =? "")%string then mret (Err e) else mret (Ok s)
  end.

Definition limiter_Allow (ip : string) (now : Z) : ST (Handler St) bool := fun h =>
  let '(b, l) := Allow ip now (limiter h) in (b, set_limiter h l).

Definition limiter_RecordFailure (ip : string) (now : Z) : ST (Handler St) unit :=
  update (fun h => set_limiter h (RecordFailure ip now (limiter h))).
End auth.
