(* ===== verification/Connect.v ===== *)
(** * CONNECT (pkg/proxy/connect.go)

    [handleConnect] with its challenge-and-retry authentication, the block check,
    the block page and the tunnel.  The copy loops of a tunnel are one effect with
    their byte totals; read deadlines are not modelled. *)

From S2P Require Import Prelude GoStrings GoTime GoHTTP RateLimit Dns Config Bypass Proxy.

Definition crlf : string := String "013" (String "010" EmptyString).

Definition reply_rate_limited : string :=
  ("HTTP/1.1 407 Proxy Authentication Required" +:+ crlf +:+ "Proxy-Authenticate: Basic realm=" +:+
   String "034" ("proxy" +:+ String "034" crlf) +:+ "Retry-After: 60" +:+ crlf +:+ "Content-Length: 0" +:+ crlf +:+ crlf)%string.

Definition reply_challenge : string :=
  ("HTTP/1.1 407 Proxy Authentication Required" +:+ crlf +:+ "Proxy-Authenticate: Basic realm=" +:+
   String "034" ("proxy" +:+ String "034" crlf) +:+ "Proxy-Connection: keep-alive" +:+ crlf +:+
   "Content-Length: 0" +:+ crlf +:+ crlf)%string.

Definition reply_denied : string :=
  ("HTTP/1.1 407 Proxy Authentication Required" +:+ crlf +:+ "Content-Length: 0" +:+ crlf +:+ crlf)%string.

Definition reply_forbidden : string :=
  ("HTTP/1.1 403 Forbidden" +:+ crlf +:+ "Content-Length: 0" +:+ crlf +:+ crlf)%string.

Definition reply_established : string := ("HTTP/1.1 200 Connection Established" +:+ crlf +:+ crlf)%string.

Definition reply_bad_gateway (status : Z) : string :=
  ("HTTP/1.1 " +:+ strconv.Itoa status +:+ " Bad Gateway" +:+ crlf +:+ "Content-Length: 0" +:+ crlf +:+ crlf)%string.

(** How the hijack of the connection turns out. *)
Inductive hijack := NotSupported | HijackFailed | Hijacked.

(** What happens around one CONNECT: the hijack, the clock before and after the
    retry, randomness for re-hashing, the retried request if one is read in time,
    the byte counts of the tunnel and the outcome of serving the block page. *)
Record connect_env := mkConnectEnv {
  ce_hijack : hijack;
  ce_now : Z;
  ce_now2 : Z;
  ce_salt : option string;
  ce_salt2 : option string;
  ce_retry : option http.Request;
  ce_sent : Z;
  ce_received : Z;
  ce_page : result string unit;
}.

Section connect.
Context {St : Type} {us : UserStore St} (w : Wiring) (network : Network).

(** [start] of the handler, and the fields that every CONNECT entry shares. *)
Definition connect_entry (start : Z) (event clientIP host user : string) (status : Z) (err : log_error) : Entry :=
  mkEntry start event clientIP http.MethodConnect host "" user err status 0 0.

Definition blockReason (user : string) (now : Z) : ST (Handler St) string := gets (fun h =>
  if MITMEnabled (cfg w) && has_enabledChecker w && negb (us_IsEnabled (store h) user) then "disabled"
  else if has_downtimeChecker w && us_IsInDowntime now (store h) user then "downtime"
  else "").

Definition connectTunnel (env : connect_env) (start : Z) (clientIP host user : string) : ST (Handler St) unit :=
  resolver ← ctxWithUserDNS w user;
  if negb (acl_Allow w host) then
    _ ← emit (Write reply_forbidden);
    emit (Log (connect_entry start "" clientIP host user 403 ACLDenied))
  else
  target ← dialWithBlockCheck w network resolver host;
  match target with
  | Err e =>
      let '(status, event) := classifyDialError e in
      _ ← emit (Write (reply_bad_gateway status));
      emit (Log (connect_entry start event clientIP host user status (DialFailed e)))
  | Ok address =>
      _ ← emit (Write reply_established);
      _ ← emit (Log (connect_entry start "open" clientIP host user 200 NoError));
      _ ← emit (Tunnel address (ce_sent env) (ce_received env));
      emit (Log (mkEntry start "close" clientIP http.MethodConnect host "" user NoError 200
                   (ce_sent env) (ce_received env)))
  end.

Definition serveBlocked (env : connect_env) (start : Z) (clientIP host user reason : string) : ST (Handler St) unit :=
  if negb (MITMEnabled (cfg w)) || negb (has_mitm w) then
    _ ← emit (Write reply_forbidden);
    emit (Log (connect_entry start "" clientIP host user 403 (Paused reason)))
  else if Passthrough host then
    _ ← emit (Log (connect_entry start "mitm_passthrough" clientIP host user 200 NoError));
    connectTunnel env start clientIP host user
  else
    _ ← emit (Write reply_established);
    _ ← emit (BlockPage host user);
    match ce_page env with
    | Err msg => emit (Log (connect_entry start "mitm_error" clientIP host user 200 (PageFailed msg)))
    | Ok _ => emit (Log (connect_entry start "mitm_served" clientIP host user 200 (Paused reason)))
    end.

(** From the successful authentication on. *)
Definition connect_admitted (env : connect_env) (start now : Z) (clientIP host user : string) : ST (Handler St) unit :=
  _ ← recordAuthSuccess clientIP user now;
  reason ← blockReason user now;
  if negb (reason =? "")%string then serveBlocked env start clientIP host user reason
  else connectTunnel env start clientIP host user.

(** The second request on the same connection, after the challenge. *)
Definition connect_answer (env : connect_env) (start : Z) (clientIP host portUser : string) (hadCredentials : bool)
    (authErr : auth_error) : ST (Handler St) unit :=
  match ce_retry env with
  | None =>
      _ ← (if hadCredentials then limiter_RecordFailure clientIP (ce_now2 env) else mret tt);
      emit (Log (connect_entry start "" clientIP host "" 407 (RetryReadFailed authErr)))
  | Some retry =>
      a ← check_user (http.Get (http.HeaderOf retry) "Proxy-Authorization") portUser (ce_salt2 env) (ce_now2 env);
      match a with
      | Err e =>
          _ ← limiter_RecordFailure clientIP (ce_now2 env);
          _ ← emit (Write reply_denied);
          emit (Log (connect_entry start "" clientIP (http.Host retry) "" 407 (AuthFailed e)))
      | Ok user => connect_admitted env start (ce_now2 env) clientIP (http.Host retry) user
      end
  end.

Definition connect_retry (env : connect_env) (start : Z) (clientIP host portUser : string) (hadCredentials : bool)
    (authErr : auth_error) : ST (Handler St) unit :=
  _ ← emit (Write reply_challenge);
  connect_answer env start clientIP host portUser hadCredentials authErr.

(** [portUser] is the owner of the dedicated port the request came in on, or
    empty. *)
Definition handleConnect (r : http.Request) (portUser : string) (env : connect_env) : ST (Handler St) unit :=
  let start := ce_now env in
  let clientIP := clientAddr r in
  let host := http.Host r in
  allowed ← limiter_Allow clientIP start;
  match ce_hijack env with
  | NotSupported => emit (HttpError 500 "hijack not supported")
  | HijackFailed => mret tt
  | Hijacked =>
      if negb allowed then
        _ ← emit (Write reply_rate_limited);
        _ ← emit Close;
        emit (Log (connect_entry start "" clientIP host "" 407 RateLimited))
      else
        let header := http.Get (http.HeaderOf r) "Proxy-Authorization" in
        a ← authenticate clientIP header portUser (ce_salt env) start;
        _ ← match a with
            | Ok user => connect_admitted env start start clientIP host user
            | Err e => connect_retry env start clientIP host portUser (negb (header =? "")%string) e
            end;
        emit Close
  end.
End connect.
