(* ===== verification/Forward.v ===== *)
(** * Plain HTTP requests (pkg/proxy/forward.go) and the PAC endpoint (handler.go, pkg/pac/pac.go)

    [handleForward], the headers it strips, and [ServeHTTP] that picks between
    PAC, CONNECT and forwarding. *)

From S2P Require Import Prelude GoStrings GoTime GoHTTP RateLimit Dns Config Proxy Connect.

Open Scope list_scope.

Definition hopByHopHeaders : list string :=
  ["Connection"; "Keep-Alive"; "Proxy-Authenticate"; "Proxy-Authorization"; "Proxy-Connection"; "TE"; "Trailers";
   "Transfer-Encoding"; "Upgrade"; "Via"].

Definition isHopByHop (header : string) : bool :=
  existsb (fun h => (http.CanonicalHeaderKey header =? http.CanonicalHeaderKey h)%string) hopByHopHeaders.

(** The headers of the outgoing request and the names that were present. *)
Definition strip_headers (h : http.Header) : http.Header * list string :=
  foldl (fun '(h, stripped) hdr =>
           (http.Del h hdr, if negb (http.Get h hdr =? "")%string then stripped ++ [hdr] else stripped))
        (h, []) (hopByHopHeaders ++ ["X-Forwarded-For"]).

Definition outgoing (r : http.Request) : http.Request :=
  http.mkRequest (http.Method r) (http.Host r) (http.URL_Host r) (http.URL_Path r) "" (http.RemoteAddr r)
    (fst (strip_headers (http.HeaderOf r))) (http.Cookies r) (http.Query r) (http.TLS r).

(** The response headers that are passed on. *)
Definition passed_headers (h : http.Header) : http.Header :=
  filter (fun kv => isHopByHop (fst kv) = false) h.

(** ** PAC *)

Definition quote : string := String "034" EmptyString.
Definition newline : string := String "010" EmptyString.

(** [strings.NewReplacer] with one-byte patterns. *)
Fixpoint replace_bytes (f : ascii -> option string) (s : string) : string :=
  match s with
  | EmptyString => EmptyString
  | String a s' => match f a with
                   | Some t => t +:+ replace_bytes f s'
                   | None => String a (replace_bytes f s')
                   end
  end.

Definition jsRaw : string -> string :=
  replace_bytes (fun a => if Ascii.eqb a "034" || Ascii.eqb a "010" || Ascii.eqb a "013" || Ascii.eqb a "\"
                          then Some EmptyString else None).

Definition jsString (s : string) : string :=
  (quote +:+ replace_bytes (fun a =>
     if Ascii.eqb a "\" then Some "\\"
     else if Ascii.eqb a "034" then Some (String "\" quote)
     else if Ascii.eqb a "010" || Ascii.eqb a "013" then Some EmptyString
     else None) s +:+ quote)%string.

(** [pac.Generate]. *)
Definition Generate (proxyEndpoint : string) (bypass : list string) : string :=
  ("function FindProxyForURL(url, host) {" +:+ newline +:+
   "  host = host.toLowerCase();" +:+ newline +:+
   "  var bypass = [" +:+
   strings.Join (map (fun d => jsString (strings.ToLower (strings.TrimSpace d))) bypass) ", " +:+
   "];" +:+ newline +:+
   "  for (var i = 0; i < bypass.length; i++) {" +:+ newline +:+
   "    if (host === bypass[i] || dnsDomainIs(host, " +:+ quote +:+ "." +:+ quote +:+ " + bypass[i])) {" +:+ newline +:+
   "      return " +:+ quote +:+ "DIRECT" +:+ quote +:+ ";" +:+ newline +:+
   "    }" +:+ newline +:+
   "  }" +:+ newline +:+
   "  return " +:+ quote +:+ "PROXY " +:+ jsRaw proxyEndpoint +:+ quote +:+ ";" +:+ newline +:+
   "}" +:+ newline)%string.

Definition pac_ContentType : string := "application/x-ns-proxy-autoconfig".

(** Around one plain request: the clock, randomness, and what the transport
    answers to the outgoing request. *)
Record forward_env := mkForwardEnv {
  fe_now : Z;
  fe_salt : option string;
  fe_roundtrip : Resolver -> http.Request -> result dial_error Response;
}.

Section forward.
Context {St : Type} {us : UserStore St} (w : Wiring) (network : Network).

Definition isPACRequest (r : http.Request) : bool :=
  PACEnabled (cfg w) && (http.Method r =? http.MethodGet)%string && (http.URL_Host r =? "")%string &&
  (http.URL_Path r =? PACPath (cfg w))%string.

Definition servePAC (r : http.Request) (now : Z) : ST (Handler St) unit :=
  let endpoint := if (PACProxyEndpoint (cfg w) =? "")%string then http.Host r else PACProxyEndpoint (cfg w) in
  if (endpoint =? "")%string then emit (HttpError 400 "cannot determine proxy endpoint") else
  let header := http.Set_ (http.Set_ ∅ "Content-Type" pac_ContentType) "Cache-Control" "no-store" in
  _ ← emit (Respond 200 header (Generate endpoint (PACBypassDomains (cfg w))));
  emit (Log (mkEntry now "pac" (clientAddr r) (http.Method r) (http.Host r) (http.URL_Path r) "" NoError 200 0 0)).

Definition no_content : http.Header := http.Set_ ∅ "Content-Length" "0".

Definition handleForward (r : http.Request) (portUser : string) (env : forward_env) : ST (Handler St) unit :=
  let start := fe_now env in
  let clientIP := clientAddr r in
  let host := if (http.URL_Host r =? "")%string then http.Host r else http.URL_Host r in
  let entry event user status err written :=
    mkEntry start event clientIP (http.Method r) host (http.RequestURI r) user err status 0 written in
  allowed ← limiter_Allow clientIP start;
  if negb allowed then
    _ ← emit (Respond 407 (http.Set_ no_content "Retry-After" "60") "");
    emit (Log (entry "" "" 407 RateLimited 0))
  else
  let header := http.Get (http.HeaderOf r) "Proxy-Authorization" in
  a ← authenticate clientIP header portUser (fe_salt env) start;
  match a with
  | Err e =>
      _ ← (if negb (header =? "")%string then limiter_RecordFailure clientIP start else mret tt);
      let hdr := http.Set_ (http.Set_ no_content "Proxy-Authenticate" ("Basic realm=" +:+ quote +:+ "proxy" +:+ quote))
                   "Proxy-Connection" "keep-alive" in
      _ ← emit (Respond 407 hdr "");
      emit (Log (entry "" "" 407 (AuthFailed e) 0))
  | Ok user =>
      _ ← recordAuthSuccess clientIP user start;
      paused ← gets (fun h => has_downtimeChecker w && us_IsInDowntime start (store h) user);
      if (paused : bool) then
        _ ← emit (Respond 403 no_content "");
        emit (Log (entry "" user 403 (Paused "downtime") 0))
      else
      resolver ← ctxWithUserDNS w user;
      if negb (acl_Allow w host) then
        _ ← emit (Respond 403 no_content "");
        emit (Log (entry "" user 403 ACLDenied 0))
      else
      let via := default (defaultResolver w) resolver in
      _ ← emit (RoundTrip via (outgoing r));
      match fe_roundtrip env via (outgoing r) with
      | Err e =>
          let '(status, event) := classifyDialError e in
          _ ← emit (Respond status no_content "");
          emit (Log (entry event user status (DialFailed e) 0))
      | Ok resp =>
          _ ← emit (Respond (StatusCode resp) (passed_headers (RespHeader resp)) (Body resp));
          emit (Log (entry "" user (StatusCode resp) NoError (Z.of_nat (String.length (Body resp)))))
      end
  end.

Definition ServeHTTP (r : http.Request) (portUser : string) (cenv : connect_env) (fenv : forward_env)
    : ST (Handler St) unit :=
  if isPACRequest r then servePAC r (fe_now fenv)
  else if (http.Method r =? http.MethodConnect)%string then handleConnect w network r portUser cenv
  else handleForward r portUser fenv.
End forward.
