(* ===== verification/ProxyFrame.v ===== *)
(** * What serving a request leaves alone

    A preorder on handlers that holds across each primitive step of the proxy
    handlers holds across a whole request. *)

From S2P Require Import Prelude GoStrings GoTime GoNet GoHTTP Password UserTable RateLimit Dns Config Bypass Proxy Connect Forward.

Open Scope list_scope.

Section frame.
Context {St : Type} {us : UserStore St} (w : Wiring) (network : Network).
Context (R : Handler St -> Handler St -> Prop) `{!PreOrder R}.

Definition respects {A} (m : ST (Handler St) A) : Prop := forall h, R h (snd (m h)).

Lemma respects_bind {A B} (m : ST (Handler St) A) (k : A -> ST (Handler St) B) :
  respects m -> (forall a, respects (k a)) -> respects (x ← m; k x).
Proof.
  intros Hm Hk h. unfold mbind, ST_bind. specialize (Hm h). destruct (m h) as [a h1]. simpl in *.
  etransitivity; [exact Hm|apply Hk].
Qed.

Lemma respects_ret {A} (a : A) : respects (mret a).
Proof. intros h. simpl. reflexivity. Qed.

Lemma respects_gets {A} (f : Handler St -> A) : respects (gets f).
Proof. intros h. simpl. reflexivity. Qed.

(** The primitive steps. *)
Hypothesis R_effect : forall e h, socket e = false -> R h (emit_effect h e).
Hypothesis R_limiter : forall l h, R h (set_limiter h l).
Hypothesis R_resolvers : forall c h, R h (set_resolvers h c).
Hypothesis R_check : forall header salt now h, R h (set_store h (snd (us_Check header salt now (store h)))).
Hypothesis R_record : forall ip user now h, R h (snd (recordAuthSuccess ip user now h)).

Lemma respects_emit e : socket e = false -> respects (emit e).
Proof. intros He h. by apply R_effect. Qed.

Lemma respects_allow ip now : respects (limiter_Allow ip now).
Proof. intros h. unfold limiter_Allow. destruct (Allow _ _ _). apply R_limiter. Qed.

Lemma respects_fail ip now : respects (limiter_RecordFailure ip now).
Proof. intros h. apply R_limiter. Qed.

Lemma respects_record ip user now : respects (recordAuthSuccess ip user now).
Proof. intros h. apply R_record. Qed.

Lemma respects_check_user header portUser salt now : respects (check_user header portUser salt now).
Proof.
  intros h. pose proof (R_check header salt now h) as H. unfold check_user. destruct (us_Check _ _ _ _) as [[u|e] s]; [|done]. by case_match.
Qed.

Lemma respects_session ip portUser now : respects (checkAuthSession ip portUser now).
Proof. apply respects_gets. Qed.

Lemma respects_dns user : respects (ctxWithUserDNS w user).
Proof.
  intros h. unfold ctxWithUserDNS. case_match; [reflexivity|]. destruct (us_GetDNS _ _) as [server protocol].
  case_match; [reflexivity|]. destruct (GetOrCreate _ _ _). apply R_resolvers.
Qed.

Ltac frame :=
  repeat match goal with
    | |- respects (mbind _ _) => apply respects_bind; [|intros ?]
    | |- respects (mret _) => apply respects_ret
    | |- respects (gets _) => apply respects_gets
    | |- respects (emit _) => apply respects_emit; reflexivity
    | |- respects (limiter_Allow _ _) => apply respects_allow
    | |- respects (limiter_RecordFailure _ _) => apply respects_fail
    | |- respects (recordAuthSuccess _ _ _) => apply respects_record
    | |- respects (check_user _ _ _ _) => apply respects_check_user
    | |- respects (checkAuthSession _ _ _) => apply respects_session
    | |- respects (ctxWithUserDNS _ _) => apply respects_dns
    | |- respects (if ?b then _ else _) => destruct b
    | |- respects (let '(_, _) := ?x in _) => destruct x
    | |- respects (match ?x with _ => _ end) => destruct x
    | _ => solve [auto with evan]
    end.

Lemma respects_dial resolver address : respects (dialWithBlockCheck w network resolver address).
Proof. unfold dialWithBlockCheck, dial_address. frame. Qed.

Lemma respects_tunnel env start ip host user : respects (connectTunnel w network env start ip host user).
Proof. unfold connectTunnel. pose proof respects_dial. frame. Qed.

Lemma respects_admitted env start now ip host user : respects (connect_admitted w network env start now ip host user).
Proof.
  pose proof respects_tunnel. unfold connect_admitted, blockReason, serveBlocked. frame.
Qed.

Lemma respects_handleConnect r portUser env : respects (handleConnect w network r portUser env).
Proof. pose proof respects_admitted. unfold handleConnect, connect_retry, connect_answer, authenticate. frame. Qed.

Lemma respects_ServeHTTP r portUser cenv fenv : respects (ServeHTTP w network r portUser cenv fenv).
Proof.
  pose proof (respects_handleConnect r portUser cenv). unfold ServeHTTP, servePAC, handleForward, authenticate. frame.
Qed.
End frame.
