(* ===== verification/ProxySafety.v ===== *)
(** * Who gets through the proxy

    Traffic leaves the proxy only for clients that the limiter lets in, that are
    authenticated as the owner of the port they came in on, that are not paused
    (or ask for a host a pause never intercepts) and whose destination the access
    list allows. *)

From S2P Require Import Prelude GoStrings GoTime GoNet GoHTTP Password UserTable RateLimit Dns Config Bypass Proxy Connect Forward.

Open Scope list_scope.

(** ** New contacts of a step *)

Section contacts.
Context {St : Type}.

(** [m] appends to the trace, and whatever contact it appends, [P] holds. *)
Definition contacts_only_if {A} (m : ST (Handler St) A) (h : Handler St) (P : Prop) : Prop :=
  exists new, trace (snd (m h)) = trace h ++ new /\ forall e, e ∈ new -> contact e = true -> P.

Lemma coi_bind {A B} (m : ST (Handler St) A) (k : A -> ST (Handler St) B) h P :
  contacts_only_if m h P -> contacts_only_if (k (fst (m h))) (snd (m h)) P ->
  contacts_only_if (x ← m; k x) h P.
Proof.
  intros (n1 & E1 & H1) (n2 & E2 & H2). exists (n1 ++ n2). unfold mbind, ST_bind.
  destruct (m h) as [a h1]. simpl in *. rewrite E2, E1, app_assoc. split; [done|]. intros e [?|?]%elem_of_app; eauto.
Qed.

Lemma coi_weaken {A} (m : ST (Handler St) A) h (P Q : Prop) :
  contacts_only_if m h P -> (P -> Q) -> contacts_only_if m h Q.
Proof. intros (new & E & Hm) HPQ. exists new. eauto. Qed.

Lemma coi_silent {A} (m : ST (Handler St) A) h P : trace (snd (m h)) = trace h -> contacts_only_if m h P.
Proof. intros E. exists []. rewrite app_nil_r. split; [done|]. by intros e ?%elem_of_nil. Qed.

Lemma coi_emit e h P : contact e = false -> contacts_only_if (emit e) h P.
Proof. intros Hc. exists [e]. split; [done|]. intros e' ->%list_elem_of_singleton ?. congruence. Qed.

Lemma coi_contact e h (P : Prop) : P -> contacts_only_if (emit e) h P.
Proof. intros HP. by exists [e]. Qed.

Context {us : UserStore St} (w : Wiring) (network : Network).

Lemma recordAuthSuccess_silent ip user now (h : Handler St) : trace (snd (recordAuthSuccess ip user now h)) = trace h.
Proof. done. Qed.

Lemma check_user_silent header portUser salt now (h : Handler St) : trace (snd (check_user header portUser salt now h)) = trace h.
Proof. unfold check_user. destruct (us_Check _ _ _ _) as [[u|e] s]; [|done]. by case_match. Qed.

Lemma authenticate_silent ip header portUser salt now (h : Handler St) :
  trace (snd (authenticate ip header portUser salt now h)) = trace h.
Proof.
  unfold authenticate, mbind, ST_bind. pose proof (check_user_silent header portUser salt now h) as E.
  destruct (check_user _ _ _ _ _) as [[u|e] h1]; simpl in *; [done|]. by repeat (case_match; simplify_eq/=).
Qed.

Lemma ctxWithUserDNS_silent user (h : Handler St) : trace (snd (ctxWithUserDNS w user h)) = trace h.
Proof. unfold ctxWithUserDNS. by repeat case_match. Qed.

Lemma limiter_Allow_silent ip now (h : Handler St) : trace (snd (limiter_Allow ip now h)) = trace h.
Proof. unfold limiter_Allow. by destruct (Allow _ _ _). Qed.
End contacts.

#[export] Hint Resolve coi_emit coi_silent coi_contact recordAuthSuccess_silent check_user_silent authenticate_silent
  ctxWithUserDNS_silent limiter_Allow_silent : evan.

(** Steps through a handler: plain writes and logs add no contact. *)
Ltac coi :=
  repeat first
    [ apply coi_bind
    | solve [auto with evan]
    | match goal with |- contacts_only_if (if ?b then _ else _) _ _ => destruct b eqn:? end
    | match goal with |- contacts_only_if (let '(_, _) := ?x in _) _ _ => destruct x end
    | match goal with |- contacts_only_if (match ?x with _ => _ end) _ _ => destruct x eqn:? end ].

Section safety.
Context {St : Type} {us : UserStore St} (w : Wiring) (network : Network).

Lemma connectTunnel_contacts env start clientIP host user (h : Handler St) :
  contacts_only_if (connectTunnel w network env start clientIP host user) h (acl_Allow w host = true).
Proof.
  unfold connectTunnel, dialWithBlockCheck, dial_address. apply coi_bind; [auto with evan|].
  destruct (acl_Allow w host); cbn [negb]; coi.
Qed.

Lemma serveBlocked_contacts env start clientIP host user reason (h : Handler St) :
  contacts_only_if (serveBlocked w network env start clientIP host user reason) h
    (acl_Allow w host = true /\ MITMEnabled (cfg w) = true /\ has_mitm w = true /\ Passthrough host = true).
Proof.
  unfold serveBlocked. destruct (MITMEnabled (cfg w)), (has_mitm w); cbn [negb orb]; try by coi.
  destruct (Passthrough host) eqn:Hp; [|by coi].
  apply coi_bind; [auto with evan|]. eapply coi_weaken; [apply connectTunnel_contacts|]. auto.
Qed.

(** The destination may be contacted: the access list allows it, and the user is
    not paused or the pause does not intercept this host. *)
Definition may_pass (s : Handler St) (now : Z) (user host : string) : Prop :=
  acl_Allow w host = true /\
  (fst (blockReason w user now s) = "" \/
   MITMEnabled (cfg w) = true /\ has_mitm w = true /\ Passthrough host = true).

Lemma connect_admitted_contacts env start now clientIP host user (h : Handler St) :
  contacts_only_if (connect_admitted w network env start now clientIP host user) h (may_pass h now user host).
Proof.
  unfold connect_admitted. apply coi_bind; [auto with evan|]. apply coi_bind; [by apply coi_silent|].
  set (h1 := snd (recordAuthSuccess clientIP user now h)).
  change (fst (blockReason w user now h1)) with (fst (blockReason w user now h)).
  unfold may_pass. destruct (String.eqb_spec (fst (blockReason w user now h)) "") as [E|E]; cbn [negb].
  - eapply coi_weaken; [apply connectTunnel_contacts|]. auto.
  - eapply coi_weaken; [apply serveBlocked_contacts|]. intuition.
Qed.

(** ** Authentication *)

(** The store after the first look at the credentials. *)
Definition after_check (header : string) (salt : option string) (now : Z) (h : Handler St) : Handler St :=
  set_store h (snd (us_Check header salt now (store h))).

Definition owner_ok (portUser user : string) : Prop := portUser = "" \/ user = portUser.

Lemma check_user_inv header portUser salt now (h : Handler St) a h' :
  check_user header portUser salt now h = (a, h') ->
  h' = after_check header salt now h /\
  forall user, a = Ok user -> fst (us_Check header salt now (store h)) = Ok user /\ owner_ok portUser user.
Proof.
  unfold check_user, after_check, owner_ok. destruct (us_Check _ _ _ _) as [[u|e] s]; simpl;
    [|by intros [= <- <-]].
  destruct (String.eqb_spec portUser ""), (String.eqb_spec u portUser); cbn [negb andb]; intros [= <- <-];
    (split; [done|]); intros user [= <-]; auto.
Qed.

(** How a client of [r] on a port of [portUser] can be somebody. *)
Definition authenticated (h : Handler St) (clientIP header portUser : string) (salt : option string) (now : Z)
    (user : string) : Prop :=
  fst (us_Check header salt now (store h)) = Ok user /\ owner_ok portUser user \/
  header = "" /\ user <> "" /\ fst (checkAuthSession clientIP portUser now h) = user.

Lemma authenticate_inv clientIP header portUser salt now (h : Handler St) a h' :
  authenticate clientIP header portUser salt now h = (a, h') ->
  h' = after_check header salt now h /\
  forall user, a = Ok user -> authenticated h clientIP header portUser salt now user.
Proof.
  unfold authenticate, mbind, ST_bind, mret, ST_ret, authenticated.
  destruct (check_user header portUser salt now h) as [a1 h1] eqn:E. apply check_user_inv in E as [-> Ha].
  destruct a1 as [u|e]; [intros [= <- <-]; split; [done|]; intros user [= <-]; left; by apply Ha|].
  destruct (String.eqb_spec header "") as [->|]; cbn [negb]; [|by intros [= <- <-]].
  set (h1 := after_check "" salt now h).
  change (checkAuthSession clientIP portUser now h1) with (fst (checkAuthSession clientIP portUser now h), h1).
  set (s := fst (checkAuthSession clientIP portUser now h)) in *. cbv beta iota.
  destruct (String.eqb_spec s "") as [Es|Es]; intros [= <- <-]; (split; [done|]); intros user [= <-]; auto.
Qed.

(** Who a CONNECT is from, to which host and when: by the credentials or the
    session of the request, or by the credentials of the retried request. *)
Inductive connect_as (r : http.Request) (portUser : string) (env : connect_env) (h : Handler St) :
    string -> string -> Z -> Prop :=
| as_first user :
    authenticated h (clientAddr r) (http.Get (http.HeaderOf r) "Proxy-Authorization") portUser (ce_salt env)
      (ce_now env) user ->
    connect_as r portUser env h user (http.Host r) (ce_now env)
| as_retry retry user :
    ce_retry env = Some retry ->
    fst (us_Check (http.Get (http.HeaderOf retry) "Proxy-Authorization") (ce_salt2 env) (ce_now2 env)
           (store (after_check (http.Get (http.HeaderOf r) "Proxy-Authorization") (ce_salt env) (ce_now env) h))) = Ok user ->
    owner_ok portUser user ->
    connect_as r portUser env h user (http.Host retry) (ce_now2 env).

(** Pausing does not depend on what [Check] did. *)
Lemma blockReason_after_check header salt now h user t :
  fst (blockReason w user t (after_check header salt now h)) = fst (blockReason w user t h).
Proof. unfold blockReason, gets, after_check. simpl. by rewrite us_Check_enabled, us_Check_downtime. Qed.

Lemma may_pass_after_check header salt now h user host t :
  may_pass (after_check header salt now h) t user host -> may_pass h t user host.
Proof. unfold may_pass. by rewrite blockReason_after_check. Qed.

(** The answer to a challenge reaches out for whoever its own credentials show. *)
Lemma connect_answer_contacts env start ip host portUser had e (h : Handler St) :
  contacts_only_if (connect_answer w network env start ip host portUser had e) h
    (exists retry user, ce_retry env = Some retry /\
      fst (us_Check (http.Get (http.HeaderOf retry) "Proxy-Authorization") (ce_salt2 env) (ce_now2 env) (store h)) = Ok user /\
      owner_ok portUser user /\ may_pass h (ce_now2 env) user (http.Host retry)).
Proof.
  unfold connect_answer. destruct (ce_retry env) as [retry|]; [|by destruct had; coi]. apply coi_bind; [auto with evan|].
  destruct (check_user _ _ _ _ h) as [a h'] eqn:E. apply check_user_inv in E as [-> Ha].
  destruct a as [user|e']; cbn [fst snd]; [|by coi].
  eapply coi_weaken; [apply connect_admitted_contacts|]. intros Hp%may_pass_after_check. destruct (Ha user eq_refl) as [Hc Ho].
  by exists retry, user.
Qed.

Lemma connect_retry_contacts r portUser env (h : Handler St) had e :
  let h1 := after_check (http.Get (http.HeaderOf r) "Proxy-Authorization") (ce_salt env) (ce_now env) h in
  contacts_only_if (connect_retry w network env (ce_now env) (clientAddr r) (http.Host r) portUser had e) h1
    (exists user host t, connect_as r portUser env h user host t /\ may_pass h t user host).
Proof.
  intros h1. unfold connect_retry. apply coi_bind; [auto with evan|].
  eapply coi_weaken; [apply connect_answer_contacts|]. intros (retry & user & Er & Hc & Ho & Hp).
  exists user, (http.Host retry), (ce_now2 env). split; [by eapply as_retry|].
  by apply may_pass_after_check in Hp.
Qed.

Lemma handleConnect_contacts r portUser env (h : Handler St) :
  contacts_only_if (handleConnect w network r portUser env) h
    (fst (Allow (clientAddr r) (ce_now env) (limiter h)) = true /\
     exists user host t, connect_as r portUser env h user host t /\ may_pass h t user host).
Proof.
  unfold handleConnect. apply coi_bind; [auto with evan|].
  destruct (ce_hijack env); [by coi|by coi|].
  unfold limiter_Allow. destruct (Allow (clientAddr r) (ce_now env) (limiter h)) as [b l] eqn:Ea. cbn [fst snd].
  destruct b; cbn [negb]; [|by coi].
  eapply coi_weaken with (P := exists user host t, connect_as r portUser env h user host t /\ may_pass h t user host);
    [|auto].
  set (h0 := set_limiter h l). apply coi_bind; [auto with evan|].
  destruct (authenticate _ _ _ _ _ h0) as [a h1] eqn:E. apply authenticate_inv in E as [-> Ha]. cbn [fst snd].
  apply coi_bind; [|auto with evan]. destruct a as [user|e].
  - eapply coi_weaken; [apply connect_admitted_contacts|]. intros Hp%may_pass_after_check.
    exists user, (http.Host r), (ce_now env). split; [|done]. apply as_first. by apply (Ha user).
  - eapply coi_weaken; [apply (connect_retry_contacts r portUser env h0)|].
    intros (user & host & t & Hc & Hp). exists user, host, t. split; [|done].
    by destruct Hc; [apply as_first|eapply as_retry].
Qed.

(** A CONNECT reaches out only for whom it should: whenever [handleConnect]
    dials or tunnels, the failure limiter allowed the address, the client was
    authenticated, by the request, by a session of its address or by the retried
    request, as the owner of the dedicated port if there is one, the access list
    allows the host, and the user is not paused at that moment, or the block page
    is active and the host is one a pause never intercepts. *)
Theorem connect_reaches_out_only_if_entitled (r : http.Request) (portUser : string) (env : connect_env) (h : Handler St) :
  exists new, trace (snd (handleConnect w network r portUser env h)) = trace h ++ new /\
    forall e, e ∈ new -> contact e = true ->
      fst (Allow (clientAddr r) (ce_now env) (limiter h)) = true /\
      exists user host t, connect_as r portUser env h user host t /\ may_pass h t user host.
Proof. exact (handleConnect_contacts r portUser env h). Qed.

(** The same for plain requests, whose host is the one of the URL if it has one. *)
Definition forward_host (r : http.Request) : string :=
  if (http.URL_Host r =? "")%string then http.Host r else http.URL_Host r.

Lemma handleForward_contacts r portUser env (h : Handler St) :
  contacts_only_if (handleForward w r portUser env) h
    (fst (Allow (clientAddr r) (fe_now env) (limiter h)) = true /\
     acl_Allow w (forward_host r) = true /\
     exists user,
       authenticated h (clientAddr r) (http.Get (http.HeaderOf r) "Proxy-Authorization") portUser (fe_salt env)
         (fe_now env) user /\
       has_downtimeChecker w && us_IsInDowntime (fe_now env) (store h) user = false).
Proof.
  unfold handleForward. fold (forward_host r). apply coi_bind; [auto with evan|].
  unfold limiter_Allow. destruct (Allow (clientAddr r) (fe_now env) (limiter h)) as [b l] eqn:Ea. cbn [fst snd].
  destruct b; cbn [negb]; [|by coi]. apply coi_bind; [auto with evan|].
  destruct (authenticate _ _ _ _ _ _) as [a h1] eqn:E. apply authenticate_inv in E as [-> Ha]. cbn [fst snd].
  destruct a as [user|e]; [|by coi]. apply coi_bind; [auto with evan|]. apply coi_bind; [by apply coi_silent|].
  unfold gets at 1. cbn [fst]. unfold recordAuthSuccess, update, after_check. cbn [snd store set_authSessions set_store set_limiter].
  rewrite us_Check_downtime. destruct (has_downtimeChecker w && _) eqn:Ed; [by coi|].
  apply coi_bind; [auto with evan|]. destruct (acl_Allow w (forward_host r)) eqn:Eacl; cbn [negb]; [|by coi].
  eapply (coi_weaken _ _ True); [coi|]. intros _. split; [done|]. split; [done|]. exists user. split; [|done]. by apply (Ha user).
Qed.

(** A plain request is forwarded only for an authenticated user of the port
    who is not in downtime, from an address the limiter allows, to a host the
    access list allows. *)
Theorem forward_reaches_out_only_if_entitled (r : http.Request) (portUser : string) (env : forward_env) (h : Handler St) :
  exists new, trace (snd (handleForward w r portUser env h)) = trace h ++ new /\
    forall e, e ∈ new -> contact e = true ->
      fst (Allow (clientAddr r) (fe_now env) (limiter h)) = true /\
      acl_Allow w (forward_host r) = true /\
      exists user,
        authenticated h (clientAddr r) (http.Get (http.HeaderOf r) "Proxy-Authorization") portUser (fe_salt env)
          (fe_now env) user /\
        has_downtimeChecker w && us_IsInDowntime (fe_now env) (store h) user = false.
Proof. exact (handleForward_contacts r portUser env h). Qed.
End safety.
