(* ===== verification/ProxySpec.v ===== *)
(** * Sessions, refusals and headers of the proxy

    Sessions only ever stand for the owner of a port; what a paused or refused
    client gets; which headers travel. *)

From S2P Require Import Prelude GoStrings GoTime GoNet GoHTTP Password UserTable RateLimit Dns Config Bypass Proxy Connect Forward ProxyFrame ProxySafety.

Open Scope list_scope.

(** ** Session keys *)

Lemma HasByte_free_of c s : free_of c s -> strings.HasByte s c = false.
Proof.
  induction s as [|a s IH]; [done|]. intros [Ha Hs]. rewrite net.HasByte_cons, IH by done.
  apply Ascii.eqb_neq in Ha. by rewrite Ha.
Qed.

(** The last colon separates address and user. *)
Lemma session_key_inj ip ip' u u' :
  free_of ":" u -> free_of ":" u' ->
  (ip +:+ ":" +:+ u)%string = (ip' +:+ ":" +:+ u')%string -> ip = ip' /\ u = u'.
Proof.
  intros Hu Hu' E. change (":" +:+ u)%string with (String ":" u) in E. change (":" +:+ u')%string with (String ":" u') in E.
  pose proof (net.LastIndexByte_app ip ":" u (HasByte_free_of _ _ Hu)) as H.
  rewrite E, net.LastIndexByte_app in H by (by apply HasByte_free_of). injection H as H.
  split.
  - rewrite <- (net.take_app ip (String ":" u)), E, <- H. apply net.take_app.
  - rewrite <- (net.drop_S_app ip ":" u), E, <- H. apply net.drop_S_app.
Qed.

Section sessions.
Context {St : Type} {us : UserStore St} (w : Wiring) (network : Network).

(** Every session satisfies [Q] with its key. *)
Definition filed (Q : string -> authSession -> Prop) (h : Handler St) : Prop :=
  forall k s, authSessions h !! k = Some s -> Q k s.

Lemma recordAuthSuccess_filed Q ip user now h :
  Q (authCacheKey ip user) (mkAuthSession user (time.Add now authSessionTTL)) ->
  filed Q h -> filed Q (snd (recordAuthSuccess ip user now h)).
Proof. intros Hq Hs k s. simpl. rewrite lookup_insert. case_decide as E; [|apply Hs]. intros [= <-]. by subst k. Qed.

Lemma cleanup_filed Q now h : filed Q h -> filed Q (snd (cleanupAuthSessions now h)).
Proof. intros Hs k s. simpl. rewrite map_lookup_filter_Some. intros [? _]. by apply Hs. Qed.

(** Every session is filed under its own user, whose name has no colon. *)
Definition filed_under_user (k : string) (s : authSession) : Prop :=
  free_of ":" (as_user s) /\ exists ip, k = authCacheKey ip (as_user s).
Definition sessions_ok : Handler St -> Prop := filed filed_under_user.

Lemma session_hit h ip portUser now :
  sessions_ok h -> portUser <> "" -> free_of ":" portUser ->
  fst (checkAuthSession ip portUser now h) = "" \/ fst (checkAuthSession ip portUser now h) = portUser.
Proof.
  intros Hs Hne Hf. unfold checkAuthSession, gets. cbn [fst].
  destruct (authSessions h !! authCacheKey ip portUser) as [s|] eqn:E; [|by left]. case_match; [|by left].
  destruct (Hs _ _ E) as (Hfu & ip' & Ek). unfold authCacheKey in Ek.
  destruct (String.eqb_spec portUser ""); [done|]. destruct (String.eqb_spec (as_user s) ""); [by left|].
  apply session_key_inj in Ek as [_ ?]; auto.
Qed.

(** Who passes on a dedicated port is its owner. *)
Lemma authenticated_owner h clientIP header portUser salt now user :
  sessions_ok h -> portUser <> "" -> free_of ":" portUser ->
  authenticated h clientIP header portUser salt now user -> user = portUser.
Proof.
  intros Hs Hne Hf [[_ [?|?]]|(_ & Hu & <-)]; [done|done|].
  by destruct (session_hit h clientIP portUser now Hs Hne Hf).
Qed.

(** A dedicated port serves its owner and nobody else: as long as sessions
    are filed as the handlers file them, a CONNECT that dials or tunnels from a
    port whose owner's name has no colon acts for that owner, whichever of the
    three ways it authenticated. *)
Theorem dedicated_port_serves_its_owner (r : http.Request) (portUser : string) (env : connect_env) (h : Handler St) :
  sessions_ok h -> portUser <> "" -> free_of ":" portUser ->
  exists new, trace (snd (handleConnect w network r portUser env h)) = trace h ++ new /\
    forall e, e ∈ new -> contact e = true ->
      exists host t, connect_as r portUser env h portUser host t /\ may_pass w h t portUser host.
Proof.
  intros Hs Hne Hf. destruct (handleConnect_contacts w network r portUser env h) as (new & E & H).
  exists new. split; [exact E|]. intros e Hin Hc. destruct (H e Hin Hc) as (_ & user & host & t & Ha & Hp).
  assert (user = portUser) as ->; [|eauto].
  destruct Ha as [user Ha|retry user _ _ [?|?]]; [|done|done]. by eapply authenticated_owner.
Qed.

(** ** The handlers file sessions so *)

Lemma authenticated_colon_free h clientIP header portUser salt now user :
  sessions_ok h -> authenticated h clientIP header portUser salt now user -> free_of ":" user.
Proof.
  intros Hs [[Hc _]|(_ & Hu & E)].
  - destruct (us_Check header salt now (store h)) as [res s'] eqn:Ec. simpl in Hc. subst res. by eapply us_Check_user.
  - unfold checkAuthSession, gets in E. simpl in E.
    destruct (authSessions h !! _) as [s|] eqn:El; [|by subst]. case_match; subst; [|done].
    by destruct (Hs _ _ El).
Qed.

End sessions.

Section handlers.
Context {St : Type} {us : UserStore St} (w : Wiring) (network : Network).

(** Nothing but [recordAuthSuccess] changes the sessions. *)
Definition same_sessions (h h' : Handler St) : Prop := authSessions h' = authSessions h.

#[local] Instance same_sessions_preorder : PreOrder same_sessions.
Proof. split; [done|]. intros h1 h2 h3 E1 E2. unfold same_sessions in *. congruence. Qed.

Lemma filed_same Q (h h' : Handler St) : same_sessions h h' -> filed Q h -> filed Q h'.
Proof. unfold same_sessions, filed. by intros ->. Qed.

(** Who a request can come from: the authenticated user of a plain request, or the
    user of a CONNECT. *)
Inductive admitted (r : http.Request) (portUser : string) (cenv : connect_env) (fenv : forward_env) (h : Handler St) (user : string) : Prop :=
| admitted_connect host t : connect_as r portUser cenv h user host t -> admitted r portUser cenv fenv h user
| admitted_forward :
    authenticated h (clientAddr r) (http.Get (http.HeaderOf r) "Proxy-Authorization") portUser (fe_salt fenv) (fe_now fenv) user ->
    admitted r portUser cenv fenv h user.

Section filing.
Context (Q : string -> authSession -> Prop).

Lemma connect_admitted_filed env start now ip host user (h : Handler St) :
  (forall t, Q (authCacheKey ip user) (mkAuthSession user t)) -> filed Q h ->
  filed Q (snd (connect_admitted w network env start now ip host user h)).
Proof.
  intros Hu Hs. unfold connect_admitted. unfold mbind at 1, ST_bind at 1.
  pose proof (recordAuthSuccess_filed Q ip user now h (Hu _) Hs) as Hs1.
  destruct (recordAuthSuccess ip user now h) as [[] h1]. simpl in Hs1. eapply filed_same; [|exact Hs1].
  pose proof (respects_tunnel w network same_sessions ltac:(done) ltac:(done)) as Ht.
  match goal with |- same_sessions h1 (snd (?m h1)) => assert (respects same_sessions m) as Hk; [|apply Hk] end.
  unfold blockReason, serveBlocked. apply respects_bind; [apply _|apply respects_gets, _|]. intros reason.
  repeat first [apply Ht | case_match | apply respects_bind; [apply _| |intros ?] | by intros ?].
Qed.

Lemma connect_answer_filed env start ip host portUser had e (h : Handler St) :
  (forall user, (exists retry, ce_retry env = Some retry /\
       fst (us_Check (http.Get (http.HeaderOf retry) "Proxy-Authorization") (ce_salt2 env) (ce_now2 env) (store h)) = Ok user /\
       owner_ok portUser user) -> forall t, Q (authCacheKey ip user) (mkAuthSession user t)) ->
  filed Q h -> filed Q (snd (connect_answer w network env start ip host portUser had e h)).
Proof.
  intros Hq Hs. unfold connect_answer. destruct (ce_retry env) as [retry|] eqn:Er; [|by destruct had].
  unfold mbind at 1, ST_bind at 1. destruct (check_user _ _ _ _ h) as [a h2] eqn:E.
  apply check_user_inv in E as [-> Ha]. destruct a as [user|e']; [|done].
  apply connect_admitted_filed; [|done]. apply Hq. exists retry. destruct (Ha user eq_refl) as [Hc Ho]. done.
Qed.

Lemma handleConnect_filed r portUser env (h : Handler St) :
  (forall user host t0 t, connect_as r portUser env h user host t0 -> Q (authCacheKey (clientAddr r) user) (mkAuthSession user t)) ->
  filed Q h -> filed Q (snd (handleConnect w network r portUser env h)).
Proof.
  intros Hq Hs. unfold handleConnect. unfold mbind at 1, ST_bind at 1, limiter_Allow.
  destruct (Allow _ _ _) as [b l]. destruct (ce_hijack env); [done|done|]. destruct b; cbn [negb]; [|done].
  unfold mbind at 1, ST_bind at 1. destruct (authenticate _ _ _ _ _ _) as [a h1] eqn:E.
  apply authenticate_inv in E as [-> Ha].
  assert (forall A (m : ST (Handler St) A) h0, filed Q (snd (m h0)) -> filed Q (snd ((_ ← m; emit Close) h0))) as Hclose.
  { intros A m h0 Hm. unfold mbind, ST_bind. by destruct (m h0). }
  apply Hclose. destruct a as [user|e].
  - apply connect_admitted_filed; [|done]. intros t. eapply Hq, as_first. by apply Ha.
  - unfold connect_retry. unfold mbind at 1, ST_bind at 1. cbn [emit update].
    apply connect_answer_filed; [|done]. intros user (retry & Er & Hc & Ho) t. by eapply Hq, as_retry.
Qed.

Lemma handleForward_filed r portUser env (h : Handler St) :
  (forall user t, authenticated h (clientAddr r) (http.Get (http.HeaderOf r) "Proxy-Authorization") portUser (fe_salt env) (fe_now env) user ->
     Q (authCacheKey (clientAddr r) user) (mkAuthSession user t)) ->
  filed Q h -> filed Q (snd (handleForward w r portUser env h)).
Proof.
  intros Hq Hs. unfold handleForward. unfold mbind at 1, ST_bind at 1, limiter_Allow.
  destruct (Allow _ _ _) as [b l]. destruct b; cbn [negb]; [|done].
  unfold mbind at 1, ST_bind at 1. destruct (authenticate _ _ _ _ _ _) as [a h1] eqn:E.
  apply authenticate_inv in E as [-> Ha]. destruct a as [user|e]; [|by destruct (negb _)].
  unfold mbind at 1, ST_bind at 1.
  pose proof (recordAuthSuccess_filed Q (clientAddr r) user (fe_now env)
    (after_check (http.Get (http.HeaderOf r) "Proxy-Authorization") (fe_salt env) (fe_now env) (set_limiter h l))) as Hr.
  destruct (recordAuthSuccess _ _ _ _) as [[] h2]. cbn [snd] in Hr.
  eapply filed_same; [|apply Hr; [apply Hq; by apply Ha|done]].
  pose proof (respects_dns w same_sessions ltac:(done)) as Hd.
  match goal with |- same_sessions h2 (snd (?m h2)) => assert (respects same_sessions m) as Hk; [|apply Hk] end.
  repeat first [apply Hd | case_match | apply respects_bind; [apply _| |intros ?] | by intros ?].
Qed.

Lemma ServeHTTP_filed r portUser cenv fenv (h : Handler St) :
  (forall user t, admitted r portUser cenv fenv h user -> Q (authCacheKey (clientAddr r) user) (mkAuthSession user t)) ->
  filed Q h -> filed Q (snd (ServeHTTP w network r portUser cenv fenv h)).
Proof.
  intros Hq Hs. unfold ServeHTTP, servePAC. case_match; [by case_match|]. case_match.
  - apply handleConnect_filed; [|done]. intros user host t0 t Hc. by eapply Hq, admitted_connect.
  - apply handleForward_filed; [|done]. intros user t Ha. by apply Hq, admitted_forward.
Qed.
End filing.

Lemma connect_as_colon_free r portUser env (h : Handler St) user host t :
  sessions_ok h -> connect_as r portUser env h user host t -> free_of ":" user.
Proof.
  intros Hs [u Ha|retry u _ Hc _]; [by eapply authenticated_colon_free|].
  destruct (us_Check _ _ _ _) as [res s'] eqn:Ec in Hc. simpl in Hc. subst res. by eapply us_Check_user.
Qed.

(** Sessions stay filed under their own users: serving any request keeps the
    key discipline that [dedicated_port_serves_its_owner] starts from, and the
    periodic cleanup does too. *)
Theorem handlers_keep_sessions_filed (r : http.Request) (portUser : string) (cenv : connect_env) (fenv : forward_env)
    (now : Z) (h : Handler St) :
  sessions_ok h ->
  sessions_ok (snd (ServeHTTP w network r portUser cenv fenv h)) /\ sessions_ok (snd (cleanupAuthSessions now h)).
Proof.
  intros Hs. split; [|by apply cleanup_filed]. apply ServeHTTP_filed; [|done].
  intros user t [host t0 Hc|Ha]; (split; [|by eexists]); [by eapply connect_as_colon_free|by eapply authenticated_colon_free].
Qed.
(** Why names need to be free of colons: the key joins address and owner with a
    colon, so a session that [u] opened from the address [ip:x] is found by a client
    of the address [ip] on the port of a user called [x:u], and lets it in as [u];
    IPv6 makes both addresses possible, and [DB.Add] accepts such a name. *)
Lemma colon_names_share_sessions (ip x u : string) (s : authSession) (now : Z) (h : Handler St) :
  u <> "" -> authSessions h !! authCacheKey (ip +:+ ":" +:+ x) u = Some s -> as_user s = u -> now < as_expires s ->
  fst (checkAuthSession ip (x +:+ ":" +:+ u) now h) = u.
Proof.
  intros Hu Hs Hus Hnow. unfold checkAuthSession, gets. cbn [fst].
  assert (authCacheKey ip (x +:+ ":" +:+ u) = authCacheKey (ip +:+ ":" +:+ x) u) as ->.
  { unfold authCacheKey. rewrite (proj2 (String.eqb_neq u "") Hu).
    assert ((x +:+ ":" +:+ u =? "")%string = false) as -> by (by destruct x). by rewrite !string_app_assoc. }
  rewrite Hs. unfold time.Before. by rewrite (proj2 (Z.ltb_lt _ _) Hnow).
Qed.
End handlers.
