(* ===== verification/Challenge.v ===== *)
(** * CONNECT in two phases (pkg/proxy/connect.go)

    After a challenge [handleConnect] waits for the second request on the hijacked
    connection, up to AUTH_RETRY_TIMEOUT, holding no lock: the rest of the program
    runs on.  The handler is cut there.  [connect_first] runs until the connection is
    closed or the challenge is out, [connect_second] from the answer to the end, and
    one after the other they are [handleConnect]. *)

From S2P Require Import Prelude GoStrings GoTime GoNet GoHTTP Password UserTable RateLimit Dns Config Bypass Proxy Connect Forward.
From S2P Require Import ProxyFrame ProxySafety ProxySpec.

Open Scope list_scope.

(** What the waiting goroutine has in its variables. *)
Record challenge := mkChallenge {
  ch_start : Z;
  ch_clientIP : string;
  ch_host : string;
  ch_portUser : string;
  ch_hadCredentials : bool;
  ch_authErr : auth_error;
}.

Section phases.
Context {St : Type} {us : UserStore St} (w : Wiring) (network : Network).

Definition connect_first (r : http.Request) (portUser : string) (env : connect_env) : ST (Handler St) (option challenge) :=
  let start := ce_now env in
  let clientIP := clientAddr r in
  let host := http.Host r in
  allowed ← limiter_Allow clientIP start;
  match ce_hijack env with
  | NotSupported => _ ← emit (HttpError 500 "hijack not supported"); mret None
  | HijackFailed => mret None
  | Hijacked =>
      if negb allowed then
        _ ← emit (Write reply_rate_limited);
        _ ← emit Close;
        _ ← emit (Log (connect_entry start "" clientIP host "" 407 RateLimited));
        mret None
      else
        let header := http.Get (http.HeaderOf r) "Proxy-Authorization" in
        a ← authenticate clientIP header portUser (ce_salt env) start;
        match a with
        | Ok user =>
            _ ← connect_admitted w network env start start clientIP host user;
            _ ← emit Close;
            mret None
        | Err e =>
            _ ← emit (Write reply_challenge);
            mret (Some (mkChallenge start clientIP host portUser (negb (header =? "")%string) e))
        end
  end.

Definition connect_second (c : challenge) (env : connect_env) : ST (Handler St) unit :=
  _ ← connect_answer w network env (ch_start c) (ch_clientIP c) (ch_host c) (ch_portUser c) (ch_hadCredentials c) (ch_authErr c);
  emit Close.

Definition connect_phases (r : http.Request) (portUser : string) (env env' : connect_env) : ST (Handler St) unit :=
  c ← connect_first r portUser env;
  match c with Some c => connect_second c env' | None => mret tt end.

Lemma handleConnect_phases r portUser env (h : Handler St) :
  handleConnect w network r portUser env h = connect_phases r portUser env env h.
Proof.
  unfold handleConnect, connect_phases, connect_first, connect_second, connect_retry, mbind, ST_bind, mret, ST_ret.
  destruct (limiter_Allow _ _ h) as [b h1]. destruct (ce_hijack env); [done|done|]. destruct b; cbn [negb]; [|done].
  destruct (authenticate _ _ _ _ _ h1) as [[user|e] h2]; [|by destruct (emit _ h2)].
  destruct (connect_admitted _ _ _ _ _ _ _ _ h2) as [[] h3]. by destruct (emit Close h3) as [[] h4].
Qed.

(** ** The first phase *)

Lemma connect_first_waits r portUser env (h : Handler St) c :
  fst (connect_first r portUser env h) = Some c -> ch_portUser c = portUser /\ ch_clientIP c = clientAddr r.
Proof.
  unfold connect_first, mbind, ST_bind, mret, ST_ret. destruct (limiter_Allow _ _ h) as [b h1].
  destruct (ce_hijack env); [done|done|]. destruct b; cbn [negb]; [|done].
  destruct (authenticate _ _ _ _ _ h1) as [[user|e] h2]; [|by intros [= <-]].
  by destruct (connect_admitted _ _ _ _ _ _ _ _ h2) as [[] h3].
Qed.

Lemma connect_first_contacts r portUser env (h : Handler St) :
  contacts_only_if (connect_first r portUser env) h
    (exists user, authenticated h (clientAddr r) (http.Get (http.HeaderOf r) "Proxy-Authorization") portUser (ce_salt env) (ce_now env) user /\
      may_pass w h (ce_now env) user (http.Host r)).
Proof.
  unfold connect_first. apply coi_bind; [auto with evan|]. destruct (ce_hijack env); [by coi|by apply coi_silent|].
  unfold limiter_Allow. destruct (Allow _ _ _) as [b l] eqn:Ea. cbn [fst snd]. destruct b; cbn [negb]; [|coi; by apply coi_silent].
  set (h0 := set_limiter h l). apply coi_bind; [auto with evan|].
  destruct (authenticate _ _ _ _ _ h0) as [a h1] eqn:E. apply authenticate_inv in E as [-> Ha]. cbn [fst snd].
  destruct a as [user|e]; [|coi; by apply coi_silent]. apply coi_bind; [|coi; by apply coi_silent].
  eapply coi_weaken; [apply connect_admitted_contacts|]. intros Hp%may_pass_after_check. exists user. split; [|done]. by apply (Ha user).
Qed.

Lemma connect_first_filed Q r portUser env (h : Handler St) :
  (forall user t, authenticated h (clientAddr r) (http.Get (http.HeaderOf r) "Proxy-Authorization") portUser (ce_salt env) (ce_now env) user ->
     Q (authCacheKey (clientAddr r) user) (mkAuthSession user t)) ->
  filed Q h -> filed Q (snd (connect_first r portUser env h)).
Proof.
  intros Hq Hs. unfold connect_first. unfold mbind at 1, ST_bind at 1, limiter_Allow.
  destruct (Allow _ _ _) as [b l]. destruct (ce_hijack env); [done|done|]. destruct b; cbn [negb]; [|done].
  unfold mbind at 1, ST_bind at 1. destruct (authenticate _ _ _ _ _ _) as [a h1] eqn:E.
  apply authenticate_inv in E as [-> Ha]. destruct a as [user|e]; [|done].
  unfold mbind at 1, ST_bind at 1. set (h1 := after_check _ _ _ _) in *.
  pose proof (connect_admitted_filed w network Q env (ce_now env) (ce_now env) (clientAddr r) (http.Host r) user h1) as Hf.
  destruct (connect_admitted _ _ _ _ _ _ _ _ h1) as [[] h2]. apply Hf; [|done]. intros t. apply Hq. by apply Ha.
Qed.

(** ** The second phase *)

Lemma connect_second_contacts c env (h : Handler St) :
  contacts_only_if (connect_second c env) h
    (exists retry user, ce_retry env = Some retry /\
      fst (us_Check (http.Get (http.HeaderOf retry) "Proxy-Authorization") (ce_salt2 env) (ce_now2 env) (store h)) = Ok user /\
      owner_ok (ch_portUser c) user /\ may_pass w h (ce_now2 env) user (http.Host retry)).
Proof. unfold connect_second. apply coi_bind; [apply connect_answer_contacts|by coi]. Qed.

Lemma connect_second_filed Q c env (h : Handler St) :
  (forall user t, (exists retry, ce_retry env = Some retry /\
       fst (us_Check (http.Get (http.HeaderOf retry) "Proxy-Authorization") (ce_salt2 env) (ce_now2 env) (store h)) = Ok user /\
       owner_ok (ch_portUser c) user) -> Q (authCacheKey (ch_clientIP c) user) (mkAuthSession user t)) ->
  filed Q h -> filed Q (snd (connect_second c env h)).
Proof.
  intros Hq Hs. unfold connect_second, mbind, ST_bind.
  pose proof (connect_answer_filed w network Q env (ch_start c) (ch_clientIP c) (ch_host c) (ch_portUser c) (ch_hadCredentials c) (ch_authErr c) h
    (fun user He t => Hq user t He) Hs) as Hf.
  by destruct (connect_answer _ _ _ _ _ _ _ _ _ h).
Qed.

(** ** What both leave alone *)

Section frame.
Context (R : Handler St -> Handler St -> Prop) `{!PreOrder R}.
Hypothesis R_effect : forall e h, socket e = false -> R h (emit_effect h e).
Hypothesis R_limiter : forall l h, R h (set_limiter h l).
Hypothesis R_resolvers : forall c h, R h (set_resolvers h c).
Hypothesis R_check : forall header salt now h, R h (set_store h (snd (us_Check header salt now (store h)))).
Hypothesis R_record : forall ip user now h, R h (snd (recordAuthSuccess ip user now h)).

Lemma respects_phases :
  (forall r portUser env, respects R (connect_first r portUser env)) /\ (forall c env, respects R (connect_second c env)).
Proof.
  pose proof (respects_admitted w network R R_effect R_resolvers R_record) as Ha.
  split; [intros r portUser env|intros c env]; unfold connect_first, connect_second, connect_answer, authenticate.
  all: repeat match goal with
    | |- respects _ (mbind _ _) => apply respects_bind; [apply _| |intros ?]
    | |- respects _ (mret _) => by apply respects_ret
    | |- respects _ (emit _) => by apply respects_emit
    | |- respects _ (if ?b then _ else _) => destruct b
    | |- respects _ (match ?x with _ => _ end) => destruct x
    | |- respects _ (connect_admitted _ _ _ _ _ _ _ _) => apply Ha
    | |- respects _ (limiter_Allow _ _) => by apply respects_allow
    | |- respects _ (limiter_RecordFailure _ _) => by apply respects_fail
    | |- respects _ (check_user _ _ _ _) => by apply respects_check_user
    | |- respects _ (checkAuthSession _ _ _) => by apply respects_session
    end.
Qed.
End frame.
End phases.
