(* ===== verification/ProxyOutcomes.v ===== *)
(** * What refused, paused and admitted clients get

    The exact replies to paused and rate-limited clients, the headers that are
    passed on, the addresses that are dialled, the text of the PAC file, and the
    gap in the block of disabled users. *)

From S2P Require Import Prelude GoStrings GoTime GoNet GoHTTP Password UserTable RateLimit Dns Config Bypass Proxy Connect Forward ProxySafety.

Open Scope list_scope.

Section outcomes.
Context {St : Type} {us : UserStore St} (w : Wiring) (network : Network).

(** ** Paused users *)

(** What a paused CONNECT adds to the trace when it is not let through. *)
Definition pause_reply (env : connect_env) (start : Z) (clientIP host user reason : string) : list effect :=
  if negb (MITMEnabled (cfg w)) || negb (has_mitm w) then
    [Write reply_forbidden; Log (connect_entry start "" clientIP host user 403 (Paused reason))]
  else
    [Write reply_established; BlockPage host user;
     match ce_page env with
     | Err msg => Log (connect_entry start "mitm_error" clientIP host user 200 (PageFailed msg))
     | Ok _ => Log (connect_entry start "mitm_served" clientIP host user 200 (Paused reason))
     end].

Lemma serveBlocked_reply env start clientIP host user reason (h : Handler St) :
  negb (MITMEnabled (cfg w)) || negb (has_mitm w) = true \/ Passthrough host = false ->
  trace (snd (serveBlocked w network env start clientIP host user reason h)) =
  trace h ++ pause_reply env start clientIP host user reason.
Proof.
  unfold serveBlocked, pause_reply. intros Hp.
  destruct (negb (MITMEnabled (cfg w)) || negb (has_mitm w)).
  - unfold emit, update, mbind, ST_bind. simpl. by rewrite <- app_assoc.
  - destruct Hp as [?|Hp]; [done|]. rewrite Hp. unfold emit, update, mbind, ST_bind.
    destruct (ce_page env); simpl; by rewrite <- !app_assoc.
Qed.

Lemma authenticate_accepts clientIP header portUser salt now (h : Handler St) user :
  fst (us_Check header salt now (store h)) = Ok user -> owner_ok portUser user ->
  authenticate clientIP header portUser salt now h = (Ok user, after_check header salt now h).
Proof.
  intros Hc Ho. unfold authenticate, check_user, after_check, mbind, ST_bind. destruct (us_Check _ _ _ _) as [res s']. simpl in *. subst res.
  destruct Ho as [->| ->]; [done|]. by rewrite String.eqb_refl, andb_false_r.
Qed.

(** [C11] What a blocked user's CONNECT gets instead of a tunnel: with the right
    credentials for the port, from an address the limiter allows, on a connection that
    can be hijacked, the reply is a 403 when the block page is off, and otherwise, for
    a host that is not one of those a pause never intercepts (which are tunnelled), an
    established connection on which the block page is served; then the connection is
    closed and nothing else happens. *)
Theorem paused_connect_gets_block_page (r : http.Request) (portUser : string) (env : connect_env)
    (h : Handler St) (user reason : string) :
  ce_hijack env = Hijacked ->
  fst (Allow (clientAddr r) (ce_now env) (limiter h)) = true ->
  fst (us_Check (http.Get (http.HeaderOf r) "Proxy-Authorization") (ce_salt env) (ce_now env) (store h)) = Ok user ->
  owner_ok portUser user ->
  fst (blockReason w user (ce_now env) h) = reason -> reason <> "" ->
  negb (MITMEnabled (cfg w)) || negb (has_mitm w) = true \/ Passthrough (http.Host r) = false ->
  trace (snd (handleConnect w network r portUser env h)) =
  trace h ++ pause_reply env (ce_now env) (clientAddr r) (http.Host r) user reason ++ [Close].
Proof.
  intros Hj Ha Hc Ho Hr Hne Hp. unfold handleConnect. rewrite Hj.
  unfold mbind at 1, ST_bind at 1, limiter_Allow. destruct (Allow _ _ _) as [b l]. simpl in Ha. subst b. cbn [negb].
  set (h0 := set_limiter h l).
  pose proof (authenticate_accepts (clientAddr r) _ portUser (ce_salt env) (ce_now env) h0 user Hc Ho) as Hauth.
  unfold mbind at 1, ST_bind at 1. rewrite Hauth. cbn beta iota.
  set (h1 := after_check _ _ _ h0).
  assert (fst (blockReason w user (ce_now env) h1) = reason) as Hr1
    by (unfold h1; rewrite blockReason_after_check; exact Hr).
  unfold connect_admitted, mbind, ST_bind. cbn [recordAuthSuccess update blockReason gets].
  unfold blockReason, gets in Hr1. cbn [fst] in Hr1. unfold set_authSessions at 1. cbn [store].
  unfold blockReason, gets. cbn [store set_authSessions]. rewrite Hr1.
  destruct (String.eqb_spec reason ""); [done|]. cbn [negb].
  match goal with |- context [serveBlocked w network env ?a ?b ?c user reason ?h2] =>
    pose proof (serveBlocked_reply env a b c user reason h2 Hp) as Hs;
    destruct (serveBlocked w network env a b c user reason h2) as [[] h3] end.
  cbn [snd emit update] in *. unfold emit_effect. cbn [trace]. rewrite Hs. by rewrite <- app_assoc.
Qed.

(** ** Users who may pass *)

(** Dialling depends on the network only, and adds to the trace. *)
Lemma dial_result resolver address :
  exists res ds, forall h : Handler St, fst (dialWithBlockCheck w network resolver address h) = res /\
    trace (snd (dialWithBlockCheck w network resolver address h)) = trace h ++ ds.
Proof.
  unfold dialWithBlockCheck, dial_address, emit, update, mbind, ST_bind, mret, ST_ret.
  repeat case_match; eexists _, _; intros h; cbn [fst snd]; (split; [reflexivity|]); simpl; rewrite <- ?app_assoc; reflexivity.
Qed.

(** The rest of an admitted CONNECT whose destination answers. *)
Definition tunnel_reply (env : connect_env) (start : Z) (clientIP host user address : string) : list effect :=
  [Write reply_established; Log (connect_entry start "open" clientIP host user 200 NoError);
   Tunnel address (ce_sent env) (ce_received env);
   Log (mkEntry start "close" clientIP http.MethodConnect host "" user NoError 200 (ce_sent env) (ce_received env))].

Lemma connectTunnel_reply env start clientIP host user address (h : Handler St) :
  acl_Allow w host = true ->
  fst (dialWithBlockCheck w network (fst (ctxWithUserDNS w user h)) host h) = Ok address ->
  exists ds, trace (snd (connectTunnel w network env start clientIP host user h)) =
    trace h ++ ds ++ tunnel_reply env start clientIP host user address.
Proof.
  intros Ha Hd. unfold connectTunnel, mbind, ST_bind. rewrite Ha. cbn [negb].
  pose proof (ctxWithUserDNS_silent w user h) as Es. destruct (ctxWithUserDNS w user h) as [resolver h1]. cbn [fst snd] in *.
  destruct (dial_result resolver host) as (res & ds & Hr). destruct (Hr h) as [<- _], (Hr h1) as [E1 E2]. rewrite Hd in E1.
  destruct (dialWithBlockCheck _ _ _ _ h1) as [x h2]. cbn [fst snd] in *. subst x. exists ds.
  unfold emit, update, emit_effect. cbn [snd trace]. rewrite E2, Es. unfold tunnel_reply. by rewrite <- !app_assoc.
Qed.

(** A client that may pass gets its tunnel: with the right credentials for the port,
    from an address the limiter allows, for a host the access list allows and that
    answers, and with no reason to block the user, the reply is an established
    connection, the tunnel carries the bytes, its opening and its end are logged, and
    the connection is closed. *)
Theorem entitled_connect_is_tunnelled (r : http.Request) (portUser : string) (env : connect_env)
    (h : Handler St) (user address : string) :
  let header := http.Get (http.HeaderOf r) "Proxy-Authorization" in
  ce_hijack env = Hijacked ->
  fst (Allow (clientAddr r) (ce_now env) (limiter h)) = true ->
  fst (us_Check header (ce_salt env) (ce_now env) (store h)) = Ok user ->
  owner_ok portUser user ->
  fst (blockReason w user (ce_now env) h) = "" ->
  acl_Allow w (http.Host r) = true ->
  fst (dialWithBlockCheck w network (fst (ctxWithUserDNS w user (after_check header (ce_salt env) (ce_now env) h))) (http.Host r) h) = Ok address ->
  exists ds, trace (snd (handleConnect w network r portUser env h)) =
    trace h ++ ds ++ tunnel_reply env (ce_now env) (clientAddr r) (http.Host r) user address ++ [Close].
Proof.
  intros header Hj Ha Hc Ho Hr Hacl Hd. subst header. unfold handleConnect. rewrite Hj.
  unfold mbind at 1, ST_bind at 1, limiter_Allow. destruct (Allow _ _ _) as [b l]. simpl in Ha. subst b. cbn [negb].
  set (h0 := set_limiter h l).
  pose proof (authenticate_accepts (clientAddr r) _ portUser (ce_salt env) (ce_now env) h0 user Hc Ho) as Hauth.
  unfold mbind at 1, ST_bind at 1. rewrite Hauth. cbn beta iota. set (h1 := after_check _ _ _ h0).
  assert (fst (blockReason w user (ce_now env) h1) = "") as Hr1 by (unfold h1; by rewrite blockReason_after_check).
  unfold connect_admitted, mbind, ST_bind. cbn [recordAuthSuccess update]. set (h2 := set_authSessions h1 _).
  change (blockReason w user (ce_now env) h2) with (fst (blockReason w user (ce_now env) h1), h2). rewrite Hr1. cbn [String.eqb negb].
  destruct (dial_result (fst (ctxWithUserDNS w user h2)) (http.Host r)) as (res & ds' & Hres).
  destruct (connectTunnel_reply env (ce_now env) (clientAddr r) (http.Host r) user address h2 Hacl) as [ds E].
  { assert (fst (ctxWithUserDNS w user h2) = fst (ctxWithUserDNS w user (after_check (http.Get (http.HeaderOf r) "Proxy-Authorization") (ce_salt env) (ce_now env) h))) as Ec.
    { unfold ctxWithUserDNS. case_match; [done|]. cbn. destruct (us_GetDNS _ _). case_match; [done|]. by destruct (GetOrCreate _ _ _). }
    rewrite <- Ec in Hd. destruct (Hres h) as [E1 _], (Hres h2) as [E2 _]. rewrite E2, <- E1. exact Hd. }
  destruct (connectTunnel _ _ _ _ _ _ _ h2) as [[] h3]. cbn [snd emit update] in *. exists ds. unfold emit_effect. cbn [trace].
  rewrite E. by rewrite <- !app_assoc.
Qed.

(** ** The limiter in front *)

Lemma limited_connect r portUser env (h : Handler St) :
  fst (Allow (clientAddr r) (ce_now env) (limiter h)) = false ->
  store (snd (handleConnect w network r portUser env h)) = store h /\
  authSessions (snd (handleConnect w network r portUser env h)) = authSessions h.
Proof.
  intros Ha. split; unfold handleConnect, mbind at 1, ST_bind at 1, limiter_Allow;
    destruct (Allow _ _ _) as [b l]; simpl in Ha; subst b; by destruct (ce_hijack env).
Qed.

Lemma limited_forward r portUser env (h : Handler St) :
  fst (Allow (clientAddr r) (fe_now env) (limiter h)) = false ->
  store (snd (handleForward w r portUser env h)) = store h /\
  authSessions (snd (handleForward w r portUser env h)) = authSessions h.
Proof.
  intros Ha. split; unfold handleForward, mbind at 1, ST_bind at 1, limiter_Allow;
    destruct (Allow _ _ _) as [b l]; simpl in Ha; by subst b.
Qed.

(** A rate-limited address never reaches the password check: neither a
    CONNECT nor a plain request of it changes the user store or the sessions, or
    contacts anybody, whatever credentials it brings. *)
Theorem rate_limited_never_checks (r : http.Request) (portUser : string) (cenv : connect_env) (fenv : forward_env)
    (h : Handler St) :
  fst (Allow (clientAddr r) (ce_now cenv) (limiter h)) = false ->
  fst (Allow (clientAddr r) (fe_now fenv) (limiter h)) = false ->
  let hc := snd (handleConnect w network r portUser cenv h) in
  let hf := snd (handleForward w r portUser fenv h) in
  store hc = store h /\ authSessions hc = authSessions h /\ store hf = store h /\ authSessions hf = authSessions h /\
  exists nc nf, trace hc = trace h ++ nc /\ trace hf = trace h ++ nf /\ (forall e, e ∈ nc ++ nf -> contact e = false).
Proof.
  intros Hc Hf. cbn zeta.
  destruct (handleConnect_contacts w network r portUser cenv h) as (nc & Ec & Hnc).
  destruct (handleForward_contacts w r portUser fenv h) as (nf & Ef & Hnf).
  assert (forall e, e ∈ nc ++ nf -> contact e = false) as Hn.
  { intros e Hin. destruct (contact e) eqn:He; [|done]. apply elem_of_app in Hin as [Hin|Hin].
    - destruct (Hnc e Hin He) as [? _]. congruence.
    - destruct (Hnf e Hin He) as [? _]. congruence. }
  destruct (limited_connect r portUser cenv h Hc), (limited_forward r portUser fenv h Hf).
  do 4 (split; [done|]). by exists nc, nf.
Qed.

(** Wrong credentials on the plain path are counted once each: a request that
    brings credentials and is not accepted records exactly one failure of its
    address, and nothing is recorded for a request without credentials. *)
Theorem rejected_credentials_are_counted (r : http.Request) (portUser : string) (env : forward_env)
    (h : Handler St) (e : auth_error) :
  let header := http.Get (http.HeaderOf r) "Proxy-Authorization" in
  let l := snd (Allow (clientAddr r) (fe_now env) (limiter h)) in
  fst (Allow (clientAddr r) (fe_now env) (limiter h)) = true ->
  fst (authenticate (clientAddr r) header portUser (fe_salt env) (fe_now env) h) = Err e ->
  limiter (snd (handleForward w r portUser env h)) =
    if negb (header =? "")%string then RecordFailure (clientAddr r) (fe_now env) l else l.
Proof.
  cbn zeta. intros Ha He. unfold handleForward, mbind at 1, ST_bind at 1, limiter_Allow.
  destruct (Allow _ _ _) as [b l]. simpl in Ha. subst b. cbn [negb snd].
  unfold mbind at 1, ST_bind at 1.
  assert (fst (authenticate (clientAddr r) (http.Get (http.HeaderOf r) "Proxy-Authorization") portUser (fe_salt env)
    (fe_now env) (set_limiter h l)) = Err e) as He'.
  { rewrite <- He. unfold authenticate, check_user, checkAuthSession, gets, mbind, ST_bind, mret, ST_ret. simpl.
    destruct (us_Check _ _ _ _) as [[u|e'] s']; repeat case_match; simplify_eq/=; try done; congruence. }
  destruct (authenticate _ _ _ _ _ (set_limiter h l)) as [a h1] eqn:E. simpl in He'. subst a.
  apply authenticate_inv in E as [-> _]. by destruct (negb _).
Qed.

(** ** The gap in the block of disabled users *)

(** With the block page on, ports stay open for disabled users because CONNECT
    answers them; plain requests are not answered: a disabled user who is not in
    downtime still has them forwarded, with the same credentials, address and
    instant at which the user's CONNECT gets the block page. *)
Theorem disabled_user_still_forwards_plain_http (r : http.Request) (portUser : string) (env : forward_env)
    (h : Handler St) (user : string) :
  MITMEnabled (cfg w) = true -> has_enabledChecker w = true -> us_IsEnabled (store h) user = false ->
  us_IsInDowntime (fe_now env) (store h) user = false ->
  fst (Allow (clientAddr r) (fe_now env) (limiter h)) = true ->
  fst (us_Check (http.Get (http.HeaderOf r) "Proxy-Authorization") (fe_salt env) (fe_now env) (store h)) = Ok user ->
  owner_ok portUser user -> acl_Allow w (forward_host r) = true ->
  fst (blockReason w user (fe_now env) h) = "disabled" /\
  exists via, RoundTrip via (outgoing r) ∈ trace (snd (handleForward w r portUser env h)).
Proof.
  intros Hm He Hd Hn Ha Hc Ho Hacl. split.
  { unfold blockReason, gets. cbn [fst]. by rewrite Hm, He, Hd. }
  unfold handleForward. fold (forward_host r). rewrite Hacl.
  unfold mbind at 1, ST_bind at 1, limiter_Allow. destruct (Allow _ _ _) as [b l]. simpl in Ha. subst b. cbn [negb].
  unfold mbind at 1, ST_bind at 1, authenticate, check_user, mbind at 1, ST_bind at 1. cbn [store set_limiter].
  pose proof (us_Check_downtime (http.Get (http.HeaderOf r) "Proxy-Authorization") (fe_salt env) (fe_now env) (store h)
    (fe_now env) user) as Hdt.
  destruct (us_Check _ _ _ _) as [res s']. simpl in Hc, Hdt. subst res.
  assert (negb (portUser =? "")%string && negb (user =? portUser)%string = false) as ->
    by (destruct Ho as [->| ->]; [done|by rewrite String.eqb_refl, andb_false_r]).
  cbn beta iota. unfold mret, ST_ret, recordAuthSuccess, update, gets, mbind at 1 2, ST_bind at 1 2. cbn -[outgoing].
  rewrite Hdt, Hn, andb_false_r. unfold mbind at 1, ST_bind at 1.
  destruct (ctxWithUserDNS w user _) as [resolver h2]. exists (default (defaultResolver w) resolver).
  unfold mbind, ST_bind, emit, update. destruct (fe_roundtrip env _ _) as [resp|e]; [|destruct (classifyDialError e)];
    cbn -[outgoing]; rewrite !elem_of_app, !list_elem_of_singleton; auto.
Qed.
End outcomes.
