(* ===== verification/ForwardSpec.v ===== *)
(** * Headers, addresses and PAC text

    Which headers travel, which addresses are dialled, and that nothing in the
    configured domains can break out of the PAC file's string literals. *)

From S2P Require Import Prelude GoStrings GoNet GoHTTP Dns Config Proxy Forward.

Open Scope list_scope.

(** ** Headers *)

(** The canonical names that are removed from an outgoing request. *)
Definition removed_keys : list string := map http.CanonicalHeaderKey (hopByHopHeaders ++ ["X-Forwarded-For"]).

Lemma strip_loop hdrs h stripped k :
  fst (foldl (fun '(h, stripped) hdr =>
         (http.Del h hdr, if negb (http.Get h hdr =? "")%string then stripped ++ [hdr] else stripped))
       (h, stripped) hdrs) !! k
  = if bool_decide (k ∈ map http.CanonicalHeaderKey hdrs) then None else h !! k.
Proof.
  revert h stripped. induction hdrs as [|x hdrs IH]; intros h stripped; [done|]. cbn [foldl map]. rewrite IH.
  rewrite http.lookup_Del. repeat case_bool_decide; try case_decide; try done; set_solver.
Qed.

(** The outgoing request carries exactly the client's headers minus the
    hop-by-hop ones and X-Forwarded-For: header by header, a name is absent if it
    is the canonical form of a listed name and unchanged otherwise; so proxy
    credentials never reach the destination. *)
Theorem outgoing_headers (r : http.Request) (k : string) :
  http.HeaderOf (outgoing r) !! k = if bool_decide (k ∈ removed_keys) then None else http.HeaderOf r !! k.
Proof. apply strip_loop. Qed.

(** The names the code reports as stripped are those that had a value. *)
Example strip_example :
  strip_headers (http.Set_ (http.Set_ (http.Set_ ∅ "te" "trailers") "Proxy-Authorization" "Basic x") "Accept" "b") =
  (http.Set_ ∅ "Accept" "b", ["Proxy-Authorization"; "TE"]).
Proof. by vm_compute. Qed.

(** ** Addresses *)

Section dial.
Context {St : Type} (w : Wiring) (network : Network).

Lemma dial_address_trace address (h : Handler St) :
  trace (snd (dial_address network address h)) = trace h ++ [Dial address].
Proof. unfold dial_address, emit, update, mbind, ST_bind. by destruct (DialContext network address). Qed.

(** The address a host:port is dialled at: the port of the request, and the host
    itself if it is an IP literal, otherwise the first address its resolver gave,
    which is not a sinkhole. *)
Definition dialled_for (resolver : option Resolver) (address target : string) : Prop :=
  match net.SplitHostPort address with
  | None => target = address
  | Some (host, port) =>
      match net.ParseIP host with
      | Some _ => target = address
      | None => exists ip ips, LookupIPAddr network (default (defaultResolver w) resolver) host = Ok (ip :: ips) /\
          isDNSBlocked ip = false /\ target = net.JoinHostPort (net.String_ ip) port
      end
  end.

(** Sinkholed names are never dialled: whatever [dialWithBlockCheck] dials is
    the address it was given when that is an IP literal, and otherwise the first
    address of the lookup with the same port, and only if that is neither
    loopback nor 0.0.0.0; a sinkholed name yields the DNS-block error. *)
Theorem only_unblocked_addresses_are_dialled (resolver : option Resolver) (address target : string) (h : Handler St) :
  Dial target ∈ trace (snd (dialWithBlockCheck w network resolver address h)) -> (Dial target ∉ trace h) ->
  dialled_for resolver address target.
Proof.
  unfold dialWithBlockCheck, dialled_for. intros Hin Hn.
  assert (forall a (h' : Handler St), trace h' = trace h \/ (exists o, trace h' = trace h ++ [ObserveDNS o]) ->
    Dial target ∈ trace (snd (dial_address network a h')) -> target = a) as Ha.
  { intros a h' Ht. rewrite dial_address_trace, elem_of_app, list_elem_of_singleton.
    intros [Hx|Hx]; [|congruence]. exfalso. apply Hn.
    destruct Ht as [E|[o E]]; rewrite E in Hx; [done|]. rewrite elem_of_app, list_elem_of_singleton in Hx.
    by destruct Hx. }
  destruct (net.SplitHostPort address) as [[host port]|]; [|by apply (Ha address h); auto].
  destruct (net.ParseIP host); [by apply (Ha address h); auto|].
  assert (forall o A (a : A), Dial target ∉ trace (snd ((_ ← emit (ObserveDNS o); mret a) h))) as Ho.
  { intros o A a. unfold emit, update, mbind, ST_bind. simpl. rewrite elem_of_app, list_elem_of_singleton.
    by intros [?|?]. }
  destruct (LookupIPAddr network _ host) as [[|ip ips]|msg]; try (exfalso; by eapply Ho).
  destruct (isDNSBlocked ip) eqn:E; [exfalso; by eapply Ho|].
  exists ip, ips. split; [done|]. split; [done|]. eapply Ha; [|exact Hin]. right. by eexists.
Qed.
End dial.

(** Which addresses count as sinkholes. *)
Example sinkholes :
  map isDNSBlocked [net.IPv4 0 0 0 0; net.IPv4 127 5 0 1; net.IPv6loopback; [127; 0; 0; 1]; net.IPv4 10 0 0 1] =
  [true; true; true; true; false].
Proof. reflexivity. Qed.

(** ** PAC text *)

(** What a JavaScript engine reads as a double-quoted literal after its opening
    quote: the value and what follows the closing quote.  A raw line break is a
    syntax error; of the escapes, those the generator uses. *)
Fixpoint read_literal (s : string) : option (string * string) :=
  match s with
  | EmptyString => None
  | String a s' =>
      if Ascii.eqb a "034" then Some (EmptyString, s')
      else if Ascii.eqb a "010" || Ascii.eqb a "013" then None
      else if Ascii.eqb a "\" then
        match s' with
        | String b s'' =>
            if Ascii.eqb b "\" || Ascii.eqb b "034"
            then '(v, rest) ← read_literal s''; Some (String b v, rest)
            else None
        | EmptyString => None
        end
      else '(v, rest) ← read_literal s'; Some (String a v, rest)
  end.

Fixpoint filter_bytes (keep : ascii -> bool) (s : string) : string :=
  match s with
  | EmptyString => EmptyString
  | String a s' => if keep a then String a (filter_bytes keep s') else filter_bytes keep s'
  end.

Definition not_line_break (a : ascii) : bool := negb (Ascii.eqb a "010" || Ascii.eqb a "013").
Definition not_special (a : ascii) : bool :=
  negb (Ascii.eqb a "034" || Ascii.eqb a "010" || Ascii.eqb a "013" || Ascii.eqb a "\").

#[local] Arguments String.append !_ _ /.

Lemma append_assoc (a b c : string) : ((a +:+ b) +:+ c = a +:+ (b +:+ c))%string.
Proof. induction a as [|x a IH]; simpl; congruence. Qed.

(** [C30] No configured domain can break out of the PAC file: the literal written
    for a domain, followed by anything, reads back as exactly that domain without
    its line breaks, and the rest is untouched. *)
Theorem jsString_reads_back (s rest : string) :
  exists body, (jsString s +:+ rest)%string = String "034" body /\
    read_literal body = Some (filter_bytes not_line_break s, rest).
Proof.
  unfold jsString, quote. eexists. split; [reflexivity|]. rewrite append_assoc. cbn [String.append].
  induction s as [|a s IH]; [done|]. cbn [replace_bytes filter_bytes]. unfold not_line_break at 1.
  destruct (Ascii.eqb_spec a "\") as [->|H1].
  { cbn. cbn in IH. by rewrite IH. }
  destruct (Ascii.eqb_spec a "034") as [->|H2].
  { cbn. cbn in IH. by rewrite IH. }
  destruct (Ascii.eqb a "010" || Ascii.eqb a "013") eqn:E; cbn [negb].
  { cbn. exact IH. }
  cbn [String.append read_literal]. apply Ascii.eqb_neq in H1, H2. rewrite H1, H2, E. cbn in IH. by rewrite IH.
Qed.

Lemma jsRaw_spec s : jsRaw s = filter_bytes not_special s.
Proof.
  unfold jsRaw, not_special. induction s as [|a s IH]; [done|]. cbn [replace_bytes filter_bytes].
  destruct (Ascii.eqb a "034" || Ascii.eqb a "010" || Ascii.eqb a "013" || Ascii.eqb a "\"); cbn; by rewrite IH.
Qed.

Lemma read_plain s rest :
  read_literal (filter_bytes not_special s +:+ String "034" rest)%string = Some (filter_bytes not_special s, rest).
Proof.
  induction s as [|a s IH]; [done|]. cbn [filter_bytes]. destruct (not_special a) eqn:E; [|done].
  unfold not_special in E. apply negb_true_iff in E. apply orb_false_iff in E as [E E4].
  apply orb_false_iff in E as [E E3]. apply orb_false_iff in E as [E1 E2].
  cbn [String.append read_literal]. rewrite E1, E2, E3, E4. cbn [orb]. by rewrite IH.
Qed.

(** The proxy endpoint cannot break out either: between the quotes of the
    returned PROXY literal it reads back as itself without quotes, backslashes
    and line breaks, so a hostile Host header yields no code. *)
Theorem jsRaw_reads_back (endpoint rest : string) :
  read_literal ("PROXY " +:+ jsRaw endpoint +:+ String "034" rest)%string =
  Some (("PROXY " +:+ filter_bytes not_special endpoint)%string, rest).
Proof. rewrite jsRaw_spec. cbn [String.append read_literal]. cbn. by rewrite read_plain. Qed.

Example pac_example :
  Generate "p:1" ["a.com"] =
  ("function FindProxyForURL(url, host) {" +:+ newline +:+ "  host = host.toLowerCase();" +:+ newline +:+
   "  var bypass = [" +:+ quote +:+ "a.com" +:+ quote +:+ "];" +:+ newline +:+
   "  for (var i = 0; i < bypass.length; i++) {" +:+ newline +:+
   "    if (host === bypass[i] || dnsDomainIs(host, " +:+ quote +:+ "." +:+ quote +:+ " + bypass[i])) {" +:+ newline +:+
   "      return " +:+ quote +:+ "DIRECT" +:+ quote +:+ ";" +:+ newline +:+ "    }" +:+ newline +:+ "  }" +:+ newline +:+
   "  return " +:+ quote +:+ "PROXY p:1" +:+ quote +:+ ";" +:+ newline +:+ "}" +:+ newline)%string.
Proof. reflexivity. Qed.
