(* ===== verification/HeaderDump.v ===== *)
(** * The diagnostic header dump (pkg/proxy/forward.go, LOG_HEADERS)

    [logForwardHeaders] runs between the stripping of headers and the round trip and
    only logs; its text is given here, for a request whose URL prints as [url]. *)

From S2P Require Import Prelude GoStrings GoHTTP UserTable RateLimit Dns Config Proxy Connect Forward.

Open Scope list_scope.

Definition sensitiveHeaders : list string := ["Proxy-Authorization"; "Authorization"; "Cookie"; "Set-Cookie"]%string.

Definition sensitive (key : string) : bool := bool_decide (http.CanonicalHeaderKey key ∈ sensitiveHeaders).

(** [sort.Strings] compares bytes. *)
Definition string_le (s t : string) : Prop := String.leb s t = true.

#[global] Instance string_le_dec s t : Decision (string_le s t).
Proof. unfold string_le. apply _. Defined.

Definition header_keys (h : http.Header) : list string := merge_sort string_le (elements (dom h)).

Definition header_part (h : http.Header) (k : string) : string :=
  let v := strings.Join (http.Values h k) "," in
  let v := if sensitive k then "<redacted>"%string else v in
  (k +:+ "=" +:+ v)%string.

Definition formatHeaders (h : http.Header) : string :=
  match map (header_part h) (header_keys h) with
  | [] => "(none)"
  | parts => strings.Join parts "; "
  end%string.

Definition logForwardHeaders (url clientIP user : string) (r : http.Request) : string :=
  let '(out, stripped) := strip_headers (http.HeaderOf r) in
  let strippedStr := match stripped with [] => "(none)"%string | _ => strings.Join stripped ", " end in
  ("forward " +:+ http.Method r +:+ " " +:+ url +:+ " user=" +:+ user +:+ " client=" +:+ clientIP +:+ newline +:+
   "  inbound:  " +:+ formatHeaders (http.HeaderOf r) +:+ newline +:+
   "  stripped: " +:+ strippedStr +:+ newline +:+
   "  outbound: " +:+ formatHeaders out)%string.

(** ** What the dump shows *)

(** The same headers but for the values of sensitive ones. *)
Definition same_but_secrets (h h' : http.Header) : Prop :=
  dom h = dom h' /\ (forall k, sensitive k = false -> http.Values h k = http.Values h' k) /\
  (forall k, (http.Get h k =? "")%string = (http.Get h' k =? "")%string).

Lemma formatHeaders_hides h h' : same_but_secrets h h' -> formatHeaders h = formatHeaders h'.
Proof.
  intros (Hd & Hv & _). unfold formatHeaders, header_keys. rewrite Hd.
  assert (map (header_part h) (merge_sort string_le (elements (dom h'))) = map (header_part h') (merge_sort string_le (elements (dom h')))) as ->; [|done].
  apply map_ext. intros k. unfold header_part. destruct (sensitive k) eqn:E; [done|]. by rewrite Hv.
Qed.

Lemma Values_Del h k key :
  http.Values (http.Del h key) k = if decide (http.CanonicalHeaderKey key = http.CanonicalHeaderKey k) then [] else http.Values h k.
Proof. unfold http.Values, http.Del. rewrite lookup_delete. by case_decide. Qed.

Lemma same_but_secrets_Del h h' key : same_but_secrets h h' -> same_but_secrets (http.Del h key) (http.Del h' key).
Proof.
  intros (Hd & Hv & Hg). split; [|split].
  - unfold http.Del. by rewrite !dom_delete_L, Hd.
  - intros k Hk. rewrite !Values_Del. case_decide; [done|by apply Hv].
  - intros k. unfold http.Get in *. rewrite !Values_Del. case_decide; [done|apply Hg].
Qed.

Lemma strip_headers_hides h h' :
  same_but_secrets h h' ->
  same_but_secrets (fst (strip_headers h)) (fst (strip_headers h')) /\ snd (strip_headers h) = snd (strip_headers h').
Proof.
  unfold strip_headers. intros H.
  assert (forall names (s : list string) h h', same_but_secrets h h' ->
    let step := fun '(h, stripped) hdr => (http.Del h hdr, if negb (http.Get h hdr =? "")%string then stripped ++ [hdr] else stripped) in
    same_but_secrets (fst (foldl step (h, s) names)) (fst (foldl step (h', s) names)) /\
    snd (foldl step (h, s) names) = snd (foldl step (h', s) names)) as Hf; [|by apply Hf].
  clear. induction names as [|name names IH]; intros s h h' H; [done|]. cbn [foldl]. pose proof H as (_ & _ & Hg). rewrite Hg.
  by apply IH, same_but_secrets_Del.
Qed.

(** The dump does not show credentials: two requests that differ only in the values
    of Authorization, Proxy-Authorization and the cookie headers are logged alike,
    inbound, stripped and outbound. *)
Theorem header_dump_hides_credentials (url clientIP user : string) (r r' : http.Request) :
  http.Method r = http.Method r' -> same_but_secrets (http.HeaderOf r) (http.HeaderOf r') ->
  logForwardHeaders url clientIP user r = logForwardHeaders url clientIP user r'.
Proof.
  intros Hm Hs. unfold logForwardHeaders. rewrite Hm, (formatHeaders_hides _ _ Hs).
  destruct (strip_headers_hides _ _ Hs) as [Hout Hst]. destruct (strip_headers (http.HeaderOf r)), (strip_headers (http.HeaderOf r')).
  simpl in *. by rewrite Hst, (formatHeaders_hides _ _ Hout).
Qed.

Example ex_formatHeaders :
  formatHeaders {[ "User-Agent" := ["curl"]; "Accept" := ["a"; "b"]; "Cookie" := ["secret"] ]}%string =
  "Accept=a,b; Cookie=<redacted>; User-Agent=curl"%string.
Proof. by vm_compute. Qed.

Lemma header_dump_hides_credentials_witness :
  let h c := ({[ "Accept" := ["a"]; "Cookie" := [c] ]} : http.Header)%string in
  let r c := http.mkRequest "GET" "example.com" "example.com" "/" "/" "192.0.2.1:1" (h c) [] [] false in
  logForwardHeaders "http://example.com/" "192.0.2.1" "amy" (r "one"%string) =
  logForwardHeaders "http://example.com/" "192.0.2.1" "amy" (r "two"%string).
Proof.
  intros h r. apply (header_dump_hides_credentials "http://example.com/" "192.0.2.1" "amy" (r "one"%string) (r "two"%string)); [done|].
  assert (forall k c, http.Values (h c) k =
    if decide (http.CanonicalHeaderKey k = "Cookie"%string) then [c] else http.Values (h "x"%string) k) as Hv.
  { intros k c. unfold http.Values, h. case_decide as E; [by rewrite E|]. rewrite !lookup_insert. case_decide; [done|].
    by rewrite !lookup_singleton_ne by congruence. }
  split; [|split].
  - change (dom (h "one"%string) = dom (h "two"%string)). unfold h. by rewrite !dom_insert_L, !dom_singleton_L.
  - intros k Hk. change (http.Values (h "one"%string) k = http.Values (h "two"%string) k). rewrite (Hv k "one"%string), (Hv k "two"%string).
    case_decide as E; [|done]. exfalso. unfold sensitive in Hk. rewrite E in Hk. by vm_compute in Hk.
  - intros k. change ((http.Get (h "one"%string) k =? "")%string = (http.Get (h "two"%string) k =? "")%string). unfold http.Get.
    rewrite (Hv k "one"%string), (Hv k "two"%string). by case_decide.
Defined.
