(* ===== verification/UserPorts.v ===== *)
(** * Dedicated ports (pkg/proxy/userports.go)

    Which ports listen.  A method that takes the lock twice is two definitions, so
    that what can happen in between can be stated.  A map is walked in the order
    of [map_to_list]; the results do not depend on it. *)

From S2P Require Import Prelude GoStrings GoNet GoHTTP UserTable RateLimit Dns Config Proxy.

Open Scope list_scope.

Section userports.
Context {St : Type} {us : UserStore St} (w : Wiring).

Definition listenerWanted (now : Z) (h : Handler St) (username : string) : bool :=
  if MITMEnabled (cfg w) then true
  else if negb (us_IsEnabled (store h) username) then false
  else negb (has_downtimeChecker w) || negb (us_IsInDowntime now (store h) username).

(** Registers a new server; outside demo mode it listens.  The caller holds the
    lock and sets [portUsers]. *)
Definition startListenerLocked (port : Z) (username : string) : ST (Handler St) unit := fun h =>
  let srv := mkServer (nextServer h) username in
  let h := set_nextServer (set_ports h (portUsers h) (<[port := srv]> (userServers h))) (S (nextServer h)) in
  if DemoMode (cfg w) then (tt, h) else emit (Listen port (sv_id srv) username) h.

(** What the listening goroutine does when the server fails. *)
Definition serverFailed (port : Z) (id : nat) : ST (Handler St) unit :=
  _ ← emit (ListenFailed port id);
  update (fun h =>
    match userServers h !! port with
    | Some srv => if (sv_id srv =? id)%nat then set_ports h (delete port (portUsers h)) (delete port (userServers h)) else h
    | None => h
    end).

(** [h.portUsers[port] = username] before a start. *)
Definition assign_and_start (port : Z) (username : string) : ST (Handler St) unit :=
  _ ← update (fun h => set_ports h (<[port := username]> (portUsers h)) (userServers h));
  startListenerLocked port username.

Definition in_range (port : Z) : bool := (UserPortMin (cfg w) <=? port) && (port <=? UserPortMax (cfg w)).

(** The entries of a port table that should be listening. *)
Definition wanted_ports (now : Z) (h : Handler St) (ports : gmap Z string) : gmap Z string :=
  filter (fun pu => in_range (fst pu) && listenerWanted now h (snd pu) = true) ports.

(** A loop over entries of a map. *)
Fixpoint for_entries (f : Z -> string -> ST (Handler St) unit) (l : list (Z * string)) : ST (Handler St) unit :=
  match l with
  | [] => mret tt
  | (port, username) :: rest => _ ← f port username; for_entries f rest
  end.

Definition ListPorts_ : ST (Handler St) (result db_error (gmap Z string)) := fun h =>
  let '(r, s) := us_ListPorts (store h) in (r, set_store h s).

Definition StartUserListeners (now : Z) : ST (Handler St) (result db_error unit) :=
  r ← ListPorts_;
  match r with
  | Err e => mret (Err (Wrapped "loading port assignments" e))
  | Ok ports =>
      wanted ← gets (fun h => wanted_ports now h ports);
      _ ← for_entries assign_and_start (map_to_list wanted);
      mret (Ok tt)
  end.

(** ** The reconciler *)

(** Reads the database; [None] when that fails. *)
Definition reconcile_plan (now : Z) : ST (Handler St) (option (gmap Z string)) :=
  r ← ListPorts_;
  match r with
  | Err _ => mret None
  | Ok ports => gets (fun h => Some (wanted_ports now h ports))
  end.

(** First locked section: drop what should not run; the dropped servers. *)
Definition reconcile_stop (shouldRun : gmap Z string) : ST (Handler St) (gmap Z server) := fun h =>
  let toStop := filter (fun ps => shouldRun !! fst ps = None) (userServers h) in
  (toStop, set_ports h (filter (fun pu => toStop !! fst pu = None) (portUsers h)) (userServers h ∖ toStop)).

Fixpoint shutdown_all (l : list (Z * server)) : ST (Handler St) unit :=
  match l with
  | [] => mret tt
  | (port, srv) :: rest => _ ← emit (Shutdown port (sv_id srv)); shutdown_all rest
  end.

(** Second locked section: start what should run and does not. *)
Definition reconcile_start (shouldRun : gmap Z string) : ST (Handler St) unit :=
  for_entries (fun port username h =>
    match userServers h !! port with
    | Some _ => (tt, h)
    | None => assign_and_start port username h
    end) (map_to_list shouldRun).

Definition reconcileListeners (now : Z) : ST (Handler St) unit :=
  plan ← reconcile_plan now;
  match plan with
  | None => mret tt
  | Some shouldRun =>
      toStop ← reconcile_stop shouldRun;
      _ ← shutdown_all (map_to_list toStop);
      reconcile_start shouldRun
  end.

(** A tick that runs, by the phase it has finished. *)
Inductive tick :=
| Planned (shouldRun : gmap Z string)
| Unlisted (shouldRun : gmap Z string) (toStop : gmap Z server)
| Stopped (shouldRun : gmap Z string).

(** The next phase of the reconciler; [None] is between two ticks. *)
Definition tick_phase (now : Z) (t : option tick) : ST (Handler St) (option tick) :=
  match t with
  | None => plan ← reconcile_plan now; mret (Planned <$> plan)
  | Some (Planned shouldRun) => toStop ← reconcile_stop shouldRun; mret (Some (Unlisted shouldRun toStop))
  | Some (Unlisted shouldRun toStop) => _ ← shutdown_all (map_to_list toStop); mret (Some (Stopped shouldRun))
  | Some (Stopped shouldRun) => _ ← reconcile_start shouldRun; mret None
  end.

(** ** Single ports *)

Definition StopUserListener (port : Z) : ST (Handler St) unit := fun h =>
  match userServers h !! port with
  | Some srv =>
      emit (Shutdown port (sv_id srv)) (set_ports h (delete port (portUsers h)) (delete port (userServers h)))
  | None => (tt, h)
  end.

Definition StartListener (username : string) (port : Z) : ST (Handler St) unit := fun h =>
  let h := set_ports h (<[port := username]> (portUsers h)) (userServers h) in
  match userServers h !! port with
  | Some _ => (tt, h)
  | None => startListenerLocked port username h
  end.

Definition StopListener (port : Z) : ST (Handler St) unit :=
  if MITMEnabled (cfg w) then mret tt else StopUserListener port.

(** A port that [portUsers] has for the user, 0 if none. *)
Definition current_port (username : string) (h : Handler St) : Z :=
  match List.find (fun pu => (snd pu =? username)%string) (map_to_list (portUsers h)) with
  | Some (port, _) => port
  | None => 0
  end.

Definition UpdatePort_ (username : string) (port : Z) : ST (Handler St) (result db_error unit) := fun h =>
  let '(r, s) := us_UpdatePort username port (store h) in (r, set_store h s).

Definition UpdateUserPort (username : string) (port : Z) : ST (Handler St) (result db_error unit) :=
  oldPort ← gets (current_port username);
  _ ← (if negb (oldPort =? 0) then StopUserListener oldPort else mret tt);
  r ← UpdatePort_ username port;
  match r with
  | Err e => mret (Err e)
  | Ok _ =>
      if port =? 0 then mret (Ok tt)
      else _ ← assign_and_start port username; mret (Ok tt)
  end.

Definition ShutdownUserListeners : ST (Handler St) unit := fun h =>
  let servers := userServers h in
  shutdown_all (map_to_list servers) (set_ports h ∅ ∅).

Definition UserPortRange : Z * Z := (UserPortMin (cfg w), UserPortMax (cfg w)).

(** ** Lemmas *)

(** The owner table and the servers agree: a server's closure checks for the user
    the table shows. *)
Definition ports_ok (h : Handler St) : Prop :=
  forall p srv, userServers h !! p = Some srv -> portUsers h !! p = Some (sv_owner srv).

Lemma serverFailed_cases port id (h : Handler St) :
  let h' := snd (serverFailed port id h) in
  store h' = store h /\ trace h' = trace h ++ [ListenFailed port id] /\
  ((portUsers h' = portUsers h /\ userServers h' = userServers h) \/
   (exists srv, userServers h !! port = Some srv /\ portUsers h' = delete port (portUsers h) /\ userServers h' = delete port (userServers h))).
Proof.
  unfold serverFailed, emit, update, mbind, ST_bind. simpl. destruct (userServers h !! port) as [srv|] eqn:E; [|by auto].
  destruct (_ =? id)%nat; simpl; [|by auto]. split; [done|]. split; [done|]. right. by exists srv.
Qed.

Lemma assign_and_start_eq port username (h : Handler St) :
  exists h', assign_and_start port username h = (tt, h') /\ store h' = store h /\
    portUsers h' = <[port := username]> (portUsers h) /\
    userServers h' = <[port := mkServer (nextServer h) username]> (userServers h).
Proof.
  unfold assign_and_start, startListenerLocked, mbind, ST_bind, update, emit. simpl.
  destruct (DemoMode (cfg w)); eexists; split; done.
Qed.

Lemma for_start_spec l (h : Handler St) :
  NoDup (map fst l) ->
  exists h', for_entries (fun port username h =>
      match userServers h !! port with
      | Some _ => (tt, h)
      | None => assign_and_start port username h
      end) l h = (tt, h') /\ store h' = store h /\
    (forall p, match userServers h !! p with
               | Some srv => userServers h' !! p = Some srv /\ portUsers h' !! p = portUsers h !! p
               | None => match (list_to_map l : gmap Z string) !! p with
                         | Some u => (exists id, userServers h' !! p = Some (mkServer id u)) /\
                                     portUsers h' !! p = Some u
                         | None => userServers h' !! p = None /\ portUsers h' !! p = portUsers h !! p
                         end
               end).
Proof.
  revert h. induction l as [|[port u] l IH]; intros h Hnd; simpl.
  { exists h. split; [done|]. split; [done|]. intros p. rewrite lookup_empty. by destruct (userServers h !! p). }
  simpl in Hnd. apply NoDup_cons in Hnd as [Hn Hnd]. unfold mbind, ST_bind.
  destruct (userServers h !! port) as [srv|] eqn:E.
  - destruct (IH h Hnd) as (h' & -> & Hs & Hp). exists h'. split; [done|]. split; [done|].
    intros p. specialize (Hp p). destruct (decide (p = port)) as [->|]; [by rewrite E in *|].
    by rewrite lookup_insert_ne.
  - destruct (assign_and_start_eq port u h) as (h1 & -> & Hs1 & Hpu1 & Hus1).
    destruct (IH h1 Hnd) as (h' & -> & Hs & Hp). exists h'. split; [done|]. split; [congruence|].
    intros p. specialize (Hp p). rewrite Hpu1, Hus1 in Hp. destruct (decide (p = port)) as [->|].
    + rewrite E, lookup_insert_eq. rewrite !lookup_insert_eq in Hp. destruct Hp as [-> ->]. eauto.
    + rewrite !lookup_insert_ne in * by done. done.
Qed.

Lemma shutdown_all_silent l (h : Handler St) :
  exists h', shutdown_all l h = (tt, h') /\ store h' = store h /\ portUsers h' = portUsers h /\
    userServers h' = userServers h.
Proof.
  revert h. induction l as [|[p srv] l IH]; intros h; simpl; [by eexists|].
  unfold emit, update, mbind, ST_bind. apply (IH (emit_effect h (Shutdown p (sv_id srv)))).
Qed.

(** The running ports after a reconciliation: those of the plan, old servers kept. *)
Lemma reconcile_spec (plan : gmap Z string) (h : Handler St) :
  exists h', (toStop ← reconcile_stop plan; _ ← shutdown_all (map_to_list toStop); reconcile_start plan) h = (tt, h') /\
    store h' = store h /\
    (forall p, match plan !! p with
               | None => userServers h' !! p = None /\
                         portUsers h' !! p = match userServers h !! p with Some _ => None | None => portUsers h !! p end
               | Some u => match userServers h !! p with
                           | Some srv => userServers h' !! p = Some srv /\ portUsers h' !! p = portUsers h !! p
                           | None => (exists id, userServers h' !! p = Some (mkServer id u)) /\ portUsers h' !! p = Some u
                           end
               end).
Proof.
  unfold mbind, ST_bind. cbn [reconcile_stop].
  set (toStop := filter (fun ps => plan !! fst ps = None) (userServers h)).
  set (h1 := set_ports h (filter (fun pu => toStop !! fst pu = None) (portUsers h)) (userServers h ∖ toStop)).
  destruct (shutdown_all_silent (map_to_list toStop) h1) as (h2 & -> & Hs2 & Hp2 & Hu2).
  unfold reconcile_start. destruct (for_start_spec (map_to_list plan) h2) as (h' & -> & Hs & Hp).
  { apply NoDup_fst_map_to_list. }
  exists h'. split; [done|]. split; [by rewrite Hs, Hs2|]. intros p. specialize (Hp p).
  rewrite list_to_map_to_list, Hu2, Hp2 in Hp. unfold h1 in Hp. cbn [portUsers userServers set_ports] in Hp.
  assert (toStop !! p = match plan !! p with None => userServers h !! p | Some _ => None end) as Ht.
  { unfold toStop. rewrite map_lookup_filter. destruct (userServers h !! p) eqn:Eu; simpl; [|by destruct (plan !! p)].
    destruct (plan !! p) eqn:E; [by rewrite option_guard_False|by rewrite option_guard_True]. }
  rewrite lookup_difference, Ht in Hp.
  assert (filter (fun pu => toStop !! fst pu = None) (portUsers h) !! p =
    match toStop !! p with Some _ => None | None => portUsers h !! p end) as Hf.
  { rewrite map_lookup_filter. destruct (portUsers h !! p); simpl; [|by destruct (toStop !! p)].
    destruct (toStop !! p) eqn:E; [by rewrite option_guard_False|by rewrite option_guard_True]. }
  rewrite Hf, Ht in Hp.
  destruct (plan !! p) as [u|]; destruct (userServers h !! p) as [srv|] eqn:Eu; simpl in *; done.
Qed.
End userports.
