(* ===== verification/UserPortsSpec.v ===== *)
(** * What the dedicated ports promise

    A reconciliation run on its own makes exactly the wanted ports listen, and
    running it again changes nothing; the table of owners always matches the
    running servers; and two ways a paused user's port opens anyway. *)

From S2P Require Import Prelude GoStrings GoTime GoNet GoHTTP UserTable RateLimit Dns Config Proxy Connect UserPorts.

Open Scope list_scope.

Section spec.
Context {St : Type} {us : UserStore St} (w : Wiring).

Lemma listenerWanted_ext now (h h' : Handler St) u :
  us_IsEnabled (store h') u = us_IsEnabled (store h) u ->
  us_IsInDowntime now (store h') u = us_IsInDowntime now (store h) u ->
  listenerWanted w now h' u = listenerWanted w now h u.
Proof. unfold listenerWanted. by intros -> ->. Qed.

Lemma wanted_ports_ext now (h h' : Handler St) ports :
  (forall u, listenerWanted w now h' u = listenerWanted w now h u) ->
  wanted_ports w now h' ports = wanted_ports w now h ports.
Proof. intros H. unfold wanted_ports. apply map_filter_ext. intros p u _. by rewrite H. Qed.

Lemma listenerWanted_after_list now (h : Handler St) u :
  listenerWanted w now (set_store h (snd (us_ListPorts (store h)))) u = listenerWanted w now h u.
Proof. apply listenerWanted_ext; simpl; [apply us_ListPorts_enabled|apply us_ListPorts_downtime]. Qed.

Lemma reconcile_plan_eq now (h : Handler St) ports s :
  us_ListPorts (store h) = (Ok ports, s) ->
  reconcile_plan w now h = (Some (wanted_ports w now h ports), set_store h s).
Proof.
  intros E. unfold reconcile_plan, ListPorts_, mbind, ST_bind. rewrite E. unfold gets. do 2 f_equal.
  apply wanted_ports_ext. intros u. rewrite <- (listenerWanted_after_list now h u). by rewrite E.
Qed.

(** The phases one after the other are the tick. *)
Lemma tick_phases now (h : Handler St) :
  snd (reconcileListeners w now h) =
  snd ((t1 ← tick_phase w now None;
        match t1 with
        | None => mret None
        | Some t1 => t2 ← tick_phase w now (Some t1); t3 ← tick_phase w now t2; tick_phase w now t3
        end) h).
Proof.
  unfold reconcileListeners, tick_phase, mbind, ST_bind, mret, ST_ret. destruct (reconcile_plan w now h) as [[plan|] h1]; [|done]. simpl.
  destruct (shutdown_all _ _) as [[] h2]. by destruct (reconcile_start w plan h2) as [[] h3].
Qed.

Lemma reconcileListeners_inv now (h : Handler St) ports s :
  us_ListPorts (store h) = (Ok ports, s) ->
  exists h', reconcileListeners w now h = (tt, h') /\ store h' = s /\
    (forall p, match wanted_ports w now h ports !! p with
               | None => userServers h' !! p = None /\
                         portUsers h' !! p = match userServers h !! p with Some _ => None | None => portUsers h !! p end
               | Some u => match userServers h !! p with
                           | Some srv => userServers h' !! p = Some srv /\ portUsers h' !! p = portUsers h !! p
                           | None => (exists id, userServers h' !! p = Some (mkServer id u)) /\ portUsers h' !! p = Some u
                           end
               end).
Proof.
  intros E. unfold reconcileListeners. unfold mbind at 1, ST_bind at 1. rewrite (reconcile_plan_eq now h ports s E).
  destruct (reconcile_spec w (wanted_ports w now h ports) (set_store h s)) as (h' & -> & Hs & Hp).
  exists h'. split; [done|]. split; [done|]. exact Hp.
Qed.

(** A reconciliation that reads the database makes exactly the wanted ports
    listen: afterwards a port has a server if and only if it is assigned in the
    database, lies in the configured range, and its user should have a listener;
    servers that were already right are not restarted, and ports that had to be
    started belong to the assigned user. *)
Theorem reconcile_makes_wanted_ports_listen (now : Z) (h : Handler St) (ports : gmap Z string) (s : St) :
  us_ListPorts (store h) = (Ok ports, s) ->
  let h' := snd (reconcileListeners w now h) in
  forall p,
    (is_Some (userServers h' !! p) <->
     exists u, ports !! p = Some u /\ in_range w p = true /\ listenerWanted w now h u = true) /\
    (forall srv, userServers h !! p = Some srv -> is_Some (userServers h' !! p) -> userServers h' !! p = Some srv) /\
    (forall srv, userServers h !! p = None -> userServers h' !! p = Some srv -> ports !! p = Some (sv_owner srv)).
Proof.
  intros E h' p. subst h'. destruct (reconcileListeners_inv now h ports s E) as (h' & -> & _ & Hp). simpl. specialize (Hp p).
  destruct (wanted_ports w now h ports !! p) as [u|] eqn:Ew.
  - unfold wanted_ports in Ew. apply map_lookup_filter_Some in Ew as [Hport Hw]. simpl in Hw. reflect_bools.
    destruct (userServers h !! p) as [srv|]; destruct Hp as [Hs _].
    + rewrite Hs. split; [split; eauto|]. split; [by intros ? [= <-]|done].
    + destruct Hs as [id ->]. split; [split; eauto|]. split; [done|]. by intros srv _ [= <-].
  - destruct Hp as [-> _]. split; [|split; [by intros ? _ [? ?]|done]]. split; [by intros [? ?]|].
    intros (u & Hport & Hr & Hw). unfold wanted_ports in Ew. apply map_lookup_filter_None in Ew as [?|Hno]; [congruence|].
    exfalso. apply (Hno u Hport). simpl. by rewrite Hr, Hw.
Qed.

(** Reconciling is idempotent: when the database still answers the same, a
    second reconciliation at the same instant leaves servers and owners alone. *)
Theorem reconcile_idempotent (now : Z) (h : Handler St) (ports : gmap Z string) (s s' : St) :
  us_ListPorts (store h) = (Ok ports, s) -> us_ListPorts s = (Ok ports, s') ->
  let h1 := snd (reconcileListeners w now h) in
  let h2 := snd (reconcileListeners w now h1) in
  userServers h2 = userServers h1 /\
  forall p, is_Some (userServers h1 !! p) -> portUsers h2 !! p = portUsers h1 !! p.
Proof.
  intros E1 E2. cbn zeta. destruct (reconcileListeners_inv now h ports s E1) as (h1 & -> & Hs1 & Hp1). simpl.
  rewrite <- Hs1 in E2. destruct (reconcileListeners_inv now h1 ports s' E2) as (h2 & -> & _ & Hp2). simpl.
  assert (wanted_ports w now h1 ports = wanted_ports w now h ports) as Ew.
  { apply wanted_ports_ext. intros u. rewrite <- (listenerWanted_after_list now h u), E1. apply listenerWanted_ext; simpl; by rewrite Hs1. }
  rewrite Ew in Hp2. split.
  - apply map_eq. intros p. specialize (Hp1 p). specialize (Hp2 p).
    destruct (wanted_ports w now h ports !! p) as [u|]; [|destruct Hp1 as [-> _]; by destruct Hp2 as [-> _]].
    assert (is_Some (userServers h1 !! p)) as [srv Hsrv]
      by (destruct (userServers h !! p); destruct Hp1 as [H _]; [by eexists|destruct H as [id H]; by eexists]).
    rewrite Hsrv in *. by destruct Hp2 as [-> _].
  - intros p [srv Hsrv]. specialize (Hp1 p). specialize (Hp2 p). rewrite Hsrv in *.
    destruct (wanted_ports w now h ports !! p); [by destruct Hp2|]. by destruct Hp1.
Qed.

(** ** Owners and servers *)

Inductive port_op :=
| PReconcile (now : Z)
| PStop (port : Z)
| PStopListener (port : Z)
| PStart (username : string) (port : Z)
| PUpdate (username : string) (port : Z)
| PFailed (port : Z) (id : nat)
| PShutdown.

Definition run_port_op (op : port_op) (h : Handler St) : Handler St :=
  match op with
  | PReconcile now => snd (reconcileListeners w now h)
  | PStop port => snd (StopUserListener port h)
  | PStopListener port => snd (StopListener w port h)
  | PStart u port => snd (StartListener w u port h)
  | PUpdate u port => snd (UpdateUserPort w u port h)
  | PFailed port id => snd (serverFailed port id h)
  | PShutdown => snd (ShutdownUserListeners h)
  end.

(** A start by the admin is for the user whose server runs there, if one does. *)
Definition port_op_ok (op : port_op) (h : Handler St) : Prop :=
  match op with
  | PStart u port => forall srv, userServers h !! port = Some srv -> sv_owner srv = u
  | _ => True
  end.

Lemma ports_ok_delete (h : Handler St) port :
  ports_ok h -> ports_ok (set_ports h (delete port (portUsers h)) (delete port (userServers h))).
Proof.
  intros H p srv. simpl. rewrite !lookup_delete. case_decide; [done|]. apply H.
Qed.

Lemma ports_ok_insert (h h' : Handler St) port u id :
  portUsers h' = <[port := u]> (portUsers h) -> userServers h' = <[port := mkServer id u]> (userServers h) ->
  ports_ok h -> ports_ok h'.
Proof.
  intros Hp Hs H p srv. rewrite Hp, Hs, !lookup_insert. case_decide; [by intros [= <-]|]. apply H.
Qed.

Lemma ports_ok_eq (h h' : Handler St) :
  portUsers h' = portUsers h -> userServers h' = userServers h -> ports_ok h -> ports_ok h'.
Proof. unfold ports_ok. by intros -> ->. Qed.

Lemma StopUserListener_ok port (h : Handler St) : ports_ok h -> ports_ok (snd (StopUserListener port h)).
Proof.
  intros H. unfold StopUserListener. destruct (userServers h !! port); [|done].
  eapply ports_ok_eq; [..|apply (ports_ok_delete h port H)]; done.
Qed.

Lemma assign_and_start_ok port u (h : Handler St) : ports_ok h -> ports_ok (snd (assign_and_start w port u h)).
Proof.
  intros H. destruct (assign_and_start_eq w port u h) as (h' & -> & _ & Hp & Hs). by eapply ports_ok_insert.
Qed.

Lemma UpdateUserPort_ok u port (h : Handler St) : ports_ok h -> ports_ok (snd (UpdateUserPort w u port h)).
Proof.
  intros H. unfold UpdateUserPort, mbind, ST_bind, gets.
  assert (ports_ok (snd ((if negb (current_port u h =? 0) then StopUserListener (current_port u h) else mret tt) h))) as H1
    by (case_match; [by apply StopUserListener_ok|done]).
  destruct ((if negb (current_port u h =? 0) then StopUserListener (current_port u h) else mret tt) h) as [[] h1]. simpl in H1.
  unfold UpdatePort_. destruct (us_UpdatePort u port (store h1)) as [[[]|e] s]; [|done]. destruct (port =? 0); [done|].
  pose proof (assign_and_start_ok port u (set_store h1 s) H1) as H2.
  destruct (assign_and_start w port u (set_store h1 s)) as [[] h2]. exact H2.
Qed.

Lemma reconcile_ok now (h : Handler St) : ports_ok h -> ports_ok (snd (reconcileListeners w now h)).
Proof.
  intros H. destruct (us_ListPorts (store h)) as [[ports|e] s] eqn:E.
  - destruct (reconcileListeners_inv now h ports s E) as (h' & -> & _ & Hp). intros p srv Hsrv. simpl in *.
    specialize (Hp p). destruct (wanted_ports w now h ports !! p) as [u|]; [|destruct Hp; congruence].
    destruct (userServers h !! p) as [srv'|] eqn:Es.
    + destruct Hp as [Hs ->]. apply H. congruence.
    + destruct Hp as [[id Hs] ->]. rewrite Hs in Hsrv. by injection Hsrv as <-.
  - unfold reconcileListeners, reconcile_plan, ListPorts_, mbind, ST_bind. by rewrite E.
Qed.

(** The owner table matches the servers: for every running server the table
    names the user its closure admits, and every operation of the port manager
    keeps it so, provided that a port started by the admin is not running for
    somebody else. *)
Theorem ports_ok_preserved (op : port_op) (h : Handler St) :
  ports_ok h -> port_op_ok op h -> ports_ok (run_port_op op h).
Proof.
  intros H Hok. destruct op; simpl.
  - by apply reconcile_ok.
  - by apply StopUserListener_ok.
  - unfold StopListener. case_match; [done|by apply StopUserListener_ok].
  - unfold StartListener. simpl. destruct (userServers h !! port) as [srv|] eqn:E.
    + intros p srv'. simpl. rewrite lookup_insert. case_decide as Ep; [|apply H].
      subst p. intros Hs. f_equal. symmetry. apply Hok. congruence.
    + apply (assign_and_start_ok port username h H).
  - by apply UpdateUserPort_ok.
  - destruct (serverFailed_cases port id h) as (_ & _ & [[E1 E2]|(srv & _ & E1 & E2)]).
    + by eapply ports_ok_eq.
    + by apply (ports_ok_eq (set_ports h (delete port (portUsers h)) (delete port (userServers h))) _ E1 E2), ports_ok_delete.
  - unfold ShutdownUserListeners.
    destruct (shutdown_all_silent (map_to_list (userServers h)) (set_ports h ∅ ∅)) as (h' & -> & _ & _ & Hs).
    intros p srv. simpl. by rewrite Hs.
Qed.

(** ** Two ways a paused user's port opens *)

Lemma StopUserListener_stopped p (h : Handler St) :
  userServers (snd (StopUserListener p h)) !! p = None /\ store (snd (StopUserListener p h)) = store h.
Proof.
  unfold StopUserListener. destruct (userServers h !! p) eqn:E; simpl; [|done]. by rewrite lookup_delete_eq.
Qed.

(** A reconciliation works from a plan: when the admin disables a user and
    stops the user's port after the first locked section ([s'] is the database
    then), the second section starts the port again from the stale plan, although
    the user should have no listener any more. *)
Theorem stale_plan_restarts_stopped_port (now : Z) (h : Handler St) (ports : gmap Z string) (s s' : St) (p : Z) (u : string) :
  MITMEnabled (cfg w) = false ->
  us_ListPorts (store h) = (Ok ports, s) ->
  ports !! p = Some u -> in_range w p = true -> listenerWanted w now h u = true ->
  us_IsEnabled s' u = false ->
  exists plan,
    reconcile_plan w now h = (Some plan, set_store h s) /\
    let h1 := snd (StopUserListener p (set_store (snd (reconcile_stop plan (set_store h s))) s')) in
    let h2 := snd (reconcile_start w plan h1) in
    sv_owner <$> userServers h2 !! p = Some u /\ listenerWanted w now h2 u = false.
Proof.
  intros Hm El Hp Hr Hw He. exists (wanted_ports w now h ports). split; [by apply reconcile_plan_eq|].
  set (plan := wanted_ports w now h ports). cbn zeta.
  destruct (StopUserListener_stopped p (set_store (snd (reconcile_stop plan (set_store h s))) s')) as [Hn Hs1].
  set (h1 := snd (StopUserListener p _)) in *. unfold reconcile_start.
  destruct (for_start_spec w (map_to_list plan) h1) as (h2 & -> & Hs & Hsp); [apply NoDup_fst_map_to_list|].
  assert (plan !! p = Some u) as Hpl.
  { unfold plan, wanted_ports. rewrite map_lookup_filter_Some. split; [done|]. simpl. by rewrite Hr, Hw. }
  specialize (Hsp p). rewrite Hn, list_to_map_to_list, Hpl in Hsp. destruct Hsp as [[id Hid] _]. cbn [snd]. split.
  - by rewrite Hid.
  - unfold listenerWanted. rewrite Hm, Hs, Hs1. simpl. by rewrite He.
Qed.

(** Without the block page a closed port is the whole block of a disabled
    user, but a port change opens the new port whatever the user's state: after a
    successful [UpdateUserPort] a disabled user's port runs for that user, and
    nothing on the CONNECT path objects until the next reconciliation. *)
Theorem port_change_opens_disabled_users_port (now : Z) (h : Handler St) (u : string) (port : Z) (h' : Handler St) :
  MITMEnabled (cfg w) = false -> us_IsEnabled (store h) u = false -> us_IsInDowntime now (store h) u = false ->
  port <> 0 -> UpdateUserPort w u port h = (Ok tt, h') ->
  sv_owner <$> userServers h' !! port = Some u /\ listenerWanted w now h' u = false /\
  fst (blockReason w u now h') = "".
Proof.
  intros Hm He Hd Hport. unfold UpdateUserPort, mbind, ST_bind, gets.
  assert (store (snd ((if negb (current_port u h =? 0) then StopUserListener (current_port u h) else mret tt) h)) = store h)
    as Hs1 by (case_match; [|done]; unfold StopUserListener; by case_match).
  destruct ((if negb (current_port u h =? 0) then StopUserListener (current_port u h) else mret tt) h) as [[] h1]. simpl in Hs1.
  unfold UpdatePort_. pose proof (us_UpdatePort_enabled u port (store h1) u) as He1.
  pose proof (us_UpdatePort_downtime u port (store h1) now u) as Hd1.
  destruct (us_UpdatePort u port (store h1)) as [[[]|e] s]; [|done]. simpl in He1, Hd1.
  destruct (Z.eqb_spec port 0); [done|].
  destruct (assign_and_start_eq w port u (set_store h1 s)) as (h2 & -> & Hs2 & _ & Hus). intros [= <-].
  rewrite Hs1 in *. split; [by rewrite Hus, lookup_insert_eq|].
  unfold listenerWanted, blockReason, gets. cbn [fst]. rewrite Hs2. cbn [store set_store].
  rewrite Hm, He1, Hd1, He, Hd. by rewrite andb_false_r.
Qed.
End spec.
