(* ===== verification/Sockets.v ===== *)
(** * Which servers clients can reach (over UserPorts)

    [Handler] keeps the servers it started in a map; what listens is decided by what
    was started, shut down and failed.  Every server that listens is in the map as
    long as no start overwrites an entry, which only [UpdateUserPort] can do. *)

From S2P Require Import Prelude GoStrings GoTime GoNet GoHTTP UserTable RateLimit Dns Config Proxy ProxyFrame UserPorts UserPortsSpec.

Open Scope list_scope.

(** A listening server is the one the handler has for its port. *)
Definition known {St} (h : Handler St) : Prop :=
  forall p id u, listening (trace h) p id u -> userServers h !! p = Some (mkServer id u).

Section sockets.
Context {St : Type} {us : UserStore St} (w : Wiring).

Lemma listening_app tr new p id u :
  listening (tr ++ new) p id u -> listening tr p id u \/ Listen p id u ∈ new.
Proof.
  unfold listening. rewrite !elem_of_app. intros ([H1|H1] & H2 & H3); [left|by right]. naive_solver.
Qed.

Lemma known_same (h h' : Handler St) : trace h' = trace h -> userServers h' = userServers h -> known h -> known h'.
Proof. unfold known. by intros -> ->. Qed.

Lemma known_quiet (h h' : Handler St) new :
  trace h' = trace h ++ new -> Forall (fun e => socket e = false) new -> userServers h' = userServers h -> known h -> known h'.
Proof.
  intros E Hn Es Hk p id u. rewrite E, Es. intros [Hl|Hin]%listening_app; [by apply Hk|].
  rewrite Forall_forall in Hn. by specialize (Hn _ Hin).
Qed.

Lemma known_stop port (h : Handler St) : known h -> known (snd (StopUserListener port h)).
Proof.
  intros Hk. unfold StopUserListener. destruct (userServers h !! port) as [srv|] eqn:E; [|done]. intros p id u Hl. simpl in *.
  pose proof Hl as (_ & Hs & _). apply listening_app in Hl as [Hl|Hin]; [|by apply list_elem_of_singleton in Hin]. apply Hk in Hl.
  rewrite lookup_delete_ne; [done|]. intros <-. rewrite E in Hl. injection Hl as ->. apply Hs. apply elem_of_app. right. by left.
Qed.

Lemma known_failed port id (h : Handler St) : known h -> known (snd (serverFailed port id h)).
Proof.
  intros Hk p id' u Hl. unfold serverFailed, emit, update, mbind, ST_bind in *. simpl in *.
  assert (trace (match userServers h !! port with
    | Some srv => if (sv_id srv =? id)%nat then set_ports (emit_effect h (ListenFailed port id)) (delete port (portUsers h)) (delete port (userServers h))
                  else emit_effect h (ListenFailed port id)
    | None => emit_effect h (ListenFailed port id) end) = trace h ++ [ListenFailed port id]) as Et by (by repeat case_match).
  rewrite Et in Hl. pose proof Hl as (_ & _ & Hf). apply listening_app in Hl as [Hl|Hin]; [|by apply list_elem_of_singleton in Hin]. apply Hk in Hl.
  destruct (userServers h !! port) as [srv|] eqn:E; [|done]. destruct (Nat.eqb_spec (sv_id srv) id) as [Ei|]; [|done]. simpl.
  rewrite lookup_delete_ne; [done|]. intros <-. rewrite E in Hl. injection Hl as ->. simpl in Ei. subst id'.
  apply Hf, elem_of_app. right. by left.
Qed.

(** A start on a port without a server. *)
Lemma known_start_locked port u (h : Handler St) :
  userServers h !! port = None -> known h -> known (snd (startListenerLocked w port u h)).
Proof.
  intros Hn Hk. unfold startListenerLocked. destruct (DemoMode (cfg w)); intros p id v Hl; simpl in *.
  - rewrite lookup_insert_ne; [by apply Hk|]. intros <-. apply Hk in Hl. congruence.
  - apply listening_app in Hl as [Hl|Hin].
    + apply Hk in Hl. rewrite lookup_insert_ne; [done|]. congruence.
    + apply list_elem_of_singleton in Hin. injection Hin as -> -> ->. by rewrite lookup_insert_eq.
Qed.

Lemma known_start port u (h : Handler St) :
  userServers h !! port = None -> known h -> known (snd (assign_and_start w port u h)).
Proof. intros Hn Hk. unfold assign_and_start, update, mbind, ST_bind. by apply known_start_locked. Qed.

Lemma known_StartListener port u (h : Handler St) : known h -> known (snd (StartListener w u port h)).
Proof. intros Hk. unfold StartListener. cbn zeta. case_match eqn:E; [by apply (known_same h)|by apply known_start_locked]. Qed.

Lemma known_StopListener port (h : Handler St) : known h -> known (snd (StopListener w port h)).
Proof. intros Hk. unfold StopListener. case_match; [done|by apply known_stop]. Qed.

Lemma shutdown_all_trace l (h : Handler St) :
  trace (snd (shutdown_all l h)) = trace h ++ map (fun ps => Shutdown (fst ps) (sv_id (snd ps))) l /\
  userServers (snd (shutdown_all l h)) = userServers h.
Proof.
  revert h. induction l as [|[p srv] l IH]; intros h; [by rewrite app_nil_r|]. cbn [shutdown_all map fst snd].
  unfold emit, update, mbind, ST_bind. destruct (IH (emit_effect h (Shutdown p (sv_id srv)))) as [-> ->]. simpl. by rewrite <- app_assoc.
Qed.

(** The servers that are shut down may leave the map. *)
Lemma known_shutdown (stop : gmap Z server) (h h' : Handler St) :
  trace h' = trace h -> userServers h' = userServers h ∖ stop -> (forall p srv, stop !! p = Some srv -> userServers h !! p = Some srv) ->
  known h -> known (snd (shutdown_all (map_to_list stop) h')).
Proof.
  intros Et Es Hsub Hk p id u. destruct (shutdown_all_trace (map_to_list stop) h') as [-> ->]. rewrite Et, Es. intros Hl.
  pose proof Hl as (_ & Hs & _). apply listening_app in Hl as [Hl|Hin]; [|by apply list_elem_of_fmap in Hin as ([? ?] & [=] & _)].
  apply Hk in Hl. apply lookup_difference_Some. split; [done|]. destruct (stop !! p) as [srv|] eqn:E; [|done]. exfalso.
  apply Hs, elem_of_app. right. apply list_elem_of_fmap. exists (p, srv). rewrite (Hsub _ _ E) in Hl. injection Hl as ->.
  split; [done|]. by apply elem_of_map_to_list.
Qed.

Lemma known_ShutdownUserListeners (h : Handler St) : known h -> known (snd (ShutdownUserListeners h)).
Proof.
  intros Hk. unfold ShutdownUserListeners. apply (known_shutdown _ h); [done|simpl; by rewrite map_difference_diag|done|done].
Qed.

(** Nothing listens after a shutdown. *)
Lemma ShutdownUserListeners_closes (h : Handler St) :
  known h -> forall p id u, ~ listening (trace (snd (ShutdownUserListeners h))) p id u.
Proof.
  intros Hk p id u Hl. apply (known_ShutdownUserListeners h Hk) in Hl. unfold ShutdownUserListeners in Hl.
  destruct (shutdown_all_trace (map_to_list (userServers h)) (set_ports h ∅ ∅)) as [_ E]. rewrite E in Hl. simpl in Hl. by rewrite lookup_empty in Hl.
Qed.

Lemma known_entries (l : list (Z * string)) (h : Handler St) :
  known h -> known (snd (for_entries (fun port username h =>
    match userServers h !! port with Some _ => (tt, h) | None => assign_and_start w port username h end) l h)).
Proof.
  revert h. induction l as [|[port u] l IH]; intros h Hk; [done|]. cbn [for_entries]. unfold mbind, ST_bind.
  destruct (userServers h !! port) eqn:E; [by apply IH|]. pose proof (known_start port u h E Hk) as H1.
  destruct (assign_and_start w port u h) as [[] h1]. by apply IH.
Qed.

Lemma known_reconcile now (h : Handler St) : known h -> known (snd (reconcileListeners w now h)).
Proof.
  intros Hk. unfold reconcileListeners. unfold mbind at 1, ST_bind at 1.
  assert (known (snd (reconcile_plan w now h))) as H0.
  { unfold reconcile_plan, ListPorts_, mbind, ST_bind, gets. destruct (us_ListPorts (store h)) as [[ports|e] s]; by apply (known_same h). }
  destruct (reconcile_plan w now h) as [[plan|] h0]; [|done]. simpl in H0. unfold mbind, ST_bind. cbn [reconcile_stop].
  match goal with |- context [shutdown_all (map_to_list ?stop) ?h1] =>
    pose proof (known_shutdown stop h0 h1 eq_refl eq_refl) as H2; destruct (shutdown_all (map_to_list stop) h1) as [[] h2] end.
  apply known_entries, H2; [|done]. intros p srv. by intros [? _]%map_lookup_filter_Some.
Qed.

Lemma known_StartUserListeners now (h : Handler St) :
  userServers h = ∅ -> known h -> known (snd (StartUserListeners w now h)).
Proof.
  intros He Hk. unfold StartUserListeners, ListPorts_, mbind at 1, ST_bind at 1. destruct (us_ListPorts (store h)) as [[ports|e] s]; [|by apply (known_same h)].
  unfold gets. unfold mbind at 1, ST_bind at 1. set (wanted := wanted_ports _ _ _ _). unfold mbind, ST_bind.
  assert (forall (l : list (Z * string)) (h : Handler St), NoDup (map fst l) -> (forall p, p ∈ map fst l -> userServers h !! p = None) -> known h ->
    known (snd (for_entries (assign_and_start w) l h))) as Hl.
  { induction l as [|[port u] l IH]; intros h1 Hd Hn H1; [done|]. cbn [for_entries map] in *. apply NoDup_cons in Hd as [Hd1 Hd2]. unfold mbind, ST_bind.
    pose proof (known_start port u h1 ltac:(apply Hn; by left) H1) as H2. destruct (assign_and_start_eq w port u h1) as (h2 & E & _ & _ & Eu).
    rewrite E in *. apply IH; [done| |done]. intros p Hp. rewrite Eu, lookup_insert_ne; [apply Hn; by right|]. by intros <-. }
  specialize (Hl (map_to_list wanted) (set_store h s) (NoDup_fst_map_to_list _)).
  destruct (for_entries _ _ _) as [[] h1]. simpl in *. apply Hl; [|done]. intros p _. simpl. by rewrite He, lookup_empty.
Qed.

(** [UpdateUserPort] does not look whether the port has a server. *)
Lemma known_UpdateUserPort u port (h : Handler St) :
  (forall h1, store h1 = store h -> (forall p srv, userServers h1 !! p = Some srv -> userServers h !! p = Some srv) ->
     h1 = snd ((if negb (current_port u h =? 0) then StopUserListener (current_port u h) else mret tt) h) ->
     fst (us_UpdatePort u port (store h)) = Ok tt -> port <> 0 -> userServers h1 !! port = None) ->
  known h -> known (snd (UpdateUserPort w u port h)).
Proof.
  intros Hfree Hk. unfold UpdateUserPort, gets. unfold mbind at 1, ST_bind at 1. cbv beta iota. unfold mbind at 1, ST_bind at 1.
  set (m := if negb (current_port u h =? 0) then StopUserListener (current_port u h) else mret tt : ST (Handler St) unit) in *.
  assert (known (snd (m h)) /\ store (snd (m h)) = store h /\
    forall p srv, userServers (snd (m h)) !! p = Some srv -> userServers h !! p = Some srv) as (H1 & Hst & Hsub).
  { unfold m. case_match; [|done]. split; [by apply known_stop|]. unfold StopUserListener. case_match; [|done]. split; [done|].
    intros p srv. simpl. by intros [_ ?]%lookup_delete_Some. }
  specialize (Hfree (snd (m h)) Hst Hsub eq_refl). destruct (m h) as [[] h1]. simpl in *. unfold UpdatePort_, mbind at 1, ST_bind at 1.
  rewrite Hst. destruct (us_UpdatePort u port (store h)) as [[[]|e] s]; [|by apply (known_same h1)].
  destruct (Z.eqb_spec port 0) as [|Hne]; [by apply (known_same h1)|]. unfold mbind, ST_bind.
  pose proof (known_start port u (set_store h1 s) (Hfree eq_refl Hne) H1) as H2. destruct (assign_and_start w port u (set_store h1 s)) as [[] h2]. exact H2.
Qed.

(** An overwritten server keeps listening, and no operation on its port ends it. *)
Theorem overwritten_server_is_orphaned u v port id (h : Handler St) :
  DemoMode (cfg w) = false -> port <> 0 -> listening (trace h) port id v -> userServers h !! port = Some (mkServer id v) ->
  (id < nextServer h)%nat -> current_port u h = 0 -> fst (us_UpdatePort u port (store h)) = Ok tt ->
  let h1 := snd (UpdateUserPort w u port h) in
  userServers h1 !! port = Some (mkServer (nextServer h) u) /\ listening (trace h1) port id v /\
  listening (trace (snd (StopUserListener port h1))) port id v.
Proof.
  intros Hd Hne (Hl1 & Hl2 & Hl3) Hs Hid Hc Hu. cbn zeta. unfold UpdateUserPort, gets, UpdatePort_, mbind, ST_bind. rewrite Hc. simpl.
  destruct (us_UpdatePort u port (store h)) as [[[]|e] s]; [|done]. rewrite (proj2 (Z.eqb_neq _ _) Hne). unfold assign_and_start, update, mbind, ST_bind, startListenerLocked.
  rewrite Hd. simpl. unfold StopUserListener. simpl. rewrite lookup_insert_eq. simpl. split; [done|]. unfold listening.
  rewrite !elem_of_app, !list_elem_of_singleton. repeat split; try (by auto); intros Hin; destruct_or!; try done.
  injection Hin as Hin. lia.
Qed.
End sockets.
