(* ===== verification/ProxyOverDB.v ===== *)
(** * The proxy over the user database

    [UserDB.DB] is the [UserStore] the program wires in; with it the promises of
    the two components compose. *)

From S2P Require Import Prelude GoStrings GoBase64 GoTime GoNet GoHTTP GoRFC3339 Downtime Password UserTable UserDB UserDBLemmas.
From S2P Require Import UserDBOps UserDBCoherence UserDBReach UserDBSpec.
From S2P Require Import RateLimit Dns Config Bypass Proxy Connect Forward ProxySafety ProxySpec ProxyOutcomes ForwardSpec UserPorts UserPortsSpec.

Open Scope list_scope.

Section instance.
Context {crypto : Crypto} {codec : ScheduleCodec} {sqlite : SQLiteClock}.

Lemma Check_colon_free header salt now d user d' : Check header salt now d = (Ok user, d') -> free_of ":" user.
Proof.
  intros [[_ [[? ?]|(u & pass & c & [= <-] & Hp & _)]]|(u & pass & row & rows & fs & Hp & [= <-] & _)]%Check_inv;
    [done|by eapply parseBasicAuth_user..].
Qed.

(** [Check] touches neither the settings nor their caches. *)
Lemma Check_settings header salt now d :
  let d' := snd (Check header salt now d) in
  enabledCache d' = enabledCache d /\ downtimeCache d' = downtimeCache d /\
  overrideCache d' = overrideCache d /\ downtimeUntilCache d' = downtimeUntilCache d.
Proof.
  cbn zeta. destruct (Check header salt now d) as [r d'] eqn:E. simpl.
  by apply Check_inv in E as [[[fs ->] _]|(u & pass & row & rows & fs & _ & _ & _ & _ & _ & ->)].
Qed.

Lemma IsInDowntime_caches loc t d d' u :
  downtimeCache d' = downtimeCache d -> overrideCache d' = overrideCache d ->
  downtimeUntilCache d' = downtimeUntilCache d -> IsInDowntime loc t d' u = IsInDowntime loc t d u.
Proof. intros E1 E2 E3. unfold IsInDowntime, GetDowntimeUntil, GetDowntimeOverride, GetDowntime. by rewrite E1, E2, E3. Qed.

Lemma ListPorts_settings d :
  let d' := snd (ListPorts d) in
  enabledCache d' = enabledCache d /\ downtimeCache d' = downtimeCache d /\
  overrideCache d' = overrideCache d /\ downtimeUntilCache d' = downtimeUntilCache d.
Proof.
  unfold ListPorts, query, sql, wrap, mbind, M_bind. by destruct (faults d) as [|[msg|] fs].
Qed.

Lemma UpdatePort_settings u p d :
  let d' := snd (UpdatePort u p d) in
  enabledCache d' = enabledCache d /\ downtimeCache d' = downtimeCache d /\
  overrideCache d' = overrideCache d /\ downtimeUntilCache d' = downtimeUntilCache d.
Proof.
  cbn zeta. destruct (UpdatePort u p d) as [r d'] eqn:E. unfold UpdatePort in E. simpl.
  by apply affected_user_inv in E as [(e & _ & [fs ->] & _)|(row & fs & _ & _ & ->)]; auto with evan.
Qed.

Definition DB_UserStore (loc : time.Location) : UserStore DB.
Proof.
  refine {|
    us_Check := Check;
    us_GetDNS := GetDNS;
    us_IsEnabled := IsEnabled;
    us_IsInDowntime t d u := IsInDowntime loc t d u;
    us_ListPorts := ListPorts;
    us_UpdatePort := UpdatePort |}.
  - exact Check_colon_free.
  - intros header salt now s u. unfold IsEnabled. by destruct (Check_settings header salt now s) as (-> & _).
  - intros header salt now s t u. destruct (Check_settings header salt now s) as (_ & ? & ? & ?).
    by apply IsInDowntime_caches.
  - intros s u. unfold IsEnabled. by destruct (ListPorts_settings s) as (-> & _).
  - intros s t u. destruct (ListPorts_settings s) as (_ & ? & ? & ?). by apply IsInDowntime_caches.
  - intros v p s u. unfold IsEnabled. by destruct (UpdatePort_settings v p s) as (-> & _).
  - intros v p s t u. destruct (UpdatePort_settings v p s) as (_ & ? & ? & ?). by apply IsInDowntime_caches.
Defined.

(** End to end: over a database in any reachable state, a client without a
    session of its address that sends one CONNECT and is let out carries in its
    Proxy-Authorization header the name of a user with a row and that user's
    current password, up to a digest collision; on a dedicated port that user is
    the port's owner. *)
Theorem connect_needs_current_password (loc : time.Location) (w : Wiring) (network : Network) (dels : bool) (since : Z)
    (r : http.Request) (portUser : string) (env : connect_env) (h : Handler DB) :
  history dels since (store h) ->
  authSessions h !! authCacheKey (clientAddr r) portUser = None -> ce_retry env = None ->
  exists new, trace (snd (@handleConnect DB (DB_UserStore loc) w network r portUser env h)) = trace h ++ new /\
    forall e, e ∈ new -> contact e = true ->
      exists user pass row,
        parseBasicAuth (http.Get (http.HeaderOf r) "Proxy-Authorization") = Some (user, pass) /\
        row_of (users (store h)) user = Some row /\ current_password row pass /\ owner_ok portUser user.
Proof.
  intros Hh Hs Hretry. destruct (handleConnect_contacts (us := DB_UserStore loc) w network r portUser env h) as (new & En & H).
  exists new. split; [exact En|]. intros e Hin Hc. destruct (H e Hin Hc) as (_ & user & host & t & Ha & _).
  destruct Ha as [user [[Hck Ho]|(_ & Hu & Hsess)]|retry user Hr _ _]; [| |congruence].
  - simpl in Hck. destruct (Check _ _ _ (store h)) as [res d'] eqn:E. simpl in Hck. subst res.
    destruct (Check_accepts_current _ _ _ _ _ _ _ _ Hh E) as (pass & row & ? & ? & ?). exists user, pass, row. done.
  - unfold checkAuthSession, gets in Hsess. simpl in Hsess. rewrite Hs in Hsess. by subst user.
Qed.
End instance.

(** ** The theorems at a concrete handler *)

Section examples.
#[local] Existing Instance toy_crypto.
#[local] Existing Instance toy_codec.
#[local] Existing Instance toy_sqlite.

#[local] Instance ex_store : UserStore DB := DB_UserStore time.UTC.

Definition ex_cfg (mitm : bool) : Config :=
  mkConfig "users.db" ":9090" "" false "admin" "hash" false "" "" "" "plain" 5 10 300 30 5 60 5 900 100 [] 9000 9010
    "human" false "" "" 100 5 true "/proxy.pac" "" [] false "" mitm "ca.pem" "ca.key" 3600 10 false.

Definition ex_wiring (mitm : bool) : Wiring :=
  mkWiring (ex_cfg mitm) true true true mitm AllowAll SystemResolver.

Definition ex_network : Network :=
  mkNetwork (fun _ _ => Ok [net.IPv4 93 184 216 34]) (fun _ => Ok tt).

Definition ex_handler (d : DB) : Handler DB :=
  mkHandler d (newLimiter 5 60) ∅ {[9000 := "amy"]} {[9000 := mkServer 0 "amy"]} 1 ∅ [].

Definition ex_request (method host : string) (credentials : bool) : http.Request :=
  http.mkRequest method host "" "/" "/" "192.0.2.7:50000"
    (if credentials then http.Set_ ∅ "Proxy-Authorization" ex_header else ∅) [] [] false.

Definition ex_cenv : connect_env := mkConnectEnv Hijacked 5 6 None None None 10 20 (Ok tt).
Definition ex_fenv : forward_env := mkForwardEnv 5 None (fun _ _ => Ok (mkResponse 200 ∅ "ok")).

Definition ex_target : string := "93.184.216.34:443".

Lemma ex_disabled_history : history false 0 (run_op (OpSetEnabled "amy" false) ex_db).
Proof. apply h_op; [apply ex_db_history|done|done]. Qed.

Definition ex_disabled : DB := run_op (OpSetEnabled "amy" false) ex_db.

(** Membership in a concrete trace. *)
Ltac in_trace := vm_compute; repeat first [apply list_elem_of_here | apply list_elem_of_further].

Lemma ex_no_sessions d : sessions_ok (ex_handler d).
Proof. intros k s Hk. simpl in Hk. by rewrite lookup_empty in Hk. Qed.

Lemma connect_needs_current_password_witness :
  exists new, trace (snd (handleConnect (ex_wiring true) ex_network (ex_request "CONNECT" "example.com:443" true) "amy" ex_cenv (ex_handler ex_db)))
      = [] ++ new /\ Dial ex_target ∈ new /\
    exists user pass row,
      parseBasicAuth (http.Get (http.HeaderOf (ex_request "CONNECT" "example.com:443" true)) "Proxy-Authorization")
        = Some (user, pass) /\
      row_of (users ex_db) user = Some row /\ current_password row pass /\ owner_ok "amy" user.
Proof.
  destruct (connect_needs_current_password time.UTC (ex_wiring true) ex_network true 0
    (ex_request "CONNECT" "example.com:443" true) "amy" ex_cenv (ex_handler ex_db)) as (new & E & H);
    [apply ex_db_history|by vm_compute|done|].
  exists new. split; [exact E|]. assert (Dial ex_target ∈ new) as Hin by (change (trace (ex_handler ex_db)) with (@nil effect) in E; simpl app in E; rewrite <- E; in_trace).
  split; [exact Hin|]. exact (H _ Hin eq_refl).
Defined.

Lemma dedicated_port_serves_its_owner_witness :
  exists host t, connect_as (ex_request "CONNECT" "example.com:443" true) "amy" ex_cenv (ex_handler ex_db) "amy" host t /\
    may_pass (ex_wiring true) (ex_handler ex_db) t "amy" host.
Proof.
  destruct (dedicated_port_serves_its_owner (ex_wiring true) ex_network (ex_request "CONNECT" "example.com:443" true)
    "amy" ex_cenv (ex_handler ex_db)) as (new & E & H); [apply ex_no_sessions|done|by repeat split|].
  apply (H (Dial ex_target)); [|done]. change (trace (ex_handler ex_db)) with (@nil effect) in E. simpl app in E. rewrite <- E. in_trace.
Defined.

Lemma handlers_keep_sessions_filed_witness :
  let r := ex_request "GET" "example.com" true in
  sessions_ok (snd (ServeHTTP (ex_wiring true) ex_network r "amy" ex_cenv ex_fenv (ex_handler ex_db))) /\
  sessions_ok (snd (cleanupAuthSessions 9 (ex_handler ex_db))).
Proof. apply (handlers_keep_sessions_filed (ex_wiring true)). apply ex_no_sessions. Defined.

Lemma paused_connect_gets_block_page_witness :
  trace (snd (handleConnect (ex_wiring true) ex_network (ex_request "CONNECT" "example.com:443" true) "amy" ex_cenv
    (ex_handler ex_disabled))) =
  [] ++ pause_reply (ex_wiring true) ex_cenv 5 "192.0.2.7" "example.com:443" "amy" "disabled" ++ [Close].
Proof.
  apply (paused_connect_gets_block_page (ex_wiring true) ex_network (ex_request "CONNECT" "example.com:443" true) "amy"
    ex_cenv (ex_handler ex_disabled) "amy" "disabled"); try by vm_compute.
  - by right.
  - right. by vm_compute.
Defined.

Definition ex_limited : Handler DB :=
  set_limiter (ex_handler ex_db) (mkLimiter {["192.0.2.7" := [1; 2; 3; 4; 5]]} 5 60).

Lemma rate_limited_never_checks_witness :
  let r := ex_request "CONNECT" "example.com:443" true in
  let hc := snd (handleConnect (ex_wiring true) ex_network r "amy" ex_cenv ex_limited) in
  let hf := snd (handleForward (ex_wiring true) r "amy" ex_fenv ex_limited) in
  store hc = ex_db /\ authSessions hc = ∅ /\ store hf = ex_db /\ authSessions hf = ∅ /\
  exists nc nf, trace hc = [] ++ nc /\ trace hf = [] ++ nf /\ (forall e, e ∈ nc ++ nf -> contact e = false).
Proof. apply (rate_limited_never_checks (ex_wiring true) ex_network _ "amy" ex_cenv ex_fenv ex_limited); by vm_compute. Defined.

Definition ex_wrong : http.Request :=
  http.mkRequest "GET" "example.com" "" "/" "/" "192.0.2.7:50000" (http.Set_ ∅ "Proxy-Authorization" "Basic eDp5") [] [] false.

Lemma rejected_credentials_are_counted_witness :
  limiter (snd (handleForward (ex_wiring true) ex_wrong "amy" ex_fenv (ex_handler ex_db))) =
    RecordFailure "192.0.2.7" 5 (newLimiter 5 60).
Proof.
  apply (rejected_credentials_are_counted (ex_wiring true) ex_wrong "amy" ex_fenv (ex_handler ex_db)
    (StoreError (Wrapped "x" ErrUnknownUser))); by vm_compute.
Defined.

Lemma disabled_user_still_forwards_plain_http_witness :
  fst (blockReason (ex_wiring true) "amy" 5 (ex_handler ex_disabled)) = "disabled" /\
  exists via, RoundTrip via (outgoing (ex_request "GET" "example.com" true)) ∈
    trace (snd (handleForward (ex_wiring true) (ex_request "GET" "example.com" true) "amy" ex_fenv (ex_handler ex_disabled))).
Proof.
  apply (disabled_user_still_forwards_plain_http (ex_wiring true) (ex_request "GET" "example.com" true) "amy" ex_fenv
    (ex_handler ex_disabled) "amy"); try by vm_compute. by right.
Defined.

Lemma only_unblocked_addresses_are_dialled_witness :
  dialled_for (ex_wiring true) ex_network None "example.com:443" ex_target.
Proof.
  apply (only_unblocked_addresses_are_dialled (ex_wiring true) ex_network None "example.com:443" ex_target (ex_handler ex_db));
    [in_trace|apply not_elem_of_nil].
Defined.

(** The database has amy on port 9000. *)
Lemma ex_ListPorts d : users d = users ex_db -> faults d = [] -> ListPorts d = (Ok {[9000 := "amy"]}, d).
Proof.
  intros Hu Hf. unfold ListPorts, query, sql, wrap, mbind, M_bind, mret, M_ret. rewrite Hf, Hu. by vm_compute.
Qed.

Definition ex_idle : Handler DB := mkHandler ex_db (newLimiter 5 60) ∅ ∅ ∅ 0 ∅ [].

Lemma reconcile_makes_wanted_ports_listen_witness :
  let h' := snd (reconcileListeners (ex_wiring false) 5 ex_idle) in
  is_Some (userServers h' !! 9000) /\ ~ is_Some (userServers h' !! 9001).
Proof.
  assert (us_ListPorts (store ex_idle) = (Ok {[9000 := "amy"%string]}, ex_db)) as Hl by (by apply ex_ListPorts). cbn zeta. split.
  - apply (reconcile_makes_wanted_ports_listen (ex_wiring false) 5 ex_idle {[9000 := "amy"]} ex_db Hl 9000).
    exists "amy"%string. split; [by rewrite lookup_singleton_eq|]. split; [done|]. by vm_compute.
  - intros H. apply (reconcile_makes_wanted_ports_listen (ex_wiring false) 5 ex_idle {[9000 := "amy"]} ex_db Hl 9001) in H.
    destruct H as (u & Hu & _). by rewrite lookup_singleton_ne in Hu.
Defined.

Lemma reconcile_idempotent_witness :
  let h1 := snd (reconcileListeners (ex_wiring false) 5 ex_idle) in
  let h2 := snd (reconcileListeners (ex_wiring false) 5 h1) in
  userServers h2 = userServers h1 /\
  forall p, is_Some (userServers h1 !! p) -> portUsers h2 !! p = portUsers h1 !! p.
Proof. apply (reconcile_idempotent (ex_wiring false) 5 ex_idle {[9000 := "amy"]} ex_db ex_db); by apply ex_ListPorts. Defined.

Lemma ports_ok_preserved_witness : ports_ok (run_port_op (ex_wiring false) (PUpdate "amy" 9005) (ex_handler ex_db)).
Proof.
  apply (ports_ok_preserved (ex_wiring false)); [|done]. intros p srv. simpl. rewrite !lookup_singleton.
  case_decide; [by intros [= <-]|done].
Defined.

Lemma stale_plan_restarts_stopped_port_witness :
  exists plan,
    reconcile_plan (ex_wiring false) 5 (ex_handler ex_db) = (Some plan, set_store (ex_handler ex_db) ex_db) /\
    let h1 := snd (StopUserListener 9000 (set_store (snd (reconcile_stop plan (set_store (ex_handler ex_db) ex_db))) ex_disabled)) in
    let h2 := snd (reconcile_start (ex_wiring false) plan h1) in
    sv_owner <$> userServers h2 !! 9000 = Some "amy" /\ listenerWanted (ex_wiring false) 5 h2 "amy" = false.
Proof.
  apply (stale_plan_restarts_stopped_port (ex_wiring false) 5 (ex_handler ex_db) {[9000 := "amy"]} ex_db ex_disabled 9000 "amy");
    [done|by apply ex_ListPorts|by vm_compute..].
Defined.

Lemma port_change_opens_disabled_users_port_witness :
  let h' := snd (UpdateUserPort (ex_wiring false) "amy" 9005 (ex_handler ex_disabled)) in
  sv_owner <$> userServers h' !! 9005 = Some "amy" /\ listenerWanted (ex_wiring false) 5 h' "amy" = false /\
  fst (blockReason (ex_wiring false) "amy" 5 h') = "".
Proof.
  apply (port_change_opens_disabled_users_port (ex_wiring false) 5 (ex_handler ex_disabled) "amy" 9005); by vm_compute.
Defined.
End examples.
