(* ===== verification/CertCache.v ===== *)
(** * The leaf cache (pkg/mitm/lru.go)

    [order] is the linked list from most to least recently used; [index] is the
    set of keys the index map has.  The specification is the unbounded recency
    list: the cache is always a prefix of it. *)

From S2P Require Import Prelude.

Open Scope list_scope.

Section lru.
Context {Cert : Type}.

Record certCache := mkCertCache {
  cc_max : nat;
  order : list (string * Cert);
  index : gset string;
  hits : Z;
  misses : Z;
}.

Definition newCertCache (max : Z) : certCache :=
  mkCertCache (Z.to_nat (if max <? 1 then 1 else max)) [] ∅ 0 0.

(** uint64 counters. *)
Definition wrapu64 (z : Z) : Z := z mod 2 ^ 64.

Definition lookup_key (key : string) (l : list (string * Cert)) : option Cert :=
  snd <$> List.find (fun e => (fst e =? key)%string) l.

Definition remove_key (key : string) (l : list (string * Cert)) : list (string * Cert) :=
  List.filter (fun e => negb (fst e =? key)%string) l.

(** [get]: a hit moves the entry to the front. *)
Definition cache_get (key : string) (c : certCache) : option Cert * certCache :=
  if bool_decide (key ∈ index c) then
    match lookup_key key (order c) with
    | Some cert =>
        (Some cert, mkCertCache (cc_max c) ((key, cert) :: remove_key key (order c)) (index c) (wrapu64 (hits c + 1)) (misses c))
    | None => (None, c)
    end
  else (None, mkCertCache (cc_max c) (order c) (index c) (hits c) (wrapu64 (misses c + 1))).

(** The eviction loop: while the list is too long, drop its back. *)
Fixpoint evict (fuel : nat) (max : nat) (order : list (string * Cert)) (index : gset string)
    : list (string * Cert) * gset string :=
  match fuel with
  | O => (order, index)
  | S fuel' =>
      if (max <? length order)%nat then
        match last order with
        | Some oldest => evict fuel' max (removelast order) (index ∖ {[fst oldest]})
        | None => (order, index)
        end
      else (order, index)
  end.

Definition cache_put (key : string) (cert : Cert) (c : certCache) : certCache :=
  if bool_decide (key ∈ index c) then
    mkCertCache (cc_max c) ((key, cert) :: remove_key key (order c)) (index c) (hits c) (misses c)
  else
    let pushed := (key, cert) :: order c in
    let '(o, i) := evict (length pushed) (cc_max c) pushed ({[key]} ∪ index c) in
    mkCertCache (cc_max c) o i (hits c) (misses c).

Definition cache_purge (c : certCache) : certCache := mkCertCache (cc_max c) [] ∅ (hits c) (misses c).

Definition cache_len (c : certCache) : nat := length (order c).

(** ** The specification *)

(** All keys used since the last purge with their certificates, most recent
    first, nothing ever evicted. *)
Definition spec_touch (key : string) (cert : Cert) (l : list (string * Cert)) : list (string * Cert) :=
  (key, cert) :: remove_key key l.

Inductive cache_op :=
| CGet (key : string)
| CPut (key : string) (cert : Cert)
| CPurge.

Definition run_cache_op (op : cache_op) (c : certCache) : certCache :=
  match op with
  | CGet key => snd (cache_get key c)
  | CPut key cert => cache_put key cert c
  | CPurge => cache_purge c
  end.

(** A lookup only finds, and only refreshes, the [max] most recent entries. *)
Definition spec_op (max : nat) (op : cache_op) (l : list (string * Cert)) : list (string * Cert) :=
  match op with
  | CGet key => match lookup_key key (take max l) with Some cert => spec_touch key cert l | None => l end
  | CPut key cert => spec_touch key cert l
  | CPurge => []
  end.

(** ** Lemmas *)

Definition keys (l : list (string * Cert)) : list string := map fst l.

Lemma lookup_key_None key l : lookup_key key l = None <-> key ∉ keys l.
Proof.
  unfold lookup_key. induction l as [|[k v] l IH]; simpl; [split; [intros _; apply not_elem_of_nil|done]|].
  rewrite not_elem_of_cons. destruct (String.eqb_spec k key); simpl; [split; [done|naive_solver]|]. rewrite IH. naive_solver.
Qed.

Lemma remove_key_absent key l : key ∉ keys l -> remove_key key l = l.
Proof.
  induction l as [|[k v] l IH]; simpl; [done|]. rewrite not_elem_of_cons. intros [Hk Hl].
  destruct (String.eqb_spec k key); [congruence|]. simpl. by rewrite IH.
Qed.

Lemma keys_remove key l : keys (remove_key key l) = filter (fun k => k <> key) (keys l).
Proof.
  induction l as [|[k v] l IH]; simpl; [done|]. rewrite filter_cons.
  destruct (String.eqb_spec k key); simpl; [by rewrite decide_False by naive_solver|].
  rewrite decide_True by done. by rewrite IH.
Qed.

Lemma remove_NoDup key l : NoDup (keys l) -> NoDup (keys (remove_key key l)).
Proof. intros H. rewrite keys_remove. by apply NoDup_filter. Qed.

Lemma remove_not_in key l : key ∉ keys (remove_key key l).
Proof. rewrite keys_remove. rewrite list_elem_of_filter. by intros [? _]. Qed.

(** Removing a key from a prefix. *)
Lemma take_remove n key l :
  NoDup (keys l) ->
  take n (remove_key key l) =
    if decide (key ∈ keys (take (S n) l)) then remove_key key (take (S n) l) else take n l.
Proof.
  revert n. induction l as [|[k v] l IH]; intros n Hn.
  { cbn [remove_key List.filter]. rewrite !take_nil. by destruct (decide (key ∈ keys [])). }
  simpl in Hn. apply NoDup_cons in Hn as [Hk Hn]. cbn [remove_key List.filter]. rewrite firstn_cons. cbn [keys map fst].
  destruct (String.eqb_spec k key) as [->|Hne]; cbn [negb].
  - rewrite decide_True by (apply elem_of_cons; by left). cbn [remove_key List.filter fst]. rewrite String.eqb_refl. cbn [negb].
    fold (remove_key key l) (remove_key key (take n l)).
    rewrite !remove_key_absent; [done| |done]. intros Hin. apply Hk.
    unfold keys in *. apply list_elem_of_In. apply list_elem_of_In, in_map_iff in Hin as (x & <- & Hx).
    apply in_map. rewrite <- (firstn_skipn n l). apply in_or_app. by left.
  - destruct n as [|n].
    { rewrite firstn_O. cbn. case_decide as Hd; [|done]. apply elem_of_cons in Hd as [->|Hd]; [done|by apply elem_of_nil in Hd]. }
    rewrite firstn_cons. fold (remove_key key l). rewrite IH by done.
    destruct (decide (key ∈ keys (take (S n) l))) as [Hd|Hd].
    + rewrite decide_True by (apply elem_of_cons; by right). cbn [remove_key List.filter fst].
      rewrite (proj2 (String.eqb_neq k key)) by done. done.
    + rewrite decide_False; [done|]. intros [->|?]%elem_of_cons; done.
Qed.

Lemma evict_spec fuel max o i :
  (length o <= max + fuel)%nat -> NoDup (keys o) -> (forall k, k ∈ i <-> k ∈ keys o) ->
  fst (evict fuel max o i) = take max o /\
  (forall k, k ∈ snd (evict fuel max o i) <-> k ∈ keys (take max o)).
Proof.
  revert o i. induction fuel as [|fuel IH]; intros o i Hf Hn Hi; simpl.
  { rewrite take_ge by lia. done. }
  destruct (Nat.ltb_spec max (length o)) as [Hl|Hl]; [|by rewrite take_ge by lia].
  destruct o as [|e o' _] using rev_ind; [simpl in Hl; lia|]. rewrite last_snoc, removelast_last.
  rewrite length_app in *. simpl in *. unfold keys in Hn. rewrite map_app in Hn. simpl in Hn.
  apply NoDup_app in Hn as (Hn & Hd & _). rewrite take_app_le by lia. apply IH; [lia|done|].
  intros k. rewrite elem_of_difference, elem_of_singleton, Hi. unfold keys. rewrite map_app, elem_of_app. simpl.
  rewrite list_elem_of_singleton. split; [intros [[?|?] ?]; done|]. intros Hk. split; [by left|].
  intros ->. apply (Hd _ Hk). by apply list_elem_of_singleton.
Qed.

(** What every cache satisfies next to its recency list. *)
Definition cache_refines (c : certCache) (l : list (string * Cert)) : Prop :=
  (1 <= cc_max c)%nat /\ NoDup (keys l) /\ order c = take (cc_max c) l /\
  (forall k, k ∈ index c <-> k ∈ keys (order c)).

Lemma keys_take_NoDup n l : NoDup (keys l) -> NoDup (keys (take n l)).
Proof.
  unfold keys. rewrite <- firstn_map. intros H. rewrite <- (firstn_skipn n (map fst l)) in H.
  by apply NoDup_app in H as [? _].
Qed.

Lemma refines_touch c l key cert :
  cache_refines c l -> key ∈ keys (order c) ->
  take (cc_max c) (spec_touch key cert l) = (key, cert) :: remove_key key (order c) /\
  (forall k, k ∈ index c <-> k ∈ keys ((key, cert) :: remove_key key (order c))).
Proof.
  intros (Hm & Hn & Ho & Hi) Hk. destruct (cc_max c) as [|m]; [lia|]. unfold spec_touch. rewrite firstn_cons. split.
  - f_equal. rewrite take_remove by done. rewrite Ho in Hk. by rewrite decide_True, Ho.
  - intros k. rewrite Hi. cbn [keys map fst]. fold (keys (remove_key key (order c))).
    rewrite elem_of_cons, keys_remove, list_elem_of_filter. destruct (decide (k = key)) as [->|]; naive_solver.
Qed.

Lemma refines_index c l key : cache_refines c l -> key ∈ index c <-> key ∈ keys (order c).
Proof. intros (_ & _ & _ & Hi). apply Hi. Qed.

Lemma spec_touch_NoDup key cert l : NoDup (keys l) -> NoDup (keys (spec_touch key cert l)).
Proof. intros H. simpl. apply NoDup_cons. split; [apply remove_not_in|by apply remove_NoDup]. Qed.

Lemma cache_get_refines c l key :
  cache_refines c l ->
  fst (cache_get key c) = lookup_key key (take (cc_max c) l) /\
  cache_refines (snd (cache_get key c)) (spec_op (cc_max c) (CGet key) l).
Proof.
  intros Hr. pose proof Hr as (Hm & Hn & Ho & Hi). unfold cache_get. simpl. rewrite <- Ho.
  case_bool_decide as Hk.
  - apply Hi in Hk. destruct (lookup_key key (order c)) as [cert|] eqn:E; [|by apply lookup_key_None in E].
    simpl. split; [done|]. destruct (refines_touch c l key cert Hr Hk) as [Ht Hx].
    split; [done|]. split; [by apply spec_touch_NoDup|]. split; [by symmetry|]. exact Hx.
  - rewrite Hi in Hk. apply lookup_key_None in Hk. rewrite Hk. done.
Qed.

Lemma cache_put_refines c l key cert :
  cache_refines c l -> cache_refines (cache_put key cert c) (spec_op (cc_max c) (CPut key cert) l).
Proof.
  intros Hr. pose proof Hr as (Hm & Hn & Ho & Hi). unfold cache_put. cbn [spec_op]. case_bool_decide as Hk.
  - apply Hi in Hk. destruct (refines_touch c l key cert Hr Hk) as [Ht Hx].
    split; [done|]. split; [by apply spec_touch_NoDup|]. split; [by symmetry|]. exact Hx.
  - rewrite Hi in Hk. assert (Hn' : NoDup (keys ((key, cert) :: order c))).
    { simpl. apply NoDup_cons. split; [done|]. rewrite Ho. by apply keys_take_NoDup. }
    assert (length (order c) <= cc_max c)%nat by (rewrite Ho, length_take; lia).
    destruct (evict_spec (length ((key, cert) :: order c)) (cc_max c) ((key, cert) :: order c) ({[key]} ∪ index c))
      as [Ef Es]; [simpl; lia|done| |].
    { intros k. rewrite elem_of_union, elem_of_singleton, Hi. simpl. by rewrite elem_of_cons. }
    destruct (evict _ _ _ _) as [o i]. simpl in Ef, Es. subst o.
    assert (take (cc_max c) (spec_touch key cert l) = take (cc_max c) ((key, cert) :: order c)) as Et.
    { destruct (cc_max c) as [|m]; [lia|]. unfold spec_touch. rewrite !firstn_cons. f_equal.
      rewrite take_remove by done. rewrite <- Ho, decide_False by done. rewrite Ho, take_take. f_equal. lia. }
    split; [done|]. split; [by apply spec_touch_NoDup|]. simpl. split; [by symmetry|]. done.
Qed.

Lemma cache_max_op op c : cc_max (run_cache_op op c) = cc_max c.
Proof.
  destruct op; simpl; [unfold cache_get; repeat case_match; done| |done].
  unfold cache_put. case_match; [done|]. by destruct (evict _ _ _ _).
Qed.

(** What the lookups of a sequence of operations answer, and the cache after them. *)
Fixpoint run_cache (ops : list cache_op) (c : certCache) : list (option Cert) * certCache :=
  match ops with
  | [] => ([], c)
  | op :: ops' =>
      let '(answers, c') := run_cache ops' (run_cache_op op c) in
      (match op with CGet key => fst (cache_get key c) :: answers | _ => answers end, c')
  end.

(** The same for the unbounded recency list seen through a window of [max]. *)
Fixpoint run_spec (max : nat) (ops : list cache_op) (l : list (string * Cert)) : list (option Cert) * list (string * Cert) :=
  match ops with
  | [] => ([], l)
  | op :: ops' =>
      let '(answers, l') := run_spec max ops' (spec_op max op l) in
      (match op with CGet key => lookup_key key (take max l) :: answers | _ => answers end, l')
  end.

Definition found (answers : list (option Cert)) : Z := Z.of_nat (length (List.filter (fun a => match a with Some _ => true | None => false end) answers)).
Definition not_found (answers : list (option Cert)) : Z := Z.of_nat (length (List.filter (fun a => match a with Some _ => false | None => true end) answers)).

Lemma run_cache_op_refines op c l : cache_refines c l -> cache_refines (run_cache_op op c) (spec_op (cc_max c) op l).
Proof.
  intros Hr. destruct op; simpl; [by apply cache_get_refines|by apply cache_put_refines|].
  destruct Hr as (Hm & _). split; [done|]. split; [apply NoDup_nil_2|]. split; [by rewrite take_nil|].
  intros k. simpl. set_solver.
Qed.

Lemma run_cache_refines ops c l :
  cache_refines c l ->
  fst (run_cache ops c) = fst (run_spec (cc_max c) ops l) /\ cc_max (snd (run_cache ops c)) = cc_max c /\
  cache_refines (snd (run_cache ops c)) (snd (run_spec (cc_max c) ops l)).
Proof.
  revert c l. induction ops as [|op ops IH]; intros c l Hr; [done|]. cbn [run_cache run_spec].
  pose proof (IH _ _ (run_cache_op_refines op c l Hr)) as (H1 & H2 & H3). rewrite cache_max_op in *.
  destruct (run_cache ops _) as [answers c'], (run_spec _ ops _) as [answers' l']. cbn [fst snd] in *. subst answers'.
  split; [|done]. destruct op; [|done..]. f_equal. by apply cache_get_refines.
Qed.

Lemma wrapu64_add a b : wrapu64 (wrapu64 a + b) = wrapu64 (a + b).
Proof. unfold wrapu64. by rewrite Zplus_mod_idemp_l. Qed.

(** Every lookup counts, as a hit when it finds something and as a miss when not. *)
Definition counts_ok (c : certCache) : Prop := wrapu64 (hits c) = hits c /\ wrapu64 (misses c) = misses c.

Lemma run_cache_op_counts op c l :
  cache_refines c l -> counts_ok c ->
  let a := match op with CGet key => [fst (cache_get key c)] | _ => [] end in
  hits (run_cache_op op c) = wrapu64 (hits c + found a) /\ misses (run_cache_op op c) = wrapu64 (misses c + not_found a).
Proof.
  intros (_ & _ & _ & Hi) [H1 H2]. destruct op as [key|key cert|]; cbn [run_cache_op]; unfold found, not_found.
  - unfold cache_get. case_bool_decide as Hk; [|simpl; by rewrite Z.add_0_r, H1].
    apply Hi in Hk. destruct (lookup_key key (order c)) as [cert|] eqn:E; [|by apply lookup_key_None in E]. simpl. by rewrite Z.add_0_r, H2.
  - unfold cache_put. case_bool_decide; [|destruct (evict _ _ _ _)]; simpl; by rewrite !Z.add_0_r, H1, H2.
  - simpl. by rewrite !Z.add_0_r, H1, H2.
Qed.

Lemma run_cache_counts ops c l :
  cache_refines c l -> counts_ok c ->
  hits (snd (run_cache ops c)) = wrapu64 (hits c + found (fst (run_cache ops c))) /\
  misses (snd (run_cache ops c)) = wrapu64 (misses c + not_found (fst (run_cache ops c))).
Proof.
  revert c l. induction ops as [|op ops IH]; intros c l Hr Hc.
  - cbn [run_cache fst snd]. change (found []) with 0. change (not_found []) with 0. rewrite !Z.add_0_r. by destruct Hc as [-> ->].
  - destruct (run_cache_op_counts op c l Hr Hc) as [E1 E2]. cbn [run_cache].
    destruct (IH _ _ (run_cache_op_refines op c l Hr)) as [H1 H2].
    { unfold counts_ok. rewrite E1, E2. unfold wrapu64. by rewrite !Z.mod_mod. }
    destruct (run_cache ops _) as [answers c']. cbn [fst snd] in *. rewrite H1, H2, E1, E2, !wrapu64_add.
    assert (forall a, found (a :: answers) = found [a] + found answers /\ not_found (a :: answers) = not_found [a] + not_found answers) as Ha
      by (intros [x|]; unfold found, not_found; simpl; lia).
    destruct op as [key| |]; [destruct (Ha (fst (cache_get key c))) as [-> ->]| |]; split; f_equal; unfold found, not_found in *; simpl; lia.
Qed.

(** [C25] The leaf cache is an exact LRU: in any sequence of lookups, stores and
    purges every lookup answers what the unbounded recency list answers when only
    its [max] most recent entries count; the cache then holds, in order, precisely
    the [max] most recently used names since the last purge with their latest
    certificates; the counters are the numbers of lookups that found something and of
    those that did not (in 64 bits); the index agrees with the list, and the cache
    never exceeds its bound (at least one). *)
Theorem cache_is_lru (max : Z) (ops : list cache_op) :
  let '(answers, c) := run_cache ops (newCertCache max) in
  let m := Z.to_nat (Z.max 1 max) in
  let '(expected, recent) := run_spec m ops [] in
  answers = expected /\ order c = take m recent /\
  hits c = wrapu64 (found expected) /\ misses c = wrapu64 (not_found expected) /\
  NoDup (keys (order c)) /\ (forall k, k ∈ index c <-> k ∈ keys (order c)) /\ (cache_len c <= m)%nat.
Proof.
  assert (cc_max (newCertCache max) = Z.to_nat (Z.max 1 max)) as Em
    by (unfold newCertCache; simpl; destruct (Z.ltb_spec max 1); f_equal; lia).
  assert (cache_refines (newCertCache max) []) as Hr.
  { split; [rewrite Em; lia|]. split; [apply NoDup_nil_2|]. split; [by rewrite take_nil|]. intros k. simpl. set_solver. }
  destruct (run_cache_refines ops _ _ Hr) as (Ha & Em' & Hm & Hn & Ho & Hi).
  destruct (run_cache_counts ops _ _ Hr) as [Hh Hmi]; [by split; vm_compute|].
  destruct (run_cache ops (newCertCache max)) as [answers c]. cbn [fst snd] in *. rewrite Em in *. cbn zeta.
  destruct (run_spec _ ops []) as [expected recent]. cbn [fst snd] in *. rewrite Em' in Ho. subst expected.
  split; [done|]. split; [done|]. split; [exact Hh|]. split; [exact Hmi|].
  split; [rewrite Ho; by apply keys_take_NoDup|]. split; [done|]. unfold cache_len. rewrite Ho, length_take. apply Nat.le_min_l.
Qed.
End lru.

Arguments certCache : clear implicits.
Arguments cache_op : clear implicits.
