(* ===== verification/Mitm.v ===== *)
(** * The block page's certificates and connections (pkg/mitm/mint.go, ca.go, hijack.go)

    [certFor] and [Rotate] touch the CA under its lock and the cache under
    another, so both are sequences of atomic phases.  Signing is crypto/x509's;
    [sign] gives the DER of a signed template or nothing. *)

From S2P Require Import Prelude GoStrings GoTime GoNet GoHTTP Bypass CertCache.

Open Scope list_scope.

Definition noSNIHost : string := "no-sni.invalid".
Definition leafBackdate : Z := time.Hour.
Definition leafRenewBefore : Z := time.Minute.
Definition DefaultLeafTTL : Z := 7 * 24 * time.Hour.
Definition DefaultCacheSize : Z := 1000.

(** ** Leaves *)

(** The part of x509.Certificate that [leafTemplate] fills in. *)
Record Template := mkTemplate {
  SerialNumber : Z;
  CommonName : string;
  NotBefore : Z;
  NotAfter : Z;
  DigitalSignature : bool;
  KeyEncipherment : bool;
  ServerAuth : bool;
  BasicConstraintsValid : bool;
  IPAddresses : list (option net.IP);
  DNSNames : list string;
}.

Definition leafIdentity (sni target : string) : string * bool :=
  let is_ip h := match net.ParseIP h with Some _ => true | None => false end in
  let h := normalizeHost sni in
  if negb (h =? "")%string then (h, is_ip h) else
  let h := normalizeHost target in
  if negb (h =? "")%string then (h, is_ip h) else (noSNIHost, false).

Definition leafTemplate (name : string) (isIP : bool) (serial now ttl : Z) : Template :=
  mkTemplate serial name (time.Add now (- leafBackdate)) (time.Add now ttl) true true true true
    (if isIP then [net.ParseIP name] else []) (if isIP then [] else [name]).

(** ** The CA *)

(** A CA certificate, as far as it is looked at, and a signing key with its
    public half. *)
Record CACert := mkCACert { ca_DER : string; ca_IsCA : bool; ca_CertSign : bool; ca_CN : string; ca_PublicKey : string }.
Record Signer := mkSigner { sg_Private : string; sg_Public : string }.

(** tls.Certificate: the leaf and its issuer's DER, with the parsed leaf. *)
Record TLSCert := mkTLSCert { tls_DER : string; tls_issuer : string; tls_Leaf : option Template }.

Record Options := mkOptions { LeafTTL : Z; CacheSize : Z }.

Definition withDefaults (o : Options) : Options :=
  mkOptions (if LeafTTL o <=? 0 then DefaultLeafTTL else LeafTTL o)
    (if CacheSize o <=? 0 then DefaultCacheSize else CacheSize o).

Record CA := mkCA {
  ca_cert : CACert;
  ca_key : Signer;
  ca_gen : Z;
  ca_cache : certCache TLSCert;
  ca_opts : Options;
}.

Definition set_material (c : CA) (cert : CACert) (key : Signer) : CA :=
  mkCA cert key (wrapu64 (ca_gen c + 1)) (ca_cache c) (ca_opts c).
Definition set_ca_cache (c : CA) (x : certCache TLSCert) : CA := mkCA (ca_cert c) (ca_key c) (ca_gen c) x (ca_opts c).

Inductive ca_error :=
| ReadingCertFailed
| ReadingKeyFailed
| CertNotPEM
| NotACertificateBlock (block_type : string)
| ParsingCertFailed
| KeyNotPEM
| UnsupportedKeyBlock (block_type : string)
| ParsingKeyFailed
| KeyCannotSign
| NilCertificate
| NilKey
| NotACA (cn : string)
| NoCertSign (cn : string)
| KeyMismatch (cn : string)
| LeafKeyFailed
| SerialFailed
| SigningFailed (name : string).

Definition publicKeysEqual (a b : string) : bool := (a =? b)%string.

(** [leafKeyOk] is the outcome of generating the shared leaf key. *)
Definition NewCA (cert : option CACert) (key : option Signer) (opts : Options) (leafKeyOk : bool) : result ca_error CA :=
  match cert, key with
  | None, _ => Err NilCertificate
  | _, None => Err NilKey
  | Some cert, Some key =>
      if negb (ca_IsCA cert) then Err (NotACA (ca_CN cert))
      else if negb (ca_CertSign cert) then Err (NoCertSign (ca_CN cert))
      else if negb (publicKeysEqual (sg_Public key) (ca_PublicKey cert)) then Err (KeyMismatch (ca_CN cert))
      else if negb leafKeyOk then Err LeafKeyFailed
      else let opts := withDefaults opts in
           Ok (mkCA cert key 0 (newCertCache (CacheSize opts)) opts)
  end.

(** ** Loading from PEM files *)

Section load.
(** A parsed private key, as far as the type assertion to [crypto.Signer] goes. *)
Variable parsed_key : Type.
Variable as_Signer : parsed_key -> option Signer.

(** encoding/pem and crypto/x509: the type and bytes of the first block, and the
    parsers. *)
Variable pem_Decode : string -> option (string * string).
Variable ParseCertificate : string -> option CACert.
Variables ParseECPrivateKey ParsePKCS8PrivateKey ParsePKCS1PrivateKey : string -> option parsed_key.

Definition parseCertPEM (certPEM : string) : result ca_error CACert :=
  match pem_Decode certPEM with
  | None => Err CertNotPEM
  | Some (block_type, bytes) =>
      if negb (block_type =? "CERTIFICATE")%string then Err (NotACertificateBlock block_type) else
      match ParseCertificate bytes with None => Err ParsingCertFailed | Some cert => Ok cert end
  end.

Definition parseKeyPEM (keyPEM : string) : result ca_error Signer :=
  match pem_Decode keyPEM with
  | None => Err KeyNotPEM
  | Some (block_type, bytes) =>
      let finish parsed :=
        match parsed with
        | None => Err ParsingKeyFailed
        | Some key => match as_Signer key with None => Err KeyCannotSign | Some signer => Ok signer end
        end in
      if (block_type =? "EC PRIVATE KEY")%string then finish (ParseECPrivateKey bytes)
      else if (block_type =? "PRIVATE KEY")%string then finish (ParsePKCS8PrivateKey bytes)
      else if (block_type =? "RSA PRIVATE KEY")%string then finish (ParsePKCS1PrivateKey bytes)
      else Err (UnsupportedKeyBlock block_type)
  end.

Definition ParseCA (certPEM keyPEM : string) (opts : Options) (leafKeyOk : bool) : result ca_error CA :=
  match parseCertPEM certPEM with
  | Err e => Err e
  | Ok cert =>
      match parseKeyPEM keyPEM with
      | Err e => Err e
      | Ok key => NewCA (Some cert) (Some key) opts leafKeyOk
      end
  end.

(** [ReadFile] gives the contents of a file or nothing. *)
Definition LoadCA (ReadFile : string -> option string) (certPath keyPath : string) (opts : Options) (leafKeyOk : bool)
    : result ca_error CA :=
  match ReadFile certPath with
  | None => Err ReadingCertFailed
  | Some certPEM =>
      match ReadFile keyPath with
      | None => Err ReadingKeyFailed
      | Some keyPEM => ParseCA certPEM keyPEM opts leafKeyOk
      end
  end.

(** A CA that can sign: a CA certificate with the certSign usage and its own key,
    and room in the cache. *)
Definition signing_ca (c : CA) : Prop :=
  ca_IsCA (ca_cert c) = true /\ ca_CertSign (ca_cert c) = true /\
  sg_Public (ca_key c) = ca_PublicKey (ca_cert c) /\ (0 < cc_max (ca_cache c))%nat /\ 0 < LeafTTL (ca_opts c).

Lemma LoadCA_signing ReadFile certPath keyPath opts b c :
  LoadCA ReadFile certPath keyPath opts b = Ok c -> signing_ca c /\ order (ca_cache c) = [] /\ ca_gen c = 0.
Proof.
  unfold LoadCA, ParseCA. destruct (ReadFile certPath) as [certPEM|]; [|done]. destruct (ReadFile keyPath) as [keyPEM|]; [|done].
  destruct (parseCertPEM certPEM) as [cert|]; [|done]. destruct (parseKeyPEM keyPEM) as [key|]; [|done].
  unfold NewCA. destruct (ca_IsCA cert) eqn:E1; [|done]. destruct (ca_CertSign cert) eqn:E2; [|done].
  destruct (publicKeysEqual _ _) eqn:E3; [|done]. destruct b; [|done]. apply String.eqb_eq in E3. cbn [negb]. intros [= <-].
  split; [|done]. do 3 (split; [done|]). unfold newCertCache, withDefaults. cbn [ca_cache ca_opts cc_max CacheSize LeafTTL]. split.
  - repeat case_match; reflect_bools; lia.
  - case_match; reflect_bools; [by vm_compute|lia].
Qed.
End load.

(** What the admin server and the log read off the CA. *)
Definition ExportDER (c : CA) : string := ca_DER (ca_cert c).
Definition Subject (c : CA) : string := ca_CN (ca_cert c).
Definition CacheStats (c : CA) : Z * Z := (hits (ca_cache c), misses (ca_cache c)).

(** The checks of [Rotate]. *)
Definition Rotate_check (cert : option CACert) (key : option Signer) : result ca_error (CACert * Signer) :=
  match cert, key with
  | Some cert, Some key =>
      if negb (ca_IsCA cert) || negb (ca_CertSign cert) then Err (NotACA (ca_CN cert))
      else if negb (publicKeysEqual (sg_Public key) (ca_PublicKey cert)) then Err (KeyMismatch (ca_CN cert))
      else Ok (cert, key)
  | None, _ => Err NilCertificate
  | _, None => Err NilKey
  end.

Definition Rotate_swap (cert : CACert) (key : Signer) : ST CA unit := update (fun c => set_material c cert key).
Definition Rotate_purge : ST CA unit := update (fun c => set_ca_cache c (cache_purge (ca_cache c))).

Definition Rotate (cert : option CACert) (key : option Signer) : ST CA (result ca_error unit) :=
  match Rotate_check cert key with
  | Err e => mret (Err e)
  | Ok (cert, key) => _ ← Rotate_swap cert key; _ ← Rotate_purge; mret (Ok tt)
  end.

Section mint.
(** x509.CreateCertificate with the shared leaf key. *)
Context (sign : Template -> CACert -> Signer -> option string).

Definition leafFresh (now : Z) (cert : TLSCert) : bool :=
  match tls_Leaf cert with
  | Some leaf => time.Before (time.Add now leafRenewBefore) (NotAfter leaf)
  | None => false
  end.

(** What [mint] reads under the lock, and what it makes of that afterwards. *)
Definition mint_material : ST CA (CACert * Signer * Z) := gets (fun c => (ca_cert c, ca_key c, ca_gen c)).

Definition mint_leaf (name : string) (isIP : bool) (serial now ttl : Z) (material : CACert * Signer * Z) : result ca_error (TLSCert * Z) :=
  let '(cert, key, gen) := material in
  let tmpl := leafTemplate name isIP serial now ttl in
  match sign tmpl cert key with
  | None => Err (SigningFailed name)
  | Some der => Ok (mkTLSCert der (ca_DER cert) (Some tmpl), gen)
  end.

(** [serial] is the outcome of [rand.Int]. *)
Definition mint (name : string) (isIP : bool) (serial : option Z) (now : Z) : ST CA (result ca_error (TLSCert * Z)) :=
  match serial with
  | None => mret (Err SerialFailed)
  | Some serial =>
      material ← mint_material;
      ttl ← gets (fun c => LeafTTL (ca_opts c));
      mret (mint_leaf name isIP serial now ttl material)
  end.

(** The look into the cache, and the test of what it found. *)
Definition certFor_get (name : string) : ST CA (option TLSCert) := fun c =>
  let '(found, cache) := cache_get name (ca_cache c) in (found, set_ca_cache c cache).

Definition certFor_fresh (now : Z) (found : option TLSCert) : option TLSCert :=
  match found with Some cert => if leafFresh now cert then Some cert else None | None => None end.

Definition certFor_lookup (name : string) (now : Z) : ST CA (option TLSCert) :=
  found ← certFor_get name;
  mret (certFor_fresh now found).

(** Is the generation still the one the leaf was signed under? *)
Definition certFor_current (gen : Z) : ST CA bool := gets (fun c => ca_gen c =? gen).

Definition certFor_put (name : string) (cert : TLSCert) : ST CA unit :=
  update (fun c => set_ca_cache c (cache_put name cert (ca_cache c))).

Definition certFor (sni target : string) (serial : option Z) (now : Z) : ST CA (result ca_error TLSCert) :=
  let '(name, isIP) := leafIdentity sni target in
  found ← certFor_lookup name now;
  match (found : option TLSCert) with
  | Some cert => mret (Ok cert)
  | None =>
      minted ← mint name isIP serial now;
      match minted with
      | Err e => mret (Err e)
      | Ok (cert, gen) =>
          current ← certFor_current gen;
          _ ← (if (current : bool) then certFor_put name cert else mret tt);
          mret (Ok cert)
      end
  end.

(** The callbacks for a TLS configuration. *)
Definition GetCertificate (ServerName : string) (serial : option Z) (now : Z) : ST CA (result ca_error TLSCert) :=
  certFor ServerName "" serial now.

Definition GetCertificateFor (target ServerName : string) (serial : option Z) (now : Z) : ST CA (result ca_error TLSCert) :=
  certFor ServerName target serial now.

(** A leaf for the name, signed by the CA as it is, valid and not about to expire. *)
Definition fits (c : CA) (name : string) (now : Z) (x : TLSCert) : Prop :=
  tls_issuer x = ca_DER (ca_cert c) /\
  exists leaf, tls_Leaf x = Some leaf /\ CommonName leaf = name /\
    sign leaf (ca_cert c) (ca_key c) = Some (tls_DER x) /\
    (DNSNames leaf, IPAddresses leaf) = (match net.ParseIP name with Some ip => ([], [Some ip]) | None => ([name], []) end) /\
    NotBefore leaf + leafBackdate <= now < NotAfter leaf /\
    (leafRenewBefore < LeafTTL (ca_opts c) -> now + leafRenewBefore < NotAfter leaf).

(** ** What is served between rotations *)

Inductive ca_event :=
| EvHandshake (sni target : string) (serial : option Z) (now : Z)
| EvRotate (cert : option CACert) (key : option Signer).

Definition run_ca_event (ev : ca_event) (c : CA) : CA :=
  match ev with
  | EvHandshake sni target serial now => snd (certFor sni target serial now c)
  | EvRotate cert key => snd (Rotate cert key c)
  end.

(** Event clocks do not run backwards. *)
Fixpoint ca_ordered (t : Z) (l : list ca_event) : Prop :=
  match l with
  | [] => True
  | EvHandshake _ _ _ now :: l' => t <= now /\ ca_ordered now l'
  | EvRotate _ _ :: l' => ca_ordered t l'
  end.

Fixpoint ca_clock (t : Z) (l : list ca_event) : Z :=
  match l with
  | [] => t
  | EvHandshake _ _ _ now :: l' => ca_clock now l'
  | EvRotate _ _ :: l' => ca_clock t l'
  end.

(** A leaf for [name] signed under [cert] at an instant up to [t]. *)
Definition leaf_for (name : string) (cert : CACert) (key : Signer) (ttl t : Z) (x : TLSCert) : Prop :=
  exists serial minted isIP, minted <= t /\
    let tmpl := leafTemplate name isIP serial minted ttl in
    tls_Leaf x = Some tmpl /\ sign tmpl cert key = Some (tls_DER x) /\ tls_issuer x = ca_DER cert /\
    isIP = match net.ParseIP name with Some _ => true | None => false end.

Definition ca_ok (t : Z) (c : CA) : Prop :=
  0 < LeafTTL (ca_opts c) /\
  forall name x, lookup_key name (order (ca_cache c)) = Some x ->
    leaf_for name (ca_cert c) (ca_key c) (LeafTTL (ca_opts c)) t x.

Lemma leaf_for_later name cert key ttl t t' x : t <= t' -> leaf_for name cert key ttl t x -> leaf_for name cert key ttl t' x.
Proof. intros Ht (serial & minted & isIP & Hm & H). exists serial, minted, isIP. split; [lia|done]. Qed.

Lemma leafIdentity_IP sni target :
  snd (leafIdentity sni target) = match net.ParseIP (fst (leafIdentity sni target)) with Some _ => true | None => false end.
Proof.
  unfold leafIdentity. destruct (negb (normalizeHost sni =? "")%string); [done|].
  by destruct (negb (normalizeHost target =? "")%string).
Qed.

Lemma lookup_key_remove {V} k k' (l : list (string * V)) :
  lookup_key k (remove_key k' l) = if decide (k = k') then None else lookup_key k l.
Proof.
  unfold lookup_key, remove_key. induction l as [|[q v] l IH]; simpl; [by case_decide|].
  destruct (String.eqb_spec q k') as [->|Hq]; simpl; [rewrite IH; case_decide as Hd; [done|]; by rewrite (proj2 (String.eqb_neq k' k)) by done|].
  destruct (String.eqb_spec q k) as [->|]; [by rewrite decide_False by done|done].
Qed.

Lemma lookup_key_cons {V} k k' (v : V) l : lookup_key k ((k', v) :: l) = if decide (k = k') then Some v else lookup_key k l.
Proof.
  unfold lookup_key. simpl. destruct (String.eqb_spec k' k) as [->|]; [by rewrite decide_True|by rewrite decide_False by congruence].
Qed.

Lemma lookup_key_removelast {V} k (l : list (string * V)) x :
  lookup_key k (removelast l) = Some x -> lookup_key k l = Some x.
Proof.
  unfold lookup_key. induction l as [|e l IH]; [done|]. destruct l as [|e' l]; [done|].
  cbn [removelast List.find]. destruct (fst e =? k)%string; [done|exact IH].
Qed.

Lemma lookup_key_evict fuel max (l : list (string * TLSCert)) i k x :
  lookup_key k (fst (evict fuel max l i)) = Some x -> lookup_key k l = Some x.
Proof.
  revert l i. induction fuel as [|fuel IH]; intros l i; simpl; [done|].
  destruct (max <? length l)%nat; [|done]. destruct (last l); [|done]. intros H%IH. by apply lookup_key_removelast.
Qed.

(** What a cache holds after a lookup or a store. *)
Lemma cache_get_lookup key (c : certCache TLSCert) k x :
  lookup_key k (order (snd (cache_get key c))) = Some x -> lookup_key k (order c) = Some x.
Proof.
  unfold cache_get. case_bool_decide; [|done]. destruct (lookup_key key (order c)) as [cert|] eqn:E; [|done]. simpl.
  rewrite lookup_key_cons, lookup_key_remove. case_decide; [subst k; by rewrite E|done].
Qed.

Lemma cache_get_found key (c : certCache TLSCert) cert :
  fst (cache_get key c) = Some cert -> lookup_key key (order c) = Some cert.
Proof. unfold cache_get. case_bool_decide; [|done]. destruct (lookup_key key (order c)) eqn:E; [|done]. simpl. congruence. Qed.

Lemma cache_put_lookup key cert (c : certCache TLSCert) k x :
  lookup_key k (order (cache_put key cert c)) = Some x -> (k = key /\ x = cert) \/ lookup_key k (order c) = Some x.
Proof.
  unfold cache_put. case_bool_decide.
  - simpl. rewrite lookup_key_cons, lookup_key_remove. case_decide; [intros [= <-]; by left|by right].
  - pose proof (lookup_key_evict (length ((key, cert) :: order c)) (cc_max c) ((key, cert) :: order c) ({[key]} ∪ index c) k x) as He.
    destruct (evict _ _ _ _) as [o i]. simpl in *. intros H1. specialize (He H1). rewrite lookup_key_cons in He.
    case_decide; [left; split; congruence|by right].
Qed.

(** A store into a purged cache is found. *)
Lemma put_then_get name (x : TLSCert) m hits misses :
  (0 < m)%nat -> fst (cache_get name (cache_put name x (mkCertCache m [] ∅ hits misses))) = Some x.
Proof.
  intros Hm. unfold cache_put. cbn [index order cc_max]. rewrite bool_decide_eq_false_2 by (by apply not_elem_of_empty).
  cbn [length evict]. destruct (Nat.ltb_spec m 1); [lia|]. unfold cache_get. cbn [index order].
  rewrite bool_decide_eq_true_2 by (apply elem_of_union_l; by apply elem_of_singleton). by rewrite lookup_key_cons, decide_True.
Qed.

(** One handshake: what it serves and what it leaves behind. *)
Lemma certFor_spec sni target serial now t c :
  ca_ok t c -> t <= now ->
  let '(r, c') := certFor sni target serial now c in
  ca_ok now c' /\ ca_cert c' = ca_cert c /\ ca_key c' = ca_key c /\ ca_opts c' = ca_opts c /\
  forall x, r = Ok x ->
    leaf_for (fst (leafIdentity sni target)) (ca_cert c) (ca_key c) (LeafTTL (ca_opts c)) now x /\
    (leafFresh now x = true \/ exists leaf, tls_Leaf x = Some leaf /\ NotAfter leaf = now + LeafTTL (ca_opts c)).
Proof.
  intros [Httl Hc] Ht. unfold certFor. pose proof (leafIdentity_IP sni target) as Hip.
  destruct (leafIdentity sni target) as [name isIP]. cbn [fst snd] in *.
  pose proof (cache_get_lookup name (ca_cache c)) as Hg. pose proof (cache_get_found name (ca_cache c)) as Hf.
  unfold certFor_lookup, certFor_get, mbind, ST_bind. destruct (cache_get name (ca_cache c)) as [found cache]. cbn [fst snd] in Hg, Hf.
  assert (Hok : ca_ok now (set_ca_cache c cache)).
  { split; [done|]. intros n x H. apply (leaf_for_later _ _ _ _ t); [done|]. by apply Hc, Hg. }
  unfold mret, ST_ret. cbv beta iota. destruct (certFor_fresh now found) as [cert|] eqn:E.
  - split; [done|]. do 3 (split; [done|]). intros x [= <-]. unfold certFor_fresh in E. destruct found as [cert'|]; [|done].
    destruct (leafFresh now cert') eqn:Efr; [|done]. injection E as ->. split; [|by left].
    apply (leaf_for_later _ _ _ _ t); [done|]. by apply Hc, Hf.
  - unfold mint, mint_material, mint_leaf, mbind, ST_bind, mret, ST_ret, gets. destruct serial as [s|]; [|by split].
    cbn [ca_cert ca_key ca_gen ca_opts set_ca_cache].
    destruct (sign (leafTemplate name isIP s now (LeafTTL (ca_opts c))) (ca_cert c) (ca_key c)) as [der|] eqn:Es; [|by split].
    unfold certFor_current, gets. cbn [ca_gen set_ca_cache]. rewrite Z.eqb_refl.
    unfold certFor_put, update. cbn [ca_cache set_ca_cache].
    assert (leaf_for name (ca_cert c) (ca_key c) (LeafTTL (ca_opts c)) now
      (mkTLSCert der (ca_DER (ca_cert c)) (Some (leafTemplate name isIP s now (LeafTTL (ca_opts c)))))) as Hl
      by (exists s, now, isIP; split; [lia|]; split; [done|]; split; [done|]; by split).
    split; [|do 3 (split; [done|]); intros x [= <-]; split; [done|]; right; by eexists].
    split; [done|]. intros n x H. cbn [ca_cache ca_cert ca_key ca_opts set_ca_cache] in H |- *.
    apply cache_put_lookup in H as [[-> ->]|H]; [done|]. by apply (proj2 Hok).
Qed.

Lemma Rotate_ok cert key t c : ca_ok t c -> ca_ok t (snd (Rotate cert key c)).
Proof.
  intros [Httl H]. unfold Rotate. destruct (Rotate_check cert key) as [[cert' key']|e]; [|by split]. by split.
Qed.

Lemma run_ca_ok l t c : ca_ordered t l -> ca_ok t c -> ca_ok (ca_clock t l) (foldl (fun c ev => run_ca_event ev c) c l).
Proof.
  revert t c. induction l as [|[sni target serial now|cert key] l IH]; intros t c Ho Hc; [done|..]; cbn [foldl ca_clock].
  - destruct Ho as [Ht Ho]. apply IH; [done|]. cbn [run_ca_event].
    pose proof (certFor_spec sni target serial now t c Hc Ht) as H. destruct (certFor _ _ _ _ c) as [r c']. apply H.
  - apply IH; [done|]. by apply Rotate_ok.
Qed.

Lemma certFor_material sni target serial now c :
  let c' := snd (certFor sni target serial now c) in
  ca_cert c' = ca_cert c /\ ca_key c' = ca_key c /\ ca_opts c' = ca_opts c /\ cc_max (ca_cache c') = cc_max (ca_cache c).
Proof.
  unfold certFor. destruct (leafIdentity sni target) as [name isIP]. unfold certFor_lookup, certFor_get, mbind, ST_bind, mret, ST_ret.
  assert (cc_max (snd (cache_get name (ca_cache c))) = cc_max (ca_cache c)) as Hg
    by (unfold cache_get; case_bool_decide; [|done]; by destruct (lookup_key _ _)).
  destruct (cache_get name (ca_cache c)) as [found cache]. cbn [snd] in Hg. cbn zeta.
  destruct (certFor_fresh now found); [done|]. unfold mint, mint_material, mint_leaf, mbind, ST_bind, mret, ST_ret, gets. destruct serial as [s|]; [|done].
  cbn [ca_opts ca_cert ca_key ca_gen set_ca_cache]. destruct (sign _ _ _); [|done].
  unfold certFor_current, gets. cbn [ca_gen set_ca_cache]. rewrite Z.eqb_refl. unfold certFor_put, update.
  repeat (split; [done|]). rewrite <- Hg. cbn. unfold cache_put. case_bool_decide; [done|]. by destruct (evict _ _ _ _).
Qed.

Lemma run_ca_signing ev c : signing_ca c -> signing_ca (run_ca_event ev c).
Proof.
  intros (H1 & H2 & H3 & H4 & H5). destruct ev as [sni target serial now|cert key]; cbn [run_ca_event].
  - destruct (certFor_material sni target serial now c) as (E1 & E2 & E3 & E4). unfold signing_ca. by rewrite E1, E2, E3, E4.
  - unfold Rotate. destruct (Rotate_check cert key) as [[cert' key']|e] eqn:E; [|done].
    unfold Rotate_check in E. destruct cert as [cert|], key as [key|]; simplify_eq.
    destruct (ca_IsCA cert) eqn:Ec, (ca_CertSign cert) eqn:Es; simplify_eq/=. destruct (publicKeysEqual _ _) eqn:Ek; simplify_eq/=.
    apply String.eqb_eq in Ek. done.
Qed.

(** The block page can always sign: a CA that was loaded from files has a CA
    certificate with the certSign usage and the private key that belongs to it, and
    keeps that, together with a cache that can hold a leaf and a positive leaf
    lifetime, through every handshake and every attempt to rotate, refused ones
    included. *)
Theorem loaded_ca_always_signs {K} as_Signer dec parse (ec p8 p1 : string -> option K) ReadFile certPath keyPath opts b
    (c0 : CA) (l : list ca_event) :
  LoadCA K as_Signer dec parse ec p8 p1 ReadFile certPath keyPath opts b = Ok c0 ->
  signing_ca (foldl (fun c ev => run_ca_event ev c) c0 l).
Proof.
  intros [H _]%LoadCA_signing. revert c0 H. induction l as [|ev l IH]; intros c0 H; [done|]. by apply IH, run_ca_signing.
Qed.

Lemma NewCA_ok cert key opts b c t : NewCA cert key opts b = Ok c -> ca_ok t c.
Proof.
  unfold NewCA. intros H. repeat case_match; try done. simplify_eq. split; [|done]. simpl.
  destruct (Z.leb_spec (LeafTTL opts) 0); [by vm_compute|lia].
Qed.

(** A leaf of the CA that is fresh, or was made just now, fits. *)
Lemma leaf_for_fits c name now x :
  0 < LeafTTL (ca_opts c) -> leaf_for name (ca_cert c) (ca_key c) (LeafTTL (ca_opts c)) now x ->
  leafFresh now x = true \/ (exists leaf, tls_Leaf x = Some leaf /\ NotAfter leaf = now + LeafTTL (ca_opts c)) ->
  fits c name now x.
Proof.
  intros Httl (s & minted & isIP & Hm & Hl & Hs & Hi & Hp) Hf.
  split; [done|]. eexists. split; [exact Hl|]. split; [done|]. split; [exact Hs|].
  split; [unfold leafTemplate; simpl; rewrite Hp; by destruct (net.ParseIP name)|].
  unfold leafTemplate in *. cbn [NotBefore NotAfter]. unfold time.Add.
  assert (now + leafRenewBefore < minted + LeafTTL (ca_opts c) \/ minted + LeafTTL (ca_opts c) = now + LeafTTL (ca_opts c)) as Hna.
  { destruct Hf as [Hf|(leaf & Hlf & Hna)].
    - left. unfold leafFresh in Hf. rewrite Hl in Hf. cbn [NotAfter] in Hf. unfold time.Before, time.Add in Hf. by apply Z.ltb_lt in Hf.
    - right. rewrite Hl in Hlf. injection Hlf as <-. exact Hna. }
  unfold leafRenewBefore, time.Minute, time.Second in *. split; [split; [lia|]|]; destruct Hna; lia.
Qed.

(** The certificate a device is shown fits: after any history of completed
    handshakes and rotations, a handshake that gets a certificate gets one for
    exactly the requested name, as a DNS or an IP entry as the name demands,
    signed by the CA of that moment, already valid, and not about to expire
    unless leaves are configured to live for less than a minute. *)
Theorem served_leaf_fits (cert : option CACert) (key : option Signer) (opts : Options) (b : bool) (c0 : CA) (t : Z)
    (l : list ca_event) (sni target : string) (serial : option Z) (now : Z) (x : TLSCert) :
  NewCA cert key opts b = Ok c0 -> ca_ordered t l -> ca_clock t l <= now ->
  let c := foldl (fun c ev => run_ca_event ev c) c0 l in
  fst (certFor sni target serial now c) = Ok x ->
  fits c (fst (leafIdentity sni target)) now x.
Proof.
  intros Hn Ho Hnow c Hx. pose proof (run_ca_ok l t c0 Ho (NewCA_ok _ _ _ _ _ t Hn)) as Hok. fold c in Hok.
  pose proof (certFor_spec sni target serial now _ c Hok Hnow) as H. destruct (certFor sni target serial now c) as [r c'].
  simpl in Hx. destruct H as (_ & _ & _ & _ & H). destruct (H x Hx) as [Hl Hf]. apply leaf_for_fits; [apply Hok|done..].
Qed.

(** The generation check does not close the race it is there for: a handshake
    that passed the check just before a rotation stores its leaf after the purge,
    and the next handshake for that name is served a certificate of the retired
    CA although the rotation has completed. *)
Theorem retired_leaf_reaches_the_cache (c : CA) (sni target : string) (serial : Z) (now later : Z) (old_der : string)
    (cert : CACert) (key : Signer) (serial' : option Z) :
  let '(name, isIP) := leafIdentity sni target in
  sign (leafTemplate name isIP serial now (LeafTTL (ca_opts c))) (ca_cert c) (ca_key c) = Some old_der ->
  Rotate_check (Some cert) (Some key) = Ok (cert, key) -> (0 < cc_max (ca_cache c))%nat ->
  later + leafRenewBefore < now + LeafTTL (ca_opts c) ->
  let '(minted, c1) := mint name isIP (Some serial) now c in
  match minted with
  | Err _ => False
  | Ok (leaf, gen) =>
      let '(current, c2) := certFor_current gen c1 in
      let c3 := snd (Rotate (Some cert) (Some key) c2) in
      let c4 := snd ((if (current : bool) then certFor_put name leaf else mret tt) c3) in
      ca_cert c4 = cert /\ fst (certFor sni target serial' later c4) = Ok leaf /\ tls_issuer leaf = ca_DER (ca_cert c)
  end.
Proof.
  destruct (leafIdentity sni target) as [name isIP] eqn:Eid. intros Hs Hr Hmax Hfresh. unfold mint, mint_material, mint_leaf, mbind, ST_bind, mret, ST_ret, gets. rewrite Hs.
  unfold certFor_current, gets. rewrite Z.eqb_refl. unfold Rotate. rewrite Hr.
  unfold mbind, ST_bind, Rotate_swap, Rotate_purge, certFor_put, update. cbn [snd]. split; [done|]. split; [|done].
  unfold certFor. rewrite Eid. unfold certFor_lookup, certFor_get, mbind, ST_bind. cbn [ca_cache set_ca_cache set_material].
  unfold mret, ST_ret. cbn [snd ca_cache set_ca_cache set_material].
  pose proof (put_then_get name (mkTLSCert old_der (ca_DER (ca_cert c)) (Some (leafTemplate name isIP serial now (LeafTTL (ca_opts c)))))
    (cc_max (ca_cache c)) (hits (ca_cache c)) (misses (ca_cache c)) Hmax) as Hg.
  unfold cache_purge. destruct (cache_get name _) as [found cache]. cbn [fst] in Hg. subst found.
  unfold certFor_fresh, leafFresh. cbn [tls_Leaf]. unfold leafTemplate. cbn [NotAfter]. unfold time.Before, time.Add.
  by rewrite (proj2 (Z.ltb_lt _ _) Hfresh).
Qed.
End mint.

(** ** The theorems at a concrete CA *)

Section examples.
Definition ex_sign (t : Template) (c : CACert) (k : Signer) : option string := Some (ca_CN c +:+ "/" +:+ CommonName t)%string.
Definition ex_ca_cert (cn : string) : CACert := mkCACert cn true true cn "pub".
Definition ex_signer : Signer := mkSigner "priv" "pub".
Definition ex_ca : CA := mkCA (ex_ca_cert "old") ex_signer 0 (newCertCache 10) (mkOptions (2 * time.Hour) 10).
Definition ex_leaf (cn host : string) (serial now : Z) : TLSCert :=
  mkTLSCert (cn +:+ "/" +:+ host)%string cn (Some (leafTemplate host false serial now (2 * time.Hour))).

Lemma served_leaf_fits_witness :
  exists leaf, tls_Leaf (ex_leaf "new" "example.com" 7 20) = Some leaf /\ CommonName leaf = "example.com" /\
    NotBefore leaf + leafBackdate <= 20 < NotAfter leaf.
Proof.
  destruct (served_leaf_fits ex_sign (Some (ex_ca_cert "old")) (Some ex_signer) (mkOptions (2 * time.Hour) 10) true ex_ca 0
    [EvHandshake "example.com" "" (Some 1) 5; EvRotate (Some (ex_ca_cert "new")) (Some ex_signer)]
    "Example.COM." "1.2.3.4:443" (Some 7) 20 (ex_leaf "new" "example.com" 7 20))
    as (_ & leaf & Hl & Hn & _ & _ & Hv & _); [by vm_compute|by vm_compute|by vm_compute|by vm_compute|].
  exists leaf. done.
Defined.

Lemma loaded_ca_always_signs_witness :
  signing_ca (foldl (fun c ev => run_ca_event ex_sign ev c) ex_ca
    [EvHandshake "example.com" "" (Some 1) 5; EvRotate (Some (ex_ca_cert "new")) None]).
Proof.
  apply (loaded_ca_always_signs ex_sign (fun k : Signer => Some k) (fun pem => Some (pem, "bytes")%string)
    (fun _ => Some (ex_ca_cert "old")) (fun _ => Some ex_signer) (fun _ => Some ex_signer) (fun _ => Some ex_signer)
    (fun path => Some path) "CERTIFICATE" "PRIVATE KEY" (mkOptions (2 * time.Hour) 10) true). by vm_compute.
Defined.

Lemma retired_leaf_reaches_the_cache_witness :
  let leaf := ex_leaf "old" "example.com" 7 20 in
  let c := snd (Rotate (Some (ex_ca_cert "new")) (Some ex_signer) ex_ca) in
  fst (certFor ex_sign "example.com" "" (Some 8) 30 (snd (certFor_put "example.com" leaf c))) = Ok leaf /\
  ca_cert c = ex_ca_cert "new" /\ tls_issuer leaf = "old".
Proof.
  pose proof (retired_leaf_reaches_the_cache ex_sign ex_ca "example.com" "" 7 20 30 "old/example.com" (ex_ca_cert "new")
    ex_signer (Some 8)) as H.
  change (leafIdentity "example.com" "") with ("example.com", false) in H. cbv iota beta in H.
  destruct H as (_ & H & _); [by vm_compute|by vm_compute|by vm_compute; lia|by vm_compute|]. done.
Defined.
End examples.
