(* ===== verification/Minting.v ===== *)
(** * Handshakes and rotations that overlap (certFor and Rotate of pkg/mitm)

    A handshake looks into the cache, reads the clock to judge what it found, otherwise
    reads the material under the lock of the CA, reads the clock and signs, compares
    generations under the lock again and stores the leaf; a rotation swaps the material
    and then empties the cache.  Each of these is a step here and steps of different
    goroutines come in any order; [certFor] of Mitm is the run with nothing in between
    ([certFor_in_steps]), and so is its [Rotate] ([Rotate_in_steps]). *)

From S2P Require Import Prelude GoStrings GoTime GoNet GoHTTP Bypass CertCache Mitm.

Open Scope list_scope.

(** How far a handshake has come: it found a leaf in the cache, found none, has read
    the CA's material, has made a leaf, or may store it. *)
Inductive flight_step :=
| Found (x : TLSCert)
| MustMint
| Taken (serial : Z) (material : CACert * Signer * Z)
| Minted (x : TLSCert) (gen : Z)
| MayPut (x : TLSCert).

Record flight := mkFlight { fl_sni : string; fl_target : string; fl_step : flight_step }.

(** What a call of [certFor] returned. *)
Record answer := mkAnswer { an_sni : string; an_target : string; an_result : result ca_error TLSCert }.

(** The CA, the handshakes under way, the rotations that still have to empty the
    cache, and the answers so far. *)
Record minting := mkMinting {
  mt_ca : CA;
  mt_flights : gmap nat flight;
  mt_purges : nat;
  mt_answers : list answer;
}.

Inductive mint_event :=
| Looks (id : nat) (sni target : string)
| Judges (id : nat) (now : Z)
| Takes (id : nat) (serial : option Z)
| Signs (id : nat) (now : Z)
| Compares (id : nat)
| Puts (id : nat)
| Swaps (cert : option CACert) (key : option Signer)
| Purges.

Definition start_minting (c : CA) : minting := mkMinting c ∅ 0 [].

Section minting.
Context (sign : Template -> CACert -> Signer -> option string).

(** The handshake goes on with the CA as it is now, or returns. *)
Definition goes_on (id : nat) (sni target : string) (st : flight_step) (c : CA) (s : minting) : minting :=
  mkMinting c (<[id := mkFlight sni target st]> (mt_flights s)) (mt_purges s) (mt_answers s).
Definition returns (id : nat) (sni target : string) (r : result ca_error TLSCert) (c : CA) (s : minting) : minting :=
  mkMinting c (delete id (mt_flights s)) (mt_purges s) (mt_answers s ++ [mkAnswer sni target r]).

Definition mint_step (ev : mint_event) (s : minting) : minting :=
  match ev with
  | Looks id sni target =>
      match mt_flights s !! id with
      | Some _ => s
      | None =>
          match certFor_get (fst (leafIdentity sni target)) (mt_ca s) with
          | (Some x, c) => goes_on id sni target (Found x) c s
          | (None, c) => goes_on id sni target MustMint c s
          end
      end
  | Judges id now =>
      match mt_flights s !! id with
      | Some (mkFlight sni target (Found x)) =>
          match certFor_fresh now (Some x) with
          | Some x => returns id sni target (Ok x) (mt_ca s) s
          | None => goes_on id sni target MustMint (mt_ca s) s
          end
      | _ => s
      end
  | Takes id serial =>
      match mt_flights s !! id with
      | Some (mkFlight sni target MustMint) =>
          match serial with
          | None => returns id sni target (Err SerialFailed) (mt_ca s) s
          | Some serial => let '(material, c) := mint_material (mt_ca s) in goes_on id sni target (Taken serial material) c s
          end
      | _ => s
      end
  | Signs id now =>
      match mt_flights s !! id with
      | Some (mkFlight sni target (Taken serial material)) =>
          let '(name, isIP) := leafIdentity sni target in
          match mint_leaf sign name isIP serial now (LeafTTL (ca_opts (mt_ca s))) material with
          | Err e => returns id sni target (Err e) (mt_ca s) s
          | Ok (x, gen) => goes_on id sni target (Minted x gen) (mt_ca s) s
          end
      | _ => s
      end
  | Compares id =>
      match mt_flights s !! id with
      | Some (mkFlight sni target (Minted x gen)) =>
          match certFor_current gen (mt_ca s) with
          | (true, c) => goes_on id sni target (MayPut x) c s
          | (false, c) => returns id sni target (Ok x) c s
          end
      | _ => s
      end
  | Puts id =>
      match mt_flights s !! id with
      | Some (mkFlight sni target (MayPut x)) => returns id sni target (Ok x) (snd (certFor_put (fst (leafIdentity sni target)) x (mt_ca s))) s
      | _ => s
      end
  | Swaps cert key =>
      match Rotate_check cert key with
      | Err _ => s
      | Ok (cert, key) => mkMinting (snd (Rotate_swap cert key (mt_ca s))) (mt_flights s) (S (mt_purges s)) (mt_answers s)
      end
  | Purges =>
      match mt_purges s with
      | O => s
      | S n => mkMinting (snd (Rotate_purge (mt_ca s))) (mt_flights s) n (mt_answers s)
      end
  end.

Definition run_minting (l : list mint_event) (s : minting) : minting := foldl (fun s ev => mint_step ev s) s l.

Lemma run_minting_snoc l ev s : run_minting (l ++ [ev]) s = mint_step ev (run_minting l s).
Proof. unfold run_minting. by rewrite foldl_app. Qed.

(** ** Without overlaps *)

(** The steps that go on until the handshake has returned. *)
Definition steps_of (id : nat) (serial : option Z) (now : Z) : list mint_event :=
  [Judges id now; Takes id serial; Signs id now; Compares id; Puts id].

Lemma returned_stays id serial now ev s : ev ∈ steps_of id serial now -> mt_flights s !! id = None -> mint_step ev s = s.
Proof.
  intros H Hid. unfold steps_of in H.
  repeat (apply elem_of_cons in H as [->|H]; [cbn [mint_step]; by rewrite Hid|]). by apply elem_of_nil in H.
Qed.

(** The steps of one handshake in a row are [certFor]. *)
Lemma certFor_in_steps id sni target serial now s :
  mt_flights s !! id = None ->
  run_minting (Looks id sni target :: steps_of id serial now) s =
  mkMinting (snd (certFor sign sni target serial now (mt_ca s))) (mt_flights s) (mt_purges s)
    (mt_answers s ++ [mkAnswer sni target (fst (certFor sign sni target serial now (mt_ca s)))]).
Proof.
  intros Hid. destruct s as [c fl n ans]. cbn [mt_flights mt_ca mt_purges mt_answers] in *.
  assert (forall ev c' n' ans', ev ∈ steps_of id serial now -> mint_step ev (mkMinting c' fl n' ans') = mkMinting c' fl n' ans') as Hstay
    by (intros ev c' n' ans' Hev; by eapply returned_stays).
  assert (forall f, delete id (<[id := f]> fl) = fl) as Hd by (intros f; rewrite delete_insert_eq; by apply delete_id).
  unfold certFor. destruct (leafIdentity sni target) as [name isIP] eqn:Eid. unfold certFor_lookup, mbind, ST_bind, mret, ST_ret.
  unfold run_minting, steps_of. cbn [foldl]. unfold mint_step at 6. cbn [mt_flights mt_ca]. rewrite Hid, Eid. cbn [fst].
  unfold goes_on, returns. cbn [mt_flights mt_purges mt_answers].
  destruct (certFor_get name c) as [found c1].
  assert (forall fl', fl' = <[id := mkFlight sni target MustMint]> fl ->
    run_minting [Takes id serial; Signs id now; Compares id; Puts id] (mkMinting c1 fl' n ans) =
    let r := (minted ← mint sign name isIP serial now;
      match minted with
      | Err e => mret (Err e)
      | Ok (cert, gen) => current ← certFor_current gen; _ ← (if (current : bool) then certFor_put name cert else mret tt); mret (Ok cert)
      end) c1 in
    mkMinting (snd r) fl n (ans ++ [mkAnswer sni target (fst r)])) as Hmint.
  { intros fl' ->. unfold run_minting. cbn [foldl]. unfold mint_step at 4. cbn [mt_flights mt_ca]. rewrite lookup_insert_eq.
    unfold goes_on, returns. cbn [mt_flights mt_purges mt_answers]. unfold mint, mint_material, gets, mbind, ST_bind, mret, ST_ret. destruct serial as [serial|].
    2: { rewrite Hd. rewrite !Hstay by (unfold steps_of; set_solver). done. }
    rewrite insert_insert_eq. unfold mint_step at 3. cbn [mt_flights mt_ca]. rewrite lookup_insert_eq, Eid. unfold goes_on, returns. cbn [mt_flights mt_purges mt_answers].
    destruct (mint_leaf sign name isIP serial now _ _) as [[x gen]|e].
    2: { rewrite Hd. rewrite !Hstay by (unfold steps_of; set_solver). done. }
    rewrite insert_insert_eq. unfold mint_step at 2. cbn [mt_flights mt_ca]. rewrite lookup_insert_eq. unfold goes_on, returns, certFor_current, gets. cbn [mt_flights mt_purges mt_answers].
    destruct (ca_gen c1 =? gen).
    2: { rewrite Hd. rewrite !Hstay by (unfold steps_of; set_solver). done. }
    rewrite insert_insert_eq. unfold mint_step. cbn [mt_flights mt_ca]. rewrite lookup_insert_eq, Eid. unfold returns. cbn [fst mt_flights mt_purges mt_answers].
    rewrite Hd. by destruct (certFor_put name x c1) as [[] c3]. }
  destruct found as [x|]; cbn [certFor_fresh].
  - unfold mint_step at 5. cbn [mt_flights mt_ca]. rewrite lookup_insert_eq. unfold goes_on, returns. cbn [mt_flights mt_purges mt_answers certFor_fresh].
    destruct (leafFresh now x); [rewrite Hd; by rewrite !Hstay by (unfold steps_of; set_solver)|]. rewrite insert_insert_eq. exact (Hmint _ eq_refl).
  - unfold mint_step at 5. cbn [mt_flights mt_ca]. rewrite lookup_insert_eq. exact (Hmint _ eq_refl).
Qed.

(** And the steps of one rotation are [Rotate], when no other is half done. *)
Lemma Rotate_in_steps cert key s :
  mt_purges s = O ->
  run_minting [Swaps cert key; Purges] s = mkMinting (snd (Rotate cert key (mt_ca s))) (mt_flights s) O (mt_answers s).
Proof.
  intros Hp. destruct s as [c fl n ans]. cbn [mt_purges] in Hp. subst n. unfold run_minting, Rotate. cbn [foldl mint_step mt_ca].
  by destruct (Rotate_check cert key) as [[cert' key']|e].
Qed.

(** ** Any order *)

(** When a handshake reads the clock; clocks do not run backwards. *)
Definition instant (ev : mint_event) : option Z :=
  match ev with Judges _ now | Signs _ now => Some now | _ => None end.

Fixpoint mint_ordered (t : Z) (l : list mint_event) : Prop :=
  match l with
  | [] => True
  | ev :: l' => match instant ev with Some now => t <= now /\ mint_ordered now l' | None => mint_ordered t l' end
  end.

Fixpoint mint_clock (t : Z) (l : list mint_event) : Z :=
  match l with [] => t | ev :: l' => mint_clock (default t (instant ev)) l' end.

Lemma mint_ordered_snoc t l ev :
  mint_ordered t (l ++ [ev]) -> mint_ordered t l /\ match instant ev with Some now => mint_clock t l <= now | None => True end.
Proof.
  revert t. induction l as [|e l IH]; intros t; cbn [app mint_ordered mint_clock].
  - destruct (instant ev); tauto.
  - destruct (instant e) as [now|]; cbn [default]; [|apply IH]. intros [H1 H2%IH]. tauto.
Qed.

Lemma mint_clock_snoc t l ev : mint_clock t (l ++ [ev]) = default (mint_clock t l) (instant ev).
Proof. revert t. induction l as [|e l IH]; intros t; cbn [app mint_clock]; [done|apply IH]. Qed.

(** The steps that choose the certificate: the look that finds it, or the reading of
    the material it is made with. *)
Definition chooses (ev : mint_event) : bool := match ev with Looks _ _ _ | Takes _ _ => true | _ => false end.

Section history.
Variable c0 : CA.

Definition after (l : list mint_event) : minting := run_minting l (start_minting c0).
Definition ca_after (l : list mint_event) : CA := mt_ca (after l).
Definition material_after (l : list mint_event) : CACert * Signer * Z := fst (mint_material (ca_after l)).

(** No rotation comes between a handshake's look at the generation and its store, and
    the generation has not come round. *)
Definition no_late_put (l : list mint_event) : Prop :=
  Z.of_nat (length l) < 2 ^ 64 /\
  forall l1 cert key ck l2, l = l1 ++ Swaps cert key :: l2 -> Rotate_check cert key = Ok ck ->
    forall id f x, mt_flights (after l1) !! id = Some f -> fl_step f <> MayPut x.

(** The name a handshake asks for. *)
Definition asked_name (a : answer) : string := fst (leafIdentity (an_sni a) (an_target a)).

(** A returned certificate was chosen at some point of the history, and at a clock
    read after that it fits the CA of some moment up to that point: the CA of that
    very point, unless a rotation was half done then or overtook a store. *)
Definition decided (l : list mint_event) (a : answer) : Prop :=
  forall x, an_result a = Ok x ->
  exists l1 ev l2 now, l = l1 ++ ev :: l2 /\ chooses ev = true /\ now ∈ omap instant l2 /\
    (exists l', l' `prefix_of` l1 /\ fits sign (ca_after l') (asked_name a) now x) /\
    (no_late_put l -> mt_purges (after l1) = O -> fits sign (ca_after l1) (asked_name a) now x).

(** A leaf of the CA after a history, of the CA of some moment of it, and one that was
    chosen but whose clock is still to be read. *)
Definition leaf_of (l : list mint_event) (t : Z) (name : string) (x : TLSCert) : Prop :=
  leaf_for sign name (ca_cert (ca_after l)) (ca_key (ca_after l)) (LeafTTL (ca_opts c0)) t x.

Definition once_leaf (l : list mint_event) (t : Z) (name : string) (x : TLSCert) : Prop := exists l', l' `prefix_of` l /\ leaf_of l' t name x.

Definition candidate (l : list mint_event) (t : Z) (name : string) (x : TLSCert) : Prop :=
  exists l1 ev l2, l = l1 ++ ev :: l2 /\ chooses ev = true /\ once_leaf l1 t name x /\
    (no_late_put l -> mt_purges (after l1) = O -> leaf_of l1 t name x).

(** What holds of a handshake under way. *)
Definition flight_ok (l : list mint_event) (t : Z) (f : flight) : Prop :=
  let name := fst (leafIdentity (fl_sni f) (fl_target f)) in
  match fl_step f with
  | Found x => candidate l t name x
  | MustMint => True
  | Taken serial m => (exists l1 ev l2, l = l1 ++ ev :: l2 /\ chooses ev = true /\ material_after l1 = m) /\
      (no_late_put l -> snd m <= snd (material_after l) /\ (snd m = snd (material_after l) -> m = material_after l))
  | Minted x gen => decided l (mkAnswer (fl_sni f) (fl_target f) (Ok x)) /\ once_leaf l t name x /\
      (no_late_put l -> gen <= snd (material_after l) /\ (gen = snd (material_after l) -> leaf_of l t name x))
  | MayPut x => decided l (mkAnswer (fl_sni f) (fl_target f) (Ok x)) /\ once_leaf l t name x /\ (no_late_put l -> leaf_of l t name x)
  end.

Record consistent (t : Z) (l : list mint_event) : Prop := {
  co_gen : Z.of_nat (length l) < 2 ^ 64 -> 0 <= ca_gen (ca_after l) <= Z.of_nat (length l);
  co_cache : forall name x, lookup_key name (order (ca_cache (ca_after l))) = Some x ->
    once_leaf l t name x /\ (no_late_put l -> mt_purges (after l) = O -> leaf_of l t name x);
  co_flights : forall id f, mt_flights (after l) !! id = Some f -> flight_ok l t f;
  co_answers : Forall (decided l) (mt_answers (after l));
}.

Lemma after_snoc l ev : after (l ++ [ev]) = mint_step ev (after l).
Proof. apply run_minting_snoc. Qed.

Lemma no_late_put_app l l2 : no_late_put (l ++ l2) -> no_late_put l.
Proof.
  intros [H1 H2]. rewrite length_app in H1. split; [lia|]. intros l1 cert key ck l3 ->. apply (H2 l1 cert key ck (l3 ++ l2)). by rewrite <- app_assoc.
Qed.

Lemma decided_app l l2 a : decided l a -> decided (l ++ l2) a.
Proof.
  intros Hd x Hx. destruct (Hd x Hx) as (l1 & ev & l3 & now & -> & Hi & Hn & Hp & Hc). exists l1, ev, (l3 ++ l2), now.
  rewrite <- app_assoc. split; [done|]. split; [done|]. split; [rewrite omap_app; by apply elem_of_app; left|]. split; [done|].
  intros Hl. apply Hc. eapply no_late_put_app. by rewrite <- app_assoc.
Qed.

Lemma once_leaf_app l l2 t t' name x : t <= t' -> once_leaf l t name x -> once_leaf (l ++ l2) t' name x.
Proof. intros Ht (l' & Hp & Hl). exists l'. split; [by apply prefix_app_r|]. by eapply leaf_for_later. Qed.

Lemma candidate_app l l2 t t' name x : t <= t' -> candidate l t name x -> candidate (l ++ l2) t' name x.
Proof.
  intros Ht (l1 & ev & l3 & -> & Hi & Ho & Hc). exists l1, ev, (l3 ++ l2). rewrite <- app_assoc. split; [done|]. split; [done|]. split.
  - rewrite <- (app_nil_r l1). by eapply once_leaf_app.
  - intros Hn Hz. eapply leaf_for_later; [done|]. apply Hc; [|done]. eapply no_late_put_app. by rewrite <- app_assoc.
Qed.

(** The same material afterwards. *)
Definition same_material (l l' : list mint_event) : Prop := material_after l' = material_after l.

Lemma leaf_of_same l l' t t' name x : t <= t' -> same_material l l' -> leaf_of l t name x -> leaf_of l' t' name x.
Proof. intros Ht [= E1 E2 _] H. unfold leaf_of. rewrite E1, E2. by eapply leaf_for_later. Qed.

Lemma flight_ok_later l l2 t t' f : t <= t' -> same_material l (l ++ l2) -> flight_ok l t f -> flight_ok (l ++ l2) t' f.
Proof.
  intros Ht Hm. unfold flight_ok. destruct (fl_step f) as [x| |serial m|x gen|x]; [by apply candidate_app|done|..].
  - intros [(l1 & ev & l3 & -> & H1 & H2) H3]. split; [exists l1, ev, (l3 ++ l2); by rewrite <- app_assoc|].
    rewrite Hm. intros Hn%no_late_put_app. by apply H3.
  - intros (H1 & H2 & H3). split; [by apply decided_app|]. split; [by eapply once_leaf_app|]. rewrite Hm. intros Hn%no_late_put_app.
    destruct (H3 Hn) as [H4 H5]. split; [done|]. intros E. by eapply leaf_of_same; [..|apply H5].
  - intros (H1 & H2 & H3). split; [by apply decided_app|]. split; [by eapply once_leaf_app|]. intros Hn%no_late_put_app.
    by eapply leaf_of_same; [..|apply H3].
Qed.

(** A step that leaves the material alone: what it adds to the cache, to the handshakes
    and to the answers has to be shown. *)
Lemma consistent_same t t' l ev (extra : list answer) :
  consistent t l -> t <= t' -> same_material l (l ++ [ev]) ->
  mt_purges (after (l ++ [ev])) = mt_purges (after l) \/ order (ca_cache (ca_after (l ++ [ev]))) = [] ->
  (forall name x, lookup_key name (order (ca_cache (ca_after (l ++ [ev])))) = Some x ->
     lookup_key name (order (ca_cache (ca_after l))) = Some x \/ once_leaf l t' name x /\ (no_late_put l -> leaf_of l t' name x)) ->
  (forall id f, mt_flights (after (l ++ [ev])) !! id = Some f -> mt_flights (after l) !! id = Some f \/ flight_ok (l ++ [ev]) t' f) ->
  mt_answers (after (l ++ [ev])) = mt_answers (after l) ++ extra -> Forall (decided (l ++ [ev])) extra ->
  consistent t' (l ++ [ev]).
Proof.
  intros [Hg Hc Hf Ha] Ht Hm Hp Hcache Hflights Hans Hextra. pose proof Hm as [= _ _ Eg]. split.
  - rewrite length_app, Eg. simpl. intros H. assert (Z.of_nat (length l) < 2 ^ 64) as H1%Hg by lia. lia.
  - intros name x Hx. destruct Hp as [Hp|Hp]; [|rewrite Hp in Hx; discriminate Hx]. destruct (Hcache name x Hx) as [H|[H1 H2]].
    + destruct (Hc name x H) as [H1 H2]. split; [by eapply once_leaf_app|]. intros Hn%no_late_put_app. rewrite Hp. intros H0. by eapply leaf_of_same; [..|apply H2].
    + split; [by eapply once_leaf_app; [|exact H1]|]. intros Hn%no_late_put_app _. eapply leaf_of_same; [|done|by apply H2]. lia.
  - intros id f Hid. destruct (Hflights id f Hid) as [H|H]; [|done]. eapply flight_ok_later; [done|done|by eapply Hf].
  - rewrite Hans. apply Forall_app. split; [|done]. eapply Forall_impl; [exact Ha|]. intros a. apply decided_app.
Qed.

Lemma opts_after l : ca_opts (ca_after l) = ca_opts c0.
Proof.
  induction l as [|ev l IH] using rev_ind; [done|]. rewrite <- IH. unfold ca_after. rewrite after_snoc.
  destruct ev as [id sni target|id now|id serial|id now|id|id|cert key|]; cbn [mint_step].
  - destruct (mt_flights _ !! id); [done|]. unfold certFor_get. by destruct (cache_get _ _) as [[] ?].
  - destruct (mt_flights _ !! id) as [[sni target []]|]; try done. by destruct (certFor_fresh _ _).
  - destruct (mt_flights _ !! id) as [[sni target []]|]; try done. by destruct serial.
  - destruct (mt_flights _ !! id) as [[sni target []]|]; try done. destruct (leafIdentity _ _). by destruct (mint_leaf _ _ _ _ _ _ _) as [[]|].
  - destruct (mt_flights _ !! id) as [[sni target []]|]; try done. unfold certFor_current, gets. by destruct (_ =? _).
  - by destruct (mt_flights _ !! id) as [[sni target []]|].
  - by destruct (Rotate_check cert key) as [[]|].
  - by destruct (mt_purges (after l)).
Qed.

Lemma leaf_of_fits l t t' name x :
  0 < LeafTTL (ca_opts c0) -> leaf_of l t name x -> t <= t' ->
  leafFresh t' x = true \/ (exists leaf, tls_Leaf x = Some leaf /\ NotAfter leaf = t' + LeafTTL (ca_opts c0)) ->
  fits sign (ca_after l) name t' x.
Proof. intros Httl H1 Ht H2. apply leaf_for_fits; rewrite ?opts_after; [done| |done]. by eapply leaf_for_later. Qed.

Section step.
Hypothesis Httl : 0 < LeafTTL (ca_opts c0).

Variables (t : Z) (l : list mint_event).
Hypothesis Hok : consistent t l.

(** What a step does with the handshake it belongs to. *)
Lemma step_nothing ev t' : t <= t' -> mint_step ev (after l) = after l -> consistent t' (l ++ [ev]).
Proof.
  intros Ht E. assert (after (l ++ [ev]) = after l) as Ea by (by rewrite after_snoc).
  apply (consistent_same t t' l ev []); unfold same_material, material_after, ca_after; rewrite ?Ea; [done|done|done|by left|by left|by left|by rewrite app_nil_r|constructor].
Qed.

Lemma step_goes_on ev t' id sni target st c :
  t <= t' -> after (l ++ [ev]) = goes_on id sni target st c (after l) -> fst (mint_material c) = material_after l ->
  (forall name x, lookup_key name (order (ca_cache c)) = Some x -> lookup_key name (order (ca_cache (ca_after l))) = Some x) ->
  (material_after (l ++ [ev]) = material_after l -> flight_ok (l ++ [ev]) t' (mkFlight sni target st)) ->
  consistent t' (l ++ [ev]).
Proof.
  intros Ht Ea Em Hcache Hf. assert (material_after (l ++ [ev]) = material_after l) as Hm by (unfold material_after, ca_after; by rewrite Ea).
  specialize (Hf Hm). apply (consistent_same t t' l ev []); [done|done|done|left; by rewrite Ea| | |by rewrite Ea, app_nil_r|constructor].
  - intros name x. unfold ca_after at 1. rewrite Ea. intros Hx. left. by apply Hcache.
  - intros i f. rewrite Ea. cbn [goes_on mt_flights]. intros [[<- <-]|[_ H]]%lookup_insert_Some; [by right|by left].
Qed.

Lemma step_returns ev t' id sni target r c :
  t <= t' -> after (l ++ [ev]) = returns id sni target r c (after l) -> fst (mint_material c) = material_after l ->
  (forall name x, lookup_key name (order (ca_cache c)) = Some x ->
     lookup_key name (order (ca_cache (ca_after l))) = Some x \/ once_leaf l t' name x /\ (no_late_put l -> leaf_of l t' name x)) ->
  decided (l ++ [ev]) (mkAnswer sni target r) -> consistent t' (l ++ [ev]).
Proof.
  intros Ht Ea Em Hcache Hd. assert (material_after (l ++ [ev]) = material_after l) as Hm by (unfold material_after, ca_after; by rewrite Ea).
  apply (consistent_same t t' l ev [mkAnswer sni target r]); [done|done|done|left; by rewrite Ea| | |by rewrite Ea|by apply Forall_singleton].
  - intros name x. unfold ca_after at 1. rewrite Ea. apply Hcache.
  - intros i f. rewrite Ea. cbn [returns mt_flights]. intros [_ H]%lookup_delete_Some. by left.
Qed.

Lemma step_looks id sni target : consistent t (l ++ [Looks id sni target]).
Proof.
  set (ev := Looks id sni target). destruct (mt_flights (after l) !! id) as [f|] eqn:Ef;
    [apply step_nothing; [lia|]; cbn [ev mint_step]; by rewrite Ef|].
  assert (after (l ++ [ev]) = match certFor_get (fst (leafIdentity sni target)) (ca_after l) with
    | (Some x, c) => goes_on id sni target (Found x) c (after l) | (None, c) => goes_on id sni target MustMint c (after l) end) as Ea
    by (rewrite after_snoc; cbn [ev mint_step]; by rewrite Ef).
  unfold certFor_get in Ea. set (name := fst (leafIdentity sni target)) in Ea.
  pose proof (cache_get_found name (ca_cache (ca_after l))) as Hfound. pose proof (cache_get_lookup name (ca_cache (ca_after l))) as Hcache.
  destruct (cache_get name (ca_cache (ca_after l))) as [[x|] cache]; cbn [fst snd] in *;
    (eapply step_goes_on; [reflexivity|exact Ea|done|done|]); intros _; cbn [flight_ok fl_step]; [|done].
  destruct (co_cache _ _ Hok name x (Hfound x eq_refl)) as [H1 H2]. exists l, ev, []. split; [done|]. split; [done|]. split; [done|].
  intros Hn%no_late_put_app. by apply H2.
Qed.

Lemma step_judges id now : t <= now -> consistent now (l ++ [Judges id now]).
Proof.
  intros Ht. set (ev := Judges id now). destruct (mt_flights (after l) !! id) as [[sni target st]|] eqn:Ef;
    [|apply step_nothing; [done|]; cbn [ev mint_step]; by rewrite Ef].
  destruct st as [x| | | |]; try (apply step_nothing; [done|]; cbn [ev mint_step]; by rewrite Ef).
  assert (after (l ++ [ev]) = match certFor_fresh now (Some x) with
    | Some x => returns id sni target (Ok x) (ca_after l) (after l) | None => goes_on id sni target MustMint (ca_after l) (after l) end) as Ea
    by (rewrite after_snoc; cbn [ev mint_step]; by rewrite Ef).
  cbn [certFor_fresh] in Ea. destruct (leafFresh now x) eqn:Efr; [|by eapply step_goes_on; [exact Ht|exact Ea|..]].
  eapply step_returns; [exact Ht|exact Ea|done|by left|]. intros y [= <-].
  destruct (co_flights _ _ Hok id _ Ef) as (l1 & ev1 & l2 & El & Hch & (l' & Hp & Hl) & Hc). cbn [fl_sni fl_target] in *.
  exists l1, ev1, (l2 ++ [ev]), now. split; [rewrite El; by rewrite <- app_assoc|]. split; [done|].
  split; [rewrite omap_app; apply elem_of_app; right; by left|]. split.
  - exists l'. split; [done|]. eapply leaf_of_fits; [done|exact Hl|done|by left].
  - intros Hn%no_late_put_app Hz. eapply leaf_of_fits; [done|by apply Hc|done|by left].
Qed.

Lemma step_takes id serial : consistent t (l ++ [Takes id serial]).
Proof.
  set (ev := Takes id serial). destruct (mt_flights (after l) !! id) as [[sni target st]|] eqn:Ef;
    [|apply step_nothing; [lia|]; cbn [ev mint_step]; by rewrite Ef].
  destruct st as [x| | | |]; try (apply step_nothing; [lia|]; cbn [ev mint_step]; by rewrite Ef).
  assert (after (l ++ [ev]) = match serial with
    | None => returns id sni target (Err SerialFailed) (ca_after l) (after l)
    | Some serial => goes_on id sni target (Taken serial (material_after l)) (ca_after l) (after l) end) as Ea
    by (rewrite after_snoc; cbn [ev mint_step]; by rewrite Ef).
  destruct serial as [serial|]; [|by eapply step_returns; [reflexivity|exact Ea|done|by left|]].
  eapply step_goes_on; [reflexivity|exact Ea|done|done|]. intros Hm. cbn [flight_ok fl_step]. split; [by exists l, ev, []|].
  rewrite Hm. by intros _.
Qed.

Lemma step_signs id now : t <= now -> consistent now (l ++ [Signs id now]).
Proof.
  intros Ht. set (ev := Signs id now). destruct (mt_flights (after l) !! id) as [[sni target st]|] eqn:Ef;
    [|apply step_nothing; [done|]; cbn [ev mint_step]; by rewrite Ef].
  destruct st as [| |serial [[cert key] gen]| |]; try (apply step_nothing; [done|]; cbn [ev mint_step]; by rewrite Ef).
  destruct (co_flights _ _ Hok id _ Ef) as [(l1 & ev1 & l2 & El & Hch & Em) Hgen].
  assert (after (l ++ [ev]) = match mint_leaf sign (fst (leafIdentity sni target)) (snd (leafIdentity sni target)) serial now (LeafTTL (ca_opts c0)) (cert, key, gen) with
    | Err e => returns id sni target (Err e) (ca_after l) (after l) | Ok (x, gen) => goes_on id sni target (Minted x gen) (ca_after l) (after l) end) as Ea.
  { rewrite after_snoc. cbn [ev mint_step]. rewrite Ef, <- (opts_after l). by destruct (leafIdentity sni target). }
  set (name := fst (leafIdentity sni target)) in *. unfold mint_leaf in Ea. set (tmpl := leafTemplate name _ serial now _) in *.
  destruct (sign tmpl cert key) as [der|] eqn:Es; [|by eapply step_returns; [exact Ht|exact Ea|done|by left|]].
  set (x := mkTLSCert der (ca_DER cert) (Some tmpl)) in *.
  assert (forall l', fst (material_after l') = (cert, key) -> leaf_of l' now name x) as Hleaf.
  { intros l' [= E1 E2]. unfold leaf_of. rewrite E1, E2. exists serial, now, (snd (leafIdentity sni target)).
    split; [lia|]. split; [done|]. split; [done|]. split; [done|]. apply leafIdentity_IP. }
  assert (fits sign (ca_after l1) name now x) as Hfit.
  { eapply leaf_of_fits; [done|apply Hleaf; by rewrite Em|lia|]. right. by exists tmpl. }
  eapply step_goes_on; [exact Ht|exact Ea|done|done|]. intros Hm. cbn [flight_ok fl_step fl_sni fl_target]. fold name. split; [|split].
  - intros y [= <-]. exists l1, ev1, (l2 ++ [ev]), now. split; [rewrite El; by rewrite <- app_assoc|]. split; [done|].
    split; [rewrite omap_app; apply elem_of_app; right; by left|]. split; [by exists l1|done].
  - exists l1. split; [rewrite El, <- app_assoc; by apply prefix_app_r|]. apply Hleaf. by rewrite Em.
  - intros Hn%no_late_put_app. rewrite Hm. destruct (Hgen Hn) as [H1 H2]. split; [exact H1|]. intros E. specialize (H2 E).
    apply Hleaf. rewrite Hm. by rewrite <- H2.
Qed.

Lemma step_compares id : consistent t (l ++ [Compares id]).
Proof.
  set (ev := Compares id). destruct (mt_flights (after l) !! id) as [[sni target st]|] eqn:Ef;
    [|apply step_nothing; [lia|]; cbn [ev mint_step]; by rewrite Ef].
  destruct st as [| | |x gen|]; try (apply step_nothing; [lia|]; cbn [ev mint_step]; by rewrite Ef).
  assert (after (l ++ [ev]) = if ca_gen (ca_after l) =? gen then goes_on id sni target (MayPut x) (ca_after l) (after l)
    else returns id sni target (Ok x) (ca_after l) (after l)) as Ea
    by (rewrite after_snoc; cbn [ev mint_step]; rewrite Ef; unfold certFor_current, gets, ca_after; by destruct (_ =? _)).
  destruct (co_flights _ _ Hok id _ Ef) as (Hd & Ho & Hgen). cbn [fl_sni fl_target] in *.
  destruct (Z.eqb_spec (ca_gen (ca_after l)) gen) as [Eg|Eg];
    [|eapply step_returns; [reflexivity|exact Ea|done|by left|by apply decided_app]].
  eapply step_goes_on; [reflexivity|exact Ea|done|done|]. intros Hm. cbn [flight_ok fl_step fl_sni fl_target].
  split; [by apply decided_app|]. split; [by eapply once_leaf_app|]. intros Hn%no_late_put_app.
  eapply leaf_of_same; [reflexivity|exact Hm|]. apply Hgen; [done|]. by rewrite <- Eg.
Qed.

Lemma step_puts id : consistent t (l ++ [Puts id]).
Proof.
  set (ev := Puts id). destruct (mt_flights (after l) !! id) as [[sni target st]|] eqn:Ef;
    [|apply step_nothing; [lia|]; cbn [ev mint_step]; by rewrite Ef].
  destruct st as [| | | |x]; try (apply step_nothing; [lia|]; cbn [ev mint_step]; by rewrite Ef).
  assert (after (l ++ [ev]) = returns id sni target (Ok x) (snd (certFor_put (fst (leafIdentity sni target)) x (ca_after l))) (after l)) as Ea
    by (rewrite after_snoc; cbn [ev mint_step]; by rewrite Ef).
  destruct (co_flights _ _ Hok id _ Ef) as (Hd & Ho & Hgen). cbn [fl_sni fl_target] in *.
  eapply step_returns; [reflexivity|exact Ea|done| |by apply decided_app].
  intros name y Hy. apply cache_put_lookup in Hy as [[-> ->]|Hy]; [by right|by left].
Qed.

Lemma step_swaps cert key : consistent t (l ++ [Swaps cert key]).
Proof.
  set (ev := Swaps cert key). destruct (Rotate_check cert key) as [[cert' key']|e] eqn:Er;
    [|apply step_nothing; [lia|]; cbn [ev mint_step]; by rewrite Er].
  assert (after (l ++ [ev]) = mkMinting (set_material (ca_after l) cert' key') (mt_flights (after l)) (S (mt_purges (after l))) (mt_answers (after l))) as Ea
    by (rewrite after_snoc; cbn [ev mint_step]; by rewrite Er).
  destruct Hok as [Hg Hc Hf Ha].
  assert (Z.of_nat (length (l ++ [ev])) < 2 ^ 64 -> snd (material_after (l ++ [ev])) = snd (material_after l) + 1 /\ 0 <= ca_gen (ca_after l) <= Z.of_nat (length l)) as Hgen.
  { rewrite length_app. cbn [length]. intros H. assert (0 <= ca_gen (ca_after l) <= Z.of_nat (length l)) as Hb by (apply Hg; lia). split; [|done].
    unfold material_after, ca_after. rewrite Ea. cbn. apply Z.mod_small. fold (ca_after l). lia. }
  split.
  - intros H. destruct (Hgen H) as [E Hb]. cbn in E. rewrite E. rewrite length_app. cbn [length]. lia.
  - intros name x Hx. unfold ca_after in Hx. rewrite Ea in Hx. split; [eapply once_leaf_app; [reflexivity|by apply Hc]|]. by rewrite Ea.
  - intros id f Hid. rewrite Ea in Hid. cbn [mt_flights] in Hid. specialize (Hf id f Hid). unfold flight_ok in *.
    destruct (fl_step f) as [x| |serial m|x gen|x] eqn:Est; [by eapply candidate_app|done|..].
    + destruct Hf as [(l1 & ev1 & l2 & -> & H1 & H2) H3]. split; [exists l1, ev1, (l2 ++ [ev]); by rewrite <- app_assoc|].
      intros Hn. destruct (Hgen (proj1 Hn)) as [E _]. destruct (H3 (no_late_put_app _ _ Hn)) as [H4 _]. rewrite E. lia.
    + destruct Hf as (H1 & H2 & H3). split; [by apply decided_app|]. split; [by eapply once_leaf_app|].
      intros Hn. destruct (Hgen (proj1 Hn)) as [E _]. destruct (H3 (no_late_put_app _ _ Hn)) as [H4 _]. rewrite E. lia.
    + destruct Hf as (H1 & H2 & _). split; [by apply decided_app|]. split; [by eapply once_leaf_app|].
      intros [_ Hn]. by destruct (Hn l cert key _ [] eq_refl Er id f x Hid).
  - rewrite Ea. eapply Forall_impl; [exact Ha|]. intros a. apply decided_app.
Qed.

Lemma step_purges : consistent t (l ++ [Purges]).
Proof.
  destruct (mt_purges (after l)) as [|n] eqn:Ep; [apply step_nothing; [lia|]; cbn [mint_step]; by rewrite Ep|].
  assert (after (l ++ [Purges]) = mkMinting (snd (Rotate_purge (ca_after l))) (mt_flights (after l)) n (mt_answers (after l))) as Ea
    by (rewrite after_snoc; cbn [mint_step]; by rewrite Ep).
  apply (consistent_same t t l Purges []); unfold same_material, material_after, ca_after; rewrite ?Ea; [done|reflexivity|done|by right|done|by left|by rewrite app_nil_r|constructor].
Qed.

Lemma consistent_step ev : match instant ev with Some now => t <= now | None => True end -> consistent (default t (instant ev)) (l ++ [ev]).
Proof.
  destruct ev; cbn [instant default]; intros H;
    [apply step_looks|by apply step_judges|apply step_takes|by apply step_signs|apply step_compares|apply step_puts|apply step_swaps|apply step_purges].
Qed.
End step.

Lemma consistent_run t l :
  0 < LeafTTL (ca_opts c0) -> ca_gen c0 = 0 -> order (ca_cache c0) = [] -> mint_ordered t l -> consistent (mint_clock t l) l.
Proof.
  intros Httl Hg Hc. induction l as [|ev l IH] using rev_ind; intros Ho.
  - split; unfold ca_after, after, run_minting, start_minting; cbn [foldl mt_ca mt_flights mt_answers]; [lia|by rewrite Hc|done|constructor].
  - apply mint_ordered_snoc in Ho as [Ho Hev]. rewrite mint_clock_snoc. by apply consistent_step; [|apply IH|].
Qed.
End history.

(** What every handshake is answered with, whatever it overlaps with. *)
Lemma answers_decided cert key opts b c0 t l a :
  NewCA cert key opts b = Ok c0 -> mint_ordered t l -> a ∈ mt_answers (after c0 l) -> decided c0 l a.
Proof.
  intros Hn Ho Ha. destruct (NewCA_ok sign cert key opts b c0 t Hn) as [Httl _].
  assert (ca_gen c0 = 0 /\ order (ca_cache c0) = []) as [Hg Hc].
  { unfold NewCA in Hn. repeat case_match; try done. by simplify_eq. }
  pose proof (consistent_run c0 t l Httl Hg Hc Ho) as [_ _ _ H]. rewrite Forall_forall in H. by apply H.
Qed.
End minting.
