(* ===== verification/BlockPage.v ===== *)
(** * The block page (pkg/mitm/blockpage.go)

    The template text of the page, its parsing, its execution with the escaping
    html/template gives to a string in text position, and the response around it.
    The photo is an embedded asset: a parameter. *)

From S2P Require Import Prelude GoStrings GoBase64 GoTime GoRFC3339 Bypass.

Open Scope list_scope.

(** ** html/template, as far as the page uses it *)

Module template.

(** A parsed template: literal text, and actions that print a field. *)
Inductive node := TextNode (s : string) | FieldNode (name : string).

(** [strings.Cut] with a separator of several bytes. *)
Fixpoint CutString (s sep : string) : option (string * string) :=
  if strings.HasPrefix s sep then Some (EmptyString, strings.drop (String.length sep) s) else
  match s with
  | EmptyString => None
  | String a s' => '(x, y) ← CutString s' sep; Some (String a x, y)
  end.

(** An action: a dot and the name of a field, white space around it. *)
Definition parse_action (s : string) : option node :=
  match strings.TrimSpace s with
  | String "." name => Some (FieldNode name)
  | _ => None
  end.

(** Text and actions in turn; fuel is the length of the text. *)
Fixpoint parse (fuel : nat) (s : string) : option (list node) :=
  match fuel with
  | O => None
  | S fuel' =>
      match CutString s "{{" with
      | None => Some [TextNode s]
      | Some (text, rest) =>
          '(action, rest) ← CutString rest "}}";
          n ← parse_action action;
          nodes ← parse fuel' rest;
          Some (TextNode text :: n :: nodes)
      end
  end.

Definition Parse (s : string) : option (list node) := parse (S (String.length s)) s.

(** The replacement table of the escaper for text. *)
Definition escape_byte (a : ascii) : string :=
  match N_of_ascii a with
  | 0 => String "239" (String "191" (String "189" EmptyString))
  | 34 => "&#34;" | 38 => "&amp;" | 39 => "&#39;" | 43 => "&#43;" | 60 => "&lt;" | 62 => "&gt;"
  | _ => String a EmptyString
  end%N.

Fixpoint escape (s : string) : string :=
  match s with EmptyString => EmptyString | String a s' => (escape_byte a +:+ escape s')%string end.

(** Execution; an unknown field ends it, with what was written so far. *)
Fixpoint Execute (nodes : list node) (data : string -> option string) : string :=
  match nodes with
  | [] => EmptyString
  | TextNode s :: rest => (s +:+ Execute rest data)%string
  | FieldNode name :: rest => match data name with Some v => (escape v +:+ Execute rest data)%string | None => EmptyString end
  end.

End template.

(** [strings.Replace(s, old, new, 1)]. *)
Definition Replace1 (s old new : string) : string :=
  match template.CutString s old with Some (x, y) => (x +:+ new +:+ y)%string | None => s end.

(** ** The page *)

Definition newline : string := String "010" EmptyString.

Definition panchoPlaceholder : string := "__PANCHO_DATA_URI__".

Definition blockPageHTML : string := Eval vm_compute in (quoted (foldr (fun l s => l +:+ newline +:+ s) EmptyString
  ["<!DOCTYPE html>";
   "<html lang=`en`>";
   "<head>";
   "<meta charset=`utf-8`>";
   "<meta name=`viewport` content=`width=device-width, initial-scale=1`>";
   "<title>Pancho says no</title>";
   "<link rel=`icon` href=`data:image/svg+xml,%3Csvg xmlns='http://www.w3.org/2000/svg' viewBox='0 0 32 32'%3E%3Cg fill='%235c3a1e'%3E%3Cellipse cx='16' cy='22' rx='9' ry='7'/%3E%3Cellipse cx='6' cy='14' rx='4' ry='5'/%3E%3Cellipse cx='12' cy='8' rx='4' ry='5'/%3E%3Cellipse cx='20' cy='8' rx='4' ry='5'/%3E%3Cellipse cx='26' cy='14' rx='4' ry='5'/%3E%3C/g%3E%3C/svg%3E`>";
   "<style>";
   "  html { -webkit-text-size-adjust: 100%; }";
   "  body {";
   "    margin: 0;";
   "    min-height: 100vh;";
   "    display: flex;";
   "    align-items: center;";
   "    justify-content: center;";
   "    background: #faf5ec;";
   "    color: #5c3a1e;";
   "    font-family: -apple-system, BlinkMacSystemFont, `Segoe UI`, Roboto, Helvetica, Arial, sans-serif;";
   "    text-align: center;";
   "  }";
   "  main { padding: 2rem 1.5rem 3rem; max-width: 30rem; }";
   "  img { width: 100%; max-width: 20rem; height: auto; border-radius: 1rem; }";
   "  h1 { margin: 1.75rem 0 1rem; font-size: 2rem; font-weight: 600; letter-spacing: -0.01em; }";
   "  p { margin: 0; font-size: 1.125rem; line-height: 1.6; }";
   "  .host { font-family: ui-monospace, SFMono-Regular, Menlo, Consolas, monospace; word-break: break-all; }";
   "  .paused { margin-top: 2rem; font-size: 0.9375rem; opacity: 0.65; }";
   "</style>";
   "</head>";
   "<body>";
   "<main>";
   "  <img src=`__PANCHO_DATA_URI__` alt=`Pancho, tilting his head`>";
   "  <h1>Pancho says no.</h1>";
   "  <p><span class=`host`>{{ .Host }}</span> is off-limits while your internet is paused.</p>";
   "  <p class=`paused`>Paused at {{ .PausedAt }}</p>";
   "</main>";
   "</body>";
   "</html>"]))%string.

Record blockPageData := mkBlockPageData { bp_Host : string; bp_PausedAt : string }.

Definition field (d : blockPageData) (name : string) : option string :=
  if (name =? "Host")%string then Some (bp_Host d) else if (name =? "PausedAt")%string then Some (bp_PausedAt d) else None.

Definition displayHost (host : string) : string :=
  let h := normalizeHost host in if negb (h =? "")%string then h else host.

(** The layout 3:04 PM. *)
Definition kitchen (h m : Z) : string :=
  (strconv.Itoa (if h mod 12 =? 0 then 12 else h mod 12)%Z +:+ ":" +:+ rfc3339.pad2 m +:+ " " +:+ (if (12 <=? h)%Z then "PM" else "AM"))%string.

Section page.
(** The bytes of assets/pancho.jpg, and the zone of the process. *)
Variable panchoJPEG : string.
Variable loc : time.Location.

Definition panchoDataURI : string := ("data:image/jpeg;base64," +:+ base64.EncodeToString base64.StdEncoding panchoJPEG)%string.

(** [template.Must(Parse)]: [None] is the panic. *)
Definition blockPageTmpl : option (list template.node) :=
  template.Parse (Replace1 blockPageHTML panchoPlaceholder panchoDataURI).

(** [at.Format("3:04 PM")]. *)
Definition clock (t : Z) : string := kitchen (time.HourOf loc t) (time.MinuteOf loc t).

Definition RenderBlockPage (host : string) (at_ : Z) : string :=
  template.Execute (default [] blockPageTmpl) (field (mkBlockPageData (displayHost host) (clock at_))).
End page.

(** ** Reading a page back *)

(** Whether a scan ends inside a tag, the characters of the tags, and the text
    between them. *)
Fixpoint inside (b : bool) (s : string) : bool :=
  match s with
  | EmptyString => b
  | String a s' => inside (if b then negb (Ascii.eqb a ">") else Ascii.eqb a "<") s'
  end.

Fixpoint markup (b : bool) (s : string) : string :=
  match s with
  | EmptyString => EmptyString
  | String a s' =>
      if b then String a (markup (negb (Ascii.eqb a ">")) s')
      else if Ascii.eqb a "<" then String a (markup true s') else markup false s'
  end.

Fixpoint text (b : bool) (s : string) : string :=
  match s with
  | EmptyString => EmptyString
  | String a s' =>
      if b then text (negb (Ascii.eqb a ">")) s'
      else if Ascii.eqb a "<" then text true s' else String a (text false s')
  end.

(** The character references a browser replaces, of those the escaper writes. *)
Definition references : list (string * ascii) :=
  [("&#34;", "034"%char); ("&amp;", "&"%char); ("&#39;", "'"%char); ("&#43;", "+"%char); ("&lt;", "<"%char); ("&gt;", ">"%char)].

Fixpoint unescape_from (skip : nat) (s : string) : string :=
  match s with
  | EmptyString => EmptyString
  | String a s' =>
      match skip with
      | S n => unescape_from n s'
      | O =>
          match List.find (fun r => strings.HasPrefix s (fst r)) references with
          | Some (ref, c) => String c (unescape_from (pred (String.length ref)) s')
          | None => String a (unescape_from 0 s')
          end
      end
  end.

Definition unescape (s : string) : string := unescape_from 0 s.

Lemma inside_app b s t : inside b (s +:+ t) = inside (inside b s) t.
Proof. revert b. induction s as [|a s IH]; intros b; [done|]. rewrite string_app_cons. apply IH. Qed.

Lemma markup_app b s t : markup b (s +:+ t) = (markup b s +:+ markup (inside b s) t)%string.
Proof.
  revert b. induction s as [|a s IH]; intros b; [done|]. rewrite string_app_cons. cbn [markup inside].
  destruct b; [by rewrite IH|]. destruct (Ascii.eqb a "<"); by rewrite IH.
Qed.

Lemma text_app b s t : text b (s +:+ t) = (text b s +:+ text (inside b s) t)%string.
Proof.
  revert b. induction s as [|a s IH]; intros b; [done|]. rewrite string_app_cons. cbn [text inside].
  destruct b; [by rewrite IH|]. destruct (Ascii.eqb a "<"); by rewrite IH.
Qed.

(** Text without an opening bracket stays outside of tags; without a closing one it
    stays inside. *)
Lemma outside_text s : free_of "<" s -> inside false s = false /\ markup false s = EmptyString /\ text false s = s.
Proof.
  induction s as [|a s IH]; [done|]. intros [Ha Hs]. apply Ascii.eqb_neq in Ha. destruct (IH Hs) as (H1 & H2 & H3).
  cbn [inside markup text]. rewrite Ha. split; [done|]. split; [done|]. by rewrite H3.
Qed.

Lemma inside_text s : free_of ">" s -> inside true s = true /\ text true s = EmptyString.
Proof.
  induction s as [|a s IH]; [done|]. intros [Ha Hs]. apply Ascii.eqb_neq in Ha. cbn [inside text]. rewrite Ha. by apply IH.
Qed.

(** ** The escaper *)

(** What the escaper writes has no bracket and no quote. *)
Lemma escape_free c s : c ∈ ["<"; ">"; "034"; "'"]%char -> free_of c (template.escape s).
Proof.
  intros Hc. induction s as [|a s IH]; [done|]. cbn [template.escape]. apply free_of_app. split; [|exact IH].
  apply free_of_HasByte. apply negb_true_iff. revert a. apply ascii_forall.
  repeat (apply elem_of_cons in Hc as [->|Hc]; [by vm_compute|]). by apply elem_of_nil in Hc.
Qed.

Lemma unescape_plain s t : free_of "&" s -> unescape (s +:+ t) = (s +:+ unescape t)%string.
Proof.
  induction s as [|a s IH]; [done|]. intros [Ha Hs]. rewrite !string_app_cons, <- (IH Hs). unfold unescape. cbn [unescape_from].
  assert (List.find (fun r => strings.HasPrefix (String a (s +:+ t)) (fst r)) references = None) as ->; [|done].
  unfold references, strings.HasPrefix. cbn [List.find fst String.prefix]. by destruct (ascii_dec "&" a).
Qed.

Lemma unescape_byte a t : a <> "000"%char -> unescape (template.escape_byte a +:+ t) = String a (unescape t).
Proof. destruct a as [[] [] [] [] [] [] [] []]; try done; intros _; try reflexivity; by destruct t. Qed.

(** The browser shows what was escaped. *)
Lemma unescape_escape s t : free_of "000" s -> unescape (template.escape s +:+ t) = (s +:+ unescape t)%string.
Proof.
  induction s as [|a s IH]; [done|]. intros [Ha Hs]. cbn [template.escape]. rewrite string_app_assoc, unescape_byte by done.
  by rewrite IH.
Qed.

(** ** The parsed page *)

(** No action begins in [s] or at its end. *)
Fixpoint clean (s : string) : bool :=
  match s with
  | EmptyString => true
  | String a s' => (if Ascii.eqb a "{" then match s' with String b _ => negb (Ascii.eqb b "{") | EmptyString => false end else true) && clean s'
  end.

Lemma CutString_clean s t :
  clean s = true -> template.CutString (s +:+ t) "{{" = '(x, y) ← template.CutString t "{{"; Some ((s +:+ x)%string, y).
Proof.
  induction s as [|a s IH]; intros Hc.
  { change (EmptyString +:+ t)%string with t. by destruct (template.CutString t "{{") as [[x y]|]. }
  cbn [clean] in Hc. apply andb_true_iff in Hc as [Ha Hs]. rewrite string_app_cons. cbn [template.CutString].
  assert (strings.HasPrefix (String a (s +:+ t)) "{{" = false) as ->.
  { unfold strings.HasPrefix. cbn [String.prefix]. destruct (ascii_dec "{" a) as [<-|]; [|done]. simpl in Ha.
    destruct s as [|b s]; [done|]. rewrite string_app_cons. cbn [String.prefix]. destruct (ascii_dec "{" b) as [<-|]; [|done]. done. }
  rewrite IH by done. by destruct (template.CutString t "{{") as [[x y]|].
Qed.

Lemma clean_free s : free_of "{" s -> clean s = true.
Proof. induction s as [|a s IH]; [done|]. intros [Ha Hs]. cbn [clean]. apply Ascii.eqb_neq in Ha. rewrite Ha. by apply IH. Qed.

Lemma clean_app s t : clean s = true -> clean t = true -> clean (s +:+ t) = true.
Proof.
  induction s as [|a s IH]; [done|]. rewrite string_app_cons. cbn [clean]. intros [Ha Hs]%andb_true_iff Ht. rewrite IH by done.
  rewrite andb_true_r. destruct (Ascii.eqb a "{"); [|done]. by destruct s.
Qed.

(** The pieces of the text around the photo and the two actions. *)
Definition cut (s sep : string) : string * string := default (EmptyString, EmptyString) (template.CutString s sep).
Definition page_head : string := Eval vm_compute in fst (cut blockPageHTML panchoPlaceholder).
Definition page_rest : string := Eval vm_compute in snd (cut blockPageHTML panchoPlaceholder).
Definition page_before : string := Eval vm_compute in fst (cut page_rest "{{").
Definition page_middle : string := Eval vm_compute in fst (cut (snd (cut page_rest "}}")) "{{").
Definition page_foot : string := Eval vm_compute in snd (cut (snd (cut page_rest "}}")) "}}").

Lemma page_rest_eq : page_rest = (page_before +:+ "{{ .Host }}" +:+ page_middle +:+ "{{ .PausedAt }}" +:+ page_foot)%string.
Proof. by vm_compute. Qed.

Section rendered.
Variables (panchoJPEG : string) (loc : time.Location).

Lemma panchoDataURI_free c : c ∈ ["<"; ">"; "{"]%char -> free_of c (panchoDataURI panchoJPEG).
Proof.
  intros Hc. apply free_of_app. split.
  - apply free_of_HasByte. repeat (apply elem_of_cons in Hc as [->|Hc]; [by vm_compute|]). by apply elem_of_nil in Hc.
  - apply free_of_string. eapply Forall_impl; [apply base64.encode_chars, bytes_of_is_byte|].
    intros a Ha ->. repeat (apply elem_of_cons in Hc as [->|Hc]; [by vm_compute in Ha|]). by apply elem_of_nil in Hc.
Qed.

Definition first_text : string := (page_head +:+ panchoDataURI panchoJPEG +:+ page_before)%string.

Lemma first_text_clean : clean first_text = true.
Proof. apply clean_app; [by vm_compute|]. apply clean_app; [|by vm_compute]. apply clean_free, panchoDataURI_free. set_solver. Qed.

Lemma Replace1_page : Replace1 blockPageHTML panchoPlaceholder (panchoDataURI panchoJPEG) =
  (first_text +:+ "{{ .Host }}" +:+ page_middle +:+ "{{ .PausedAt }}" +:+ page_foot)%string.
Proof.
  unfold first_text. generalize (panchoDataURI panchoJPEG) as uri. intros uri. rewrite !string_app_assoc, <- page_rest_eq.
  unfold Replace1. assert (template.CutString blockPageHTML panchoPlaceholder = Some (page_head, page_rest)) as -> by (by vm_compute). done.
Qed.

Lemma blockPageTmpl_eq :
  blockPageTmpl panchoJPEG =
  Some [template.TextNode first_text; template.FieldNode "Host"; template.TextNode page_middle; template.FieldNode "PausedAt"; template.TextNode page_foot].
Proof.
  unfold blockPageTmpl, template.Parse. rewrite Replace1_page. set (l := String.length _).
  assert (exists n, l = S (S n)) as [n ->].
  { exists (pred (pred l)). unfold l, first_text. by rewrite !string_app_assoc. }
  cbn [template.parse]. rewrite CutString_clean by apply first_text_clean.
  assert (template.CutString ("{{ .Host }}" +:+ page_middle +:+ "{{ .PausedAt }}" +:+ page_foot) "{{" =
    Some (EmptyString, (" .Host }}" +:+ page_middle +:+ "{{ .PausedAt }}" +:+ page_foot)%string)) as -> by (by vm_compute).
  cbn [mbind option_bind].
  assert (template.CutString (" .Host }}" +:+ page_middle +:+ "{{ .PausedAt }}" +:+ page_foot) "}}" =
    Some (" .Host "%string, (page_middle +:+ "{{ .PausedAt }}" +:+ page_foot)%string)) as -> by (by vm_compute).
  cbn [mbind option_bind].
  assert (template.CutString (page_middle +:+ "{{ .PausedAt }}" +:+ page_foot) "{{" =
    Some (page_middle, (" .PausedAt }}" +:+ page_foot)%string)) as -> by (by vm_compute).
  cbn [mbind option_bind].
  assert (template.CutString (" .PausedAt }}" +:+ page_foot) "}}" = Some (" .PausedAt "%string, page_foot)) as -> by (by vm_compute).
  cbn [mbind option_bind].
  assert (template.CutString page_foot "{{" = None) as -> by (by vm_compute).
  assert (template.parse_action " .Host " = Some (template.FieldNode "Host") /\ template.parse_action " .PausedAt " = Some (template.FieldNode "PausedAt"))
    as [-> ->] by (by vm_compute).
  cbn [mbind option_bind]. by rewrite string_app_empty.
Qed.

Lemma RenderBlockPage_eq host at_ :
  RenderBlockPage panchoJPEG loc host at_ =
  (first_text +:+ template.escape (displayHost host) +:+ page_middle +:+ template.escape (clock loc at_) +:+ page_foot)%string.
Proof.
  unfold RenderBlockPage. rewrite blockPageTmpl_eq. cbn [default from_option id template.Execute field String.eqb Ascii.eqb Bool.eqb bp_Host bp_PausedAt].
  by rewrite string_app_empty.
Qed.

(** ** The time *)

(** A reader of the clock. *)
Definition read_clock (s : string) : option (Z * Z) :=
  '(h, rest) ← strings.Cut s ":";
  '(m, half) ← strings.Cut rest " ";
  h ← strconv.Atoi h; m ← strconv.Atoi m;
  Some (h mod 12 + if (half =? "PM")%string then 12 else 0, m).

(** A property of every time of the day, by evaluation. *)
Lemma kitchen_forall (P : Z -> Z -> bool) :
  forallb (fun h => forallb (P h) (seqZ 0 60)) (seqZ 0 24) = true -> forall h m, 0 <= h < 24 -> 0 <= m < 60 -> P h m = true.
Proof.
  intros H h m Hh Hm. rewrite forallb_forall in H. specialize (H h). rewrite forallb_forall in H.
  apply H; apply list_elem_of_In, elem_of_seqZ; lia.
Qed.

Lemma kitchen_ok h m : 0 <= h < 24 -> 0 <= m < 60 ->
  read_clock (kitchen h m) = Some (h, m) /\ template.escape (kitchen h m) = kitchen h m /\
  strings.HasByte (kitchen h m) "<" = false /\ strings.HasByte (kitchen h m) "&" = false.
Proof.
  intros Hh Hm.
  assert (bool_decide (read_clock (kitchen h m) = Some (h, m)) && (template.escape (kitchen h m) =? kitchen h m)%string &&
    negb (strings.HasByte (kitchen h m) "<") && negb (strings.HasByte (kitchen h m) "&") = true) as H.
  { revert h m Hh Hm. apply kitchen_forall. by vm_compute. }
  apply andb_true_iff in H as [[[H1%bool_decide_eq_true H2%String.eqb_eq]%andb_true_iff H3%negb_true_iff]%andb_true_iff H4%negb_true_iff]. done.
Qed.

Lemma clock_ok t : read_clock (clock loc t) = Some (time.HourOf loc t, time.MinuteOf loc t) /\ template.escape (clock loc t) = clock loc t /\
  free_of "<" (clock loc t) /\ free_of "&" (clock loc t).
Proof.
  destruct (kitchen_ok _ _ (time.HourOf_range loc t) (time.MinuteOf_range loc t)) as (H1 & H2 & H3 & H4).
  do 2 (split; [done|]). split; by apply free_of_HasByte.
Qed.

(** ** What the page shows *)

(** The text of the page up to the host and after the time. *)
Definition shown_before : string := Eval vm_compute in (text false page_head +:+ text true page_before)%string.
Definition shown_after : string := Eval vm_compute in text false page_foot.

Lemma first_text_text : text false first_text = shown_before /\ inside false first_text = false.
Proof.
  unfold first_text. rewrite !text_app, !inside_app. assert (inside false page_head = true) as -> by (by vm_compute).
  destruct (inside_text (panchoDataURI panchoJPEG)) as [H1 H2]; [apply panchoDataURI_free; set_solver|]. rewrite H1, H2. by vm_compute.
Qed.

(** [C26] The block page shows the blocked host and the time, and nothing a host name
    can contain changes anything else: for every host and instant the tags of the
    page are the same, and what a browser shows (tags dropped, character references
    replaced) is a fixed text, the host, a fixed sentence, the time of day and a
    fixed text; the time reads back as the hour and the minute.  (A NUL in the
    host, which cannot be escaped, is replaced.) *)
Theorem block_page_shows_host_as_text (host : string) (at_ : Z) :
  let page := RenderBlockPage panchoJPEG loc host at_ in
  markup false page = markup false (first_text +:+ page_middle +:+ page_foot) /\
  (free_of "000" (displayHost host) ->
   unescape (text false page) =
   (shown_before +:+ displayHost host +:+ " is off-limits while your internet is paused." +:+ newline +:+ "  Paused at " +:+
    clock loc at_ +:+ shown_after)%string) /\
  read_clock (clock loc at_) = Some (time.HourOf loc at_, time.MinuteOf loc at_).
Proof.
  cbn zeta. rewrite RenderBlockPage_eq. destruct (clock_ok at_) as (Hr & -> & Hlt & Hamp). destruct first_text_text as [Ht Hi].
  destruct (outside_text (template.escape (displayHost host))) as (E1 & E2 & E3); [apply escape_free; set_solver|].
  destruct (outside_text (clock loc at_) Hlt) as (C1 & C2 & C3).
  assert (inside false page_middle = false /\ text false page_middle = (" is off-limits while your internet is paused." +:+ newline +:+ "  Paused at ")%string) as [Mi Mt]
    by (by vm_compute).
  split; [|split; [|done]].
  - rewrite !markup_app, Hi, E1, E2, Mi, C1, C2. done.
  - intros Hnul. rewrite !text_app, Hi, E1, E3, Mi, Mt, C1, C3, Ht. change (text false page_foot) with shown_after.
    rewrite unescape_plain by (apply free_of_HasByte; by vm_compute). rewrite unescape_escape by done.
    rewrite unescape_plain by (apply free_of_HasByte; by vm_compute). rewrite unescape_plain by done.
    assert (unescape shown_after = shown_after) as -> by (by vm_compute). by rewrite !string_app_assoc.
Qed.
End rendered.

Lemma block_page_shows_host_as_text_witness :
  unescape (text false (RenderBlockPage "jpeg" time.UTC "<script>&'+'&</script>" 0)) =
  (shown_before +:+ "<script>&'+'&</script>" +:+ " is off-limits while your internet is paused." +:+ newline +:+ "  Paused at " +:+
    "12:00 AM" +:+ shown_after)%string.
Proof. apply (block_page_shows_host_as_text "jpeg" time.UTC). by repeat split. Defined.
