(* ===== verification/Hijack.v ===== *)
(** * Serving the block page on a hijacked tunnel (pkg/mitm/hijack.go, response part of blockpage.go)

    The handshake, with the certificate that the callback [GetCertificateFor] of the CA
    answers, and the loop of [serve] over what each iteration meets: the deadline call,
    the next request or read error, and the write. *)

From S2P Require Import Prelude GoStrings GoTime GoHTTP Bypass CertCache Mitm Minting BlockPage.

Open Scope list_scope.

(** Durations in nanoseconds; zero or less selects the default. *)
Record ServerOptions := mkServerOptions { HandshakeTimeout : Z; IdleTimeout : Z; MaxRequests : Z }.

Definition server_defaults (o : ServerOptions) : ServerOptions :=
  mkServerOptions (if HandshakeTimeout o <=? 0 then 10 * time.Second else HandshakeTimeout o)
    (if IdleTimeout o <=? 0 then 30 * time.Second else IdleTimeout o)
    (if MaxRequests o <=? 0 then 32 else MaxRequests o).

Definition hasToken (header token : string) : bool :=
  existsb (fun v => strings.EqualFold (strings.TrimSpace v) token) (strings.Split header ",").

(** A request as far as the loop looks at it. *)
Record page_request := mkPageRequest { pq_Method : string; pq_ProtoMajor : Z; pq_ProtoMinor : Z; pq_Connection : string }.

Definition ProtoAtLeast (q : page_request) (major minor : Z) : bool :=
  (major <? pq_ProtoMajor q) || ((pq_ProtoMajor q =? major) && (minor <=? pq_ProtoMinor q)).

(** The block page answer: its status, two headers, the announced length, whether
    it ends the connection, and the body that is sent. *)
Record page_response := mkPage {
  pg_StatusCode : Z;
  pg_ContentType : string;
  pg_CacheControl : string;
  pg_ContentLength : Z;
  pg_Close : bool;
  pg_Body : string;
}.

Section hijack.
(** The photo and the zone of the page. *)
Variable panchoJPEG : string.
Variable loc : time.Location.

Definition newBlockPageResponse (q : page_request) (host : string) (at_ : Z) (keepAlive : bool) : page_response :=
  let body := RenderBlockPage panchoJPEG loc host at_ in
  mkPage 200 "text/html; charset=utf-8" "no-store" (Z.of_nat (String.length body)) (negb keepAlive)
    (if (pq_Method q =? "HEAD")%string then EmptyString else body).

(** [http.ReadRequest]: a request, the end of the stream, a timeout, or another
    failure. *)
Inductive read_result :=
| ReadOk (q : page_request)
| ReadEOF
| ReadTimeout
| ReadFailed (msg : string).

Inductive serve_error := DeadlineFailed | ReadingFailed (msg : string) | WritingFailed.

(** One iteration's environment. *)
Record iteration := mkIteration { it_deadline_ok : bool; it_read : read_result; it_write_ok : bool; it_now : Z }.

(** The loop from iteration [i]; fuel is what is left of [MaxRequests]. *)
Fixpoint serve_loop (fuel : nat) (o : ServerOptions) (host : string) (env : nat -> iteration) (i : nat)
    : list page_response * result serve_error unit :=
  match fuel with
  | O => ([], Ok tt)
  | S fuel' =>
      let it := env i in
      if negb (it_deadline_ok it) then ([], Err DeadlineFailed) else
      match it_read it with
      | ReadEOF => ([], Ok tt)
      | ReadTimeout => if (0 <? i)%nat then ([], Ok tt) else ([], Err (ReadingFailed "i/o timeout"))
      | ReadFailed msg => ([], Err (ReadingFailed msg))
      | ReadOk q =>
          let keepAlive := (Z.of_nat i <? MaxRequests o - 1) && ProtoAtLeast q 1 1 &&
                           negb (hasToken (pq_Connection q) "close") in
          let page := newBlockPageResponse q host (it_now it) keepAlive in
          if negb (it_write_ok it) then ([], Err WritingFailed)
          else if negb keepAlive then ([page], Ok tt)
          else let '(pages, r) := serve_loop fuel' o host env (S i) in (page :: pages, r)
      end
  end.

Definition serve_block_page (o : ServerOptions) (host : string) (env : nat -> iteration)
    : list page_response * result serve_error unit :=
  serve_loop (Z.to_nat (MaxRequests o)) o host env 0.

(** What the handshake in front of it meets: the deadline call, the server name of
    the ClientHello (empty without SNI) or an error before it, and what becomes of the
    handshake with a certificate. *)
Record handshake := mkHandshake {
  hs_deadline_ok : bool;
  hs_hello : result string string;
  hs_rest : TLSCert -> result string unit;
}.

Inductive handshake_error := HelloFailed (msg : string) | NoCertificate (e : ca_error) | Refused (msg : string).

Inductive page_outcome :=
| HandshakeDeadlineFailed
| HandshakeFailed (e : handshake_error)
| Served (cert : TLSCert) (pages : list page_response) (r : result serve_error unit).

(** [NewServer] puts the defaults into the options. *)
Definition NewBlockPageServer (o : ServerOptions) : ServerOptions := server_defaults o.

(** [GetCertificate] is the callback that the configuration gets, the CA's
    [GetCertificateFor(host)]: what it answers to a server name on this connection. *)
Definition ServeBlockPage (GetCertificate : string -> result ca_error TLSCert) (opts : ServerOptions) (host : string) (hs : handshake)
    (env : nat -> iteration) : page_outcome :=
  if negb (hs_deadline_ok hs) then HandshakeDeadlineFailed else
  match hs_hello hs with
  | Err msg => HandshakeFailed (HelloFailed msg)
  | Ok ServerName =>
      match GetCertificate ServerName with
      | Err e => HandshakeFailed (NoCertificate e)
      | Ok cert =>
          match hs_rest hs cert with
          | Err msg => HandshakeFailed (Refused msg)
          | Ok _ => let '(pages, r) := serve_block_page opts host env in Served cert pages r
          end
      end
  end.

Lemma ServeBlockPage_inv GetCertificate opts host hs env cert pages r :
  ServeBlockPage GetCertificate opts host hs env = Served cert pages r ->
  serve_block_page opts host env = (pages, r) /\
  exists ServerName, hs_hello hs = Ok ServerName /\ hs_rest hs cert = Ok tt /\ GetCertificate ServerName = Ok cert.
Proof.
  unfold ServeBlockPage. destruct (hs_deadline_ok hs); cbn [negb]; [|done]. destruct (hs_hello hs) as [name|msg]; [|done].
  destruct (GetCertificate name) as [x|e] eqn:Eg; [|done]. destruct (hs_rest hs x) as [[]|msg] eqn:Er; [|done].
  destruct (serve_block_page opts host env) as [pages' r']. intros [= <- <- <-]. split; [done|]. exists name. by rewrite Eg.
Qed.

(** The page of the host at an instant, as the answer to a request: shown by browsers,
    not stored, its full length announced, and the whole of it sent unless only the
    head was asked for. *)
Definition shows (q : page_request) (host : string) (t : Z) (pg : page_response) : Prop :=
  let body := RenderBlockPage panchoJPEG loc host t in
  pg_StatusCode pg = 200 /\ pg_ContentType pg = "text/html; charset=utf-8" /\ pg_CacheControl pg = "no-store" /\
  pg_ContentLength pg = Z.of_nat (String.length body) /\
  (pq_Method q = "HEAD" -> pg_Body pg = EmptyString) /\ (pq_Method q <> "HEAD" -> pg_Body pg = body).

(** What a run from iteration [i] guarantees of its pages and of its end. *)
Definition run_ok (fuel : nat) (host : string) (env : nat -> iteration) (i : nat)
    (pages : list page_response) (r : result serve_error unit) : Prop :=
  (length pages <= fuel)%nat /\
  (forall j pg, nth_error pages j = Some pg ->
     (exists q, it_read (env (i + j)%nat) = ReadOk q /\ shows q host (it_now (env (i + j)%nat)) pg) /\
     ((S j < length pages)%nat -> pg_Close pg = false) /\ (S j = fuel -> pg_Close pg = true)) /\
  (r = Ok tt ->
     (exists pg, last pages = Some pg /\ pg_Close pg = true) \/
     it_read (env (i + length pages)%nat) = ReadEOF \/
     (it_read (env (i + length pages)%nat) = ReadTimeout /\ (0 < i + length pages)%nat)).

Lemma newBlockPageResponse_shows q host t k : shows q host t (newBlockPageResponse q host t k).
Proof.
  do 4 (split; [done|]). unfold newBlockPageResponse. cbn [pg_Body]. destruct (String.eqb_spec (pq_Method q) "HEAD") as [E|E]; split; [done|by rewrite E|by intros ?|done].
Qed.

Lemma run_ok_nil fuel host env i r :
  (r = Ok tt -> it_read (env i) = ReadEOF \/ (it_read (env i) = ReadTimeout /\ (0 < i)%nat)) -> run_ok fuel host env i [] r.
Proof.
  intros Hr. split; [simpl; lia|]. split; [by intros [|j]|]. intros E. right. simpl. rewrite Nat.add_0_r. by apply Hr.
Qed.

Lemma serve_loop_ok fuel o host env i :
  (0 < fuel)%nat -> Z.of_nat (fuel + i) = MaxRequests o ->
  run_ok fuel host env i (fst (serve_loop fuel o host env i)) (snd (serve_loop fuel o host env i)).
Proof.
  revert i. induction fuel as [|fuel IH]; intros i Hf Hi; [lia|]. cbn [serve_loop].
  destruct (it_deadline_ok (env i)); cbn [negb]; [|by apply run_ok_nil].
  destruct (it_read (env i)) as [q| | |msg] eqn:Er.
  2: { apply run_ok_nil. by left. }
  2: { destruct (Nat.ltb_spec 0 i); apply run_ok_nil; [by right|done]. }
  2: { by apply run_ok_nil. }
  destruct (it_write_ok (env i)); cbn [negb]; [|by apply run_ok_nil].
  destruct ((Z.of_nat i <? MaxRequests o - 1) && ProtoAtLeast q 1 1 && negb (hasToken (pq_Connection q) "close")) eqn:Ek; cbn [negb].
  - apply andb_true_iff in Ek as [[Hk _]%andb_true_iff _]. apply Z.ltb_lt in Hk.
    specialize (IH (S i) ltac:(lia) ltac:(lia)). destruct (serve_loop fuel o host env (S i)) as [pages r].
    destruct IH as (Hl & Hp & Hr). cbn [fst snd] in *. split; [simpl; lia|]. split.
    + intros [|j] pg Hj; simpl in Hj.
      * injection Hj as <-. split; [exists q; rewrite Nat.add_0_r; split; [exact Er|apply newBlockPageResponse_shows]|]. split; [done|]. intros [= <-]. lia.
      * destruct (Hp j pg Hj) as (H1 & H3 & H4). split; [by rewrite <- Nat.add_succ_comm|].
        split; [intros Hj2; apply H3; simpl in Hj2; lia|]. intros [= E]. by apply H4.
    + intros E. cbn [length]. replace (i + S (length pages))%nat with (S i + length pages)%nat by lia.
      destruct (Hr E) as [(pg & Hlp & Hc)|H]; [|by right]. left. exists pg. split; [|done]. by rewrite last_cons, Hlp.
  - split; [simpl; lia|]. split.
    + intros [|j] pg Hj; [|by destruct j]. injection Hj as <-. split; [exists q; rewrite Nat.add_0_r; split; [exact Er|apply newBlockPageResponse_shows]|]. split; [simpl; lia|done].
    + intros _. left. by eexists.
Qed.

Lemma serve_block_page_ok o host env pages r :
  serve_block_page (NewBlockPageServer o) host env = (pages, r) ->
  run_ok (Z.to_nat (MaxRequests (server_defaults o))) host env 0 pages r.
Proof.
  unfold serve_block_page, NewBlockPageServer. set (n := MaxRequests (server_defaults o)).
  assert (0 < n) by (unfold n, server_defaults; simpl; destruct (Z.leb_spec (MaxRequests o) 0); lia).
  pose proof (serve_loop_ok (Z.to_nat n) (server_defaults o) host env 0 ltac:(lia) ltac:(fold n; lia)) as Hok.
  by destruct (serve_loop _ _ _ _ _) as [pages' r']; intros [= <- <-].
Qed.

(** [C27] A hijacked connection cannot be pinned: whatever the client sends, at
    most [MaxRequests] block pages are answered on it, each one the page of the blocked
    host in answer to the request read in its turn, all but the last keeping the
    connection, the one at the limit closing it; and a connection that ends without an
    error ends after a closing page or because the client hung up or went idle after a
    page. *)
Theorem block_page_connection_bounded (GetCertificate : string -> result ca_error TLSCert) (o : ServerOptions) (host : string)
    (hs : handshake) (env : nat -> iteration) (cert : TLSCert) (pages : list page_response) (r : result serve_error unit) :
  ServeBlockPage GetCertificate (NewBlockPageServer o) host hs env = Served cert pages r ->
  run_ok (Z.to_nat (MaxRequests (server_defaults o))) host env 0 pages r.
Proof. intros [H _]%ServeBlockPage_inv. by apply serve_block_page_ok. Qed.

(** [C24] What the browser of a blocked user gets, whatever handshakes and rotations
    overlap with its own: when the callback's answer on a connection is one that some
    history of steps of [certFor] and [Rotate] gave, and pages are served, then the
    client accepted the certificate, which is for the name it asked for, or for the
    host of its CONNECT if it named none, already valid and not about to expire
    (unless leaves are configured to live for less than a minute) when the handshake
    read the clock, and signed by the CA of some moment of the history, namely the CA
    at the handshake's own look into the cache or at the material unless a rotation was
    half done then or overtook a store; and the j-th page is the block page of the host
    in answer to the j-th request, with status 200, not to be stored, and its whole
    text unless only the head was asked for. *)
Theorem blocked_browser_gets_fitting_page (sign : Template -> CACert -> Signer -> option string)
    (cacert : option CACert) (key : option Signer) (copts : Options) (b : bool) (c0 : CA) (t : Z) (l : list mint_event)
    (GetCertificate : string -> result ca_error TLSCert) (o : ServerOptions) (host : string) (hs : handshake) (env : nat -> iteration)
    (cert : TLSCert) (pages : list page_response) (r : result serve_error unit) :
  NewCA cacert key copts b = Ok c0 -> mint_ordered t l ->
  (forall ServerName, hs_hello hs = Ok ServerName -> mkAnswer ServerName host (GetCertificate ServerName) ∈ mt_answers (after sign c0 l)) ->
  ServeBlockPage GetCertificate (NewBlockPageServer o) host hs env = Served cert pages r ->
  (exists ServerName l1 ev l2 now,
     hs_hello hs = Ok ServerName /\ hs_rest hs cert = Ok tt /\
     l = l1 ++ ev :: l2 /\ chooses ev = true /\ now ∈ omap instant l2 /\
     let name := fst (leafIdentity ServerName host) in
     (exists l', l' `prefix_of` l1 /\ fits sign (ca_after sign c0 l') name now cert) /\
     (no_late_put sign c0 l -> mt_purges (after sign c0 l1) = O -> fits sign (ca_after sign c0 l1) name now cert)) /\
  forall j pg, nth_error pages j = Some pg -> exists q, it_read (env j) = ReadOk q /\ shows q host (it_now (env j)) pg.
Proof.
  intros Hn Ho Hans (Hs & name & Hh & Hr & Hc)%ServeBlockPage_inv. split.
  - destruct (answers_decided sign _ _ _ _ c0 t l _ Hn Ho (Hans name Hh) cert Hc) as (l1 & ev & l2 & now & H). by exists name, l1, ev, l2, now.
  - apply serve_block_page_ok in Hs as (_ & Hp & _). intros j pg Hj. by destruct (Hp j pg Hj) as [? _].
Qed.

End hijack.

Definition ex_browser : handshake := mkHandshake true (Ok "example.com") (fun _ => Ok tt).
Definition ex_pages (t : Z) (k : bool) : page_response :=
  newBlockPageResponse "jpeg" time.UTC (mkPageRequest "GET" 1 1 "") "example.com:443" t k.
Definition ex_requests (i : nat) : iteration := mkIteration true (ReadOk (mkPageRequest "GET" 1 1 "")) true (Z.of_nat i).

Lemma block_page_connection_bounded_witness :
  run_ok "jpeg" time.UTC 3 "example.com:443" ex_requests 0 [ex_pages 0 true; ex_pages 1 true; ex_pages 2 false] (Ok tt).
Proof.
  apply (block_page_connection_bounded "jpeg" time.UTC (fun _ => Ok (ex_leaf "old" "example.com" 7 20)) (mkServerOptions 0 0 3) "example.com:443"
    ex_browser ex_requests (ex_leaf "old" "example.com" 7 20)). by vm_compute.
Defined.

(** A rotation comes between another handshake's making of a leaf and its look at the
    generation, and this handshake then makes its own. *)
Definition ex_overlap : list mint_event :=
  [Looks 1 "example.com" "example.com:443"; Takes 1 (Some 1); Signs 1 5; Swaps (Some (ex_ca_cert "new")) (Some ex_signer); Purges; Compares 1;
   Looks 2 "example.com" "example.com:443"; Takes 2 (Some 7); Signs 2 20; Compares 2; Puts 2].

Lemma ex_overlap_calm : no_late_put ex_sign ex_ca ex_overlap.
Proof.
  split; [done|]. intros l1 cert key ck l2 El _ id f x Hf.
  assert (ex_overlap !! length l1 = Some (Swaps cert key)) as Hl by (rewrite El; by apply list_lookup_middle).
  assert (l1 = take (length l1) ex_overlap) as E1 by (rewrite El; by rewrite take_app_length).
  assert (length l1 = 3%nat) as En.
  { clear -Hl. revert Hl. generalize (length l1). intros n. do 3 (destruct n as [|n]; [discriminate|]). destruct n as [|n]; [done|].
    do 7 (destruct n as [|n]; [discriminate|]). discriminate. }
  rewrite En in E1. subst l1. clear El Hl En.
  assert (mt_flights (after ex_sign ex_ca (take 3 ex_overlap)) =
    {[1%nat := mkFlight "example.com" "example.com:443" (Minted (ex_leaf "old" "example.com" 1 5) 0)]}) as E by (by vm_compute).
  rewrite E in Hf. by apply lookup_singleton_Some in Hf as [_ <-].
Qed.

Lemma blocked_browser_gets_fitting_page_witness :
  (exists l1 ev l2 now, ex_overlap = l1 ++ ev :: l2 /\ chooses ev = true /\
     (mt_purges (after ex_sign ex_ca l1) = O -> fits ex_sign (ca_after ex_sign ex_ca l1) "example.com" now (ex_leaf "new" "example.com" 7 20))) /\
  exists q, shows "jpeg" time.UTC q "example.com:443" 2 (ex_pages 2 false).
Proof.
  destruct (blocked_browser_gets_fitting_page "jpeg" time.UTC ex_sign (Some (ex_ca_cert "old")) (Some ex_signer) (mkOptions (2 * time.Hour) 10) true ex_ca 0
    ex_overlap (fun _ => Ok (ex_leaf "new" "example.com" 7 20)) (mkServerOptions 0 0 3) "example.com:443" ex_browser ex_requests (ex_leaf "new" "example.com" 7 20)
    [ex_pages 0 true; ex_pages 1 true; ex_pages 2 false] (Ok tt)) as [(name & l1 & ev & l2 & now & Hname & _ & El & Hch & _ & _ & Hf) Hp].
  - by vm_compute.
  - by vm_compute.
  - intros name [= <-]. vm_compute. right. left.
  - by vm_compute.
  - destruct (Hp 2%nat (ex_pages 2 false) eq_refl) as (q & _ & H). split; [|by exists q]. exists l1, ev, l2, now.
    injection Hname as <-. split; [exact El|]. split; [exact Hch|]. exact (Hf ex_overlap_calm).
Defined.
