(* ===== verification/Collector.v ===== *)
(** * Traffic statistics (pkg/stats/collector.go)

    The ring of ten-second buckets with its index, the lists of host hits, and
    the buffered channels of the log subscribers.  Methods run under the
    collector's mutex, one at a time. *)

From S2P Require Import Prelude GoStrings GoTime GoNet GoHTTP UserTable RateLimit Dns Config Proxy.

Open Scope list_scope.

Definition stats_window : Z := time.Hour.
Definition bucketWidth : Z := 10 * time.Second.
Definition maxBuckets : nat := 360.
Definition subBufSize : nat := 64.

Record hostHit := mkHit { hit_host : string; hit_ts : Z }.

Record TrafficBucket := mkBucket { tb_Time : Z; tb_Requests : Z; tb_BytesRead : Z; tb_BytesWritten : Z }.

Definition zero_bucket : TrafficBucket := mkBucket 0 0 0 0.

Record Collector := mkCollector {
  hostHits : list hostHit;
  dnsBlocks : list hostHit;
  buckets : list TrafficBucket;
  bucketIdx : nat;
  logSubs : gmap nat (list Entry);
}.

Definition NewCollector : Collector := mkCollector [] [] (replicate maxBuckets zero_bucket) 0 ∅.

Definition set_hits (c : Collector) (h d : list hostHit) : Collector := mkCollector h d (buckets c) (bucketIdx c) (logSubs c).
Definition set_ring (c : Collector) (b : list TrafficBucket) (i : nat) : Collector :=
  mkCollector (hostHits c) (dnsBlocks c) b i (logSubs c).
Definition set_subs (c : Collector) (s : gmap nat (list Entry)) : Collector :=
  mkCollector (hostHits c) (dnsBlocks c) (buckets c) (bucketIdx c) s.

Definition hostOnly (hostport : string) : string :=
  match net.SplitHostPort hostport with Some (host, _) => host | None => hostport end.

(** The start of the bucket an instant falls into, in Unix seconds. *)
Definition bucket_time (t : Z) : Z := time.Unix (time.Truncate t bucketWidth).

(** The shared shape of [recordTraffic] and [AddLiveBytes]: add to the current
    bucket, open a new one, or drop what is older than the current bucket. *)
Definition add_traffic (bt requests br bw : Z) (c : Collector) : Collector :=
  let cur := default zero_bucket (buckets c !! bucketIdx c) in
  if tb_Time cur =? bt then
    set_ring c (<[bucketIdx c := mkBucket (tb_Time cur) (wrap64 (tb_Requests cur + requests)) (wrap64 (tb_BytesRead cur + br))
                                   (wrap64 (tb_BytesWritten cur + bw))]> (buckets c)) (bucketIdx c)
  else if (tb_Time cur =? 0) || (tb_Time cur <? bt) then
    let idx := ((bucketIdx c + 1) mod maxBuckets)%nat in
    set_ring c (<[idx := mkBucket bt requests br bw]> (buckets c)) idx
  else c.

Definition recordTraffic (e : Entry) (c : Collector) : Collector :=
  add_traffic (bucket_time (e_Timestamp e)) 1 (e_BytesRead e) (e_BytesWritten e) c.

Definition AddLiveBytes (read written now : Z) (c : Collector) : Collector :=
  add_traffic (bucket_time now) 0 read written c.

(** A send that gives up when the buffer is full. *)
Definition offer (e : Entry) (queue : list Entry) : list Entry :=
  if (length queue <? subBufSize)%nat then queue ++ [e] else queue.

Definition Observe (e : Entry) (c : Collector) : Collector :=
  let hit := mkHit (hostOnly (e_Host e)) (e_Timestamp e) in
  let hosts := if (e_Status e <? 400) && negb (e_Host e =? "")%string then hostHits c ++ [hit] else hostHits c in
  let blocks := if (e_Event e =? "dns-block")%string then dnsBlocks c ++ [hit] else dnsBlocks c in
  let c := recordTraffic e (set_hits c hosts blocks) in
  set_subs c (fmap (offer e) (logSubs c)).

Definition Subscribe (ch : nat) (c : Collector) : Collector := set_subs c (<[ch := []]> (logSubs c)).
Definition Unsubscribe (ch : nat) (c : Collector) : Collector := set_subs c (delete ch (logSubs c)).

Definition compactHits (cutoff : Z) (hits : list hostHit) : list hostHit := filter (fun h => cutoff < hit_ts h) hits.

Definition compact (now : Z) (c : Collector) : Collector :=
  let cutoff := time.Add now (- stats_window) in
  set_hits c (compactHits cutoff (hostHits c)) (compactHits cutoff (dnsBlocks c)).

(** The counting loop of [TopHosts] and [TopBlocked]. *)
Definition count_hits (cutoff : Z) (hits : list hostHit) : gmap string Z :=
  foldl (fun m h => if cutoff <? hit_ts h then <[hit_host h := default 0 (m !! hit_host h) + 1]> m else m) ∅ hits.

Definition count_ge (a b : string * Z) : Prop := snd b <= snd a.

#[global] Instance count_ge_dec : RelDecision count_ge.
Proof. intros a b. unfold count_ge. apply _. Defined.

(** Go ranges over a map in no fixed order and [sort.Slice] is not stable, so ties
    come out in any order: what the standard library's two calls produce together
    is some arrangement of the entries by falling count. *)
Class MapSort := {
  sorted_entries : gmap string Z -> list (string * Z);
  sorted_entries_perm counts : sorted_entries counts ≡ₚ map_to_list counts;
  sorted_entries_sorted counts : StronglySorted count_ge (sorted_entries counts);
}.

#[global] Instance count_ge_trans : Transitive count_ge.
Proof. intros a b c. unfold count_ge. lia. Qed.

#[global] Instance count_ge_total : Total count_ge.
Proof. intros a b. unfold count_ge. lia. Qed.

(** The arrangement a stable sort over the map's own order gives. *)
#[global] Instance stable_map_sort : MapSort := {|
  sorted_entries counts := merge_sort count_ge (map_to_list counts);
  sorted_entries_perm counts := merge_sort_Permutation count_ge (map_to_list counts);
  sorted_entries_sorted counts := StronglySorted_merge_sort count_ge (map_to_list counts);
|}.

Section top.
Context {sorting : MapSort}.

Definition topN (counts : gmap string Z) (n : nat) : list (string * Z) := take n (sorted_entries counts).

Definition TopHosts (n : nat) (now : Z) (c : Collector) : list (string * Z) :=
  topN (count_hits (time.Add now (- stats_window)) (hostHits c)) n.

Definition TopBlocked (n : nat) (now : Z) (c : Collector) : list (string * Z) :=
  topN (count_hits (time.Add now (- stats_window)) (dnsBlocks c)) n.
End top.

(** [Traffic]: the ring from the oldest slot on, without unused slots. *)
Definition ring_slot (c : Collector) (i : nat) : TrafficBucket :=
  default zero_bucket (buckets c !! ((bucketIdx c + 1 + i) mod maxBuckets)%nat).

Definition Traffic (count : nat) (c : Collector) : list TrafficBucket :=
  let count := Nat.min count maxBuckets in
  let result := filter (fun b => 0 < tb_Time b) (map (ring_slot c) (seq 0 maxBuckets)) in
  if (count <? length result)%nat then drop (length result - count) result else result.
