(* ===== verification/CollectorSpec.v ===== *)
(** * What the statistics show (over Collector)

    The ring of buckets against the unbounded record of traffic, and the lists of
    busiest hosts against the observed visits. *)

From S2P Require Import Prelude GoStrings GoTime GoNet GoHTTP UserTable RateLimit Dns Config Proxy Collector.

Open Scope list_scope.

(** ** The ring is a sliding list *)

(** The specification: all buckets ever opened, oldest first. *)
Definition spec_traffic (bt requests br bw : Z) (l : list TrafficBucket) : list TrafficBucket :=
  match last l with
  | Some cur =>
      if tb_Time cur =? bt then
        removelast l ++ [mkBucket bt (wrap64 (tb_Requests cur + requests)) (wrap64 (tb_BytesRead cur + br))
                            (wrap64 (tb_BytesWritten cur + bw))]
      else if tb_Time cur <? bt then l ++ [mkBucket bt requests br bw] else l
  | None => [mkBucket bt requests br bw]
  end.

(** The last [n] elements. *)
Definition lastn {A} (n : nat) (l : list A) : list A := drop (length l - n) l.

(** The ring read from its oldest slot. *)
Definition ring (c : Collector) : list TrafficBucket :=
  drop (S (bucketIdx c)) (buckets c) ++ take (S (bucketIdx c)) (buckets c).

Definition ring_ok (c : Collector) : Prop := length (buckets c) = maxBuckets /\ (bucketIdx c < maxBuckets)%nat.

Lemma ring_slots c : ring_ok c -> map (ring_slot c) (seq 0 maxBuckets) = ring c.
Proof.
  intros [Hl Hi]. apply list_eq. intros j. change (map (ring_slot c) (seq 0 maxBuckets)) with (ring_slot c <$> seq 0 maxBuckets). rewrite list_lookup_fmap.
  unfold ring. destruct (decide (j < maxBuckets)%nat) as [Hj|Hj].
  - rewrite lookup_seq_lt by done. simpl. unfold ring_slot.
    destruct (decide (j < maxBuckets - S (bucketIdx c))%nat) as [Hd|Hd].
    + rewrite lookup_app_l by (rewrite length_drop; lia). rewrite lookup_drop.
      rewrite Nat.mod_small by lia. replace (bucketIdx c + 1 + j)%nat with (S (bucketIdx c) + j)%nat by lia.
      destruct (buckets c !! (S (bucketIdx c) + j)%nat) eqn:E; [done|]. apply lookup_ge_None in E. lia.
    + rewrite lookup_app_r by (rewrite length_drop; lia). rewrite length_drop, Hl, lookup_take_lt by lia.
      replace ((bucketIdx c + 1 + j) mod maxBuckets)%nat with (j - (maxBuckets - S (bucketIdx c)))%nat.
      * destruct (buckets c !! _) eqn:E; [done|]. apply lookup_ge_None in E. lia.
      * replace (bucketIdx c + 1 + j)%nat with (j - (maxBuckets - S (bucketIdx c)) + 1 * maxBuckets)%nat by lia.
        rewrite Nat.Div0.mod_add. rewrite Nat.mod_small by lia. done.
  - rewrite lookup_ge_None_2 by (rewrite length_seq; lia). symmetry. apply lookup_ge_None_2.
    rewrite length_app, length_drop, length_take. lia.
Qed.

(** Writing the current slot changes the ring's last element. *)
Lemma ring_update c b :
  ring_ok c -> ring (set_ring c (<[bucketIdx c := b]> (buckets c)) (bucketIdx c)) = removelast (ring c) ++ [b].
Proof.
  intros [Hl Hi]. unfold ring. simpl. rewrite drop_insert_lt by lia.
  rewrite (take_S_r (<[bucketIdx c := b]> (buckets c)) (bucketIdx c) b) by (apply list_lookup_insert_eq; lia).
  rewrite take_insert_ge by lia. destruct (lookup_lt_is_Some_2 (buckets c) (bucketIdx c)) as [x Hx]; [lia|].
  rewrite (take_S_r _ _ x Hx), !app_assoc, removelast_last. done.
Qed.

(** Opening the next slot drops the oldest element and appends. *)
Lemma ring_advance c b :
  ring_ok c ->
  let idx := ((bucketIdx c + 1) mod maxBuckets)%nat in
  let c' := set_ring c (<[idx := b]> (buckets c)) idx in
  ring_ok c' /\ ring c' = tail (ring c) ++ [b].
Proof.
  intros [Hl Hi] idx c'. assert (idx < maxBuckets)%nat as Hx by (apply Nat.mod_upper_bound; by vm_compute).
  split; [split; simpl; [by rewrite length_insert|done]|]. unfold ring, c'. cbn [buckets bucketIdx set_ring].
  rewrite drop_insert_lt by lia. rewrite (take_S_r (<[idx := b]> (buckets c)) idx b) by (apply list_lookup_insert_eq; lia).
  rewrite take_insert_ge by lia. rewrite app_assoc. f_equal. unfold idx.
  destruct (decide (S (bucketIdx c) = maxBuckets)) as [E|E].
  - replace (bucketIdx c + 1)%nat with (0 + 1 * maxBuckets)%nat by lia. rewrite Nat.Div0.mod_add, Nat.mod_small by lia.
    rewrite (drop_ge (buckets c) (S (bucketIdx c))), (take_ge (buckets c) (S (bucketIdx c))) by lia. simpl.
    rewrite app_nil_r. by destruct (buckets c).
  - rewrite Nat.mod_small by lia. replace (bucketIdx c + 1)%nat with (S (bucketIdx c)) by lia.
    destruct (lookup_lt_is_Some_2 (buckets c) (S (bucketIdx c))) as [x Hxx]; [lia|].
    by rewrite (drop_S _ _ _ Hxx).
Qed.

(** ** Histories *)

Inductive stats_event :=
| EvObserve (e : Entry)
| EvLive (read written now : Z)
| EvCompact (now : Z)
| EvSubscribe (ch : nat)
| EvUnsubscribe (ch : nat).

Definition run_stats (c : Collector) (ev : stats_event) : Collector :=
  match ev with
  | EvObserve e => Observe e c
  | EvLive read written now => AddLiveBytes read written now c
  | EvCompact now => compact now c
  | EvSubscribe ch => Subscribe ch c
  | EvUnsubscribe ch => Unsubscribe ch c
  end.

(** The traffic an event reports: bucket time, requests, bytes each way. *)
Definition traffic_of (ev : stats_event) : option (Z * Z * Z * Z) :=
  match ev with
  | EvObserve e => Some (bucket_time (e_Timestamp e), 1, e_BytesRead e, e_BytesWritten e)
  | EvLive read written now => Some (bucket_time now, 0, read, written)
  | _ => None
  end.

Definition spec_event (l : list TrafficBucket) (ev : stats_event) : list TrafficBucket :=
  match traffic_of ev with Some (bt, n, br, bw) => spec_traffic bt n br bw l | None => l end.

Definition rising (l : list TrafficBucket) : Prop :=
  Forall (fun b => 0 < tb_Time b) l /\ StronglySorted (fun a b => tb_Time a < tb_Time b) l.

(** The ring is the end of the unused slots followed by every bucket. *)
Definition ring_refines (c : Collector) (l : list TrafficBucket) : Prop :=
  ring_ok c /\ rising l /\ ring c = drop (length l) (replicate maxBuckets zero_bucket ++ l).

Lemma current_bucket c : ring_ok c -> buckets c !! bucketIdx c = last (ring c).
Proof.
  intros [Hl Hi]. destruct (lookup_lt_is_Some_2 (buckets c) (bucketIdx c)) as [x Hx]; [lia|].
  unfold ring. by rewrite (take_S_r _ _ x Hx), app_assoc, last_snoc.
Qed.

Lemma rising_snoc l b : rising (l ++ [b]) <-> rising l /\ 0 < tb_Time b /\ Forall (fun a => tb_Time a < tb_Time b) l.
Proof.
  unfold rising. rewrite Forall_app, Forall_singleton. induction l as [|a l IH]; simpl.
  - split; [intros [[_ ?] _]; split; [split; constructor|split; [done|constructor]]|].
    intros (_ & ? & _). split; [split; [constructor|done]|repeat constructor].
  - rewrite Forall_cons. split.
    + intros [[[Ha Hl] Hb] Hs]. apply StronglySorted_inv in Hs as [Hs Hf]. apply Forall_app in Hf as [Hf Hab].
      apply Forall_cons in Hab as [Hab _]. destruct (proj1 IH) as ([Hl' Hs'] & _ & Hlt); [by split|].
      split; [split; [done|by constructor]|]. split; [done|by constructor].
    + intros ([[Ha Hl] Hs] & Hb & Hlt). apply StronglySorted_inv in Hs as [Hs Hf].
      apply Forall_cons in Hlt as [Hab Hlt]. destruct (proj2 IH) as [_ Hs']; [by split; [split|split]|].
      split; [done|]. constructor; [done|]. apply Forall_app. split; [done|by apply Forall_singleton].
Qed.

Lemma tail_drop {A} n (l : list A) : tail (drop n l) = drop (S n) l.
Proof. replace (tail (drop n l)) with (drop 1 (drop n l)) by (by destruct (drop n l)). rewrite drop_drop. by rewrite Nat.add_1_r. Qed.

Lemma ring_open c l b :
  ring_refines c l -> rising (l ++ [b]) ->
  let idx := ((bucketIdx c + 1) mod maxBuckets)%nat in ring_refines (set_ring c (<[idx := b]> (buckets c)) idx) (l ++ [b]).
Proof.
  intros (Hok & _ & Hring) Hr idx. destruct (ring_advance c b Hok) as [Hok' Hring']. split; [done|]. split; [done|].
  unfold idx. rewrite Hring', Hring, tail_drop, length_app, app_assoc. cbn [length]. rewrite Nat.add_1_r.
  rewrite (drop_app_le (replicate maxBuckets zero_bucket ++ l) [b]); [done|].
  rewrite length_app, length_replicate. unfold maxBuckets. lia.
Qed.

Lemma ring_add c l cur b :
  ring_refines c (l ++ [cur]) -> tb_Time b = tb_Time cur ->
  ring_refines (set_ring c (<[bucketIdx c := b]> (buckets c)) (bucketIdx c)) (l ++ [b]).
Proof.
  intros (Hok & Hr & Hring) Ht. split; [destruct Hok; split; simpl; [by rewrite length_insert|done]|].
  split; [rewrite rising_snoc in *; by rewrite Ht|]. rewrite (ring_update c b Hok), Hring, !length_app, !app_assoc. cbn [length].
  assert (length l + 1 <= length (replicate maxBuckets zero_bucket ++ l))%nat
    by (rewrite length_app, length_replicate; unfold maxBuckets; lia).
  rewrite !(drop_app_le (replicate maxBuckets zero_bucket ++ l)) by lia. by rewrite removelast_last.
Qed.

Lemma add_traffic_refines bt n br bw c l :
  0 < bt -> ring_refines c l -> ring_refines (add_traffic bt n br bw c) (spec_traffic bt n br bw l).
Proof.
  intros Hbt H. pose proof H as (Hok & Hris & Hring). unfold add_traffic, spec_traffic. rewrite (current_bucket c Hok), Hring.
  destruct l as [|cur l _] using rev_ind.
  - change (last (drop (length (@nil TrafficBucket)) (replicate maxBuckets zero_bucket ++ []))) with (Some zero_bucket).
    cbn [default from_option id last]. unfold zero_bucket at 1 2 3. cbn [tb_Time]. destruct (Z.eqb_spec 0 bt); [lia|]. cbn [orb].
    change (0 =? 0) with true. cbn [orb]. apply (ring_open c [] (mkBucket bt n br bw) H). apply (rising_snoc [] _).
    split; [split; constructor|]. split; [done|constructor].
  - assert (last (drop (length (l ++ [cur])) (replicate maxBuckets zero_bucket ++ l ++ [cur])) = Some cur) as ->.
    { rewrite app_assoc, drop_app_le; [by rewrite last_snoc|]. rewrite !length_app, length_replicate. unfold maxBuckets. simpl. lia. }
    rewrite last_snoc, removelast_last. cbn [default from_option id].
    apply rising_snoc in Hris as (Hl & Hpos & Hlt). destruct (Z.eqb_spec (tb_Time cur) bt) as [E|E].
    + subst bt. by apply (ring_add c l cur).
    + destruct (Z.eqb_spec (tb_Time cur) 0); [lia|]. cbn [orb]. destruct (Z.ltb_spec (tb_Time cur) bt); [|done].
      apply (ring_open c (l ++ [cur]) _ H). apply rising_snoc. split; [by apply rising_snoc|]. split; [done|].
      apply Forall_app. split; [|by apply Forall_singleton]. apply (Forall_impl _ _ _ Hlt). simpl. lia.
Qed.

Lemma ring_refines_subs c s l : ring_refines c l -> ring_refines (set_subs c s) l.
Proof. by destruct c. Qed.

Lemma ring_refines_hits c h d l : ring_refines c l -> ring_refines (set_hits c h d) l.
Proof. by destruct c. Qed.

Lemma run_stats_refines ev c l :
  (forall bt n br bw, traffic_of ev = Some (bt, n, br, bw) -> 0 < bt) ->
  ring_refines c l -> ring_refines (run_stats c ev) (spec_event l ev).
Proof.
  intros Hpos H. destruct ev as [e|read written now|now|ch|ch]; unfold spec_event; cbn [traffic_of run_stats].
  - unfold Observe. apply ring_refines_subs. apply add_traffic_refines; [by eapply Hpos|]. by apply ring_refines_hits.
  - apply add_traffic_refines; [by eapply Hpos|done].
  - by apply ring_refines_hits.
  - by apply ring_refines_subs.
  - by apply ring_refines_subs.
Qed.

Lemma filter_used k l :
  Forall (fun b => 0 < tb_Time b) l ->
  filter (fun b => 0 < tb_Time b) (drop k (replicate maxBuckets zero_bucket ++ l)) = drop (k - maxBuckets) l.
Proof.
  intros Hl. rewrite drop_app, filter_app, length_replicate.
  assert (forall m, filter (fun b => 0 < tb_Time b) (replicate m zero_bucket) = []) as Hz
    by (induction m as [|m IH]; [done|]; cbn [replicate]; rewrite filter_cons, decide_False by (simpl; lia); done).
  rewrite drop_replicate, Hz. simpl.
  apply (Forall_drop _ (k - maxBuckets)) in Hl. induction Hl as [|b t Hb Ht IH]; [done|]. by rewrite filter_cons_True, IH.
Qed.

Lemma rising_drop n l : rising l -> rising (drop n l).
Proof.
  intros [Hp Hs]. split; [by apply Forall_drop|]. revert n. induction Hs as [|a l Hs IH Hf]; intros [|n]; [constructor..| |].
  - by constructor.
  - apply IH. by apply Forall_cons in Hp as [_ Hp].
Qed.

(** [C32] The traffic chart is the recent past: whatever was observed, the ring
    answers exactly the last buckets of the unbounded record in which consecutive
    reports of the same ten seconds are added up and late ones are dropped, up to
    the number asked for and at most an hour's worth, in strictly rising order of
    time. *)
Theorem traffic_is_the_recent_record (evs : list stats_event) (count : nat) :
  (forall ev bt n br bw, ev ∈ evs -> traffic_of ev = Some (bt, n, br, bw) -> 0 < bt) ->
  let result := Traffic count (foldl run_stats NewCollector evs) in
  result = lastn (Nat.min count maxBuckets) (foldl spec_event [] evs) /\
  StronglySorted (fun a b => tb_Time a < tb_Time b) result.
Proof.
  intros Hpos.
  assert (ring_refines (foldl run_stats NewCollector evs) (foldl spec_event [] evs)) as (Hok & Hris & Hring).
  { assert (ring_refines NewCollector []) as H0.
    { split; [split; vm_compute; lia|]. split; [split; constructor|]. by vm_compute. }
    revert H0. generalize NewCollector (@nil TrafficBucket). induction evs as [|ev evs IH]; intros c l H0; [done|].
    cbn [foldl]. apply IH; [intros ev' bt n br bw Hin; apply (Hpos ev'); apply elem_of_cons; by right|].
    apply run_stats_refines; [|done]. intros bt n br bw. apply (Hpos ev). apply elem_of_cons. by left. }
  set (c := foldl run_stats NewCollector evs) in *. set (l := foldl spec_event [] evs) in *. cbn zeta.
  assert (Traffic count c = lastn (Nat.min count maxBuckets) l) as E.
  { unfold Traffic, lastn. rewrite (ring_slots c Hok), Hring, filter_used by apply Hris. rewrite length_drop.
    destruct (Nat.ltb_spec (Nat.min count maxBuckets) (length l - (length l - maxBuckets))).
    - rewrite drop_drop. f_equal. lia.
    - f_equal. lia. }
  split; [done|]. rewrite E. by apply (rising_drop _ l Hris).
Qed.

Lemma traffic_is_the_recent_record_witness :
  let entry t br := mkEntry t "" "1.2.3.4" "GET" "a.com:80" "" "kid" NoError 200 br 0 in
  let evs := [EvObserve (entry (100 * time.Second) 5); EvLive 7 1 (105 * time.Second); EvCompact (106 * time.Second);
              EvObserve (entry (121 * time.Second) 9); EvObserve (entry (99 * time.Second) 1000)] in
  Traffic 60 (foldl run_stats NewCollector evs) = [mkBucket 100 1 12 1; mkBucket 120 1 9 0] /\
  StronglySorted (fun a b => tb_Time a < tb_Time b) (Traffic 60 (foldl run_stats NewCollector evs)).
Proof.
  cbn zeta. edestruct (traffic_is_the_recent_record
    [EvObserve (mkEntry (100 * time.Second) "" "1.2.3.4" "GET" "a.com:80" "" "kid" NoError 200 5 0);
     EvLive 7 1 (105 * time.Second); EvCompact (106 * time.Second);
     EvObserve (mkEntry (121 * time.Second) "" "1.2.3.4" "GET" "a.com:80" "" "kid" NoError 200 9 0);
     EvObserve (mkEntry (99 * time.Second) "" "1.2.3.4" "GET" "a.com:80" "" "kid" NoError 200 1000 0)] 60) as [H1 H2];
    [|split; [rewrite H1; by vm_compute|exact H2]].
  intros ev bt n br bw Hin. repeat (apply elem_of_cons in Hin as [->|Hin]; [intros [= <- _ _ _]; by vm_compute|]).
  by apply not_elem_of_nil in Hin.
Defined.

(** ** The busiest hosts *)

Definition visits_of (ev : stats_event) : list hostHit :=
  match ev with
  | EvObserve e => if (e_Status e <? 400) && negb (e_Host e =? "")%string then [mkHit (hostOnly (e_Host e)) (e_Timestamp e)] else []
  | _ => []
  end.

Definition blocks_of (ev : stats_event) : list hostHit :=
  match ev with
  | EvObserve e => if (e_Event e =? "dns-block")%string then [mkHit (hostOnly (e_Host e)) (e_Timestamp e)] else []
  | _ => []
  end.

(** How often a host was hit after [cutoff]. *)
Definition hits_after (cutoff : Z) (h : string) (hits : list hostHit) : Z :=
  Z.of_nat (length (filter (fun x => hit_host x = h /\ cutoff < hit_ts x) hits)).

(** The [n] best of a count, with the counts: no host twice, falling, exact, and
    only cut off when the list is full and nothing better is left out. *)
Definition is_ranking (n : nat) (count : string -> Z) (result : list (string * Z)) : Prop :=
  NoDup result.*1 /\ StronglySorted count_ge result /\ (length result <= n)%nat /\
  (forall h k, (h, k) ∈ result -> k = count h /\ 0 < k) /\
  (forall h, 0 < count h -> h ∈ result.*1 \/ (length result = n /\ forall h' k, (h', k) ∈ result -> count h <= k)).

Lemma hits_after_app cutoff h l k : hits_after cutoff h (l ++ k) = hits_after cutoff h l + hits_after cutoff h k.
Proof. unfold hits_after. rewrite filter_app, length_app. lia. Qed.

Lemma hits_after_compact cutoff cutoff' h l :
  cutoff' <= cutoff -> hits_after cutoff h (compactHits cutoff' l) = hits_after cutoff h l.
Proof. intros H. unfold hits_after, compactHits. rewrite list_filter_filter_l; [done|]. intros x [_ Hx]. lia. Qed.

Lemma hits_after_one cutoff h x :
  hits_after cutoff h [x] = if decide (hit_host x = h /\ cutoff < hit_ts x) then 1 else 0.
Proof. unfold hits_after. rewrite filter_cons. by case_decide. Qed.

Lemma count_hits_lookup cutoff hits h :
  count_hits cutoff hits !! h = if hits_after cutoff h hits =? 0 then None else Some (hits_after cutoff h hits).
Proof.
  induction hits as [|x hits IH] using rev_ind; [done|].
  rewrite hits_after_app, hits_after_one. unfold count_hits in *. rewrite foldl_app. cbn [foldl].
  set (m := foldl _ _ hits) in *. assert (0 <= hits_after cutoff h hits) by (unfold hits_after; lia).
  destruct (Z.ltb_spec cutoff (hit_ts x)) as [Ht|Ht].
  - destruct (decide (hit_host x = h)) as [<-|Hh].
    + rewrite lookup_insert_eq, decide_True, IH by done.
      destruct (Z.eqb_spec (hits_after cutoff (hit_host x) hits) 0) as [->|]; [done|]. cbn [default from_option id].
      destruct (Z.eqb_spec (hits_after cutoff (hit_host x) hits + 1) 0); [lia|done].
    + rewrite lookup_insert_ne, decide_False by naive_solver. by rewrite Z.add_0_r.
  - rewrite decide_False by lia. by rewrite Z.add_0_r.
Qed.

Lemma ranking_of_counts `{MapSort} n cutoff hits :
  is_ranking n (fun h => hits_after cutoff h hits) (topN (count_hits cutoff hits) n).
Proof.
  set (counts := count_hits cutoff hits). pose proof (sorted_entries_perm counts) as Hp.
  pose proof (sorted_entries_sorted counts) as Hs. unfold topN. set (l := sorted_entries counts) in *.
  assert (forall h k, (h, k) ∈ l <-> counts !! h = Some k) as Hl by (intros h k; rewrite Hp; apply elem_of_map_to_list).
  assert (NoDup l.*1) as Hnd by (rewrite Hp; apply NoDup_fst_map_to_list).
  assert (forall h k, (h, k) ∈ l -> k = hits_after cutoff h hits /\ 0 < k) as Hk.
  { intros h k Hin%Hl. unfold counts in Hin. rewrite count_hits_lookup in Hin.
    assert (0 <= hits_after cutoff h hits) by (unfold hits_after; lia).
    destruct (Z.eqb_spec (hits_after cutoff h hits) 0); [done|]. injection Hin as <-. lia. }
  rewrite <- (take_drop n l) in Hs, Hnd.
  split; [rewrite fmap_app in Hnd; by apply NoDup_app in Hnd as [? _]|].
  split; [by eapply StronglySorted_app_1_l|]. split; [rewrite length_take; lia|].
  split; [intros h k Hin; apply Hk; rewrite <- (take_drop n l); apply elem_of_app; by left|]. intros h Hh.
  assert ((h, hits_after cutoff h hits) ∈ l) as Hin.
  { apply Hl. unfold counts. rewrite count_hits_lookup. by rewrite (proj2 (Z.eqb_neq _ _)) by lia. }
  rewrite <- (take_drop n l) in Hin. apply elem_of_app in Hin as [Hin|Hin].
  - left. apply list_elem_of_fmap. by exists (h, hits_after cutoff h hits).
  - right. split.
    + rewrite length_take. destruct (decide (n <= length l)%nat); [lia|]. rewrite drop_ge in Hin by lia. by apply not_elem_of_nil in Hin.
    + intros h' k Hin'. by apply (StronglySorted_app_1_elem_of count_ge _ _ (h', k) (h, hits_after cutoff h hits) Hs).
Qed.

Lemma hits_kept cutoff h evs c :
  (forall t, EvCompact t ∈ evs -> time.Add t (- stats_window) <= cutoff) ->
  let c' := foldl run_stats c evs in
  hits_after cutoff h (hostHits c') = hits_after cutoff h (hostHits c ++ flat_map visits_of evs) /\
  hits_after cutoff h (dnsBlocks c') = hits_after cutoff h (dnsBlocks c ++ flat_map blocks_of evs).
Proof.
  revert c. induction evs as [|ev evs IH]; intros c Hc; cbn [foldl flat_map]; [by rewrite !app_nil_r|].
  destruct (IH (run_stats c ev)) as [H1 H2]; [intros t Hin; apply Hc; by apply elem_of_cons; right|].
  rewrite H1, H2, !hits_after_app. rewrite !Z.add_assoc, <- !hits_after_app.
  assert (forall bt n br bw d, hostHits (add_traffic bt n br bw d) = hostHits d /\ dnsBlocks (add_traffic bt n br bw d) = dnsBlocks d) as Ht
    by (intros; unfold add_traffic; cbn zeta; by repeat case_match).
  destruct ev as [e|read written now|now|ch|ch]; cbn [run_stats visits_of blocks_of]; rewrite ?app_nil_r; try done.
  - unfold Observe, recordTraffic. cbn [hostHits dnsBlocks set_subs]. rewrite (proj1 (Ht _ _ _ _ _)), (proj2 (Ht _ _ _ _ _)).
    cbn [hostHits dnsBlocks set_hits]. split; f_equal; f_equal; case_match; by rewrite ?app_nil_r.
  - unfold AddLiveBytes. by rewrite (proj1 (Ht _ _ _ _ _)), (proj2 (Ht _ _ _ _ _)).
  - cbn [hostHits dnsBlocks set_hits compact]. rewrite !hits_after_app, !hits_after_compact; [done|..]; apply Hc; by apply elem_of_cons; left.
Qed.

(** [C33] The dashboard lists are exact: whatever was observed and compacted up to
    now, the top sites (and the top blocked hosts) are the hosts with the most
    successful visits (the most DNS blocks) in the last hour, each with its exact
    count, in falling order, none twice; a host with a visit is missing only from a
    full list of hosts that had at least as many.  Ties may come in any order. *)
Theorem top_lists_are_exact `{MapSort} (evs : list stats_event) (n : nat) (now : Z) :
  (forall t, EvCompact t ∈ evs -> t <= now) ->
  let c := foldl run_stats NewCollector evs in
  is_ranking n (fun h => hits_after (now - stats_window) h (flat_map visits_of evs)) (TopHosts n now c) /\
  is_ranking n (fun h => hits_after (now - stats_window) h (flat_map blocks_of evs)) (TopBlocked n now c).
Proof.
  intros Hc c. assert (forall f g r, (forall h, f h = g h) -> is_ranking n f r -> is_ranking n g r) as Hext.
  { intros f g r E (H1 & H2 & H3 & H4 & H5). unfold is_ranking. do 3 (split; [done|]).
    split; [intros h k; rewrite <- E; apply H4|]. intros h. rewrite <- E. apply H5. }
  assert (forall t, EvCompact t ∈ evs -> time.Add t (- stats_window) <= now - stats_window) as Hc'
    by (intros t Hin%Hc; unfold time.Add; lia).
  split; (eapply Hext; [|apply ranking_of_counts]); intros h; by apply (hits_kept (now - stats_window) h evs NewCollector Hc').
Qed.

Lemma top_lists_are_exact_witness :
  let visit t host := EvObserve (mkEntry t "" "1.2.3.4" "GET" host "" "kid" NoError 200 0 0) in
  let evs := [visit 5 "a.com:80"; visit 6 "b.com"; EvCompact 7; visit 8 "a.com:443"] in
  TopHosts 10 9 (foldl run_stats NewCollector evs) = [("a.com", 2); ("b.com", 1)]%string /\
  is_ranking 10 (fun h => hits_after (9 - stats_window) h (flat_map visits_of evs)) (TopHosts 10 9 (foldl run_stats NewCollector evs)).
Proof.
  split; [by vm_compute|]. refine (proj1 (top_lists_are_exact [_; _; _; _] 10 9 _)). intros t Hin.
  repeat (apply elem_of_cons in Hin as [E|Hin]; [first [done|injection E as ->; lia]|]). by apply not_elem_of_nil in Hin.
Defined.
