(* ===== verification/LogStream.v ===== *)
(** * The live log of the admin page (the loop of handleLogs, pkg/admin/api.go)

    After the stream is subscribed, the handler writes one server-sent event per
    entry it receives from its channel of the collector and a comment every 25
    seconds, until the client goes away.  The JSON of an entry is a parameter; the
    reader of the stream is the one of the event-stream format: data lines are collected
    and a blank line dispatches them. *)

From S2P Require Import Prelude GoStrings GoTime GoNet GoHTTP UserTable RateLimit Dns Config Proxy Collector.

Open Scope list_scope.

Definition nl : string := String "010" EmptyString.
Definition pingInterval : Z := 25 * time.Second.

Definition connected_comment : string := (": connected" +:+ nl +:+ nl)%string.
Definition ping_comment : string := (": ping" +:+ nl +:+ nl)%string.

(** What can happen while a stream is open; other goroutines observe entries. *)
Inductive stream_event := Observed (e : Entry) | Received | Pinged | ClientGone.

(** The collector, what was written to the client, and whether the loop runs. *)
Record log_stream := mkStream { ls_collector : Collector; ls_written : string; ls_open : bool }.

Section stream.
Variable json : Entry -> string.

(** The channel of the stream. *)
Variable ch : nat.

Definition event_text (e : Entry) : string := ("data: " +:+ json e +:+ nl +:+ nl)%string.

(** [handleLogs]: the comment is flushed before the subscription. *)
Definition open_stream (c : Collector) : log_stream := mkStream (Subscribe ch c) connected_comment true.

Definition stream_step (ev : stream_event) (s : log_stream) : log_stream :=
  match ev with
  | Observed e => mkStream (Observe e (ls_collector s)) (ls_written s) (ls_open s)
  | _ =>
      if negb (ls_open s) then s else
      match ev with
      | Received =>
          match logSubs (ls_collector s) !! ch with
          | Some (e :: queue) =>
              mkStream (set_subs (ls_collector s) (<[ch := queue]> (logSubs (ls_collector s)))) (ls_written s +:+ event_text e)%string true
          | _ => s
          end
      | Pinged => mkStream (ls_collector s) (ls_written s +:+ ping_comment)%string true
      | _ => mkStream (Unsubscribe ch (ls_collector s)) (ls_written s) false
      end
  end.

Definition run_stream (evs : list stream_event) (s : log_stream) : log_stream := foldl (fun s ev => stream_step ev s) s evs.

Lemma run_stream_snoc evs ev s : run_stream (evs ++ [ev]) s = stream_step ev (run_stream evs s).
Proof. unfold run_stream. by rewrite foldl_app. Qed.

(** ** Reading the stream *)

(** The lines that are complete: what follows the last newline is not, yet. *)
Definition complete_lines (s : string) : list string := removelast (strings.Split s "010").

(** The value of a data field, without one leading space. *)
Definition data_of (line : string) : option string :=
  if strings.HasPrefix line "data:" then
    let value := strings.drop 5 line in Some (if strings.HasPrefix value " " then strings.drop 1 value else value)
  else None.

(** The data buffer, and the events dispatched: a data line adds to the buffer, a blank
    line dispatches it, and everything else (comments are all there is) is ignored. *)
Definition read_line (st : option string * list string) (line : string) : option string * list string :=
  let '(buffer, events) := st in
  if (line =? "")%string then match buffer with Some data => (None, events ++ [data]) | None => (None, events) end else
  match data_of line with
  | Some value => (Some (match buffer with Some data => data +:+ nl +:+ value | None => value end)%string, events)
  | None => (buffer, events)
  end.

Definition reader (s : string) : option string * list string := foldl read_line (None, []) (complete_lines s).

(** The data of the events dispatched, in order; an event whose blank line has not
    come is none. *)
Definition read_stream (s : string) : list string := snd (reader s).

(** The entries observed so far, while the stream is open. *)
Definition observed_entries (evs : list stream_event) : list Entry := omap (fun ev => match ev with Observed e => Some e | _ => None end) evs.

Definition waiting (s : log_stream) : list Entry := default [] (logSubs (ls_collector s) !! ch).

(** JSON text has no newline: [json.Marshal] escapes control characters. *)
Hypothesis json_one_line : forall e, free_of "010" (json e).

Lemma complete_lines_app s t :
  (exists u, s = (u +:+ nl)%string) -> complete_lines (s +:+ t) = complete_lines s ++ complete_lines t.
Proof.
  intros [u ->]. unfold complete_lines.
  assert (((u +:+ nl) +:+ t = u +:+ String "010" t)%string) as -> by (rewrite !string_app_assoc; done).
  change (u +:+ nl)%string with (u +:+ String "010" EmptyString)%string. rewrite !Split_app.
  rewrite !removelast_app by apply Split_not_nil. cbn [strings.Split removelast]. by rewrite app_nil_r.
Qed.

Lemma data_of_line j : data_of ("data: " +:+ j) = Some j.
Proof. by destruct j. Qed.

Lemma reader_event s e events :
  (exists t, s = (t +:+ nl)%string) -> reader s = (None, events) -> reader (s +:+ event_text e) = (None, events ++ [json e]).
Proof.
  intros Hs Hr. unfold reader. rewrite complete_lines_app, foldl_app by done. fold (reader s). rewrite Hr.
  assert (complete_lines (event_text e) = [("data: " +:+ json e)%string; ""%string]) as ->.
  { unfold complete_lines, event_text.
    assert (("data: " +:+ json e +:+ nl +:+ nl = ("data: " +:+ json e) +:+ String "010" nl)%string) as -> by (rewrite !string_app_assoc; done).
    rewrite Split_app, Split_free; [done|]. apply free_of_app. split; [by repeat split|apply json_one_line]. }
  cbn [foldl]. unfold read_line at 2. rewrite data_of_line. done.
Qed.

Lemma reader_ping s : (exists t, s = (t +:+ nl)%string) -> forall events, reader s = (None, events) -> reader (s +:+ ping_comment) = (None, events).
Proof.
  intros Hs events Hr. unfold reader. rewrite complete_lines_app, foldl_app by done. fold (reader s). by rewrite Hr.
Qed.

(** No entry meets a full channel. *)
Fixpoint never_full (evs : list stream_event) (s : log_stream) : Prop :=
  match evs with
  | [] => True
  | ev :: evs' => match ev with Observed _ => (length (waiting s) < subBufSize)%nat | _ => True end /\ never_full evs' (stream_step ev s)
  end.

Lemma never_full_snoc evs ev s : never_full (evs ++ [ev]) s ->
  never_full evs s /\ match ev with Observed _ => (length (waiting (run_stream evs s)) < subBufSize)%nat | _ => True end.
Proof.
  revert s. induction evs as [|e evs IH]; intros s; cbn [app never_full]; [by intros [? _]|]. intros [H1 [H2 H3]%IH]. done.
Qed.

(** What the client has read, and what waits in the channel of an open stream. *)
Record stream_ok (evs : list stream_event) (c : Collector) (got : list Entry) (s : log_stream) : Prop := {
  so_written : exists t, ls_written s = (t +:+ nl)%string;
  so_read : reader (ls_written s) = (None, map json got);
  so_subscribed : is_Some (logSubs (ls_collector s) !! ch) <-> ls_open s = true;
  so_order : got ++ waiting s `sublist_of` observed_entries evs;
  so_all : never_full evs (open_stream c) -> ls_open s = true -> got ++ waiting s = observed_entries evs;
}.

Lemma observed_snoc evs ev : observed_entries (evs ++ [ev]) = observed_entries evs ++ match ev with Observed e => [e] | _ => [] end.
Proof. unfold observed_entries. rewrite omap_app. by destruct ev. Qed.

Lemma logSubs_Observe e c : logSubs (Observe e c) = fmap (offer e) (logSubs c).
Proof. unfold Observe, recordTraffic, add_traffic. cbn [logSubs set_subs]. by repeat case_match. Qed.

Lemma waiting_observed e s :
  waiting (stream_step (Observed e) s) = match logSubs (ls_collector s) !! ch with Some q => offer e q | None => [] end.
Proof. unfold waiting. cbn [stream_step ls_collector]. rewrite logSubs_Observe, lookup_fmap. by destruct (_ !! ch). Qed.

Lemma stream_ok_open c : stream_ok [] c [] (open_stream c).
Proof.
  assert (waiting (open_stream c) = []) as Hw by (unfold waiting; cbn; by rewrite lookup_insert_eq).
  split; [by exists (": connected" +:+ nl)%string|done| |by rewrite Hw|by rewrite Hw]. cbn. rewrite lookup_insert_eq. split; [done|by eexists].
Qed.

Lemma stream_ok_observed evs c got s e :
  stream_ok evs c got s -> s = run_stream evs (open_stream c) -> stream_ok (evs ++ [Observed e]) c got (stream_step (Observed e) s).
Proof.
  intros [Hw Hr Hsub Hord Hall] Es.
  split; [done|done| | |]; rewrite ?observed_snoc, ?waiting_observed.
  - cbn [stream_step ls_collector ls_open]. by rewrite logSubs_Observe, lookup_fmap, fmap_is_Some.
  - unfold waiting in Hord. destruct (logSubs (ls_collector s) !! ch) as [q|] eqn:E; simpl in Hord.
    + unfold offer. case_match; [rewrite app_assoc; by apply sublist_app|by apply sublist_inserts_r].
    + by apply sublist_inserts_r.
  - intros [Hn Hfull]%never_full_snoc Ho. cbn [stream_step ls_open] in Ho. rewrite <- Es in Hfull. rewrite <- (Hall Hn Ho).
    unfold waiting in *. apply Hsub in Ho as [q E]. rewrite E in *. simpl in *. unfold offer. rewrite (proj2 (Nat.ltb_lt _ _) Hfull). by rewrite app_assoc.
Qed.

Lemma stream_ok_quiet evs c got s s' ev :
  stream_ok evs c got s -> (forall e, ev <> Observed e) -> ls_written s' = ls_written s -> ls_open s' = ls_open s ->
  logSubs (ls_collector s') !! ch = logSubs (ls_collector s) !! ch -> stream_ok (evs ++ [ev]) c got s'.
Proof.
  intros [Hw Hr Hsub Hord Hall] Hne E1 E2 E3. assert (waiting s' = waiting s) as E4 by (unfold waiting; by rewrite E3).
  assert (observed_entries (evs ++ [ev]) = observed_entries evs) as E5 by (rewrite observed_snoc; destruct ev; rewrite ?app_nil_r; naive_solver).
  split; rewrite ?E1, ?E2, ?E3, ?E4, ?E5; try done. intros [Hn _]%never_full_snoc. by apply Hall.
Qed.

Lemma stream_ok_step evs c got s ev :
  stream_ok evs c got s -> s = run_stream evs (open_stream c) -> exists got', stream_ok (evs ++ [ev]) c got' (stream_step ev s).
Proof.
  intros Hok Es. destruct ev as [e| | |]; [exists got; by apply stream_ok_observed|..]; cbn [stream_step]; destruct (ls_open s) eqn:Eo; cbn [negb];
    try (exists got; by apply (stream_ok_quiet evs c got s)); pose proof Hok as [[t Hw] Hr Hsub Hord Hall].
  - destruct (logSubs (ls_collector s) !! ch) as [[|e q]|] eqn:E; try (exists got; by apply (stream_ok_quiet evs c got s)).
    exists (got ++ [e]). unfold waiting in *. rewrite E in *. simpl in Hord, Hall.
    split; cbn [ls_written ls_open ls_collector]; rewrite ?observed_snoc, ?app_nil_r; unfold waiting; cbn [ls_collector set_subs logSubs]; rewrite ?lookup_insert_eq.
    + exists (t +:+ nl +:+ "data: " +:+ json e +:+ nl)%string. rewrite Hw. unfold event_text. by rewrite !string_app_assoc.
    + rewrite map_app. apply reader_event; [by exists t|done].
    + split; [done|by eexists].
    + simpl. by rewrite <- app_assoc.
    + intros [Hn _]%never_full_snoc _. simpl. rewrite <- app_assoc. by apply Hall.
  - exists got. split; cbn [ls_written ls_open ls_collector]; rewrite ?observed_snoc, ?app_nil_r; try done.
    + exists (t +:+ nl +:+ ": ping" +:+ nl)%string. rewrite Hw. unfold ping_comment. by rewrite !string_app_assoc.
    + apply reader_ping; [by exists t|done].
    + by rewrite Hsub, Eo.
    + intros [Hn _]%never_full_snoc _. by apply Hall.
  - exists got. assert (waiting (mkStream (Unsubscribe ch (ls_collector s)) (ls_written s) false) = []) as Ew
      by (unfold waiting; cbn; by rewrite lookup_delete_eq).
    split; rewrite ?Ew, ?observed_snoc, ?app_nil_r; cbn [ls_written ls_open ls_collector]; try done.
    + by exists t.
    + cbn. rewrite lookup_delete_eq. split; [by intros [? ?]|done].
    + etransitivity; [|exact Hord]. by apply sublist_inserts_r.
Qed.

(** A stream whose client went away. *)
Lemma stream_closed s evs :
  ls_open s = false -> logSubs (ls_collector s) !! ch = None ->
  ls_written (run_stream evs s) = ls_written s /\ logSubs (ls_collector (run_stream evs s)) !! ch = None.
Proof.
  revert s. induction evs as [|ev evs IH]; intros s Ho Hn; [done|]. cbn [run_stream foldl].
  assert (ls_open (stream_step ev s) = false /\ ls_written (stream_step ev s) = ls_written s /\ logSubs (ls_collector (stream_step ev s)) !! ch = None) as (H1 & H2 & H3).
  { destruct ev; cbn [stream_step]; rewrite ?Ho; cbn [negb]; try done. cbn [ls_collector]. by rewrite logSubs_Observe, lookup_fmap, Hn. }
  destruct (IH _ H1 H3) as [E1 E2]. by rewrite <- H2.
Qed.

(** [C34] The live log tells what happened, in order: whatever is observed, received
    and pinged after the stream was opened, a reader of the stream gets a
    subsequence of the entries observed since, in their order; as long as the
    channel never was full, what it got and what is waiting are all of them; and when
    the client goes away the channel is given back and nothing more is written. *)
Theorem log_stream_tells_in_order (c : Collector) (evs : list stream_event) :
  let s := run_stream evs (open_stream c) in
  exists got, read_stream (ls_written s) = map json got /\
    got `sublist_of` observed_entries evs /\
    (never_full evs (open_stream c) -> ls_open s = true -> got ++ waiting s = observed_entries evs) /\
    (ls_open s = false -> logSubs (ls_collector s) !! ch = None /\
       forall evs', ls_written (run_stream evs' s) = ls_written s /\ logSubs (ls_collector (run_stream evs' s)) !! ch = None).
Proof.
  cbn zeta. assert (exists got, stream_ok evs c got (run_stream evs (open_stream c))) as (got & [Hw Hr Hsub Hord Hall]).
  { induction evs as [|ev evs [got IH]] using rev_ind; [exists []; apply stream_ok_open|]. rewrite run_stream_snoc. by apply (stream_ok_step evs c got). }
  exists got. split; [unfold read_stream; by rewrite Hr|]. split; [etransitivity; [|exact Hord]; by apply sublist_inserts_r|]. split; [done|].
  set (s := run_stream evs (open_stream c)) in *. intros Ho.
  assert (logSubs (ls_collector s) !! ch = None) as Hn.
  { destruct (logSubs (ls_collector s) !! ch) eqn:E; [|done]. assert (ls_open s = true) by (apply Hsub; by eexists). congruence. }
  split; [done|]. intros evs'. by apply stream_closed.
Qed.
End stream.

Lemma log_stream_tells_in_order_witness :
  let e status := mkEntry 0 "" "192.0.2.7" "GET" "example.com" "/" "amy" NoError status 0 0 in
  let s := run_stream (fun _ => "{}"%string) 0 [Observed (e 200); Pinged; Received; Observed (e 404); ClientGone] (open_stream 0 NewCollector) in
  read_stream (ls_written s) = ["{}"%string] /\ logSubs (ls_collector s) !! 0%nat = None.
Proof.
  cbn zeta. split; [by vm_compute|].
  destruct (log_stream_tells_in_order (fun _ => "{}"%string) 0 ltac:(intros; by repeat split) NewCollector
    [Observed (mkEntry 0 "" "192.0.2.7" "GET" "example.com" "/" "amy" NoError 200 0 0); Pinged; Received;
     Observed (mkEntry 0 "" "192.0.2.7" "GET" "example.com" "/" "amy" NoError 404 0 0); ClientGone]) as (got & _ & _ & _ & H).
  by apply H.
Defined.
