(* ===== verification/Counter.v ===== *)
(** * Live byte counts (pkg/stats/counter.go)

    Counting writers add to two atomic integers, a ticker per writer moves what is
    pending into a bounded channel, and one goroutine drains the channel into the
    collector and the registered observers.  Every atomic operation, send and
    receive is one step, the two additions of [Write] and the swap and the send of
    [flush] included; steps of different goroutines come in any order. *)

From S2P Require Import Prelude GoStrings GoTime GoNet GoHTTP UserTable RateLimit Dns Config Proxy Collector.

Open Scope list_scope.

Definition flushInterval : Z := 1 * time.Second.
Definition liveChanSize : nat := 256.

Record TrafficDelta := mkDelta { d_Read : Z; d_Written : Z }.

(** The two atomic counters of a writer and its direction, and where its goroutines
    are: what a [Write] under way has added to [pending] and not yet to [total], and
    what a [flush] under way has taken out of [pending] and not yet sent. *)
Record CountingWriter := mkCW { cw_isRead : bool; cw_pending : Z; cw_total : Z; cw_adding : Z; cw_taken : Z }.

(** The counter: its channel, the collector behind it, the calls made to the
    observers (oldest first), and the writers handed out. *)
Record TrafficCounter := mkTC {
  tc_ch : list TrafficDelta;
  tc_collector : Collector;
  tc_observed : list TrafficDelta;
  tc_writers : list CountingWriter;
}.

Definition NewTrafficCounter (c : Collector) : TrafficCounter := mkTC [] c [] [].

Definition set_writers (tc : TrafficCounter) (ws : list CountingWriter) : TrafficCounter :=
  mkTC (tc_ch tc) (tc_collector tc) (tc_observed tc) ws.
Definition set_ch (tc : TrafficCounter) (q : list TrafficDelta) : TrafficCounter :=
  mkTC q (tc_collector tc) (tc_observed tc) (tc_writers tc).

Definition NewWriter (isRead : bool) (tc : TrafficCounter) : TrafficCounter :=
  set_writers tc (tc_writers tc ++ [mkCW isRead 0 0 0 0]).

(** [Write] after the wrapped writer took [n] bytes: the first addition, and the
    second. *)
Definition add_pending (n : Z) (cw : CountingWriter) : CountingWriter :=
  if 0 <? n then mkCW (cw_isRead cw) (wrap64 (cw_pending cw + n)) (cw_total cw) n (cw_taken cw) else cw.

Definition add_total (cw : CountingWriter) : CountingWriter :=
  mkCW (cw_isRead cw) (cw_pending cw) (wrap64 (cw_total cw + cw_adding cw)) 0 (cw_taken cw).

Definition Total (cw : CountingWriter) : Z := cw_total cw.

(** [flush] swaps what is pending for zero ... *)
Definition swap_pending (cw : CountingWriter) : CountingWriter :=
  mkCW (cw_isRead cw) 0 (cw_total cw) (cw_adding cw) (cw_pending cw).

Definition delta_of (cw : CountingWriter) : TrafficDelta :=
  if cw_isRead cw then mkDelta (cw_taken cw) 0 else mkDelta 0 (cw_taken cw).

Definition on_writer (i : nat) (f : CountingWriter -> CountingWriter) (tc : TrafficCounter) : TrafficCounter :=
  match tc_writers tc !! i with
  | Some cw => set_writers tc (<[i := f cw]> (tc_writers tc))
  | None => tc
  end.

(** ... and, unless that was zero, sends it as a delta, which is lost when the
    channel is full: the first component. *)
Definition send_taken (i : nat) (tc : TrafficCounter) : option TrafficDelta * TrafficCounter :=
  match tc_writers tc !! i with
  | None => (None, tc)
  | Some cw =>
      if cw_taken cw =? 0 then (None, tc) else
      let d := delta_of cw in
      let tc := set_writers tc (<[i := mkCW (cw_isRead cw) (cw_pending cw) (cw_total cw) (cw_adding cw) 0]> (tc_writers tc)) in
      if (length (tc_ch tc) <? liveChanSize)%nat then (None, set_ch tc (tc_ch tc ++ [d])) else (Some d, tc)
  end.

(** One received delta of [drain]. *)
Definition drain_one (now : Z) (tc : TrafficCounter) : TrafficCounter :=
  match tc_ch tc with
  | [] => tc
  | d :: q => mkTC q (AddLiveBytes (d_Read d) (d_Written d) now (tc_collector tc)) (tc_observed tc ++ [d]) (tc_writers tc)
  end.

(** The loop of [drain] once [Stop] was called; it ends on an empty channel. *)
Fixpoint drain_rest (fuel : nat) (now : Z) (tc : TrafficCounter) : TrafficCounter :=
  match fuel, tc_ch tc with
  | S fuel', _ :: _ => drain_rest fuel' now (drain_one now tc)
  | _, _ => tc
  end.

Definition stop_drain (now : Z) (tc : TrafficCounter) : TrafficCounter := drain_rest (length (tc_ch tc)) now tc.

(** ** Histories *)

(** A writer has one goroutine that writes and one that flushes: [CWrite] begins a
    [Write] when none is under way, [CTotal] ends it; [CSwap] begins a [flush], [CSend]
    ends it. *)
Inductive counter_event :=
| CNew (isRead : bool)
| CWrite (i : nat) (n : Z)
| CTotal (i : nat)
| CSwap (i : nat)
| CSend (i : nat)
| CDrain (now : Z).

(** A step, with the delta it lost. *)
Definition counter_step (ev : counter_event) (tc : TrafficCounter) : option TrafficDelta * TrafficCounter :=
  match ev with
  | CNew isRead => (None, NewWriter isRead tc)
  | CWrite i n => (None, on_writer i (fun cw => if cw_adding cw =? 0 then add_pending n cw else cw) tc)
  | CTotal i => (None, on_writer i add_total tc)
  | CSwap i => (None, on_writer i (fun cw => if cw_taken cw =? 0 then swap_pending cw else cw) tc)
  | CSend i => send_taken i tc
  | CDrain now => (None, drain_one now tc)
  end.

Fixpoint run_counter (evs : list counter_event) (tc : TrafficCounter) : list TrafficDelta * TrafficCounter :=
  match evs with
  | [] => ([], tc)
  | ev :: evs' =>
      let '(lost, tc) := counter_step ev tc in
      let '(rest, tc) := run_counter evs' tc in
      (option_list lost ++ rest, tc)
  end.

(** ** Conservation *)

Definition sum {A} (f : A -> Z) (l : list A) : Z := foldr (fun x acc => f x + acc) 0 l.

(** The bytes of one direction in a delta and in a writer. *)
Definition in_delta (isRead : bool) (d : TrafficDelta) : Z := if isRead then d_Read d else d_Written d.
Definition of_writer (isRead : bool) (f : CountingWriter -> Z) (cw : CountingWriter) : Z :=
  if bool_decide (cw_isRead cw = isRead) then f cw else 0.

Lemma sum_app {A} (f : A -> Z) l k : sum f (l ++ k) = sum f l + sum f k.
Proof. induction l as [|x l IH]; simpl; [done|]. rewrite IH. lia. Qed.

Lemma sum_nil {A} (f : A -> Z) : sum f [] = 0.
Proof. done. Qed.

Lemma sum_one {A} (f : A -> Z) x : sum f [x] = f x.
Proof. unfold sum. simpl. lia. Qed.

Lemma sum_cons {A} (f : A -> Z) x l : sum f (x :: l) = f x + sum f l.
Proof. done. Qed.

Lemma sum_insert {A} (f : A -> Z) l i x y : l !! i = Some x -> sum f (<[i := y]> l) = sum f l - f x + f y.
Proof.
  revert i. induction l as [|z l IH]; intros [|i] H; simplify_eq/=; [lia|]. rewrite (IH i) by done. lia.
Qed.

(** Bytes on their way or arrived, of one direction. *)
Definition accounted (isRead : bool) (lost : list TrafficDelta) (tc : TrafficCounter) : Z :=
  sum (of_writer isRead cw_pending) (tc_writers tc) + sum (of_writer isRead cw_taken) (tc_writers tc) +
  sum (in_delta isRead) (tc_ch tc) + sum (in_delta isRead) (tc_observed tc) + sum (in_delta isRead) lost.

(** The bytes the writers took: what they report and what is being added to it. *)
Definition totals (isRead : bool) (tc : TrafficCounter) : Z :=
  sum (of_writer isRead cw_total) (tc_writers tc) + sum (of_writer isRead cw_adding) (tc_writers tc).

(** The balance of a state: what the counters claim to have seen and is not
    accounted for, modulo the width of the counters. *)
Definition balance (isRead : bool) (tc : TrafficCounter) : Z := totals isRead tc - accounted isRead [] tc.

Lemma wrap64_diff a b c d : (exists k, a - b = c - d + k * 2 ^ 64) -> wrap64 (a - b) = wrap64 (c - d).
Proof.
  intros [k ->]. unfold wrap64. by replace (c - d + k * 2 ^ 64 + 2 ^ 63) with (c - d + 2 ^ 63 + k * 2 ^ 64) by lia; rewrite Z.mod_add by lia.
Qed.

Lemma wrap64_eq z : exists k, wrap64 z = z + k * 2 ^ 64.
Proof. unfold wrap64. exists (- ((z + 2 ^ 63) / 2 ^ 64)). pose proof (Z.div_mod (z + 2 ^ 63) (2 ^ 64)). lia. Qed.

Lemma delta_of_dir isRead cw : in_delta isRead (delta_of cw) = of_writer isRead cw_taken cw.
Proof. unfold in_delta, delta_of, of_writer. by destruct isRead, (cw_isRead cw). Qed.

(** What a writer contributes to the balance. *)
Definition writer_balance (isRead : bool) (cw : CountingWriter) : Z :=
  of_writer isRead (fun cw => cw_total cw + cw_adding cw - cw_pending cw - cw_taken cw) cw.

Lemma balance_writers isRead tc :
  balance isRead tc = sum (writer_balance isRead) (tc_writers tc) - sum (in_delta isRead) (tc_ch tc) - sum (in_delta isRead) (tc_observed tc).
Proof.
  unfold balance, totals, accounted. rewrite sum_nil. induction (tc_writers tc) as [|cw ws IH]; [rewrite !sum_nil; lia|].
  rewrite !sum_cons. unfold writer_balance at 1. unfold of_writer in *. case_bool_decide; lia.
Qed.

(** A step of a writer that keeps its contribution, up to the width. *)
Lemma on_writer_balance isRead i f tc :
  (forall cw, tc_writers tc !! i = Some cw -> exists k, writer_balance isRead (f cw) = writer_balance isRead cw + k * 2 ^ 64) ->
  wrap64 (balance isRead (on_writer i f tc)) = wrap64 (balance isRead tc).
Proof.
  intros Hf. unfold on_writer. destruct (tc_writers tc !! i) as [cw|] eqn:E; [|done]. destruct (Hf cw eq_refl) as [k Hk].
  rewrite !balance_writers. cbn [tc_writers tc_ch tc_observed set_writers]. rewrite (sum_insert _ _ _ _ _ E), Hk.
  match goal with |- wrap64 ?x = wrap64 ?y => replace x with (x - 0) by lia; replace y with (y - 0) by lia end.
  apply wrap64_diff. exists k. lia.
Qed.

Lemma add_pending_balance isRead n cw : cw_adding cw = 0 -> exists k, writer_balance isRead (add_pending n cw) = writer_balance isRead cw + k * 2 ^ 64.
Proof.
  intros Ha. unfold add_pending. destruct (0 <? n); [|by exists 0; lia]. destruct (wrap64_eq (cw_pending cw + n)) as [k E].
  exists (if bool_decide (cw_isRead cw = isRead) then - k else 0). unfold writer_balance, of_writer.
  cbn [cw_isRead cw_pending cw_total cw_adding cw_taken]. rewrite E, Ha. case_bool_decide; lia.
Qed.

(** A step changes the balance by what it loses, up to the width. *)
Lemma counter_step_balance isRead ev tc :
  let '(lost, tc') := counter_step ev tc in
  wrap64 (balance isRead tc' - sum (in_delta isRead) (option_list lost)) = wrap64 (balance isRead tc).
Proof.
  assert (forall x, wrap64 (x - sum (in_delta isRead) (option_list None)) = wrap64 x) as Hnone by (intros x; f_equal; simpl; lia).
  destruct ev as [r|i n|i|i|i|now]; cbn [counter_step]; rewrite ?Hnone.
  - rewrite !balance_writers. unfold NewWriter. cbn [tc_writers tc_ch tc_observed set_writers]. rewrite sum_app, sum_one.
    unfold writer_balance at 2, of_writer. cbn [cw_isRead cw_pending cw_total cw_adding cw_taken]. f_equal. case_bool_decide; lia.
  - apply on_writer_balance. intros cw _. destruct (Z.eqb_spec (cw_adding cw) 0); [by apply add_pending_balance|exists 0; lia].
  - apply on_writer_balance. intros cw _. destruct (wrap64_eq (cw_total cw + cw_adding cw)) as [k E].
    exists (if bool_decide (cw_isRead cw = isRead) then k else 0). unfold writer_balance, of_writer, add_total.
    cbn [cw_isRead cw_pending cw_total cw_adding cw_taken]. rewrite E. case_bool_decide; lia.
  - apply on_writer_balance. intros cw _. destruct (Z.eqb_spec (cw_taken cw) 0) as [Et|]; exists 0; [|lia].
    unfold writer_balance, of_writer, swap_pending. cbn [cw_isRead cw_pending cw_total cw_adding cw_taken]. rewrite Et. case_bool_decide; lia.
  - unfold send_taken. destruct (tc_writers tc !! i) as [cw|] eqn:E; [|apply Hnone].
    destruct (Z.eqb_spec (cw_taken cw) 0); [apply Hnone|]. pose proof (delta_of_dir isRead cw) as Hd.
    destruct (_ <? _)%nat; rewrite !balance_writers; cbn [tc_writers tc_ch tc_observed set_writers set_ch option_list option_rect];
      rewrite (sum_insert _ _ _ _ _ E), ?sum_app, ?sum_one, ?sum_nil, Hd; unfold writer_balance at 2 3; unfold of_writer;
      cbn [cw_isRead cw_pending cw_total cw_adding cw_taken]; f_equal; case_bool_decide; lia.
  - unfold drain_one. destruct (tc_ch tc) as [|d q] eqn:E; [done|]. rewrite !balance_writers. cbn [tc_writers tc_ch tc_observed].
    rewrite E, sum_app, sum_one, sum_cons. f_equal. lia.
Qed.

Lemma run_counter_balance isRead evs tc :
  let '(lost, tc') := run_counter evs tc in
  wrap64 (balance isRead tc' - sum (in_delta isRead) lost) = wrap64 (balance isRead tc).
Proof.
  revert tc. induction evs as [|ev evs IH]; intros tc; cbn [run_counter]; [rewrite sum_nil; f_equal; lia|].
  pose proof (counter_step_balance isRead ev tc) as Hs. destruct (counter_step ev tc) as [l1 tc1].
  specialize (IH tc1). destruct (run_counter evs tc1) as [l2 tc2]. rewrite sum_app.
  destruct (wrap64_eq (balance isRead tc2 - sum (in_delta isRead) l2)) as [k1 E1].
  destruct (wrap64_eq (balance isRead tc1)) as [k2 E2]. rewrite <- Hs.
  apply wrap64_diff. exists (k2 - k1). rewrite E1, E2 in IH. lia.
Qed.

(** The loop that empties the channel ends with it empty and delivers it all, in
    order. *)
Lemma drain_rest_all fuel now tc :
  length (tc_ch tc) = fuel ->
  tc_ch (drain_rest fuel now tc) = [] /\ tc_observed (drain_rest fuel now tc) = tc_observed tc ++ tc_ch tc /\
  tc_writers (drain_rest fuel now tc) = tc_writers tc.
Proof.
  revert tc. induction fuel as [|fuel IH]; intros tc Hf; cbn [drain_rest].
  - apply nil_length_inv in Hf. by rewrite Hf, app_nil_r.
  - destruct (tc_ch tc) as [|d q] eqn:E; [done|]. destruct (IH (drain_one now tc)) as (H1 & H2 & H3);
      [unfold drain_one; rewrite E; simpl in *; lia|]. rewrite H1, H2, H3. unfold drain_one. rewrite E. simpl.
    by rewrite <- app_assoc.
Qed.

