(* ===== verification/Tunnel.v ===== *)
(** * The copy loops of a tunnel (second half of connectTunnel, pkg/proxy/connect.go)

    Once the target is dialled, two goroutines copy bytes, one per direction, each
    through a counting writer; when its copy is over a goroutine closes the writer
    and half-closes the connection it wrote to, and when both are done the handler
    logs the close.  Every read of a copy with the write that follows it, every
    operation on the counters, every call after the copy, and every turn of the
    writers' flushers is one step; steps come in any order.  The first direction
    reads through the buffer of the hijacked connection.  A write takes the time it
    takes: that it waits for a slow peer is a step that comes late. *)

From S2P Require Import Prelude GoStrings GoTime GoHTTP UserTable RateLimit Dns Config Proxy Connect Collector Counter.
From Stdlib Require Import Strings.Byte.

Open Scope list_scope.

(** ** Reading through a buffer *)

(** A socket as its reader sees it: what has arrived and whether more can come. *)
Inductive stream_end := StillOpen | Fin | Broken.

Record source := mkSource { so_buffered : list byte; so_arrived : list byte; so_end : stream_end }.

(** What one [Read] of at most [k] bytes finds: the buffer first, as a
    [bufferedConn] and [bufrw] read, then the socket. *)
Definition Read (k : nat) (s : source) : list byte * source :=
  match so_buffered s with
  | [] => (take k (so_arrived s), mkSource [] (drop k (so_arrived s)) (so_end s))
  | _ => (take k (so_buffered s), mkSource (drop k (so_buffered s)) (so_arrived s) (so_end s))
  end.

Definition unread (s : source) : list byte := so_buffered s ++ so_arrived s.

Definition arrive (data : list byte) (s : source) : option source :=
  match so_end s with StillOpen => Some (mkSource (so_buffered s) (so_arrived s ++ data) StillOpen) | _ => None end.

(** The peer's FIN comes after its data; a reset drops what the kernel holds. *)
Definition end_with (e : stream_end) (s : source) : option source :=
  match so_end s, e with
  | StillOpen, Fin => Some (mkSource (so_buffered s) (so_arrived s) Fin)
  | StillOpen, Broken => Some (mkSource (so_buffered s) [] Broken)
  | _, _ => None
  end.

(** ** One direction *)

(** Why a copy stopped. *)
Inductive copy_end := SourceEnded | ReadError | WriteError | CopyPanicked.

(** Where the goroutine of a direction is. *)
Inductive progress := Copying | Copied (e : copy_end) | CounterClosed (e : copy_end) | Done (e : copy_end).

(** Where the flusher of a writer is: in its [select]; woken by a tick, or for the
    last time by [Close]; with bytes taken out and not sent; or gone. *)
Inductive flusher := Resting | Flushing (last : bool) | Sending (last : bool) | Stopped.

#[global] Instance copy_end_eq_dec : EqDecision copy_end.
Proof. solve_decision. Defined.
#[global] Instance progress_eq_dec : EqDecision progress.
Proof. solve_decision. Defined.
#[global] Instance flusher_eq_dec : EqDecision flusher.
Proof. solve_decision. Defined.

(** A direction: where it reads, the bytes the other side was given, whether that
    side can be half-closed and has been, the goroutine, its writer's index in the
    counter and the writer's flusher. *)
Record direction := mkDirection {
  dr_source : source;
  dr_delivered : list byte;
  dr_closeWriter : bool;
  dr_fin : bool;
  dr_progress : progress;
  dr_writer : nat;
  dr_flusher : flusher;
}.

Definition set_source (d : direction) (s : source) : direction :=
  mkDirection s (dr_delivered d) (dr_closeWriter d) (dr_fin d) (dr_progress d) (dr_writer d) (dr_flusher d).
Definition set_progress (d : direction) (p : progress) : direction :=
  mkDirection (dr_source d) (dr_delivered d) (dr_closeWriter d) (dr_fin d) p (dr_writer d) (dr_flusher d).
Definition deliver (d : direction) (s : source) (data : list byte) : direction :=
  mkDirection s (dr_delivered d ++ data) (dr_closeWriter d) (dr_fin d) (dr_progress d) (dr_writer d) (dr_flusher d).
Definition set_flusher (d : direction) (f : flusher) : direction :=
  mkDirection (dr_source d) (dr_delivered d) (dr_closeWriter d) (dr_fin d) (dr_progress d) (dr_writer d) f.

(** [halfCloseWrite] of the side a direction writes to. *)
Definition halfCloseWrite (d : direction) : direction :=
  mkDirection (dr_source d) (dr_delivered d) (dr_closeWriter d) (dr_closeWriter d || dr_fin d) (dr_progress d) (dr_writer d) (dr_flusher d).

(** ** The tunnel *)

Inductive side := Up | Down.

#[global] Instance side_eq_dec : EqDecision side.
Proof. solve_decision. Defined.

(** The tunnel of one CONNECT: client to target, target to client, the counter all
    tunnels share, and what the handler has done about the end. *)
Record tunnel := mkTunnel {
  tn_up : direction;
  tn_down : direction;
  tn_counter : TrafficCounter;
  tn_closed : option Entry;
}.

Definition dir (s : side) (t : tunnel) : direction := match s with Up => tn_up t | Down => tn_down t end.

Definition set_dir (s : side) (t : tunnel) (d : direction) : tunnel :=
  match s with
  | Up => mkTunnel d (tn_down t) (tn_counter t) (tn_closed t)
  | Down => mkTunnel (tn_up t) d (tn_counter t) (tn_closed t)
  end.

Definition set_counter (t : tunnel) (tc : TrafficCounter) : tunnel := mkTunnel (tn_up t) (tn_down t) tc (tn_closed t).

(** [k] is the size of the copy's buffer; [failed] is how much of the chunk the
    other side took before a write error.  [CopyCounts] is the second addition of a
    [Write]. *)
Inductive tunnel_event :=
| Arrives (s : side) (data : list byte)
| Ends (s : side) (e : stream_end)
| CopyChunk (s : side) (k : nat) (failed : option nat)
| CopyCounts (s : side)
| CopyEnds (s : side)
| CopyPanics (s : side)
| ClosesCounter (s : side)
| HalfCloses (s : side)
| FlusherTicks (s : side)
| FlusherStops (s : side)
| FlusherSwaps (s : side)
| FlusherSends (s : side)
| Others (ev : counter_event)
| WaitReturns.

(** What other goroutines do to the counter leaves the two writers alone. *)
Definition touches (ev : counter_event) (i : nat) : bool :=
  match ev with CNew _ | CDrain _ => false | CWrite j _ | CTotal j | CSwap j | CSend j => (i =? j)%nat end.

(** No [Write] of the direction is under way. *)
Definition counted (d : direction) (tc : TrafficCounter) : bool :=
  match tc_writers tc !! dr_writer d with Some cw => cw_adding cw =? 0 | None => true end.

(** A flusher after it has sent. *)
Definition flushed (last : bool) : flusher := if last then Stopped else Resting.

Section tunnel.
Variables (start : Z) (clientIP host user : string).

Definition close_entry (t : tunnel) : Entry :=
  let total d := from_option Total 0 (tc_writers (tn_counter t) !! dr_writer d) in
  mkEntry start "close" clientIP http.MethodConnect host "" user NoError 200 (total (tn_up t)) (total (tn_down t)).

(** Right after the open entry: the writers are new, the goroutines start. *)
Definition open_tunnel (buffered : list byte) (target_half client_half : bool) (tc : TrafficCounter) : tunnel :=
  let n := length (tc_writers tc) in
  mkTunnel (mkDirection (mkSource buffered [] StillOpen) [] target_half false Copying n Resting)
    (mkDirection (mkSource [] [] StillOpen) [] client_half false Copying (S n) Resting)
    (NewWriter false (NewWriter true tc)) None.

(** The write of a chunk through the counting writer, up to its first addition. *)
Definition copy_chunk (s : side) (k : nat) (failed : option nat) (t : tunnel) : option tunnel :=
  let d := dir s t in
  let '(data, src) := Read k (dr_source d) in
  if bool_decide (data = []) then None else
  let written := match failed with None => data | Some n => take n data end in
  let d' := deliver d src written in
  Some (set_counter (set_dir s t (match failed with None => d' | Some _ => set_progress d' (Copied WriteError) end)) (on_writer (dr_writer d) (add_pending (Z.of_nat (length written))) (tn_counter t))).

(** A step that is not enabled gives [None]. *)
Definition tunnel_step (ev : tunnel_event) (t : tunnel) : option tunnel :=
  match ev with
  | Arrives s data => src ← arrive data (dr_source (dir s t)); Some (set_dir s t (set_source (dir s t) src))
  | Ends s e => src ← end_with e (dr_source (dir s t)); Some (set_dir s t (set_source (dir s t) src))
  | CopyChunk s k failed =>
      match dr_progress (dir s t), counted (dir s t) (tn_counter t) with Copying, true => copy_chunk s k failed t | _, _ => None end
  | CopyCounts s =>
      if counted (dir s t) (tn_counter t) then None else Some (set_counter t (on_writer (dr_writer (dir s t)) add_total (tn_counter t)))
  | CopyEnds s =>
      let d := dir s t in
      match dr_progress d, counted d (tn_counter t), unread (dr_source d), so_end (dr_source d) with
      | Copying, true, [], Fin => Some (set_dir s t (set_progress d (Copied SourceEnded)))
      | Copying, true, [], Broken => Some (set_dir s t (set_progress d (Copied ReadError)))
      | _, _, _, _ => None
      end
  | CopyPanics s =>
      match dr_progress (dir s t), counted (dir s t) (tn_counter t) with
      | Copying, true => Some (set_dir s t (set_progress (dir s t) (Done CopyPanicked)))
      | _, _ => None
      end
  | ClosesCounter s =>
      match dr_progress (dir s t), counted (dir s t) (tn_counter t) with
      | Copied e, true => Some (set_dir s t (set_progress (dir s t) (CounterClosed e)))
      | _, _ => None
      end
  | HalfCloses s =>
      match dr_progress (dir s t) with
      | CounterClosed e => Some (set_dir s t (set_progress (halfCloseWrite (dir s t)) (Done e)))
      | _ => None
      end
  | FlusherTicks s =>
      match dr_flusher (dir s t) with Resting => Some (set_dir s t (set_flusher (dir s t) (Flushing false))) | _ => None end
  | FlusherStops s =>
      match dr_flusher (dir s t), dr_progress (dir s t) with
      | Resting, (CounterClosed e | Done e) =>
          if bool_decide (e = CopyPanicked) then None else Some (set_dir s t (set_flusher (dir s t) (Flushing true)))
      | _, _ => None
      end
  | FlusherSwaps s =>
      let d := dir s t in
      match dr_flusher d, tc_writers (tn_counter t) !! dr_writer d with
      | Flushing last, Some cw =>
          Some (set_counter (set_dir s t (set_flusher d (if cw_pending cw =? 0 then flushed last else Sending last)))
                  (on_writer (dr_writer d) swap_pending (tn_counter t)))
      | _, _ => None
      end
  | FlusherSends s =>
      match dr_flusher (dir s t) with
      | Sending last =>
          Some (set_counter (set_dir s t (set_flusher (dir s t) (flushed last))) (snd (send_taken (dr_writer (dir s t)) (tn_counter t))))
      | _ => None
      end
  | Others ev =>
      if touches ev (dr_writer (tn_up t)) || touches ev (dr_writer (tn_down t)) then None
      else Some (set_counter t (snd (counter_step ev (tn_counter t))))
  | WaitReturns =>
      match tn_closed t, dr_progress (tn_up t), dr_progress (tn_down t) with
      | None, Done _, Done _ => Some (mkTunnel (tn_up t) (tn_down t) (tn_counter t) (Some (close_entry t)))
      | _, _, _ => None
      end
  end.
End tunnel.

(** ** What holds of a direction *)

Definition ended (p : progress) : option copy_end :=
  match p with Copying => None | Copied e | CounterClosed e | Done e => Some e end.

(** The data a side sent. *)
Definition arrivals (s : side) (evs : list tunnel_event) : list byte :=
  concat (omap (fun ev => match ev with Arrives s' data => if bool_decide (s = s') then Some data else None | _ => None end) evs).

Lemma arrivals_snoc s evs ev :
  arrivals s (evs ++ [ev]) =
  arrivals s evs ++ match ev with Arrives s' data => if bool_decide (s = s') then data else [] | _ => [] end.
Proof.
  unfold arrivals. rewrite omap_app, concat_app. f_equal. destruct ev; try done. simpl. by case_bool_decide; simpl; rewrite ?app_nil_r.
Qed.

(** The counting writer was closed. *)
Definition closed (p : progress) : Prop := exists e, (p = CounterClosed e \/ p = Done e) /\ e <> CopyPanicked.

(** A flusher has at most its own bytes in its hands, and none are left to come once
    it flushes for the last time. *)
Definition flusher_ok (p : progress) (f : flusher) (cw : CountingWriter) : Prop :=
  match f with
  | Resting => cw_taken cw = 0
  | Flushing last => cw_taken cw = 0 /\ (last = true -> closed p)
  | Sending last => last = true -> closed p /\ cw_pending cw = 0
  | Stopped => closed p /\ cw_pending cw = 0 /\ cw_taken cw = 0
  end.

(** [all] is what the source side sent, [cw] the writer. *)
Record dir_ok (all : list byte) (isRead : bool) (d : direction) (cw : CountingWriter) : Prop := {
  ok_prefix : exists rest, all = dr_delivered d ++ (if bool_decide (dr_progress d = Copying) then unread (dr_source d) else []) ++ rest;
  ok_intact : so_end (dr_source d) <> Broken -> ended (dr_progress d) = None \/ ended (dr_progress d) = Some SourceEnded ->
    all = dr_delivered d ++ unread (dr_source d);
  ok_ended : ended (dr_progress d) = Some SourceEnded -> so_end (dr_source d) = Fin /\ unread (dr_source d) = [];
  ok_fin : dr_fin d = true <-> dr_closeWriter d = true /\ exists e, dr_progress d = Done e /\ e <> CopyPanicked;
  ok_dir : cw_isRead cw = isRead;
  ok_total : cw_total cw = wrap64 (Z.of_nat (length (dr_delivered d)) - cw_adding cw);
  ok_adding : cw_adding cw = 0 \/ dr_progress d = Copying \/ exists e, dr_progress d = Copied e;
  ok_flusher : flusher_ok (dr_progress d) (dr_flusher d) cw;
  ok_closed : forall e, dr_progress d = Copied e \/ dr_progress d = CounterClosed e -> e <> CopyPanicked;
}.

Lemma wrap64_add a b : wrap64 (wrap64 a + b) = wrap64 (a + b).
Proof.
  destruct (wrap64_eq a) as [k ->]. unfold wrap64.
  by replace (a + k * 2 ^ 64 + b + 2 ^ 63) with (a + b + 2 ^ 63 + k * 2 ^ 64) by lia; rewrite Z.mod_add by lia.
Qed.

Lemma Read_unread k s : unread s = fst (Read k s) ++ unread (snd (Read k s)) /\ so_end (snd (Read k s)) = so_end s.
Proof.
  unfold Read, unread. destruct (so_buffered s) as [|b l] eqn:E; cbn [fst snd so_buffered so_arrived so_end].
  - cbn [app]. by rewrite take_drop.
  - by rewrite app_assoc, take_drop.
Qed.

Ltac dir_ok_tac :=
  split; cbn [dr_source dr_delivered dr_closeWriter dr_fin dr_progress dr_writer dr_flusher
    set_source set_progress deliver set_flusher halfCloseWrite so_end ended]; try done.

Lemma flusher_ok_progress p p' f cw : (closed p -> closed p') -> flusher_ok p f cw -> flusher_ok p' f cw.
Proof. intros Hp. destruct f; simpl; naive_solver. Qed.

(** While the copy runs the flusher has not been told to stop. *)
Lemma flusher_ok_open p f cw cw' :
  (forall e, p <> CounterClosed e /\ p <> Done e) -> cw_taken cw' = cw_taken cw -> flusher_ok p f cw -> flusher_ok p f cw'.
Proof.
  intros Hp Ht. assert (~ closed p) as Hn by (intros (e & [H|H] & _); by destruct (Hp e)). destruct f; simpl; rewrite ?Ht; naive_solver.
Qed.

Lemma flusher_ok_flushed p last cw :
  cw_taken cw = 0 -> (last = true -> closed p /\ cw_pending cw = 0) -> flusher_ok p (flushed last) cw.
Proof. destruct last; simpl; naive_solver. Qed.

Section dir.
Context {all : list byte} {isRead : bool} {d : direction} {cw : CountingWriter}.
Hypothesis Hok : dir_ok all isRead d cw.

Lemma dir_ok_arrives data src :
  arrive data (dr_source d) = Some src -> dir_ok (all ++ data) isRead (set_source d src) cw.
Proof.
  destruct Hok as [[rest Hp] Hi He Hf Hd Ht Ha Hfl Hc]. unfold arrive. destruct (so_end (dr_source d)) eqn:Es; [|done..]. intros [= <-].
  assert (unread (mkSource (so_buffered (dr_source d)) (so_arrived (dr_source d) ++ data) StillOpen) = unread (dr_source d) ++ data) as Eu
    by (unfold unread; cbn [so_buffered so_arrived]; by rewrite app_assoc).
  dir_ok_tac.
  - rewrite Eu. case_bool_decide as Hcp; [|exists (rest ++ data); by rewrite Hp, <- !app_assoc].
    exists []. rewrite app_nil_r, (Hi ltac:(done)); [by rewrite <- app_assoc|]. left. by rewrite Hcp.
  - intros _ H. rewrite Eu, app_assoc. f_equal. by apply Hi.
  - intros H. destruct (He H) as [? ?]. done.
Qed.

Lemma dir_ok_ends e src : end_with e (dr_source d) = Some src -> dir_ok all isRead (set_source d src) cw.
Proof.
  destruct Hok as [[rest Hp] Hi He Hf Hd Ht Ha Hfl Hc]. unfold end_with. destruct (so_end (dr_source d)) eqn:Es; [|done..].
  assert (ended (dr_progress d) <> Some SourceEnded) as Hne by (intros H; by destruct (He H)).
  destruct e; [done|..]; intros [= <-]; dir_ok_tac.
  - by exists rest.
  - intros _ H. by apply Hi.
  - case_bool_decide as Hcp; [|by exists rest]. exists (so_arrived (dr_source d) ++ rest). rewrite Hp. f_equal. unfold unread.
    cbn [so_buffered so_arrived]. by rewrite app_nil_r, <- app_assoc.
Qed.

Lemma dir_ok_chunk k failed :
  dr_progress d = Copying -> cw_adding cw = 0 ->
  let data := fst (Read k (dr_source d)) in let src := snd (Read k (dr_source d)) in
  let written := match failed with None => data | Some n => take n data end in
  let d' := deliver d src written in
  dir_ok all isRead (match failed with None => d' | Some _ => set_progress d' (Copied WriteError) end) (add_pending (Z.of_nat (length written)) cw).
Proof.
  destruct Hok as [[rest Hp] Hi He Hf Hd Ht Ha Hfl Hc]. intros Hcp Ha0. cbn zeta. destruct (Read_unread k (dr_source d)) as [Eu Ee].
  destruct (Read k (dr_source d)) as [data src]. cbn [fst snd] in *.
  assert (forall l, let cw' := add_pending (Z.of_nat (length (A:=byte) l)) cw in cw_isRead cw' = isRead /\
    cw_total cw' = wrap64 (Z.of_nat (length (dr_delivered d ++ l)) - cw_adding cw') /\ cw_taken cw' = cw_taken cw) as Hw.
  { intros l. unfold add_pending. rewrite length_app. destruct (Z.ltb_spec 0 (Z.of_nat (length l))); cbn [cw_isRead cw_total cw_adding cw_taken]; rewrite Ht, Ha0.
    - split; [done|]. split; [|done]. f_equal. lia.
    - replace (length l) with 0%nat by lia. by rewrite Nat.add_0_r. }
  rewrite Hcp in Hp. rewrite bool_decide_eq_true_2 in Hp by done.
  assert (dr_fin d = true -> False) as Hnf by (intros H%Hf; destruct H as (_ & e & H & _); congruence).
  destruct failed as [n|]; dir_ok_tac; rewrite ?Hcp; try done; try apply Hw.
  - rewrite bool_decide_eq_false_2 by done. exists (drop n data ++ unread src ++ rest). cbn [app].
    rewrite Hp, Eu, <- !app_assoc. by rewrite (app_assoc (take n data)), take_drop.
  - by intros _ [|].
  - split; [by intros ?%Hnf|]. by intros (_ & e & ? & _).
  - right. right. by eexists.
  - apply (flusher_ok_open _ _ cw); [done|apply Hw|]. rewrite Hcp in Hfl. eapply flusher_ok_progress; [|exact Hfl]. by intros (e & [?|?] & _).
  - by intros e [[= <-]|].
  - rewrite bool_decide_eq_true_2 by done. exists rest. by rewrite Hp, Eu, <- !app_assoc.
  - intros Hb _. rewrite <- app_assoc, <- Eu. apply Hi; [by rewrite <- Ee|by left; rewrite Hcp].
  - right. by left.
  - rewrite Hcp in Hfl. apply (flusher_ok_open _ _ cw); [done|apply Hw|done].
Qed.

Lemma dir_ok_counts : dir_ok all isRead d (add_total cw).
Proof.
  destruct Hok as [Hp Hi He Hf Hd Ht Ha Hfl Hc]. dir_ok_tac; [|by left].
  cbn [add_total cw_total cw_adding]. rewrite Ht, wrap64_add. f_equal. lia.
Qed.

(** The goroutine moves on without touching bytes. *)
Lemma dir_ok_progress p :
  (ended p = Some SourceEnded -> ended (dr_progress d) <> Some SourceEnded -> dr_progress d = Copying /\ so_end (dr_source d) = Fin /\ unread (dr_source d) = []) ->
  p <> Copying -> (forall e, p = Done e -> e = CopyPanicked) -> (forall e, dr_progress d <> Done e /\ dr_progress d <> CounterClosed e) ->
  (forall e, p = Copied e \/ p = CounterClosed e -> e <> CopyPanicked) -> cw_adding cw = 0 ->
  dir_ok all isRead (set_progress d p) cw.
Proof.
  destruct Hok as [[rest Hp] Hi He Hf Hd Ht Ha Hfl Hc]. intros H1 H2 H3 H4 H5 H6. dir_ok_tac.
  - rewrite (bool_decide_eq_false_2 (p = Copying)) by done. cbn [app]. eexists. exact Hp.
  - intros Hb [Hn|Hn]; [by destruct p|]. apply Hi; [done|].
    destruct (decide (ended (dr_progress d) = Some SourceEnded)) as [?|Hne]; [by right|left]. destruct (H1 Hn Hne) as [-> _]. done.
  - intros Hn. destruct (decide (ended (dr_progress d) = Some SourceEnded)) as [?|Hne]; [by apply He|]. by destruct (H1 Hn Hne) as (_ & ? & ?).
  - split; [intros H%Hf; destruct H as (_ & e & H & _); by apply H4 in H|]. intros (_ & e & ->%H3 & H). done.
  - by left.
  - eapply flusher_ok_progress; [|exact Hfl]. intros (e & [H|H] & _); by destruct (H4 e).
Qed.

Lemma dir_ok_halfCloses e :
  dr_progress d = CounterClosed e -> dir_ok all isRead (set_progress (halfCloseWrite d) (Done e)) cw.
Proof.
  destruct Hok as [[rest Hp] Hi He Hf Hd Ht Ha Hfl Hc]. intros E. rewrite E in *. dir_ok_tac.
  - by exists rest.
  - assert (dr_fin d = false) as -> by (apply not_true_is_false; intros (_ & e' & ? & _)%Hf; done).
    rewrite orb_false_r. split; [|by intros [-> _]]. intros H. split; [done|]. exists e. split; [done|]. apply Hc. by right.
  - destruct Ha as [?|[?|[? ?]]]; [by left|done..].
  - eapply flusher_ok_progress; [|exact Hfl]. intros (e' & [[= ->]|?] & ?); [|done]. exists e'. auto.
  - by intros e' [|].
Qed.

Lemma ok_total_over e : dr_progress d = Done e -> cw_total cw = wrap64 (Z.of_nat (length (dr_delivered d))).
Proof. intros H. rewrite (ok_total _ _ _ _ Hok). destruct (ok_adding _ _ _ _ Hok) as [->|[?|[e' ?]]]; [f_equal; lia|congruence..]. Qed.

(** The flusher moves on; it touches [pending] and nothing else of the writer. *)
Lemma dir_ok_flusher f cw' :
  flusher_ok (dr_progress d) f cw' -> cw_isRead cw' = cw_isRead cw -> cw_total cw' = cw_total cw -> cw_adding cw' = cw_adding cw ->
  dir_ok all isRead (set_flusher d f) cw'.
Proof. destruct Hok as [Hp Hi He Hf Hd Ht Ha Hfl Hc]. intros H1 H2 H3 H4. by dir_ok_tac; rewrite ?H2, ?H3, ?H4. Qed.
End dir.

(** ** What holds of a tunnel *)

Lemma on_writer_lookup i f tc j :
  tc_writers (on_writer i f tc) !! j = if bool_decide (i = j) then f <$> tc_writers tc !! i else tc_writers tc !! j.
Proof.
  unfold on_writer. case_bool_decide as E.
  - subst j. destruct (tc_writers tc !! i) as [cw|] eqn:Ei; [|done]. simpl.
    rewrite list_lookup_insert_eq; [done|]. by eapply lookup_lt_Some.
  - destruct (tc_writers tc !! i); [|done]. simpl. by rewrite list_lookup_insert_ne.
Qed.

Definition sent_out (cw : CountingWriter) : CountingWriter := mkCW (cw_isRead cw) (cw_pending cw) (cw_total cw) (cw_adding cw) 0.

Lemma send_taken_lookup i tc j :
  tc_writers (snd (send_taken i tc)) !! j = if bool_decide (i = j) then sent_out <$> tc_writers tc !! i else tc_writers tc !! j.
Proof.
  unfold send_taken, sent_out. case_bool_decide as E.
  - subst j. destruct (tc_writers tc !! i) as [cw|] eqn:Ei; [|done]. cbn [fmap option_fmap option_map].
    destruct (Z.eqb_spec (cw_taken cw) 0) as [Et|]; [rewrite <- Et; by destruct cw|]. case_match; simpl;
      (rewrite list_lookup_insert_eq; [done|by eapply lookup_lt_Some]).
  - destruct (tc_writers tc !! i); [|done]. destruct (cw_taken _ =? 0); [done|].
    case_match; simpl; by rewrite list_lookup_insert_ne.
Qed.

Lemma others_lookup ev tc j cw :
  touches ev j = false -> tc_writers tc !! j = Some cw -> tc_writers (snd (counter_step ev tc)) !! j = Some cw.
Proof.
  destruct ev as [r|i n|i|i|i|now]; cbn [touches counter_step snd]; intros Ht Hj;
    try (apply Nat.eqb_neq in Ht; rewrite ?on_writer_lookup, ?send_taken_lookup, bool_decide_eq_false_2 by congruence; done).
  - unfold NewWriter. cbn [tc_writers set_writers]. by apply lookup_app_l_Some.
  - unfold drain_one. by destruct (tc_ch tc).
Qed.

Lemma dir_set_dir s s' t d : dir s' (set_dir s t d) = if bool_decide (s = s') then d else dir s' t.
Proof. by destruct s, s'. Qed.

Definition other (s : side) : side := match s with Up => Down | Down => Up end.

Section tunnel_ok.
Variables (start : Z) (clientIP host user : string) (buffered : list byte).

#[local] Abbreviation step := (tunnel_step start clientIP host user).

(** What side [s] sent, the hijacked buffer included. *)
Definition sent (s : side) (evs : list tunnel_event) : list byte :=
  match s with Up => buffered | Down => [] end ++ arrivals s evs.

Definition side_ok (evs : list tunnel_event) (s : side) (t : tunnel) : Prop :=
  exists cw, tc_writers (tn_counter t) !! dr_writer (dir s t) = Some cw /\
    dir_ok (sent s evs) (bool_decide (s = Up)) (dir s t) cw.

Definition delivered_size (s : side) (t : tunnel) : Z := wrap64 (Z.of_nat (length (dr_delivered (dir s t)))).

Definition close_ok (t : tunnel) : Prop :=
  forall e, tn_closed t = Some e ->
    (forall s, exists why, dr_progress (dir s t) = Done why) /\
    e = mkEntry start "close" clientIP http.MethodConnect host "" user NoError 200 (delivered_size Up t) (delivered_size Down t).

Definition tunnel_ok (evs : list tunnel_event) (t : tunnel) : Prop :=
  (forall s, side_ok evs s t) /\ dr_writer (tn_up t) <> dr_writer (tn_down t) /\ close_ok t.

(** A step of side [s] that replaces its direction and its writer. *)
Lemma tunnel_ok_side evs ev s t d tc :
  tunnel_ok evs t ->
  dr_writer d = dr_writer (dir s t) ->
  (forall j, j <> dr_writer (dir s t) -> tc_writers tc !! j = tc_writers (tn_counter t) !! j) ->
  sent (other s) (evs ++ [ev]) = sent (other s) evs ->
  (forall cw, tc_writers (tn_counter t) !! dr_writer (dir s t) = Some cw -> dir_ok (sent s evs) (bool_decide (s = Up)) (dir s t) cw ->
    exists cw', tc_writers tc !! dr_writer d = Some cw' /\ dir_ok (sent s (evs ++ [ev])) (bool_decide (s = Up)) d cw') ->
  (forall e, dr_progress (dir s t) = Done e -> dr_progress d = Done e /\ dr_delivered d = dr_delivered (dir s t)) ->
  tunnel_ok (evs ++ [ev]) (set_counter (set_dir s t d) tc).
Proof.
  intros (Hs & Hne & Hc) Hw Htc Hother Hd Hdone. split; [|split].
  - intros s'. destruct (decide (s' = s)) as [->|Hss].
    + destruct (Hs s) as (cw & Hcw & Hok). destruct (Hd cw Hcw Hok) as (cw' & H1 & H2). exists cw'. by destruct s.
    + assert (s' = other s) as -> by (destruct s, s'; done). destruct (Hs (other s)) as (cw & Hcw & Hok). exists cw. rewrite Hother.
      assert (dir (other s) (set_counter (set_dir s t d) tc) = dir (other s) t) as -> by (by destruct s).
      cbn [tn_counter set_counter]. split; [|done]. rewrite Htc; [done|]. destruct s; simpl; congruence.
  - destruct s; cbn [set_dir set_counter tn_up tn_down dir] in *; congruence.
  - intros e He. assert (tn_closed t = Some e) as Hte by (by destruct s). destruct (Hc e Hte) as [Hp ->].
    assert (forall s', dr_delivered (dir s' (set_counter (set_dir s t d) tc)) = dr_delivered (dir s' t) /\
      exists why, dr_progress (dir s' (set_counter (set_dir s t d) tc)) = Done why) as Hall.
    { intros s'. destruct (Hp s) as [why Hwhy]. destruct (Hdone why Hwhy) as [H1 H2]. destruct (Hp s') as [why' Hwhy'].
      destruct s, s'; cbn [dir set_counter set_dir tn_up tn_down] in *; eauto. }
    split; [intros s'; apply Hall|]. unfold delivered_size. by rewrite (proj1 (Hall Up)), (proj1 (Hall Down)).
Qed.

Lemma sent_snoc s evs ev :
  sent s (evs ++ [ev]) = sent s evs ++ match ev with Arrives s' data => if bool_decide (s = s') then data else [] | _ => [] end.
Proof. unfold sent. by rewrite arrivals_snoc, app_assoc. Qed.

Lemma set_counter_id s t d : set_counter (set_dir s t d) (tn_counter t) = set_dir s t d.
Proof. by destruct s. Qed.

Lemma set_dir_id s t : set_dir s t (dir s t) = t.
Proof. by destruct t, s. Qed.

(** Steps of a side that leave the counter alone. *)
Lemma tunnel_ok_dir evs ev s t d :
  tunnel_ok evs t -> dr_writer d = dr_writer (dir s t) -> sent (other s) (evs ++ [ev]) = sent (other s) evs ->
  (forall cw, tc_writers (tn_counter t) !! dr_writer (dir s t) = Some cw ->
    dir_ok (sent s evs) (bool_decide (s = Up)) (dir s t) cw -> dir_ok (sent s (evs ++ [ev])) (bool_decide (s = Up)) d cw) ->
  (forall e, dr_progress (dir s t) = Done e -> dr_progress d = Done e /\ dr_delivered d = dr_delivered (dir s t)) ->
  tunnel_ok (evs ++ [ev]) (set_dir s t d).
Proof.
  intros Ht Hw Ho Hd Hdone. rewrite <- (set_counter_id s t d). apply (tunnel_ok_side evs ev s t d); [done..| |done].
  intros cw Hcw Hok. exists cw. rewrite Hw. eauto.
Qed.

Lemma quiet_sent s evs ev : (forall s' data, ev <> Arrives s' data) -> sent s (evs ++ [ev]) = sent s evs.
Proof. intros H. rewrite sent_snoc. destruct ev; rewrite ?app_nil_r; try done. by destruct (H s0 data). Qed.

Lemma tunnel_ok_quiet evs ev t : (forall s' data, ev <> Arrives s' data) -> tunnel_ok evs t -> tunnel_ok (evs ++ [ev]) t.
Proof. intros He (H1 & H2 & H3). split; [|done]. intros s. destruct (H1 s) as (cw & Hcw & Hok). exists cw. by rewrite quiet_sent. Qed.

Lemma tunnel_ok_others evs ev t :
  touches ev (dr_writer (tn_up t)) || touches ev (dr_writer (tn_down t)) = false ->
  tunnel_ok evs t -> tunnel_ok (evs ++ [Others ev]) (set_counter t (snd (counter_step ev (tn_counter t)))).
Proof.
  intros [Hu Hd]%orb_false_iff Ht. apply (tunnel_ok_quiet evs (Others ev)) in Ht as (H1 & H2 & H3); [|done]. split; [|done].
  intros s. destruct (H1 s) as (cw & Hcw & Hok). exists cw. split; [|by destruct s]. destruct s; by apply others_lookup.
Qed.

Lemma counted_adding s t cw :
  tc_writers (tn_counter t) !! dr_writer (dir s t) = Some cw -> counted (dir s t) (tn_counter t) = true -> cw_adding cw = 0.
Proof. unfold counted. intros ->. by intros ?%Z.eqb_eq. Qed.

Lemma tunnel_ok_chunk evs s k failed t t' :
  dr_progress (dir s t) = Copying -> counted (dir s t) (tn_counter t) = true -> copy_chunk s k failed t = Some t' ->
  tunnel_ok evs t -> tunnel_ok (evs ++ [CopyChunk s k failed]) t'.
Proof.
  intros Hcp Hco. unfold copy_chunk. destruct (Read k (dr_source (dir s t))) as [data src] eqn:Er. case_bool_decide as Hn; [done|].
  intros [= <-] Ht. apply tunnel_ok_side; [done|by destruct failed| |by apply quiet_sent| |by rewrite Hcp].
  - intros j Hj. by rewrite on_writer_lookup, bool_decide_eq_false_2 by congruence.
  - intros cw Hcw Hok. pose proof (dir_ok_chunk Hok k failed Hcp (counted_adding s t cw Hcw Hco)) as Hnew. rewrite Er in Hnew. cbn [fst snd] in Hnew.
    eexists. rewrite quiet_sent by done. split; [|exact Hnew]. rewrite on_writer_lookup.
    rewrite bool_decide_eq_true_2 by (by destruct failed). destruct failed; cbn [deliver set_progress dr_writer]; by rewrite Hcw.
Qed.

(** The goroutine of a side goes on to [p]. *)
Lemma tunnel_ok_goes_on evs ev s t p :
  (forall s' data, ev <> Arrives s' data) -> counted (dir s t) (tn_counter t) = true ->
  (forall e, dr_progress (dir s t) <> Done e /\ dr_progress (dir s t) <> CounterClosed e) ->
  (ended p = Some SourceEnded -> ended (dr_progress (dir s t)) <> Some SourceEnded ->
    dr_progress (dir s t) = Copying /\ so_end (dr_source (dir s t)) = Fin /\ unread (dr_source (dir s t)) = []) ->
  p <> Copying -> (forall e, p = Done e -> e = CopyPanicked) -> (forall e, p = Copied e \/ p = CounterClosed e -> e <> CopyPanicked) ->
  tunnel_ok evs t -> tunnel_ok (evs ++ [ev]) (set_dir s t (set_progress (dir s t) p)).
Proof.
  intros He Hco Hp H1 H2 H3 H4 Ht. apply tunnel_ok_dir; [done|done|by rewrite quiet_sent| |].
  - intros cw Hcw Hok. rewrite quiet_sent by done. apply (dir_ok_progress Hok); [done..|by eapply counted_adding].
  - intros e E. by destruct (Hp e).
Qed.

(** A step that concerns the writer and its flusher. *)
Lemma tunnel_ok_writer evs ev s t d tc (g : CountingWriter -> CountingWriter) :
  (forall s' data, ev <> Arrives s' data) -> dr_writer d = dr_writer (dir s t) -> dr_progress d = dr_progress (dir s t) ->
  dr_delivered d = dr_delivered (dir s t) ->
  (forall j, tc_writers tc !! j = if bool_decide (dr_writer (dir s t) = j) then g <$> tc_writers (tn_counter t) !! dr_writer (dir s t) else tc_writers (tn_counter t) !! j) ->
  (forall cw, tc_writers (tn_counter t) !! dr_writer (dir s t) = Some cw -> dir_ok (sent s evs) (bool_decide (s = Up)) (dir s t) cw ->
    dir_ok (sent s evs) (bool_decide (s = Up)) d (g cw)) ->
  tunnel_ok evs t -> tunnel_ok (evs ++ [ev]) (set_counter (set_dir s t d) tc).
Proof.
  intros He Hw Hp Hdel Htc Hd Ht. apply tunnel_ok_side; [done|done| |by apply quiet_sent| |by intros e <-].
  - intros j Hj. by rewrite Htc, bool_decide_eq_false_2 by congruence.
  - intros cw Hcw Hok. exists (g cw). rewrite Htc, Hw, bool_decide_eq_true_2, Hcw, quiet_sent by done. split; [done|]. by apply Hd.
Qed.

Lemma tunnel_ok_wait evs t t' : step WaitReturns t = Some t' -> tunnel_ok evs t -> tunnel_ok (evs ++ [WaitReturns]) t'.
Proof.
  simpl. destruct (tn_closed t); [done|]. destruct (dr_progress (tn_up t)) as [| | |eu] eqn:Eu; [done..|].
  destruct (dr_progress (tn_down t)) as [| | |ed] eqn:Ed; [done..|]. intros [= <-] Ht.
  pose proof (tunnel_ok_quiet evs WaitReturns t ltac:(done) Ht) as (H1 & H2 & _). split; [exact H1|]. split; [exact H2|].
  intros e [= <-]. split; [by intros []; eauto|]. unfold close_entry, delivered_size.
  destruct (H1 Up) as (cu & Hcu & Hou), (H1 Down) as (cd & Hcd & Hod). cbn [dir] in Hcu, Hcd. rewrite Hcu, Hcd.
  cbn [from_option]. unfold Total. by rewrite (ok_total_over Hou eu Eu), (ok_total_over Hod ed Ed).
Qed.

Lemma tunnel_ok_step evs ev t t' : step ev t = Some t' -> tunnel_ok evs t -> tunnel_ok (evs ++ [ev]) t'.
Proof.
  intros Hst Ht. destruct ev as [s data|s e|s k failed|s|s|s|s|s|s|s|s|s|cev|]; cbn [tunnel_step] in Hst.
  - apply bind_Some in Hst as (src & Hsrc & [= <-]). apply tunnel_ok_dir; [done|done|by rewrite sent_snoc; destruct s; rewrite app_nil_r| |done].
    intros cw _ Hok. rewrite sent_snoc, bool_decide_eq_true_2 by done. by apply dir_ok_arrives.
  - apply bind_Some in Hst as (src & Hsrc & [= <-]). apply tunnel_ok_dir; [done|done|by rewrite quiet_sent| |done].
    intros cw _ Hok. rewrite quiet_sent by done. by apply dir_ok_ends with e.
  - destruct (dr_progress (dir s t)) eqn:E; [|done..]. destruct (counted _ _) eqn:Ec; [|done]. by apply tunnel_ok_chunk with t.
  - destruct (counted _ _) eqn:Ec; [done|]. injection Hst as <-. rewrite <- (set_dir_id s t) at 1.
    apply (tunnel_ok_writer evs _ s t _ _ add_total); [done..|intros j; apply on_writer_lookup| |done]. intros cw _. apply dir_ok_counts.
  - destruct (dr_progress (dir s t)) eqn:E; [|done..]. destruct (counted _ _) eqn:Ec; [|done]. destruct (unread _) eqn:Eu; [|done].
    destruct (so_end _) eqn:Ee; [done|..]; injection Hst as <-; apply tunnel_ok_goes_on; try done; try (by rewrite E); by intros e' [[= <-]|].
  - destruct (dr_progress (dir s t)) eqn:E; [|done..]. destruct (counted _ _) eqn:Ec; [|done]. injection Hst as <-.
    apply tunnel_ok_goes_on; [done|done|by rewrite E|done|done|by intros ? [= <-]|by intros ? [|]|done].
  - destruct (dr_progress (dir s t)) eqn:E; [done| |done..]. destruct (counted _ _) eqn:Ec; [|done]. injection Hst as <-.
    destruct Ht as (Hs & Hr). assert (e <> CopyPanicked) as Hne by (destruct (Hs s) as (cw & _ & Hok); apply (ok_closed _ _ _ _ Hok); by left).
    apply tunnel_ok_goes_on; [done|done|by rewrite E|by rewrite E|done|done|by intros ? [|[= <-]]|done].
  - destruct (dr_progress (dir s t)) eqn:E; [done..| |done]. injection Hst as <-. apply tunnel_ok_dir; [done|done|by rewrite quiet_sent| |by rewrite E].
    intros cw _ Hok. rewrite quiet_sent by done. by apply dir_ok_halfCloses.
  - destruct (dr_flusher (dir s t)) eqn:E; [|done..]. injection Hst as <-. apply tunnel_ok_dir; [done|done|by rewrite quiet_sent| |done].
    intros cw _ Hok. rewrite quiet_sent by done. apply (dir_ok_flusher Hok); [|done..]. pose proof (ok_flusher _ _ _ _ Hok) as Hf. by rewrite E in Hf.
  - destruct (dr_flusher (dir s t)) eqn:Ef; [|done..]. assert (closed (dr_progress (dir s t)) /\ Some (set_dir s t (set_flusher (dir s t) (Flushing true))) = Some t') as [Hcl [= <-]].
    { unfold closed. destruct (dr_progress (dir s t)) as [| |e|e]; [done..| |]; (case_bool_decide; [done|]); eauto. }
    apply tunnel_ok_dir; [done|done|by rewrite quiet_sent| |done]. intros cw _ Hok. rewrite quiet_sent by done. apply (dir_ok_flusher Hok); [|done..].
    pose proof (ok_flusher _ _ _ _ Hok) as Hf. by rewrite Ef in Hf.
  - destruct (dr_flusher (dir s t)) as [|last|last|] eqn:Ef; [done| |done..]. destruct (tc_writers _ !! _) as [cw|] eqn:Ecw; [|done]. injection Hst as <-.
    apply (tunnel_ok_writer evs _ s t _ _ swap_pending); [done..|intros j; apply on_writer_lookup| |done]. intros cw' [= <-]%(eq_trans (eq_sym Ecw)) Hok.
    apply (dir_ok_flusher Hok); [|done..]. pose proof (ok_flusher _ _ _ _ Hok) as Hf. rewrite Ef in Hf. destruct Hf as [_ Hl].
    destruct (Z.eqb_spec (cw_pending cw) 0); [|by intros ?%Hl]. apply flusher_ok_flushed; [done|]. by intros ?%Hl.
  - destruct (dr_flusher (dir s t)) as [|last|last|] eqn:Ef; [done..| |done]. injection Hst as <-.
    apply (tunnel_ok_writer evs _ s t _ _ sent_out); [done..|intros j; apply send_taken_lookup| |done]. intros cw _ Hok.
    apply (dir_ok_flusher Hok); [|done..]. pose proof (ok_flusher _ _ _ _ Hok) as Hf. rewrite Ef in Hf. by apply flusher_ok_flushed.
  - case_match; [done|]. injection Hst as <-. by apply tunnel_ok_others.
  - by apply tunnel_ok_wait with t.
Qed.

(** ** Runs *)

Definition run_tunnel (evs : list tunnel_event) (t : tunnel) : option tunnel := foldl (fun t ev => t ≫= step ev) (Some t) evs.

Lemma run_tunnel_none evs : foldl (fun t ev => t ≫= step ev) None evs = None.
Proof. by induction evs. Qed.

Lemma run_tunnel_cons ev evs t : run_tunnel (ev :: evs) t = step ev t ≫= run_tunnel evs.
Proof. unfold run_tunnel. cbn [foldl mbind option_bind]. destruct (step ev t); [done|]. apply run_tunnel_none. Qed.

Lemma run_tunnel_ok before evs t t' : run_tunnel evs t = Some t' -> tunnel_ok before t -> tunnel_ok (before ++ evs) t'.
Proof.
  revert before t. induction evs as [|ev evs IH]; intros before t; [intros [= <-]; by rewrite app_nil_r|].
  rewrite run_tunnel_cons. intros (t1 & H1 & H2)%bind_Some Ht. rewrite (app_assoc before [ev] evs : before ++ ev :: evs = _).
  eapply IH; [exact H2|]. by apply tunnel_ok_step with t.
Qed.

Lemma open_tunnel_ok target_half client_half tc : tunnel_ok [] (open_tunnel buffered target_half client_half tc).
Proof.
  assert (tc_writers (NewWriter false (NewWriter true tc)) = tc_writers tc ++ [mkCW true 0 0 0 0; mkCW false 0 0 0 0]) as Ew
    by (simpl; by rewrite <- app_assoc).
  split; [|split; [simpl; lia|done]].
  assert (forall all isRead half n, dir_ok all isRead (mkDirection (mkSource all [] StillOpen) [] half false Copying n Resting) (mkCW isRead 0 0 0 0)) as H0.
  { intros all isRead half n. dir_ok_tac.
    - exists []. unfold unread. cbn. by rewrite !app_nil_r.
    - intros _ _. unfold unread. cbn. by rewrite app_nil_r.
    - split; [done|]. by intros (_ & e & ? & _).
    - by left.
    - by intros e [|]. }
  assert (sent Up [] = buffered /\ sent Down [] = []) as [E1 E2] by (split; [apply app_nil_r|done]).
  intros []; unfold side_ok; rewrite ?E1, ?E2.
  - exists (mkCW true 0 0 0 0). cbn [tn_counter open_tunnel dir tn_up dr_writer]. rewrite Ew. split; [|apply H0].
    rewrite lookup_app_r by lia. by rewrite Nat.sub_diag.
  - exists (mkCW false 0 0 0 0). cbn [tn_counter open_tunnel dir tn_down dr_writer]. rewrite Ew. split; [|apply H0].
    rewrite lookup_app_r by lia. by replace (S (length (tc_writers tc)) - length (tc_writers tc))%nat with 1%nat by lia.
Qed.

(** ** Tunnels come to an end *)

(** The steps of one copying goroutine, of the flusher it tells to stop, and all the
    steps of the tunnel's own goroutines but for the ticks of the timers. *)
Definition of_copy (s : side) (ev : tunnel_event) : bool :=
  match ev with
  | CopyChunk s' _ _ | CopyCounts s' | CopyEnds s' | CopyPanics s' | ClosesCounter s' | HalfCloses s' => bool_decide (s = s')
  | _ => false
  end.

Definition of_flusher (s : side) (ev : tunnel_event) : bool :=
  match ev with FlusherStops s' | FlusherSwaps s' | FlusherSends s' => bool_decide (s = s') | _ => false end.

Definition ticks (s : side) (ev : tunnel_event) : bool := match ev with FlusherTicks s' => bool_decide (s = s') | _ => false end.

Definition own (ev : tunnel_event) : bool :=
  of_copy Up ev || of_copy Down ev || of_flusher Up ev || of_flusher Down ev || match ev with WaitReturns => true | _ => false end.

Definition count (f : tunnel_event -> bool) (evs : list tunnel_event) : nat := length (List.filter f evs).

(** How many steps a goroutine, its flusher and the handler have left at most. *)
Definition work (s : side) (t : tunnel) : nat :=
  match dr_progress (dir s t) with
  | Copying => 3 + 2 * length (unread (dr_source (dir s t)))
  | Copied _ => 2
  | CounterClosed _ => 1
  | Done _ => 0
  end + (if counted (dir s t) (tn_counter t) then 0 else 1).

Definition flushing_left (s : side) (t : tunnel) : nat :=
  match dr_flusher (dir s t) with
  | Flushing false => 5 | Sending false => 4 | Resting => 3 | Flushing true => 2 | Sending true => 1 | Stopped => 0
  end.

Definition left_to_do (t : tunnel) : nat :=
  work Up t + work Down t + flushing_left Up t + flushing_left Down t + match tn_closed t with None => 1 | Some _ => 0 end.

Definition over (s : side) (t : tunnel) : Prop := so_end (dr_source (dir s t)) <> StillOpen.

Lemma dir_same s t d : dir s (set_dir s t d) = d.
Proof. by destruct s. Qed.
Lemma dir_other s t d : dir (other s) (set_dir s t d) = dir (other s) t.
Proof. by destruct s. Qed.
Lemma dir_set_counter s t tc : dir s (set_counter t tc) = dir s t.
Proof. by destruct s. Qed.

(** The side an event is about. *)
Definition concerns (s : side) (ev : tunnel_event) : bool :=
  match ev with
  | Arrives s' _ | Ends s' _ | CopyChunk s' _ _ | CopyCounts s' | CopyEnds s' | CopyPanics s' | ClosesCounter s' | HalfCloses s'
  | FlusherTicks s' | FlusherStops s' | FlusherSwaps s' | FlusherSends s' => bool_decide (s = s')
  | Others _ | WaitReturns => false
  end.

Definition writer_of (s : side) (t : tunnel) : option CountingWriter := tc_writers (tn_counter t) !! dr_writer (dir s t).

(** An event about nothing of this side leaves it alone. *)
Lemma step_elsewhere s ev t t' before :
  tunnel_ok before t -> concerns s ev = false -> step ev t = Some t' -> dir s t' = dir s t /\ writer_of s t' = writer_of s t.
Proof.
  intros (Hs & Hne & _) Hc Hst.
  assert (forall d tc, (forall j, j <> dr_writer (dir (other s) t) -> tc_writers tc !! j = tc_writers (tn_counter t) !! j) ->
    t' = set_counter (set_dir (other s) t d) tc -> dir s t' = dir s t /\ writer_of s t' = writer_of s t) as Hside.
  { intros d tc Htc ->. unfold writer_of. destruct s; (split; [done|]); cbn [dir set_dir set_counter tn_up tn_down tn_counter other] in *; by apply Htc. }
  assert (forall d, t' = set_dir (other s) t d -> dir s t' = dir s t /\ writer_of s t' = writer_of s t) as Hdir
    by (intros d ->; by destruct s).
  assert (forall s', bool_decide (s = s') = false -> s' = other s) as Hother by (intros s' ?%bool_decide_eq_false_1; by destruct s, s').
  destruct ev as [s' data|s' e|s' k failed|s'|s'|s'|s'|s'|s'|s'|s'|s'|cev|]; cbn [concerns] in Hc;
    try (apply Hother in Hc; subst s'); cbn [tunnel_step] in Hst.
  - apply bind_Some in Hst as (src & _ & [= <-]). by eapply Hdir.
  - apply bind_Some in Hst as (src & _ & [= <-]). by eapply Hdir.
  - destruct (dr_progress _); [|done..]. destruct (counted _ _); [|done]. unfold copy_chunk in Hst. destruct (Read _ _) as [data src]. case_bool_decide; [done|].
    injection Hst as <-. eapply Hside; [|done]. intros j Hj. by rewrite on_writer_lookup, bool_decide_eq_false_2 by congruence.
  - destruct (counted _ _); [done|]. injection Hst as <-. eapply (Hside (dir (other s) t)); [|by rewrite set_dir_id].
    intros j Hj. by rewrite on_writer_lookup, bool_decide_eq_false_2 by congruence.
  - destruct (dr_progress _); [|done..]. destruct (counted _ _); [|done]. destruct (unread _); [|done].
    destruct (so_end _); [done|..]; injection Hst as <-; by eapply Hdir.
  - destruct (dr_progress _); [|done..]. destruct (counted _ _); [|done]. injection Hst as <-. by eapply Hdir.
  - destruct (dr_progress _); [done| |done..]. destruct (counted _ _); [|done]. injection Hst as <-. by eapply Hdir.
  - destruct (dr_progress _); [done..| |done]. injection Hst as <-. by eapply Hdir.
  - destruct (dr_flusher _); [|done..]. injection Hst as <-. by eapply Hdir.
  - destruct (dr_flusher _); [|done..]. destruct (dr_progress _); [done..| |]; (case_bool_decide; [done|]); injection Hst as <-; by eapply Hdir.
  - destruct (dr_flusher _); [done| |done..]. destruct (tc_writers _ !! _); [|done]. injection Hst as <-. eapply Hside; [|done].
    intros j Hj. by rewrite on_writer_lookup, bool_decide_eq_false_2 by congruence.
  - destruct (dr_flusher _); [done..| |done]. injection Hst as <-. eapply Hside; [|done].
    intros j Hj. by rewrite send_taken_lookup, bool_decide_eq_false_2 by congruence.
  - destruct (_ || _) eqn:Et; [done|]. injection Hst as <-. apply orb_false_iff in Et as [Hu Hd].
    destruct (Hs s) as (cw & Hcw & _). unfold writer_of. destruct s; cbn [dir set_counter tn_up tn_down tn_counter] in *; (split; [done|]);
      rewrite Hcw; by apply others_lookup.
  - destruct (tn_closed t); [done|]. destruct (dr_progress _); [done..|]. destruct (dr_progress _); [done..|]. injection Hst as <-. by destruct s.
Qed.

Lemma counted_on_writer d f tc : counted d (on_writer (dr_writer d) f tc) = match tc_writers tc !! dr_writer d with Some cw => cw_adding (f cw) =? 0 | None => true end.
Proof. unfold counted. rewrite on_writer_lookup, bool_decide_eq_true_2 by done. by destruct (tc_writers tc !! dr_writer d). Qed.

(** An event about a side whose source is over brings it nearer to its end; a tick
    costs its flusher two more steps. *)
Lemma step_here s ev t t' :
  over s t -> concerns s ev = true -> step ev t = Some t' ->
  over s t' /\ ((if of_copy s ev then 1 else 0) + work s t' <= work s t)%nat /\
  ((if of_flusher s ev then 1 else 0) + flushing_left s t' <= flushing_left s t + if ticks s ev then 2 else 0)%nat.
Proof.
  unfold over, work, flushing_left. intros Ho Hc Hst.
  assert (forall d, tn_counter (set_dir s t d) = tn_counter t) as Hset by (by destruct s).
  assert (forall d, dr_writer d = dr_writer (dir s t) -> counted d (tn_counter t) = counted (dir s t) (tn_counter t)) as Hcd
    by (intros d Hd; unfold counted; by rewrite Hd).
  destruct ev as [s' data|s' e|s' k failed|s'|s'|s'|s'|s'|s'|s'|s'|s'|cev|]; cbn [concerns] in Hc; try done;
    apply bool_decide_eq_true in Hc; subst s'; cbn [tunnel_step] in Hst; cbn [of_copy of_flusher ticks]; rewrite ?bool_decide_eq_true_2 by done.
  - unfold arrive in Hst. by destruct (so_end (dr_source (dir s t))).
  - unfold end_with in Hst. by destruct (so_end (dr_source (dir s t))).
  - destruct (dr_progress (dir s t)) eqn:E; [|done..]. destruct (counted _ _) eqn:Ec; [|done]. unfold copy_chunk in Hst.
    pose proof (Read_unread k (dr_source (dir s t))) as [Eu Ee]. destruct (Read k _) as [data src]. cbn [fst snd] in *.
    case_bool_decide as Hd; [done|]. injection Hst as <-. rewrite !dir_set_counter, dir_same, Eu, length_app.
    assert (0 < length data)%nat by (destruct data; [done|simpl; lia]).
    destruct failed; cbn [set_progress deliver dr_progress dr_source dr_flusher]; rewrite ?E; (split; [congruence|]);
      match goal with |- context [if ?c then 0%nat else 1%nat] => destruct c end; lia.
  - destruct (counted _ _) eqn:Ec; [done|]. injection Hst as <-. rewrite !dir_set_counter. cbn [tn_counter set_counter]. rewrite counted_on_writer.
    split; [done|]. split; [|lia]. destruct (tc_writers _ !! _); cbn [add_total cw_adding Z.eqb]; destruct (dr_progress _); lia.
  - destruct (dr_progress (dir s t)) eqn:E; [|done..]. destruct (counted _ _) eqn:Ec; [|done]. destruct (unread _); [|done].
    destruct (so_end _) eqn:Ee; [done|..]; injection Hst as <-; rewrite !dir_same, Hset, Hcd by done; cbn; (split; [congruence|]); lia.
  - destruct (dr_progress (dir s t)) eqn:E; [|done..]. destruct (counted _ _) eqn:Ec; [|done]. injection Hst as <-.
    rewrite !dir_same, Hset, Hcd by done. cbn. split; [done|]. lia.
  - destruct (dr_progress (dir s t)) eqn:E; [done| |done..]. destruct (counted _ _) eqn:Ec; [|done]. injection Hst as <-.
    rewrite !dir_same, Hset, Hcd by done. cbn. split; [done|]. lia.
  - destruct (dr_progress (dir s t)) eqn:E; [done..| |done]. injection Hst as <-. rewrite !dir_same, Hset, Hcd by done. cbn. split; [done|]. lia.
  - destruct (dr_flusher (dir s t)) eqn:E; [|done..]. injection Hst as <-. rewrite !dir_same, Hset, Hcd by done. cbn. split; [done|]. lia.
  - destruct (dr_flusher (dir s t)) eqn:E; [|done..].
    assert (t' = set_dir s t (set_flusher (dir s t) (Flushing true))) as -> by (destruct (dr_progress _); [done..| |]; case_bool_decide; congruence).
    rewrite !dir_same, Hset, Hcd by done. cbn. split; [done|]. lia.
  - destruct (dr_flusher (dir s t)) as [|last|last|] eqn:E; [done| |done..]. destruct (tc_writers _ !! _) as [cw|] eqn:Ecw; [|done]. injection Hst as <-.
    rewrite !dir_set_counter, !dir_same. cbn [tn_counter set_counter set_flusher dr_source dr_progress dr_flusher]. split; [done|].
    assert (forall f, counted (set_flusher (dir s t) f) (on_writer (dr_writer (dir s t)) swap_pending (tn_counter t)) = counted (dir s t) (tn_counter t)) as ->.
    { intros f. change (dr_writer (dir s t)) with (dr_writer (set_flusher (dir s t) f)) at 1. rewrite counted_on_writer. unfold counted. cbn [set_flusher dr_writer]. by rewrite Ecw. }
    split; [lia|]. destruct (cw_pending cw =? 0), last; cbn [flushed]; lia.
  - destruct (dr_flusher (dir s t)) as [|last|last|] eqn:E; [done..| |done]. injection Hst as <-.
    rewrite !dir_set_counter, !dir_same. cbn [tn_counter set_counter set_flusher dr_source dr_progress dr_flusher]. split; [done|].
    assert (forall f, counted (set_flusher (dir s t) f) (snd (send_taken (dr_writer (dir s t)) (tn_counter t))) = counted (dir s t) (tn_counter t)) as ->.
    { intros f. unfold counted. cbn [set_flusher dr_writer]. rewrite send_taken_lookup, bool_decide_eq_true_2 by done. by destruct (tc_writers _ !! _). }
    split; [lia|]. destruct last; cbn [flushed]; lia.
Qed.

(** The same for any event. *)
Lemma step_progress s ev t t' before :
  tunnel_ok before t -> over s t -> step ev t = Some t' ->
  over s t' /\ ((if of_copy s ev then 1 else 0) + work s t' <= work s t)%nat /\
  ((if of_flusher s ev then 1 else 0) + flushing_left s t' <= flushing_left s t + if ticks s ev then 2 else 0)%nat.
Proof.
  intros Ht Ho Hst. destruct (concerns s ev) eqn:Ec; [by apply step_here|].
  destruct (step_elsewhere s ev t t' before Ht Ec Hst) as [Ed Ew]. unfold over, work, flushing_left, counted. unfold writer_of in Ew. rewrite Ed in *. rewrite Ew.
  split; [done|]. destruct ev; cbn [concerns of_copy of_flusher ticks] in *; rewrite ?Ec; lia.
Qed.

Lemma step_closed ev t t' : step ev t = Some t' ->
  match ev with WaitReturns => tn_closed t = None /\ is_Some (tn_closed t') | _ => tn_closed t' = tn_closed t end.
Proof.
  intros Hst. assert (forall s d, tn_closed (set_dir s t d) = tn_closed t) as Hset by (by intros []).
  destruct ev as [s' data|s' e|s' k failed|s'|s'|s'|s'|s'|s'|s'|s'|s'|cev|]; cbn [tunnel_step] in Hst.
  1-2: apply bind_Some in Hst as (src & _ & [= <-]); apply Hset.
  1: destruct (dr_progress _); [|done..]; destruct (counted _ _); [|done]; unfold copy_chunk in Hst; destruct (Read _ _);
    case_bool_decide; [done|]; injection Hst as <-; apply Hset.
  11: destruct (tn_closed t); [done|]; repeat (destruct (dr_progress _); [done..|]); injection Hst as <-; by split; [|eexists].
  all: repeat case_match; try done; injection Hst as <-; first [done|apply Hset].
Qed.

Lemma left_step ev t t' before :
  tunnel_ok before t -> over Up t -> over Down t -> step ev t = Some t' ->
  (over Up t' /\ over Down t') /\
  ((if own ev then 1 else 0) + left_to_do t' <= left_to_do t + 2 * ((if ticks Up ev then 1 else 0) + if ticks Down ev then 1 else 0))%nat.
Proof.
  intros Ht Hu Hd Hst. destruct (step_progress Up ev t t' before Ht Hu Hst) as (Hu' & Wu & Fu).
  destruct (step_progress Down ev t t' before Ht Hd Hst) as (Hd' & Wd & Fd). split; [done|].
  pose proof (step_closed ev t t' Hst) as Hc. unfold left_to_do, own.
  destruct ev as [s' data|s' e|s' k failed|s'|s'|s'|s'|s'|s'|s'|s'|s'|cev|]; cbn [of_copy of_flusher ticks] in *;
    try (rewrite Hc; destruct s';
      change (bool_decide (Up = Up)) with true in *; change (bool_decide (Down = Down)) with true in *;
      change (bool_decide (Up = Down)) with false in *; change (bool_decide (Down = Up)) with false in *; cbn [orb] in *; lia);
    [rewrite Hc; cbn [orb]; lia|].
  destruct Hc as [-> [x ->]]. cbn [orb]. lia.
Qed.
(** As long as something is left to do, a step of the tunnel's own can do it. *)
Lemma copy_enabled s t before :
  tunnel_ok before t -> over s t -> (forall e, dr_progress (dir s t) <> Done e) -> exists ev, of_copy s ev = true /\ is_Some (step ev t).
Proof.
  intros Ht Ho Hd. destruct (counted (dir s t) (tn_counter t)) eqn:Ec.
  2: { exists (CopyCounts s). split; [by apply bool_decide_eq_true|]. cbn [tunnel_step]. rewrite Ec. by eexists. }
  destruct (dr_progress (dir s t)) as [|e|e|e] eqn:E; [| | |by destruct (Hd e)].
  - destruct (unread (dr_source (dir s t))) as [|b l] eqn:Eu.
    + exists (CopyEnds s). split; [by apply bool_decide_eq_true|]. cbn [tunnel_step]. rewrite E, Ec, Eu. unfold over in Ho. destruct (so_end _); [done|by eexists..].
    + exists (CopyChunk s 1 None). split; [by apply bool_decide_eq_true|]. cbn [tunnel_step]. rewrite E, Ec. unfold copy_chunk, Read, unread in *.
      destruct (so_buffered _) as [|b' l']; simpl in Eu |- *; [rewrite Eu; simpl|]; by eexists.
  - exists (ClosesCounter s). split; [by apply bool_decide_eq_true|]. cbn [tunnel_step]. rewrite E, Ec. by eexists.
  - exists (HalfCloses s). split; [by apply bool_decide_eq_true|]. cbn [tunnel_step]. rewrite E. by eexists.
Qed.

Lemma flusher_enabled s t before e :
  tunnel_ok before t -> dr_progress (dir s t) = Done e -> e <> CopyPanicked -> dr_flusher (dir s t) <> Stopped ->
  exists ev, of_flusher s ev = true /\ is_Some (step ev t).
Proof.
  intros (Hs & _) E He Hf. destruct (Hs s) as (cw & Hcw & _). destruct (dr_flusher (dir s t)) as [|last|last|] eqn:Ef; [| | |done].
  - exists (FlusherStops s). split; [by apply bool_decide_eq_true|]. cbn [tunnel_step]. rewrite Ef, E, bool_decide_eq_false_2 by done. by eexists.
  - exists (FlusherSwaps s). split; [by apply bool_decide_eq_true|]. cbn [tunnel_step]. rewrite Ef, Hcw. by eexists.
  - exists (FlusherSends s). split; [by apply bool_decide_eq_true|]. cbn [tunnel_step]. rewrite Ef. by eexists.
Qed.

Lemma own_copy s ev : of_copy s ev = true -> own ev = true.
Proof. unfold own. by destruct s; intros ->; rewrite ?orb_true_r. Qed.
Lemma own_flusher s ev : of_flusher s ev = true -> own ev = true.
Proof. unfold own. by destruct s; intros ->; rewrite ?orb_true_r. Qed.

(** The tunnel is finished: the close is logged, both copies are over, and what did
    not panic has left nothing running and nobody waiting. *)
Definition wound_down (evs : list tunnel_event) (t : tunnel) : Prop :=
  is_Some (tn_closed t) /\
  forall s, exists e, dr_progress (dir s t) = Done e /\
    (e <> CopyPanicked -> dr_flusher (dir s t) = Stopped /\ (dr_closeWriter (dir s t) = true -> dr_fin (dir s t) = true)) /\
    (e = SourceEnded -> dr_delivered (dir s t) = sent s evs).

Lemma wound_down_or_own evs t :
  tunnel_ok evs t -> over Up t -> over Down t -> (exists ev, own ev = true /\ is_Some (step ev t)) \/ wound_down evs t.
Proof.
  intros Ht Hu Hd.
  assert (forall s, (exists ev, own ev = true /\ is_Some (step ev t)) \/ exists e, dr_progress (dir s t) = Done e /\ (e <> CopyPanicked -> dr_flusher (dir s t) = Stopped)) as Hside.
  { intros s. destruct (dr_progress (dir s t)) as [| | |e] eqn:E.
    1-3: left; destruct (copy_enabled s t evs Ht) as (ev & Hev & Hen); [by destruct s|by rewrite E|exists ev; eauto using own_copy].
    destruct (decide (e = CopyPanicked)) as [->|He]; [right; by exists CopyPanicked|].
    destruct (decide (dr_flusher (dir s t) = Stopped)) as [Ef|Ef]; [right; by exists e|left].
    destruct (flusher_enabled s t evs e Ht E He Ef) as (ev & Hev & Hen). exists ev. eauto using own_flusher. }
  destruct (Hside Up) as [?|(eu & Eu & Fu)]; [by left|]. destruct (Hside Down) as [?|(ed & Ed & Fd)]; [by left|]. cbn [dir] in *.
  destruct (tn_closed t) as [c|] eqn:Ec.
  2: { left. exists WaitReturns. split; [done|]. cbn [tunnel_step]. rewrite Ec, Eu, Ed. by eexists. }
  right. split; [by rewrite Ec|]. intros s.
  assert (exists e, dr_progress (dir s t) = Done e /\ (e <> CopyPanicked -> dr_flusher (dir s t) = Stopped)) as (e & E & F) by (destruct s; eauto).
  exists e. split; [done|]. destruct Ht as (Hs & _). destruct (Hs s) as (cw & _ & Hok). split.
  - intros He. split; [by apply F|]. intros Hw. apply (ok_fin _ _ _ _ Hok). split; [done|]. by exists e.
  - intros ->. destruct (ok_ended _ _ _ _ Hok) as [Hf Hun]; [by rewrite E|].
    etransitivity; [symmetry; apply app_nil_r|]. rewrite <- Hun. symmetry. apply (ok_intact _ _ _ _ Hok); [by rewrite Hf|right; by rewrite E].
Qed.

Lemma count_cons f ev evs : count f (ev :: evs) = ((if f ev then 1 else 0) + count f evs)%nat.
Proof. unfold count. simpl. by destruct (f ev). Qed.

Lemma copy_run s before steps t t' :
  tunnel_ok before t -> over s t -> run_tunnel steps t = Some t' -> over s t' /\ (count (of_copy s) steps + work s t' <= work s t)%nat.
Proof.
  revert before t. induction steps as [|ev steps IH]; intros before t Ht Ho; [by intros [= <-]|].
  rewrite run_tunnel_cons. intros (t1 & H1 & H2)%bind_Some. destruct (step_progress s ev t t1 before Ht Ho H1) as (Ho1 & W1 & _).
  destruct (IH (before ++ [ev]) t1) as [Ho2 W2]; [by eapply tunnel_ok_step|done..|]. split; [done|]. rewrite count_cons. lia.
Qed.

Lemma sent_over s ev before t t' : over Up t -> over Down t -> step ev t = Some t' -> sent s (before ++ [ev]) = sent s before.
Proof.
  intros Hu Hd Hst. apply quiet_sent. intros s' data ->. cbn [tunnel_step] in Hst. apply bind_Some in Hst as (src & Ha & _).
  assert (over s' t) as Ho by (by destruct s'). unfold over, arrive in *. by destruct (so_end (dr_source (dir s' t))).
Qed.

Lemma own_run before steps t t' :
  tunnel_ok before t -> over Up t -> over Down t -> run_tunnel steps t = Some t' ->
  (over Up t' /\ over Down t') /\ (forall s, sent s (before ++ steps) = sent s before) /\
  (count own steps + left_to_do t' <= left_to_do t + 2 * (count (ticks Up) steps + count (ticks Down) steps))%nat.
Proof.
  revert before t. induction steps as [|ev steps IH]; intros before t Ht Hu Hd; [intros [= <-]; rewrite app_nil_r; by split; [|split; [|cbn; lia]]|].
  rewrite run_tunnel_cons. intros (t1 & H1 & H2)%bind_Some. destruct (left_step ev t t1 before Ht Hu Hd H1) as ((Hu1 & Hd1) & W1).
  destruct (IH (before ++ [ev]) t1) as (Ho2 & S2 & W2); [by eapply tunnel_ok_step|done..|]. split; [done|]. split.
  - intros s. rewrite (app_assoc before [ev] steps : before ++ ev :: steps = _), S2. eapply sent_over; [exact Hu|exact Hd|exact H1].
  - rewrite !count_cons. lia.
Qed.
End tunnel_ok.

Section spec.
Variables (start : Z) (clientIP host user : string).

(** [C6] A tunnel carries bytes faithfully, however its goroutines interleave with
    the network, the counter and other tunnels.  What a side was given is a prefix of
    what the other side sent, in order, starting with the bytes the hijack had
    buffered; nothing is lost while the copy runs; a copy that ended because its
    source did has delivered everything.  The FIN is sent only after the copy is over
    and its counter closed, and every copy that is over without a panic has sent it;
    a writer without its flusher has nothing pending; and the close entry is logged
    only after both copies are over, with the number of delivered bytes of each
    direction (in the 64 bits of the counters). *)
Theorem tunnel_carries_bytes_in_order (buffered : list byte) (target_half client_half : bool) (tc : TrafficCounter)
    (evs : list tunnel_event) (t : tunnel) :
  run_tunnel start clientIP host user evs (open_tunnel buffered target_half client_half tc) = Some t ->
  (forall s, let d := dir s t in
     (exists rest, sent buffered s evs = dr_delivered d ++ rest) /\
     (dr_progress d = Copying -> so_end (dr_source d) <> Broken -> sent buffered s evs = dr_delivered d ++ unread (dr_source d)) /\
     (ended (dr_progress d) = Some SourceEnded -> so_end (dr_source d) = Fin /\ dr_delivered d = sent buffered s evs) /\
     (dr_fin d = true <-> dr_closeWriter d = true /\ exists e, dr_progress d = Done e /\ e <> CopyPanicked) /\
     exists cw, tc_writers (tn_counter t) !! dr_writer d = Some cw /\ Total cw = wrap64 (Z.of_nat (length (dr_delivered d)) - cw_adding cw) /\
       (dr_progress d <> Copying -> (forall e, dr_progress d <> Copied e) -> cw_adding cw = 0) /\
       (dr_flusher d = Stopped -> cw_pending cw = 0 /\ cw_taken cw = 0)) /\
  (forall e, tn_closed t = Some e ->
     (forall s, exists why, dr_progress (dir s t) = Done why) /\
     e = mkEntry start "close" clientIP http.MethodConnect host "" user NoError 200 (delivered_size Up t) (delivered_size Down t)).
Proof.
  intros Hrun. apply (run_tunnel_ok start clientIP host user buffered []) in Hrun as (Hs & _ & Hc); [|by apply open_tunnel_ok].
  split; [|exact Hc]. intros s. destruct (Hs s) as (cw & Hcw & [[rest Hp] Hi He Hf Hd Ht Ha Hfl Hcl]). cbn zeta.
  split; [eexists; exact Hp|]. split; [intros Hcp Hb; apply Hi; [done|left; by rewrite Hcp]|]. split.
  { intros Hse. destruct (He Hse) as [Hfin Hu]. split; [done|]. etransitivity; [symmetry; apply app_nil_r|]. rewrite <- Hu. symmetry. apply Hi; [congruence|by right]. }
  split; [done|]. exists cw. split; [done|]. split; [done|]. split.
  - intros H1 H2. destruct Ha as [?|[?|[e ?]]]; [done..|by destruct (H2 e)].
  - intros H. rewrite H in Hfl. by destruct Hfl as (_ & ?).
Qed.


(** A copy that panics is recovered and logged, but its connection is not
    half-closed and its flusher is never stopped. *)
Lemma panicked_copy_leaves_flusher buffered target_half client_half tc evs t s :
  run_tunnel start clientIP host user evs (open_tunnel buffered target_half client_half tc) = Some t ->
  dr_progress (dir s t) = Done CopyPanicked ->
  dr_fin (dir s t) = false /\ dr_flusher (dir s t) <> Stopped /\ tunnel_step start clientIP host user (FlusherStops s) t = None.
Proof.
  intros Hrun Hp. apply (run_tunnel_ok start clientIP host user buffered []) in Hrun as (Hs & _); [|by apply open_tunnel_ok].
  destruct (Hs s) as (cw & _ & Hd). split; [|split].
  - apply not_true_is_false. intros (_ & e & He & Hne)%(ok_fin _ _ _ _ Hd). congruence.
  - intros Hf. pose proof (ok_flusher _ _ _ _ Hd) as Ho. rewrite Hf in Ho. destruct Ho as [(e & [He|He] & Hne) _]; congruence.
  - cbn [tunnel_step]. rewrite Hp. by destruct (dr_flusher (dir s t)).
Qed.
End spec.

(** ** A conversation

    The hijack had buffered two bytes; the target answers and closes; the client goes
    on sending and closes later.  The target's FIN reaches the client while the other
    direction still runs. *)

Definition ex_tunnel_events : list tunnel_event :=
  [Arrives Up [x03]; CopyChunk Up 1 None; CopyCounts Up; Arrives Down [x10; x11; x12]; CopyChunk Up 32 None; Ends Down Fin; CopyChunk Down 2 None;
   FlusherTicks Up; CopyCounts Down; CopyChunk Down 2 None; FlusherSwaps Up; CopyCounts Down; CopyEnds Down; ClosesCounter Down; CopyCounts Up;
   CopyChunk Up 32 None; FlusherSends Up; HalfCloses Down; CopyCounts Up].

Definition ex_tunnel_end : list tunnel_event :=
  [FlusherStops Down; Ends Up Fin; CopyEnds Up; FlusherSwaps Down; ClosesCounter Up; HalfCloses Up; FlusherStops Up; FlusherSwaps Up; WaitReturns;
   FlusherSends Up; FlusherSends Down].

Lemma tunnel_carries_bytes_in_order_witness :
  match run_tunnel 7 "192.0.2.7" "example.com:443" "amy" (ex_tunnel_events ++ ex_tunnel_end)
          (open_tunnel [x01; x02] true true (NewTrafficCounter NewCollector)) with
  | Some t => dr_delivered (tn_up t) = [x01; x02; x03] /\ dr_fin (tn_up t) = true /\
      tn_closed t = Some (mkEntry 7 "close" "192.0.2.7" "CONNECT" "example.com:443" "" "amy" NoError 200 3 3)
  | None => False
  end.
Proof.
  assert (match run_tunnel 7 "192.0.2.7" "example.com:443" "amy" (ex_tunnel_events ++ ex_tunnel_end)
          (open_tunnel [x01; x02] true true (NewTrafficCounter NewCollector)) with
          | Some t => bool_decide (dr_progress (tn_up t) = Done SourceEnded) && bool_decide (dr_closeWriter (tn_up t) = true) &&
              bool_decide (delivered_size Up t = 3 /\ delivered_size Down t = 3) && match tn_closed t with Some _ => true | None => false end
          | None => false end = true) as Hc by (by vm_compute).
  destruct (run_tunnel _ _ _ _ _ _) as [t|] eqn:E; [|discriminate Hc].
  apply andb_true_iff in Hc as [[[Hp%bool_decide_eq_true Hw%bool_decide_eq_true]%andb_true_iff [H1 H2]%bool_decide_eq_true]%andb_true_iff Hcl].
  destruct (tunnel_carries_bytes_in_order 7 "192.0.2.7" "example.com:443" "amy" [x01; x02] true true (NewTrafficCounter NewCollector) _ _ E) as [Hs Hlog]. clear E. destruct (Hs Up) as (_ & _ & Hall & Hf & _). cbn [dir] in *.
  destruct Hall as [_ ->]; [by rewrite Hp|]. split; [by vm_compute|]. split; [apply Hf; split; [exact Hw|by exists SourceEnded]|].
  destruct (tn_closed t) as [e|]; [|discriminate Hcl]. destruct (Hlog e eq_refl) as [_ ->]. by rewrite H1, H2.
Defined.

