(* ===== verification/LogBuffer.v ===== *)
(** * The batching HTTP log backend (pkg/logging/jsonhttp.go)

    Callers of [Log] append under the mutex and signal a flush after releasing it;
    one goroutine waits for the ticker, the signal or the stop channel, takes the
    buffer under the mutex and posts it.  Every lock section, channel operation and
    post is one step, and the steps of callers and of the goroutine interleave in
    any order. *)

From S2P Require Import Prelude.

Open Scope list_scope.

Section backend.
Context {Message : Type}.

(** Where the goroutine of [run] is; the flag says whether it returns afterwards. *)
Inductive loop_state :=
| Waiting
| Flushing (last : bool)
| Posting (batch : list Message) (last : bool)
| Done.

(** [jb_senders] counts callers between the unlock and the send of [Log];
    [jb_attempts] are the posts made so far with their success. *)
Record JSONHTTPBackend := mkBackend {
  jb_batchSize : Z;
  jb_buf : list Message;
  jb_flush : bool;
  jb_stop : bool;
  jb_loop : loop_state;
  jb_senders : nat;
  jb_attempts : list (list Message * bool);
}.

Definition NewJSONHTTPBackend (batchSize : Z) : JSONHTTPBackend := mkBackend batchSize [] false false Waiting 0 [].

Definition set_loop (b : JSONHTTPBackend) (l : loop_state) : JSONHTTPBackend :=
  mkBackend (jb_batchSize b) (jb_buf b) (jb_flush b) (jb_stop b) l (jb_senders b) (jb_attempts b).

(** [Log]: the lock section ... *)
Definition log_append (m : Message) (b : JSONHTTPBackend) : JSONHTTPBackend :=
  let buf := jb_buf b ++ [m] in
  let shouldFlush := jb_batchSize b <=? Z.of_nat (length buf) in
  mkBackend (jb_batchSize b) buf (jb_flush b) (jb_stop b) (jb_loop b) (if shouldFlush then S (jb_senders b) else jb_senders b) (jb_attempts b).

(** ... and the send that gives up when a signal is already there. *)
Definition log_signal (b : JSONHTTPBackend) : option JSONHTTPBackend :=
  match jb_senders b with
  | O => None
  | S n => Some (mkBackend (jb_batchSize b) (jb_buf b) true (jb_stop b) (jb_loop b) n (jb_attempts b))
  end.

(** The three cases of the select. *)
Definition recv_tick (b : JSONHTTPBackend) : option JSONHTTPBackend :=
  match jb_loop b with Waiting => Some (set_loop b (Flushing false)) | _ => None end.

Definition recv_flush (b : JSONHTTPBackend) : option JSONHTTPBackend :=
  match jb_loop b with
  | Waiting => if jb_flush b
      then Some (mkBackend (jb_batchSize b) (jb_buf b) false (jb_stop b) (Flushing false) (jb_senders b) (jb_attempts b)) else None
  | _ => None
  end.

Definition recv_stop (b : JSONHTTPBackend) : option JSONHTTPBackend :=
  match jb_loop b with Waiting => if jb_stop b then Some (set_loop b (Flushing true)) else None | _ => None end.

(** [doFlush]: the lock section ... *)
Definition flush_take (b : JSONHTTPBackend) : option JSONHTTPBackend :=
  match jb_loop b with
  | Flushing last =>
      match jb_buf b with
      | [] => Some (set_loop b (if last then Done else Waiting))
      | batch => Some (mkBackend (jb_batchSize b) [] (jb_flush b) (jb_stop b) (Posting batch last) (jb_senders b) (jb_attempts b))
      end
  | _ => None
  end.

(** ... and the post, which may fail; the batch is not kept. *)
Definition flush_post (ok : bool) (b : JSONHTTPBackend) : option JSONHTTPBackend :=
  match jb_loop b with
  | Posting batch last =>
      Some (mkBackend (jb_batchSize b) (jb_buf b) (jb_flush b) (jb_stop b) (if last then Done else Waiting) (jb_senders b)
              (jb_attempts b ++ [(batch, ok)]))
  | _ => None
  end.

(** [Close] closes the stop channel and waits for the goroutine. *)
Definition close_stop (b : JSONHTTPBackend) : option JSONHTTPBackend :=
  if jb_stop b then None
  else Some (mkBackend (jb_batchSize b) (jb_buf b) (jb_flush b) true (jb_loop b) (jb_senders b) (jb_attempts b)).

(** ** Runs *)

Inductive log_event := LAppend (m : Message) | LSignal | LTick | LRecv | LStopped | LTake | LPost (ok : bool) | LClose.

Definition log_step (ev : log_event) (b : JSONHTTPBackend) : option JSONHTTPBackend :=
  match ev with
  | LAppend m => Some (log_append m b)
  | LSignal => log_signal b
  | LTick => recv_tick b
  | LRecv => recv_flush b
  | LStopped => recv_stop b
  | LTake => flush_take b
  | LPost ok => flush_post ok b
  | LClose => close_stop b
  end.

Fixpoint run_log (evs : list log_event) (b : JSONHTTPBackend) : option JSONHTTPBackend :=
  match evs with
  | [] => Some b
  | ev :: evs' => b' ← log_step ev b; run_log evs' b'
  end.

Definition logged_by (ev : log_event) : list Message := match ev with LAppend m => [m] | _ => [] end.
Definition logged (evs : list log_event) : list Message := flat_map logged_by evs.

(** A batch that has been taken and not been posted yet. *)
Definition in_flight (b : JSONHTTPBackend) : list Message := match jb_loop b with Posting batch _ => batch | _ => [] end.

(** Everything the backend ever took in, in order. *)
Definition accounted_for (b : JSONHTTPBackend) : list Message := concat (map fst (jb_attempts b)) ++ in_flight b ++ jb_buf b.

(** A full buffer is about to be flushed. *)
Definition flush_due (b : JSONHTTPBackend) : Prop :=
  jb_buf b <> [] -> jb_batchSize b <= Z.of_nat (length (jb_buf b)) ->
  jb_flush b = true \/ (0 < jb_senders b)%nat \/ (exists last, jb_loop b = Flushing last).

(** Nothing is left behind by the last flush, as long as nothing is logged after
    [Close]. *)
Definition drained (b : JSONHTTPBackend) : Prop :=
  match jb_loop b with Done | Posting _ true => jb_buf b = [] | _ => True end /\
  match jb_loop b with Done | Posting _ true | Flushing true => jb_stop b = true | _ => True end.

Definition batches_ok (b : JSONHTTPBackend) : Prop :=
  Forall (fun a => fst a <> []) (jb_attempts b) /\ match jb_loop b with Posting batch _ => batch <> [] | _ => True end.

Lemma log_step_ok ev b b' :
  log_step ev b = Some b' -> flush_due b -> batches_ok b ->
  accounted_for b' = accounted_for b ++ logged_by ev /\ flush_due b' /\ batches_ok b'.
Proof.
  intros Hs Hd [Ha Hp]. unfold accounted_for, flush_due, batches_ok, in_flight in *.
  destruct ev; simpl in Hs; unfold log_append, log_signal, recv_tick, recv_flush, recv_stop, flush_take, flush_post, close_stop, set_loop in Hs.
  - injection Hs as <-. simpl. split; [by rewrite <- !app_assoc|]. split; [|done]. intros _ Hl.
    rewrite (proj2 (Z.leb_le _ _) Hl). right. left. lia.
  - destruct (jb_senders b); [done|]. injection Hs as <-. simpl. rewrite app_nil_r. auto.
  - destruct (jb_loop b) eqn:El; simplify_eq/=. rewrite app_nil_r. split; [done|]. split; [|done]. intros _ _. right. right. by eexists.
  - destruct (jb_loop b) eqn:El; [|done..]. destruct (jb_flush b); [|done]. injection Hs as <-. simpl. rewrite app_nil_r.
    split; [done|]. split; [|done]. intros _ _. right. right. by eexists.
  - destruct (jb_loop b) eqn:El; [|done..]. destruct (jb_stop b); [|done]. injection Hs as <-. simpl. rewrite app_nil_r.
    split; [done|]. split; [|done]. intros _ _. right. right. by eexists.
  - destruct (jb_loop b) as [|last| |] eqn:El; [done| |done..]. destruct (jb_buf b) as [|m buf] eqn:Eb; injection Hs as <-; simpl.
    + by destruct last; simpl; rewrite !app_nil_r.
    + by rewrite !app_nil_r.
  - destruct (jb_loop b) as [| |batch last|] eqn:El; [done..| |done]. injection Hs as <-. simpl.
    rewrite map_app, concat_app. simpl. rewrite !app_nil_r, <- app_assoc. split; [by destruct last|]. split.
    + intros H1 H2. destruct (Hd H1 H2) as [?|[?|[? [=]]]]; auto.
    + rewrite Forall_app, Forall_singleton. by destruct last.
  - destruct (jb_stop b); [done|]. injection Hs as <-. simpl. rewrite app_nil_r. auto.
Qed.

Lemma log_step_drained ev b b' :
  log_step ev b = Some b' -> (jb_stop b = true -> logged_by ev = []) -> drained b -> drained b'.
Proof.
  intros Hs Hq [H1 H2]. unfold drained in *.
  destruct ev; simpl in Hs; unfold log_append, log_signal, recv_tick, recv_flush, recv_stop, flush_take, flush_post, close_stop, set_loop in Hs.
  - injection Hs as <-. simpl. split; [|done].
    destruct (jb_loop b) as [|[]|batch []|]; try done; exfalso; by specialize (Hq H2).
  - destruct (jb_senders b); [done|]. by injection Hs as <-.
  - destruct (jb_loop b); simplify_eq/=. done.
  - destruct (jb_loop b); [|done..]. destruct (jb_flush b); by simplify_eq.
  - destruct (jb_loop b); [|done..]. destruct (jb_stop b) eqn:E; by simplify_eq/=.
  - destruct (jb_loop b) as [|last| |] eqn:El; [done| |done..]. destruct (jb_buf b) eqn:Eb; injection Hs as <-; simpl; destruct last; done.
  - destruct (jb_loop b) as [| |batch last|] eqn:El; [done..| |done]. injection Hs as <-. simpl. by destruct last.
  - destruct (jb_stop b) eqn:E; [done|]. injection Hs as <-. simpl. split; [done|]. by destruct (jb_loop b) as [|[]|? []|].
Qed.

(** Nothing is logged once [Close] was called. *)
Fixpoint quiet_after_close (closed : bool) (evs : list log_event) : Prop :=
  match evs with
  | [] => True
  | ev :: evs' => (closed = true -> logged_by ev = []) /\
                  quiet_after_close (match ev with LClose => true | _ => closed end) evs'
  end.

Lemma log_step_stop ev b b' :
  log_step ev b = Some b' -> jb_stop b' = match ev with LClose => true | _ => jb_stop b end.
Proof.
  destruct ev; simpl; unfold log_append, log_signal, recv_tick, recv_flush, recv_stop, flush_take, flush_post, close_stop, set_loop;
    repeat case_match; intros; by simplify_eq/=.
Qed.

Lemma run_log_ok evs b b' :
  run_log evs b = Some b' -> flush_due b -> batches_ok b ->
  accounted_for b' = accounted_for b ++ logged evs /\ flush_due b' /\ batches_ok b' /\
  (quiet_after_close (jb_stop b) evs -> drained b -> drained b').
Proof.
  revert b. induction evs as [|ev evs IH]; intros b; simpl.
  - intros [= <-] H1 H2. rewrite app_nil_r. auto.
  - destruct (log_step ev b) as [b1|] eqn:E; [|done]. simpl. intros Hr H1 H2.
    destruct (log_step_ok ev b b1 E H1 H2) as (A1 & D1 & B1). destruct (IH b1 Hr D1 B1) as (A2 & D2 & B2 & Q2).
    rewrite A2, A1, <- app_assoc. do 3 (split; [done|]). intros [Hq Hqs] Hdr. apply Q2; [by rewrite (log_step_stop _ _ _ E)|].
    by apply (log_step_drained ev b).
Qed.

(** From any state in which [Close] was called the goroutine can return, in at
    most four of its own steps. *)
Lemma can_finish b : jb_stop b = true -> exists evs b', (length evs <= 5)%nat /\ run_log evs b = Some b' /\ jb_loop b' = Done.
Proof.
  intros Hs. assert (forall c, jb_stop c = true -> jb_loop c = Waiting -> exists evs b', (length evs <= 3)%nat /\ run_log evs c = Some b' /\ jb_loop b' = Done) as Hw.
  { intros c Hc Hl. destruct (jb_buf c) as [|m buf] eqn:Eb.
    - exists [LStopped; LTake]. simpl. unfold recv_stop. rewrite Hl, Hc. simpl. unfold flush_take. simpl. rewrite Eb. simpl.
      eexists. split; [lia|]. by split.
    - exists [LStopped; LTake; LPost true]. simpl. unfold recv_stop. rewrite Hl, Hc. simpl. unfold flush_take. simpl. rewrite Eb. simpl.
      eexists. split; [lia|]. by split. }
  destruct (jb_loop b) as [|last|batch last|] eqn:El.
  - destruct (Hw b Hs El) as (evs & b' & Hn & H). exists evs, b'. split; [lia|done].
  - destruct (jb_buf b) as [|m buf] eqn:Eb; destruct last.
    + exists [LTake]. simpl. unfold flush_take. rewrite El, Eb. simpl. eexists. split; [lia|]. by split.
    + destruct (Hw (set_loop b Waiting)) as (evs & b' & Hn & H); [done..|]. exists (LTake :: evs), b'. split; [simpl; lia|].
      simpl. unfold flush_take. by rewrite El, Eb.
    + exists [LTake; LPost true]. simpl. unfold flush_take. rewrite El, Eb. simpl. eexists. split; [lia|]. by split.
    + edestruct Hw as (evs & b' & Hn & H); [| |exists (LTake :: LPost true :: evs), b'; split; [simpl; lia|]; simpl; unfold flush_take;
        rewrite El, Eb; simpl; exact H]; done.
  - destruct last.
    + exists [LPost true]. simpl. unfold flush_post. rewrite El. eexists. split; [lia|]. by split.
    + edestruct Hw as (evs & b' & Hn & H); [| |exists (LPost true :: evs), b'; split; [simpl; lia|]; simpl; unfold flush_post;
        rewrite El; simpl; exact H]; done.
  - exists [], b. by split; [simpl; lia|].
Qed.

(** [C39] Log messages are posted in order, each at most once, and none is lost
    before the network: in every interleaving the batches posted so far, the one
    being posted and the buffer are together exactly the messages logged, in order,
    and no batch is empty; a buffer that has reached the batch size always has its
    flush under way; once [Close] was called the goroutine can always return within
    five steps, and when it has, nothing logged before [Close] is left. *)
Theorem log_messages_are_posted_in_order (batchSize : Z) (evs : list log_event) (b : JSONHTTPBackend) :
  run_log evs (NewJSONHTTPBackend batchSize) = Some b ->
  concat (map fst (jb_attempts b)) ++ in_flight b ++ jb_buf b = logged evs /\
  Forall (fun a => fst a <> []) (jb_attempts b) /\
  flush_due b /\
  (jb_stop b = true -> exists more b', (length more <= 5)%nat /\ run_log more b = Some b' /\ jb_loop b' = Done) /\
  (jb_loop b = Done -> quiet_after_close false evs -> concat (map fst (jb_attempts b)) = logged evs).
Proof.
  intros Hr. destruct (run_log_ok evs _ b Hr) as (Ha & Hd & [Hb _] & Hq); [by intros H|by split; [constructor|]|].
  change (accounted_for (NewJSONHTTPBackend batchSize)) with (@nil Message) in Ha. split; [done|]. split; [done|]. split; [done|].
  split; [apply can_finish|]. intros Hl Hquiet. destruct (Hq Hquiet (conj I I)) as [Hbuf _]. rewrite Hl in Hbuf.
  change (logged evs) with ([] ++ logged evs). rewrite <- Ha. unfold accounted_for, in_flight. by rewrite Hl, Hbuf, !app_nil_r.
Qed.
End backend.

Lemma log_messages_are_posted_in_order_witness :
  let evs := [LAppend 1%nat; LAppend 2%nat; LSignal; LRecv; LTake; LAppend 3%nat; LPost false; LClose; LStopped; LTake; LPost true] in
  match run_log evs (NewJSONHTTPBackend 2) with
  | Some b => concat (map fst (jb_attempts b)) = [1; 2; 3]%nat
  | None => False
  end.
Proof.
  cbn zeta. destruct (run_log _ (NewJSONHTTPBackend 2)) as [b|] eqn:E; [|vm_compute in E; discriminate E].
  pose proof (log_messages_are_posted_in_order 2 _ b E) as (_ & _ & _ & _ & H).
  apply H; [vm_compute in E; by injection E as <-|]. by repeat split.
Defined.
