(* ===== verification/Logging.v ===== *)
(** * The logger and its backends (pkg/logging: backend.go, logger.go, console.go, jsonudp.go)

    A logger hands every message to all its backends and every access entry to
    all its observers, under its mutex: one step.  JSON encoding is a parameter, as
    is the text of an entry's error.  A console line is one write. *)

From S2P Require Import Prelude GoStrings GoTime GoRFC3339 GoNet GoHTTP UserTable UserDB RateLimit Dns Config ConfigLoad Proxy LogBuffer.

Open Scope list_scope.

(** ** Formatting *)

Module fmt.

Definition between (lo hi : Z) (a : ascii) : bool :=
  let n := Z.of_N (N_of_ascii a) in (lo <=? n) && (n <=? hi).

(** [utf8.RuneCountInString]: a byte that starts no well-formed sequence is one rune. *)
Fixpoint RuneCount (s : string) : Z :=
  match s with
  | EmptyString => 0
  | String a s1 =>
      1 + match s1 with
      | String b s2 =>
          if between 194 223 a && between 128 191 b then RuneCount s2 else
          match s2 with
          | String c s3 =>
              if ((between 224 224 a && between 160 191 b) || (between 225 236 a && between 128 191 b) ||
                  (between 237 237 a && between 128 159 b) || (between 238 239 a && between 128 191 b)) && between 128 191 c
              then RuneCount s3 else
              match s3 with
              | String d s4 =>
                  if ((between 240 240 a && between 144 191 b) || (between 241 243 a && between 128 191 b) ||
                      (between 244 244 a && between 128 143 b)) && between 128 191 c && between 128 191 d
                  then RuneCount s4 else RuneCount s1
              | EmptyString => RuneCount s1
              end
          | EmptyString => RuneCount s1
          end
      | EmptyString => 0
      end
  end.

Fixpoint spaces (n : nat) : string := match n with O => EmptyString | S n' => String " " (spaces n') end.

(** The verb for strings with a minus flag and a width. *)
Definition left (width : Z) (s : string) : string := s +:+ spaces (Z.to_nat (width - RuneCount s)).

Definition pad3 (n : Z) : string := String (strconv.digit_ascii (n / 100 mod 10)) (rfc3339.pad2 n).

(** [t.UTC().Format("2006-01-02T15:04:05.000Z")]: the milliseconds are cut off, not rounded. *)
Definition timestamp (t : Z) : string :=
  strings.TrimSuffix (rfc3339.Format t) "Z" +:+ "." +:+ pad3 (t mod time.Second / 1000000) +:+ "Z".

End fmt.

Module logging.

Record ServerMessage := mkServerMessage { s_Timestamp : Z; s_Level : string; s_Component : string; s_Text : string }.

(** An access entry comes with its [DurationMS]. *)
Record Message := mkMessage { Access : option (Entry * Z); Server : option ServerMessage }.

(** ** Backends *)

(** What the logger asks of a backend; [be_step] is what goroutines of the backend
    may do on their own. *)
Class Backend (B : Type) := {
  be_Log : Message -> B -> B;
  be_step : B -> B -> Prop;
}.

(** What a backend promises: where it stands is decided by where it started and
    the messages since, and its goroutines lose none of them. *)
Class BackendSpec (B : Type) `{Backend B} := {
  be_ready : B -> Prop;
  be_sees : B -> list Message -> B -> Prop;
  be_sees_start : forall b, be_ready b -> be_sees b [] b;
  be_sees_Log : forall b0 ms m b, be_sees b0 ms b -> be_sees b0 (ms ++ [m]) (be_Log m b);
  be_sees_step : forall b0 ms b b', be_sees b0 ms b -> be_step b b' -> be_sees b0 ms b';
}.

Section backends.
Variable error_text : log_error -> string.
(** [Encoder.Encode], which ends its text with a newline, and [json.Marshal]; [None]
    when a value cannot be encoded. *)
Variables (Encode_entry : Entry * Z -> option string) (Encode_server : ServerMessage -> option string).
Variable Marshal : Message -> option string.

(** *** Console *)

Record ConsoleBackend := mkConsole { c_format : string; c_w : list string }.

Definition NewConsoleBackend (format : string) : ConsoleBackend := mkConsole format [].

Definition accessLine (m : Entry * Z) : string :=
  let '(e, ms) := m in
  let user := if (e_User e =? "")%string then "-" else e_User e in
  let uri := if negb (e_URI e =? "")%string then e_URI e else e_Host e in
  let event := if (e_Event e =? "")%string then "-" else e_Event e in
  let err := error_text (e_Error e) in
  let errStr := if negb (err =? "")%string then "  err=" +:+ err else "" in
  fmt.timestamp (e_Timestamp e) +:+ "  " +:+ fmt.left 5 event +:+ "  " +:+ fmt.left 15 (e_ClientIP e) +:+ "  " +:+
  fmt.left 7 (e_Method e) +:+ "  " +:+ fmt.left 40 uri +:+ "  " +:+ fmt.left 16 user +:+ "  " +:+
  strconv.Itoa (e_Status e) +:+ "  " +:+ strconv.Itoa ms +:+ "ms  " +:+
  strconv.Itoa (e_BytesRead e) +:+ "/" +:+ strconv.Itoa (e_BytesWritten e) +:+ errStr.

Definition serverLine (s : ServerMessage) : string :=
  fmt.timestamp (s_Timestamp s) +:+ "  " +:+ fmt.left 5 (s_Level s) +:+ "  " +:+ s_Component s +:+ ": " +:+ s_Text s.

Definition newline : string := String "010" EmptyString.

(** [logAccess] and [logServer]: the bytes of one write. *)
Definition logAccess (format : string) (m : Entry * Z) : list string :=
  if (format =? "json")%string then match Encode_entry m with Some s => [s] | None => [] end
  else [accessLine m +:+ newline].

Definition logServer (format : string) (s : ServerMessage) : list string :=
  if (format =? "json")%string then match Encode_server s with Some s => [s] | None => [] end
  else [serverLine s +:+ newline].

Definition console_writes (format : string) (msg : Message) : list string :=
  match Access msg with Some m => logAccess format m | None => [] end ++
  match Server msg with Some s => logServer format s | None => [] end.

Definition console_Log (msg : Message) (c : ConsoleBackend) : ConsoleBackend :=
  mkConsole (c_format c) (c_w c ++ console_writes (c_format c) msg).

(** *** UDP: a message that cannot be encoded is dropped, and nobody looks at the
    result of a write. *)

Record JSONUDPBackend := mkUDP { datagrams : list string }.

Definition udp_Log (msg : Message) (b : JSONUDPBackend) : JSONUDPBackend :=
  match Marshal msg with Some data => mkUDP (datagrams b ++ [data]) | None => b end.

(** *** The backends main builds *)

Inductive backend :=
| Console (c : ConsoleBackend)
| UDP (u : JSONUDPBackend)
| HTTP (h : JSONHTTPBackend (Message := Message)).

(** The append and, when the buffer is full, the send that follows it. *)
Definition http_Log (msg : Message) (b : JSONHTTPBackend) : JSONHTTPBackend :=
  let b1 := log_append msg b in
  if jb_batchSize b <=? Z.of_nat (length (jb_buf b1)) then default b1 (log_signal b1) else b1.

(** What the goroutine of the HTTP backend and the callers of [Close] do. *)
Definition on_its_own (ev : log_event (Message := Message)) : bool := match ev with LAppend _ | LSignal => false | _ => true end.

#[global] Instance backend_Backend : Backend backend := {|
  be_Log msg b :=
    match b with
    | Console c => Console (console_Log msg c)
    | UDP u => UDP (udp_Log msg u)
    | HTTP h => HTTP (http_Log msg h)
    end;
  be_step b b' :=
    match b, b' with
    | HTTP h, HTTP h' => exists ev, on_its_own ev = true /\ log_step ev h = Some h'
    | _, _ => False
    end;
|}.

(** The console has written the lines, the datagrams are out, and the HTTP backend
    has posted, is posting or still buffers the messages, in order. *)
Definition sees (b0 : backend) (ms : list Message) (b : backend) : Prop :=
  match b0, b with
  | Console c0, Console c => c = mkConsole (c_format c0) (c_w c0 ++ flat_map (console_writes (c_format c0)) ms)
  | UDP u0, UDP u => datagrams u = datagrams u0 ++ omap Marshal ms
  | HTTP h0, HTTP h => accounted_for h = accounted_for h0 ++ ms /\ flush_due h /\ batches_ok h
  | _, _ => False
  end.

Definition ready (b : backend) : Prop := match b with HTTP h => flush_due h /\ batches_ok h | _ => True end.

Lemma http_Log_steps msg b :
  exists evs, run_log evs b = Some (http_Log msg b) /\ logged evs = [msg].
Proof.
  unfold http_Log. destruct (_ <=? _) eqn:E.
  - exists [LAppend msg; LSignal]. split; [|done]. simpl. unfold log_append in *. simpl in *. by rewrite E.
  - by exists [LAppend msg].
Qed.

#[global] Program Instance backend_BackendSpec : BackendSpec backend := {| be_ready := ready; be_sees := sees |}.
Next Obligation.
  intros [[format w]|u|h]; simpl; [by rewrite app_nil_r..|]. intros [H1 H2]. by rewrite app_nil_r.
Qed.
Next Obligation.
  intros [c0|u0|h0] ms m [c|u|h]; simpl; try done.
  - intros ->. unfold console_Log. simpl. rewrite flat_map_app, <- app_assoc. simpl. by rewrite app_nil_r.
  - unfold udp_Log. intros E. rewrite omap_app, app_assoc. simpl. destruct (Marshal m); simpl; [by rewrite E|by rewrite app_nil_r].
  - intros (Ha & Hd & Hb). destruct (http_Log_steps m h) as (evs & Hr & Hl).
    destruct (run_log_ok evs h _ Hr Hd Hb) as (A & D & B & _). by rewrite A, Ha, Hl, app_assoc.
Qed.
Next Obligation.
  intros [c0|u0|h0] ms [c|u|h] [c'|u'|h']; simpl; try done. intros (Ha & Hd & Hb) (ev & Hev & Hs).
  destruct (log_step_ok ev h h' Hs Hd Hb) as (A & D & B). split_and!; [|done..]. rewrite A, Ha.
  by destruct ev; simpl; rewrite ?app_nil_r.
Qed.

(** ** The logger, for any backends and observers *)

Section logger.
Context {B O : Type} `{Backend B}.

(** What an observer does with an access entry. *)
Variable observe : Entry * Z -> O -> O.

Record Logger := mkLogger { backends : list B; observers : list O }.

Definition New (bs : list B) : Logger := mkLogger bs [].
Definition AddObserver (fn : O) (l : Logger) : Logger := mkLogger (backends l) (observers l ++ [fn]).

Definition Log (m : Entry * Z) (l : Logger) : Logger :=
  mkLogger (map (be_Log (mkMessage (Some m) None)) (backends l)) (map (observe m) (observers l)).

Definition ServerLog (now : Z) (level component text : string) (l : Logger) : Logger :=
  mkLogger (map (be_Log (mkMessage None (Some (mkServerMessage now level component text)))) (backends l)) (observers l).

Definition Infof (now : Z) (component text : string) : Logger -> Logger := ServerLog now "info" component text.
Definition Errorf (now : Z) (component text : string) : Logger -> Logger := ServerLog now "error" component text.

(** The logger a process leaves behind: [os.Exit] runs no deferred call. *)
Definition Fatalf (now : Z) (component text : string) : Logger -> Logger := ServerLog now "error" component text.

(** ** Runs: calls of the logger and steps of its backends *)

Inductive call :=
| CallLog (m : Entry * Z)
| CallServer (now : Z) (level component text : string).

Definition message_of (c : call) : Message :=
  match c with
  | CallLog m => mkMessage (Some m) None
  | CallServer now level component text => mkMessage None (Some (mkServerMessage now level component text))
  end.

Definition access_of (c : call) : option (Entry * Z) := Access (message_of c).

Definition do_call (c : call) : Logger -> Logger :=
  match c with CallLog m => Log m | CallServer now level component text => ServerLog now level component text end.

(** [logged_with l0 cs l]: from [l0], after the calls [cs] and any steps of the
    backends in between. *)
Inductive logged_with (l0 : Logger) : list call -> Logger -> Prop :=
| lw_start : logged_with l0 [] l0
| lw_call cs l c : logged_with l0 cs l -> logged_with l0 (cs ++ [c]) (do_call c l)
| lw_step cs l i b b' : logged_with l0 cs l -> backends l !! i = Some b -> be_step b b' ->
    logged_with l0 cs (mkLogger (<[i := b']> (backends l)) (observers l)).

Context `{!BackendSpec B}.

Lemma logged_with_sees bs obs cs l :
  Forall be_ready bs -> logged_with (mkLogger bs obs) cs l ->
  Forall2 (fun b0 b => be_sees b0 (map message_of cs) b) bs (backends l) /\
  observers l = map (fun o => foldl (fun o m => observe m o) o (omap access_of cs)) obs.
Proof.
  intros Hbs Hl. induction Hl as [|cs l c _ IH|cs l i b b' _ IH Hi Hb]; simpl.
  - split; [|by rewrite map_id]. induction Hbs; constructor; [by apply be_sees_start|done].
  - destruct IH as (IH1 & IH2). rewrite map_app, omap_app. split.
    + destruct c; simpl; apply Forall2_fmap_r; (eapply Forall2_impl; [exact IH1|]); intros b0 b Hb; by apply (be_sees_Log _ _ _ _ Hb).
    + destruct c; simpl; rewrite IH2, ?map_map; apply map_ext; intros o; [by rewrite foldl_app|by rewrite app_nil_r].
  - destruct IH as (IH1 & IH2). split; [|done]. destruct (Forall2_lookup_r _ _ _ _ _ IH1 Hi) as (b0 & H0 & Hs).
    rewrite <- (list_insert_id bs i b0) by done. apply Forall2_insert; [done|]. by eapply be_sees_step.
Qed.
End logger.

(** ** What main builds *)

Section main_logger.
Context {O : Type}.
Variable observe : Entry * Z -> O -> O.

Definition main_backends (c : Config) : list backend :=
  Console (NewConsoleBackend (LogFormat c)) ::
  (if (LogNetMode c =? "json-udp")%string then [UDP (mkUDP [])]
   else if (LogNetMode c =? "json-http")%string then [HTTP (NewJSONHTTPBackend (LogNetBatchSize c))]
   else []).

Lemma main_backends_ready c : Forall (be_ready (B := backend)) (main_backends c).
Proof.
  constructor; [done|]. repeat case_match; repeat constructor; done.
Qed.

(** Every message reaches every backend, in the order of the calls and
    whatever the flushing goroutine does in between: the console has written its
    lines, the datagrams that could be encoded are out, the HTTP backend has posted,
    is posting or holds exactly the messages; and every observer was shown exactly
    the access entries. *)
Theorem every_backend_gets_every_message (c : Config) (obs : list O) (cs : list call) (l : Logger (B := backend)) :
  logged_with observe (mkLogger (main_backends c) obs) cs l ->
  let ms := map message_of cs in
  length (backends l) = length (main_backends c) /\
  (exists con, backends l !! 0%nat = Some (Console con) /\ c_w con = flat_map (console_writes (LogFormat c)) ms) /\
  (LogNetMode c = "json-udp"%string -> exists u, backends l !! 1%nat = Some (UDP u) /\ datagrams u = omap Marshal ms) /\
  (LogNetMode c = "json-http"%string -> exists h, backends l !! 1%nat = Some (HTTP h) /\
     concat (map fst (jb_attempts h)) ++ in_flight h ++ jb_buf h = ms /\ flush_due h) /\
  observers l = map (fun o => foldl (fun o m => observe m o) o (omap access_of cs)) obs.
Proof.
  intros Hl ms. destruct (logged_with_sees (B := backend) observe (main_backends c) obs cs l (main_backends_ready c) Hl) as [Hs Ho].
  split; [by apply Forall2_length in Hs|]. unfold main_backends in Hs.
  apply Forall2_cons_inv_l in Hs as ([con| |] & bs & Hcon & Hs & ->); try done. simpl in Hcon. subst con.
  split; [by eexists|]. split; [|split; [|done]]; intros Hm; rewrite Hm in Hs; simpl in Hs;
    apply Forall2_cons_inv_l in Hs as ([|u|h] & bs' & Hb & _ & ->); try done.
  - by exists u.
  - destruct Hb as (Ha & Hd & _). by exists h.
Qed.
End main_logger.

(** ** Reading the console back *)

Definition line_of (c : call) : string :=
  match c with
  | CallLog m => accessLine m
  | CallServer now level component text => serverLine (mkServerMessage now level component text)
  end.

(** No text in the message breaks the line. *)
Definition one_line (c : call) : Prop :=
  match c with
  | CallLog (e, _) =>
      Forall (free_of "010") [e_Event e; e_ClientIP e; e_Method e; e_Host e; e_URI e; e_User e; error_text (e_Error e)]
  | CallServer _ level component text => Forall (free_of "010") [level; component; text]
  end.

Definition console_text (c : ConsoleBackend) : string := foldr (fun s t => s +:+ t)%string EmptyString (c_w c).

Lemma free_of_spaces c n : c <> " "%char -> free_of c (fmt.spaces n).
Proof. intros Hc. induction n; simpl; [done|]. split; [congruence|done]. Qed.

Lemma free_of_left c w s : c <> " "%char -> free_of c s -> free_of c (fmt.left w s).
Proof. intros Hc Hs. apply free_of_app. split; [done|by apply free_of_spaces]. Qed.

Lemma free_of_pad2 n : free_of "010" (rfc3339.pad2 n).
Proof.
  pose proof (Z.mod_pos_bound n 10 ltac:(lia)). pose proof (Z.mod_pos_bound (n / 10) 10 ltac:(lia)).
  split; [|split; [|done]]; apply free_of_digit; [done|lia|done|lia].
Qed.

Lemma free_of_pad4 n : free_of "010" (rfc3339.pad4 n).
Proof.
  assert (forall a b, free_of "010" (rfc3339.pad2 a +:+ rfc3339.pad2 b)) as H2 by (intros; apply free_of_app; auto using free_of_pad2).
  assert (forall m, free_of "010" (strconv.Itoa m)) as Hi by (intros; by apply free_of_Itoa).
  unfold rfc3339.pad4. destruct (n <? 0); [split; [done|]|]; case_match; auto.
Qed.

Lemma free_of_TrimSuffix c s t : free_of c s -> free_of c (strings.TrimSuffix s t).
Proof.
  induction s as [|a s IH]; intros Hs; cbn [strings.TrimSuffix]; destruct (_ =? t)%string; try done.
  destruct Hs. split; auto.
Qed.

Lemma free_of_timestamp t : free_of "010" (fmt.timestamp t).
Proof.
  unfold fmt.timestamp. rewrite !free_of_app. split; [|split; [done|split; [|done]]].
  - apply free_of_TrimSuffix. unfold rfc3339.Format. destruct (rfc3339.civil_of_days _) as [[y m] d].
    rewrite !free_of_app. split_and!; try apply free_of_pad2; try done.
    apply free_of_pad4.
  - pose proof (Z.mod_pos_bound (t mod time.Second / 1000000 / 100) 10 ltac:(lia)).
    split; [apply free_of_digit; [done|lia]|apply free_of_pad2].
Qed.

#[local] Opaque fmt.timestamp fmt.left strconv.Itoa.

(** Splits what is written as a conjunction and unfolds nothing. *)
Ltac conjuncts := repeat match goal with |- _ /\ _ => split end.

Lemma free_of_line c : one_line c -> free_of "010" (line_of c).
Proof.
  assert (forall w s, free_of "010" s -> free_of "010" (fmt.left w s)) as Hl by (intros; by apply free_of_left).
  assert (forall n, free_of "010" (strconv.Itoa n)) as Hn by (intros; by apply free_of_Itoa).
  pose proof free_of_timestamp as Ht.
  destruct c as [[e ms]|now level component text]; cbn [one_line line_of]; rewrite !Forall_cons.
  - intros (H1 & H2 & H3 & H4 & H5 & H6 & H7 & _). unfold accessLine. rewrite !free_of_app. conjuncts; try apply Hl; repeat case_match; auto; try done.
  - intros (H1 & H2 & H3 & _). unfold serverLine. cbn [s_Timestamp s_Level s_Component s_Text]. rewrite !free_of_app. conjuncts; auto; done.
Qed.

Lemma console_writes_human c : console_writes "human" (message_of c) = [(line_of c +:+ newline)%string].
Proof. destruct c; reflexivity. Qed.

(** The console log can be read back: in the human format, when no text in the
    messages holds a newline, splitting the bytes written at newlines gives one line
    per message, in order, and nothing else. *)
Theorem console_log_splits_back {O} (observe : Entry * Z -> O -> O) (c : Config) (obs : list O) (cs : list call) (l : Logger (B := backend)) :
  LogFormat c = "human"%string -> Forall one_line cs -> logged_with observe (mkLogger (main_backends c) obs) cs l ->
  exists con, backends l !! 0%nat = Some (Console con) /\
    strings.Split (console_text con) "010" = map line_of cs ++ [""%string].
Proof.
  intros Hf Hcs Hl. destruct (logged_with_sees (B := backend) observe (main_backends c) obs cs l (main_backends_ready c) Hl) as [Hs _].
  apply Forall2_cons_inv_l in Hs as ([con| |] & bs & Hcon & _ & ->); try done. simpl in Hcon. subst con. eexists. split; [done|].
  unfold console_text. simpl. rewrite Hf. clear Hl bs. induction Hcs as [|m cs Hm Hcs IH]; [done|].
  cbn [map flat_map]. rewrite console_writes_human. cbn [app].
  cbn [foldr map]. rewrite string_app_assoc. unfold newline at 1. change (String "010" "" +:+ ?s)%string with (String "010" s).
  rewrite Split_app_free by (by apply free_of_line). by rewrite IH.
Qed.

#[local] Transparent fmt.timestamp fmt.left strconv.Itoa.

(** A fatal message of the network log is buffered and never sent by the process
    itself: [os.Exit] does not wait for the flush. *)
Theorem fatal_message_stays_in_buffer (now : Z) (component text : string) (h : JSONHTTPBackend) (bs bs' : list backend) {O} (obs : list O) :
  exists h', backends (Fatalf now component text (mkLogger (bs ++ HTTP h :: bs') obs)) !! length bs = Some (HTTP h') /\
    jb_attempts h' = jb_attempts h /\ in_flight h' = in_flight h /\
    jb_buf h' = jb_buf h ++ [mkMessage None (Some (mkServerMessage now "error" component text))].
Proof.
  exists (http_Log (mkMessage None (Some (mkServerMessage now "error" component text))) h).
  unfold Fatalf, ServerLog. simpl. rewrite map_app, lookup_app_r, length_map, Nat.sub_diag by (rewrite length_map; lia).
  split; [done|]. unfold http_Log. cbn [log_append jb_buf]. destruct (_ <=? _) eqn:E; [|done]. unfold log_signal, log_append. simpl. by rewrite E.
Qed.
End backends.

(** ** A concrete run *)

Definition ex_error_text (e : log_error) : string := match e with NoError => "" | _ => "downtime" end.

Definition ex_entry : Entry :=
  mkEntry 1700000000123999999 "open" "192.0.2.7" "CONNECT" "example.com:443" "" "amy" NoError 200 0 0.

Example ex_access_line :
  accessLine ex_error_text (ex_entry, 12) =
  "2023-11-14T22:13:20.123Z  open   192.0.2.7        CONNECT  example.com:443                           amy               200  12ms  0/0"%string.
Proof. reflexivity. Qed.

Example ex_rune_width : fmt.left 5 (String "195" (String "169" "a")) = String "195" (String "169" "a   ").
Proof. reflexivity. Qed.

Definition ex_calls : list call := [CallServer 0 "info" "proxy" "started"; CallLog (ex_entry, 12); CallServer 1 "error" "mitm" "no CA"].

Definition ex_config : Config := settings (fun _ => None) (fun k =>
  if (k =? "LOG_NET_MODE")%string then "json-http" else if (k =? "LOG_NET_BATCH_SIZE")%string then "2" else "")%string.

Definition ex_Marshal (m : Message) : option string := s_Text <$> Server m.

(** The second message fills the batch; the flush is taken before the third. *)
#[local] Instance ex_backend : Backend backend := backend_Backend ex_error_text (fun _ => None) (fun _ => None) ex_Marshal.

Definition ex_logged_with (l : Logger) : Prop :=
  logged_with (fun _ n => S n) (mkLogger (main_backends ex_config) [0%nat]) ex_calls l.

Lemma ex_logged : exists l, ex_logged_with l.
Proof.
  pose proof (lw_start (fun _ n => S n) (mkLogger (main_backends ex_config) [0%nat])) as H.
  apply lw_call with (c := CallServer 0 "info" "proxy" "started") in H. apply lw_call with (c := CallLog (ex_entry, 12)) in H.
  eapply (lw_step _ _ _ _ 1 _ (HTTP _)) in H; [|vm_compute; reflexivity|exists LRecv; split; [done|vm_compute; reflexivity]].
  eapply (lw_step _ _ _ _ 1 _ (HTTP _)) in H; [|vm_compute; reflexivity|exists LTake; split; [done|vm_compute; reflexivity]].
  apply lw_call with (c := CallServer 1 "error" "mitm" "no CA") in H. by eexists.
Qed.

Lemma every_backend_gets_every_message_witness :
  exists l, ex_logged_with l /\ observers l = [1%nat] /\ exists h, backends l !! 1%nat = Some (HTTP h) /\
    concat (map fst (jb_attempts h)) ++ in_flight h ++ jb_buf h = map message_of ex_calls.
Proof.
  destruct ex_logged as [l Hl]. exists l. split; [done|].
  destruct (every_backend_gets_every_message ex_error_text (fun _ => None) (fun _ => None) ex_Marshal (fun _ n => S n) ex_config [0%nat] ex_calls l Hl)
    as (_ & _ & _ & Hh & Ho). split; [exact Ho|]. destruct (Hh eq_refl) as (h & Hb & Hm & _). by exists h.
Defined.

Lemma console_log_splits_back_witness :
  exists l con, ex_logged_with l /\ backends l !! 0%nat = Some (Console con) /\
    length (strings.Split (console_text con) "010") = 4%nat.
Proof.
  destruct ex_logged as [l Hl].
  assert (Forall (one_line ex_error_text) ex_calls) as Hc by (repeat constructor; discriminate).
  destruct (console_log_splits_back ex_error_text (fun _ => None) (fun _ => None) ex_Marshal (fun _ n => S n) ex_config [0%nat] ex_calls l eq_refl Hc Hl)
    as (con & Hb & Hs). exists l, con. by rewrite Hs.
Defined.
End logging.
