(* ===== verification/Doh.v ===== *)
(** * DNS over HTTPS lookups (pkg/dns/doh.go)

    The message codec of golang.org/x/net and the HTTP exchange are parameters: a
    query is packed, posted, and its answer section read record by record.  The two
    queries of a lookup run in goroutines of their own and are collected in the
    order in which they finish. *)

From S2P Require Import Prelude GoStrings GoTime GoNet GoHTTP UserTable UserDB RateLimit Dns Config Proxy.

Open Scope list_scope.

Inductive qtype := TypeA | TypeAAAA.

#[global] Instance qtype_eq_dec : EqDecision qtype.
Proof. solve_decision. Defined.

(** What reading the next answer meets: an A or AAAA record whose data parses or
    not, a record of another type that can be skipped or not, or a header that does
    not parse.  The end of the list is the end of the section. *)
Inductive answer_record :=
| AnswerA (data : result string net.IP)
| AnswerAAAA (data : result string net.IP)
| AnswerOther (skipped : result string unit)
| BadHeader (msg : string).

Section doh.
(** dnsmessage: names, packed questions, and the parsing of a response up to its
    answers. *)
Variable Name : Type.
Variable NewName : string -> result string Name.
Variable Pack : Name -> qtype -> result string string.
Variable Parse : string -> result string (list answer_record).

(** The verb %q of fmt, which only the text of an error uses. *)
Variable quoted : string -> string.

(** The POST with its two headers: status and the body as read. *)
Variable Post : string -> string -> result string (Z * result string string).

(** The loop over the answers. *)
Fixpoint read_answers (l : list answer_record) : result string (list net.IP) :=
  match l with
  | [] => Ok []
  | BadHeader msg :: _ => Err msg
  | AnswerA data :: l' | AnswerAAAA data :: l' =>
      match data with
      | Err msg => Err msg
      | Ok ip => match read_answers l' with Err msg => Err msg | Ok ips => Ok (ip :: ips) end
      end
  | AnswerOther skipped :: l' => match skipped with Err msg => Err msg | Ok _ => read_answers l' end
  end.

Definition query (url : string) (name : Name) (qt : qtype) : result string (list net.IP) :=
  match Pack name qt with
  | Err msg => Err msg
  | Ok packed =>
      match Post url packed with
      | Err msg => Err msg
      | Ok (status, body) =>
          if negb (status =? 200) then Err ("DoH server returned " +:+ strconv.Itoa status)%string else
          match body with
          | Err msg => Err msg
          | Ok bytes => match Parse bytes with Err msg => Err msg | Ok answers => read_answers answers end
          end
      end
  end.

(** Collecting the two results as they arrive. *)
Fixpoint collect (all : list net.IP) (firstErr : option string) (arrivals : list (result string (list net.IP)))
    : result string (list net.IP) :=
  match arrivals with
  | [] => match all, firstErr with [], Some msg => Err msg | _, _ => Ok all end
  | r :: rest =>
      match r with
      | Ok addrs => collect (all ++ addrs) firstErr rest
      | Err msg => collect all (match firstErr with None => Some msg | Some e => Some e end) rest
      end
  end.

(** [lookupIPAddr]; [order] is the order in which the queries finish. *)
Definition lookupIPAddr (url host : string) (order : list qtype) : result string (list net.IP) :=
  match NewName (host +:+ ".")%string with
  | Err msg => Err ("invalid hostname " +:+ quoted host +:+ ": " +:+ msg)%string
  | Ok name => collect [] None (map (query url name) order)
  end.

(** [Resolver.LookupIPAddr]: plain and TLS resolvers are lookups of the standard
    library. *)
Definition Resolver_LookupIPAddr (std : Resolver -> string -> result string (list net.IP)) (order : list qtype)
    (r : Resolver) (host : string) : result string (list net.IP) :=
  match r with DoHResolver url => lookupIPAddr url host order | _ => std r host end.

(** ** What a lookup answers *)

Definition addresses (r : result string (list net.IP)) : list net.IP := match r with Ok l => l | Err _ => [] end.

(** Addresses if there are any, otherwise the first error if there is one. *)
Definition verdict (l : list net.IP) (e : option string) : result string (list net.IP) :=
  match l, e with [], Some msg => Err msg | _, _ => Ok l end.

Lemma verdict_addresses l e : addresses (verdict l e) = l.
Proof. by destruct l, e. Qed.

Lemma verdict_ok l e : is_ok (verdict l e) = false <-> l = [] /\ is_Some e.
Proof.
  destruct l as [|x l], e as [m|]; cbn.
  - by split; [intros _; split; [|eexists]|].
  - by split; [|intros [_ [? [=]]]].
  - by split; [|intros [[=] _]].
  - by split; [|intros [[=] _]].
Qed.

Definition error_of (r : result string (list net.IP)) : option string := match r with Err m => Some m | Ok _ => None end.

Lemma collect_spec arrivals all e :
  collect all e arrivals =
  verdict (all ++ flat_map addresses arrivals) (match e with Some m => Some m | None => head (omap error_of arrivals) end).
Proof.
  revert all e. induction arrivals as [|[addrs|msg] arrivals IH]; intros all e; simpl.
  - rewrite app_nil_r. by destruct all, e.
  - by rewrite IH, <- app_assoc.
  - rewrite IH. by destruct e.
Qed.

(** The data of the address records, in order. *)
Definition record_address (a : answer_record) : option net.IP :=
  match a with AnswerA (Ok ip) | AnswerAAAA (Ok ip) => Some ip | _ => None end.

Definition record_ok (a : answer_record) : bool :=
  match a with AnswerA (Ok _) | AnswerAAAA (Ok _) | AnswerOther (Ok _) => true | _ => false end.

Lemma read_answers_spec l :
  match read_answers l with
  | Ok ips => forallb record_ok l = true /\ ips = omap record_address l
  | Err _ => forallb record_ok l = false
  end.
Proof.
  induction l as [|[[ip|m]|[ip|m]|[[]|m]|m] l IH]; simpl; try done;
    destruct (read_answers l) as [ips|e]; try done; destruct IH as [-> ->]; done.
Qed.

(** [C40] DNS over HTTPS loses nothing and tolerates half a failure: in either order
    of arrival a lookup of a valid name answers the addresses of both queries
    together, one query's error being ignored as soon as the other gave an address;
    it fails only when there is no address at all and some query failed.  Which
    query finished first changes the order of the addresses and nothing else.  And
    a query that succeeds answers exactly the A and AAAA data of its response. *)
Theorem doh_lookup_is_complete (url host : string) (name : Name) :
  NewName (host +:+ ".")%string = Ok name ->
  let a := query url name TypeA in
  let aaaa := query url name TypeAAAA in
  let r1 := lookupIPAddr url host [TypeA; TypeAAAA] in
  let r2 := lookupIPAddr url host [TypeAAAA; TypeA] in
  (is_ok r1 = is_ok r2 /\ addresses r1 ≡ₚ addresses r2) /\
  addresses r1 = addresses a ++ addresses aaaa /\ addresses r2 = addresses aaaa ++ addresses a /\
  (is_ok r1 = false <-> addresses a ++ addresses aaaa = [] /\ (is_ok a = false \/ is_ok aaaa = false)) /\
  (forall qt ips, query url name qt = Ok ips ->
     exists packed bytes answers, Pack name qt = Ok packed /\ Post url packed = Ok (200, Ok bytes) /\
       Parse bytes = Ok answers /\ forallb record_ok answers = true /\ ips = omap record_address answers).
Proof.
  intros Hn a aaaa r1 r2. unfold r1, r2, lookupIPAddr. rewrite Hn. cbn [map]. fold a aaaa. rewrite !collect_spec. cbn [flat_map app].
  assert (forall x y, is_Some (head (omap error_of [x; y])) <-> is_ok x = false \/ is_ok y = false) as He.
  { intros [x|x] [y|y]; cbn; split; try (by eexists); try naive_solver; by intros [? [=]]. }
  rewrite !app_nil_r, !verdict_addresses. split; [split; [|apply Permutation_app_comm]|].
  - apply Bool.eq_iff_eq_true. rewrite <- !not_false_iff_true, !verdict_ok, !He.
    assert (addresses a ++ addresses aaaa = [] <-> addresses aaaa ++ addresses a = []) as -> by (rewrite !app_nil; tauto). tauto.
  - split; [done|]. split; [done|]. split; [by rewrite verdict_ok, He|].
    intros qt ips. unfold query. destruct (Pack name qt) as [packed|]; [|done]. destruct (Post url packed) as [[status body]|] eqn:Ep; [|done].
    destruct (Z.eqb_spec status 200) as [->|]; [|done]. cbn [negb]. destruct body as [bytes|]; [|done].
    destruct (Parse bytes) as [answers|] eqn:Ea; [|done]. pose proof (read_answers_spec answers) as Hr. destruct (read_answers answers) as [ips'|]; [|done].
    intros [= <-]. exists packed, bytes, answers. naive_solver.
Qed.
End doh.

(** ** A sinkhole and the order of arrival *)

(** The all-zero IPv6 address that blocking resolvers answer for AAAA is not among
    the addresses [isDNSBlocked] knows. *)
Lemma unspecified_v6_not_blocked : isDNSBlocked (replicate 16 0) = false /\ isDNSBlocked net.IPv4zero = true.
Proof. split; by vm_compute. Qed.

(** A connection that is only dialled is never refused as a sinkhole. *)
Lemma dial_address_not_blocked {St : Type} (network : Network) address host (h : Handler St) :
  fst (dial_address network address h) <> Err (ErrDNSBlocked host).
Proof. unfold dial_address, mbind, ST_bind, emit, update. by destruct (DialContext network address). Qed.

(** Only the first address decides: when a resolver that blocks a name answers
    0.0.0.0 and ::, the CONNECT is refused if the A query finishes first, and the
    unspecified IPv6 address is dialled if the AAAA query does. *)
Theorem sinkhole_depends_on_arrival {St : Type} (w : Wiring) (connect : string -> result string unit)
    (std : Resolver -> string -> result string (list net.IP)) (url : string) (order : list qtype) (h : Handler St) :
  order = [TypeA; TypeAAAA] \/ order = [TypeAAAA; TypeA] ->
  let lookup :=
    Resolver_LookupIPAddr string (fun n => Ok n) (fun n qt => Ok (if decide (qt = TypeA) then "a" else "aaaa")%string)
      (fun bytes => Ok (if (bytes =? "a")%string then [AnswerA (Ok net.IPv4zero)] else [AnswerAAAA (Ok (replicate 16 0))]))
      (fun h => h) (fun _ packed => Ok (200, Ok packed)) std order in
  let network := mkNetwork lookup connect in
  fst (dialWithBlockCheck w network (Some (DoHResolver url)) "ads.example:443" h) = Err (ErrDNSBlocked "ads.example") <->
  order = [TypeA; TypeAAAA].
Proof.
  intros [->| ->] lookup network; unfold dialWithBlockCheck;
    change (net.SplitHostPort "ads.example:443") with (Some ("ads.example", "443")%string);
    change (net.ParseIP "ads.example") with (@None net.IP); cbv iota beta.
  - change (LookupIPAddr network _ _) with (Ok (E := string) [net.IPv4zero; replicate 16 0]). cbv iota beta.
    change (isDNSBlocked net.IPv4zero) with true. done.
  - change (LookupIPAddr network _ _) with (Ok (E := string) [replicate 16 0; net.IPv4zero]). cbv iota beta.
    change (isDNSBlocked (replicate 16 0)) with false. cbv iota beta.
    unfold mbind at 1, ST_bind at 1. cbv iota beta. split; [|done]. intros H. by apply dial_address_not_blocked in H.
Qed.

Lemma doh_lookup_is_complete_witness :
  let post (_ packed : string) := if (packed =? "a")%string then Err "refused"%string else Ok (200, Ok packed) in
  lookupIPAddr string (fun n => Ok n) (fun n qt => Ok (if decide (qt = TypeA) then "a" else "aaaa")%string)
    (fun _ => Ok [AnswerOther (Ok tt); AnswerAAAA (Ok [1; 2])]) (fun h => h) post "https://dns/" "example.com" [TypeA; TypeAAAA] = Ok [[1; 2]] /\
  is_ok (lookupIPAddr string (fun n => Ok n) (fun n qt => Ok (if decide (qt = TypeA) then "a" else "aaaa")%string)
    (fun _ => Ok [AnswerOther (Ok tt); AnswerAAAA (Ok [1; 2])]) (fun h => h) post "https://dns/" "example.com" [TypeAAAA; TypeA]) = true.
Proof.
  cbn zeta. split; [reflexivity|].
  destruct (doh_lookup_is_complete string (fun n => Ok n) (fun n qt => Ok (if decide (qt = TypeA) then "a" else "aaaa")%string)
    (fun _ => Ok [AnswerOther (Ok tt); AnswerAAAA (Ok [1; 2])]) (fun h => h)
    (fun _ packed => if (packed =? "a")%string then Err "refused"%string else Ok (200, Ok packed)) "https://dns/" "example.com"
    "example.com." eq_refl) as [[H _] _].
  rewrite <- H. reflexivity.
Defined.
