(* ===== verification/Metrics.v ===== *)
(** * Prometheus metrics and the logger's observers (pkg/metrics/metrics.go, pkg/logging/logger.go)

    The instruments belong to client_golang; what is modelled is which calls an
    observed entry makes on them, in order.  The error text of an entry is
    rendered by [fmt]: it is a parameter, pinned down only where the source writes
    a literal. *)

From S2P Require Import Prelude GoStrings GoTime GoNet GoHTTP UserTable UserDB RateLimit Dns Config Proxy Collector.

Open Scope list_scope.

(** A call on an instrument. *)
Inductive instrument_call :=
| RequestsInc (labels : list string)
| BlockedInc (reason : string)
| DurationObserve (method : string) (ms : Z)
| BytesReadAdd (v : Z)
| BytesWrittenAdd (v : Z)
| ActiveTunnelsInc
| ActiveTunnelsDec
| AuthFailuresInc
| DNSDurationObserve (d : Z)
| DNSLookupsInc (result_ : string).

Section metrics.
(** [e.Error] as text. *)
Variable error_text : log_error -> string.

(** The UserLabel option. *)
Variable userLabel : bool.

Definition request_labels (e : Entry) : list string :=
  if userLabel then
    let user := e_User e in
    let user := if (user =? "")%string then "anonymous" else user in
    [e_Method e; strconv.Itoa (e_Status e); user]
  else [e_Method e; strconv.Itoa (e_Status e)].

Definition rate_limited_text (e : Entry) : bool := strings.Contains (error_text (e_Error e)) "rate limited".

(** The switch that classifies blocked requests. *)
Definition blocked_calls (e : Entry) : list instrument_call :=
  if (e_Event e =? "dns-block")%string then [BlockedInc "dns_block"]
  else if e_Status e =? 403 then [BlockedInc "acl"]
  else if rate_limited_text e then [BlockedInc "rate_limit"]
  else [].

Definition throughput_calls (e : Entry) : list instrument_call :=
  if negb (e_Method e =? http.MethodConnect)%string then
    (if 0 <? e_BytesRead e then [BytesReadAdd (e_BytesRead e)] else []) ++
    (if 0 <? e_BytesWritten e then [BytesWrittenAdd (e_BytesWritten e)] else [])
  else [].

(** [Observe]; [ms] is the entry's duration. *)
Definition Metrics_Observe (ms : Z) (e : Entry) : list instrument_call :=
  if (e_Event e =? "open")%string then [ActiveTunnelsInc] else
  (if (e_Event e =? "close")%string then [ActiveTunnelsDec] else []) ++
  [RequestsInc (request_labels e)] ++
  blocked_calls e ++
  (if (e_Status e =? 407) && negb (rate_limited_text e) then [AuthFailuresInc] else []) ++
  (if 0 <? ms then [DurationObserve (e_Method e) ms] else []) ++
  throughput_calls e.

Definition ObserveLiveBytes (read written : Z) : list instrument_call :=
  (if 0 <? read then [BytesReadAdd read] else []) ++ (if 0 <? written then [BytesWrittenAdd written] else []).

Definition Metrics_ObserveDNS (d : Z) (result_ : string) : list instrument_call := [DNSDurationObserve d; DNSLookupsInc result_].

(** ** The logger

    [Log] hands an entry to every backend and then to every observer; main
    registers the collector first and the metrics second. *)
Record observers := mkObservers { ob_collector : Collector; ob_metrics : list instrument_call }.

Definition Log_ (ms : Z) (e : Entry) (o : observers) : observers :=
  mkObservers (Observe e (ob_collector o)) (ob_metrics o ++ Metrics_Observe ms e).
End metrics.

(** ** Values of instruments *)

(** The gauge of open tunnels, and two counters. *)
Definition tunnels_of (c : instrument_call) : Z :=
  match c with ActiveTunnelsInc => 1 | ActiveTunnelsDec => -1 | _ => 0 end.
Definition requests_of (c : instrument_call) : Z := match c with RequestsInc _ => 1 | _ => 0 end.
Definition written_of (c : instrument_call) : Z := match c with BytesWrittenAdd v => v | _ => 0 end.
Definition read_of (c : instrument_call) : Z := match c with BytesReadAdd v => v | _ => 0 end.

Definition total (f : instrument_call -> Z) (calls : list instrument_call) : Z := foldr (fun c acc => f c + acc) 0 calls.

Lemma total_app f l k : total f (l ++ k) = total f l + total f k.
Proof. induction l as [|c l IH]; simpl; [done|]. rewrite IH. lia. Qed.
