(* ===== verification/Registry.v ===== *)
(** * The instruments and their registration (New of pkg/metrics/metrics.go)

    What [New] declares to client_golang, and that what the program observes goes to
    the instruments as they were declared: one value per label name, in the order of
    the names, and nothing negative added to a counter.  The library itself is not
    modelled, so nothing is said about what it does with a call; its documentation also
    asks for label values in UTF-8, and which values can come from outside is what the
    theorem tells: the method and, when it is asked for, the user name. *)

From S2P Require Import Prelude GoStrings GoTime GoNet GoHTTP UserTable UserDB RateLimit Dns Config Proxy Collector Metrics.

Open Scope list_scope.

Inductive instrument_kind := Counter_ | Gauge_ | Histogram_ (buckets_ms : list Z).

(** Name, help, label names; bucket bounds in thousandths of a second. *)
Record instrument := mkInstrument { in_kind : instrument_kind; in_Name : string; in_Help : string; in_labels : list string }.

(** The struct, with what was given to [MustRegister], without the two collectors
    of the library. *)
Record Metrics_ := mkMetrics {
  m_userLabel : bool;
  m_requests : instrument;
  m_blocked : instrument;
  m_duration : instrument;
  m_bytesRead : instrument;
  m_bytesWritten : instrument;
  m_activeTunnels : instrument;
  m_authFailures : instrument;
  m_dnsLookups : instrument;
  m_dnsDuration : instrument;
}.

Definition Metrics_New (UserLabel : bool) : Metrics_ :=
  let requestLabels := ["method"; "status_code"]%string ++ if UserLabel then ["user"%string] else [] in
  let requestHelp := if UserLabel then "Total proxy requests by method, status code, and user."%string
                     else "Total proxy requests by method and status code."%string in
  mkMetrics UserLabel
    (mkInstrument Counter_ "evanproxy_requests_total" requestHelp requestLabels)
    (mkInstrument Counter_ "evanproxy_blocked_total" "Total blocked requests by reason." ["reason"%string])
    (mkInstrument (Histogram_ [10; 50; 100; 250; 500; 1000; 2500; 5000; 10000; 30000; 60000; 300000])
       "evanproxy_request_duration_seconds" "Request duration in seconds." ["method"%string])
    (mkInstrument Counter_ "evanproxy_bytes_read_total" "Total bytes read from clients." [])
    (mkInstrument Counter_ "evanproxy_bytes_written_total" "Total bytes written to clients." [])
    (mkInstrument Gauge_ "evanproxy_active_tunnels" "Number of active CONNECT tunnels." [])
    (mkInstrument Counter_ "evanproxy_auth_failures_total" "Total authentication failures." [])
    (mkInstrument Counter_ "evanproxy_dns_lookups_total" "Total DNS lookups by result." ["result"%string])
    (mkInstrument (Histogram_ [1; 5; 10; 25; 50; 100; 250; 500; 1000; 2500; 5000])
       "evanproxy_dns_duration_seconds" "DNS lookup duration in seconds." []).

(** The arguments of [MustRegister] that are the program's. *)
Definition registered (m : Metrics_) : list instrument :=
  [m_requests m; m_blocked m; m_duration m; m_bytesRead m; m_bytesWritten m; m_activeTunnels m; m_authFailures m; m_dnsLookups m; m_dnsDuration m].

(** The field a call goes to, its label values and the amount a counter is given. *)
Definition target (m : Metrics_) (c : instrument_call) : instrument * list string * option Z :=
  match c with
  | RequestsInc labels => (m_requests m, labels, Some 1)
  | BlockedInc reason => (m_blocked m, [reason], Some 1)
  | DurationObserve method _ => (m_duration m, [method], None)
  | BytesReadAdd v => (m_bytesRead m, [], Some v)
  | BytesWrittenAdd v => (m_bytesWritten m, [], Some v)
  | ActiveTunnelsInc | ActiveTunnelsDec => (m_activeTunnels m, [], None)
  | AuthFailuresInc => (m_authFailures m, [], Some 1)
  | DNSDurationObserve _ => (m_dnsDuration m, [], None)
  | DNSLookupsInc r => (m_dnsLookups m, [r], Some 1)
  end.

(** ** Calls and declarations *)

Definition increasing (l : list Z) : Prop := forall i a b, l !! i = Some a -> l !! S i = Some b -> a < b.

(** A call on a registered instrument, with a value for each of its label names, in
    their order, and no negative amount. *)
Definition goes_to (m : Metrics_) (label : string -> string -> Prop) (c : instrument_call) : Prop :=
  let '(i, values, amount) := target m c in
  i ∈ registered m /\ Forall2 label (in_labels i) values /\ match amount with Some v => 0 <= v | None => True end.

(** What an entry says under each label name. *)
Definition entry_label (UserLabel : bool) (e : Entry) (name value : string) : Prop :=
  name = "method"%string /\ value = e_Method e \/
  name = "status_code"%string /\ value = strconv.Itoa (e_Status e) \/
  name = "user"%string /\ UserLabel = true /\ value = (if (e_User e =? "")%string then "anonymous"%string else e_User e) \/
  name = "reason"%string /\ value ∈ ["dns_block"; "acl"; "rate_limit"]%string.

Lemma increasing_cons a l : increasing l -> match l with b :: _ => a < b | [] => True end -> increasing (a :: l).
Proof.
  intros Hl Ha [|i] x y; simpl.
  - intros [= <-]. destruct l; [done|]. by intros [= <-].
  - apply Hl.
Qed.

(** What an entry says apart from its user. *)
Definition without_user (e : Entry) : Entry :=
  mkEntry (e_Timestamp e) (e_Event e) (e_ClientIP e) (e_Method e) (e_Host e) (e_URI e) "" (e_Error e) (e_Status e) (e_BytesRead e) (e_BytesWritten e).

(** The label names and values of a call, side by side. *)
Ltac labels := cbn; repeat apply List.Forall2_cons; [..|apply List.Forall2_nil]; unfold entry_label.

Section registry.
Variable error_text : log_error -> string.

Lemma Observe_goes_to UserLabel ms e :
  Forall (goes_to (Metrics_New UserLabel) (entry_label UserLabel e)) (Metrics_Observe error_text UserLabel ms e).
Proof.
  set (m := Metrics_New UserLabel).
  assert (forall c, let '(i, values, amount) := target m c in i ∈ registered m) as Hreg by (intros []; simpl; set_solver).
  assert (forall c, Forall2 (entry_label UserLabel e) (in_labels (fst (fst (target m c)))) (snd (fst (target m c))) ->
    match snd (target m c) with Some v => 0 <= v | None => True end -> goes_to m (entry_label UserLabel e) c) as Hacc.
  { intros c H1 H2. specialize (Hreg c). unfold goes_to. by destruct (target _ c) as [[i values] amount]. }
  assert (forall (b : bool) c, (b = true -> goes_to m (entry_label UserLabel e) c) -> Forall (goes_to m (entry_label UserLabel e)) (if b then [c] else [])) as Hif
    by (intros [] c H; [apply Forall_singleton; auto|constructor]).
  unfold Metrics_Observe. destruct (e_Event e =? "open")%string; [apply Forall_singleton; by apply Hacc|].
  repeat (apply Forall_app; split); try (apply Hif; intros _; apply Hacc; [labels; tauto|done]).
  - apply Forall_singleton, Hacc; [|simpl; lia]. unfold request_labels. subst m. clear Hreg Hacc Hif. unfold Metrics_New. destruct UserLabel; labels; tauto.
  - unfold blocked_calls. repeat case_match; [..|constructor]; (apply Forall_singleton, Hacc; [|done]); labels; (do 3 right; split; [done|by apply (bool_decide_unpack _)]).
  - unfold throughput_calls. destruct (negb _); [|constructor]. apply Forall_app. split; apply Hif; intros Hv; reflect_bools; (apply Hacc; [constructor|simpl; lia]).
Qed.

(** [C38] What the program observes goes to the instruments as [New] declared them.
    Every instrument is registered under a name of its own that begins with evanproxy_
    (the two collectors of the library use go_ and process_), its label names are
    distinct and its buckets increase; every call that a log entry, a count of live
    bytes or a DNS lookup makes goes to a registered instrument, with one value for
    each label name in their order, and never adds a negative amount; the values are
    the entry's method, its status in decimal, its user or "anonymous", one of three
    reasons, or the DNS result; and without the UserLabel option no instrument has a
    user label and what is observed of an entry does not depend on its user field. *)
Theorem metrics_calls_fit_their_instruments (UserLabel : bool) :
  let m := Metrics_New UserLabel in
  NoDup (map in_Name (registered m)) /\
  Forall (fun i => strings.HasPrefix (in_Name i) "evanproxy_" = true /\ NoDup (in_labels i) /\
    match in_kind i with Histogram_ buckets => increasing buckets | _ => True end) (registered m) /\
  (forall ms e, Forall (goes_to m (entry_label UserLabel e)) (Metrics_Observe error_text UserLabel ms e)) /\
  (forall read written, Forall (goes_to m (fun _ _ => False)) (ObserveLiveBytes read written)) /\
  (forall d r, Forall (goes_to m (fun name value => name = "result"%string /\ value = r)) (Metrics_ObserveDNS d r)) /\
  (UserLabel = false ->
    Forall (fun i => "user"%string ∉ in_labels i) (registered m) /\
    forall ms e, Metrics_Observe error_text UserLabel ms e = Metrics_Observe error_text UserLabel ms (without_user e)).
Proof.
  cbn zeta. split; [|split; [|split; [|split; [|split]]]].
  - apply (bool_decide_unpack _). by destruct UserLabel.
  - repeat (apply Forall_cons; split); [..|constructor]; (split; [done|]); (split; [apply (bool_decide_unpack _); by destruct UserLabel|]);
      try done; simpl; repeat (apply increasing_cons; [|done || lia]); by intros [|].
  - intros ms e. apply Observe_goes_to.
  - intros read written. unfold ObserveLiveBytes. apply Forall_app.
    split; case_match; try constructor; try done; reflect_bools; unfold goes_to; simpl; (split; [set_solver|]); (split; [constructor|lia]).
  - intros d r. repeat constructor; unfold goes_to; simpl; try done; set_solver.
  - intros ->. split; [by apply (bool_decide_unpack _)|]. done.
Qed.
End registry.
