(* ===== verification/MetricsSpec.v ===== *)
(** * What the handlers report (over Metrics)

    The log entries of one request, and what they make of the metrics and of the
    visit statistics. *)

From S2P Require Import Prelude GoStrings GoTime GoNet GoHTTP UserTable UserDB RateLimit Bypass Dns Config Proxy Connect Forward.
From S2P Require Import Downtime Password UserDBSpec ProxySafety ProxyOverDB Collector CollectorSpec Counter Metrics.

Open Scope list_scope.

Section logs.
Context {St : Type} {us : UserStore St} (w : Wiring) (network : Network).

Definition log_of (e : effect) : option Entry := match e with Log x => Some x | _ => None end.
Definition logs (l : list effect) : list Entry := omap log_of l.

(** [m] appends effects whose log entries satisfy [P]. *)
Definition logging {A} (m : ST (Handler St) A) (P : A -> list Entry -> Prop) : Prop :=
  forall h, exists new, trace (snd (m h)) = trace h ++ new /\ P (fst (m h)) (logs new).

Lemma logs_app l k : logs (l ++ k) = logs l ++ logs k.
Proof. unfold logs. by rewrite omap_app. Qed.

Lemma logging_silent {A} (m : ST (Handler St) A) (P : A -> list Entry -> Prop) :
  (forall h, trace (snd (m h)) = trace h) -> (forall a, P a []) -> logging m P.
Proof. intros Hm HP h. exists []. rewrite app_nil_r. split; [apply Hm|apply HP]. Qed.

Lemma logging_bind {A B} (m : ST (Handler St) A) (k : A -> ST (Handler St) B) P Q :
  logging m (fun _ l => l = []) -> (forall a, P a -> logging (k a) Q) -> (forall h, P (fst (m h))) -> logging (m ≫= k) Q.
Proof.
  intros Hm Hk HP h. destruct (Hm h) as (n1 & E1 & L1). specialize (HP h). unfold mbind, ST_bind.
  destruct (m h) as [a h1]. simpl in *. destruct (Hk a HP h1) as (n2 & E2 & L2). exists (n1 ++ n2).
  rewrite E2, E1, app_assoc. split; [done|]. by rewrite logs_app, L1.
Qed.

Lemma logging_then {A B} (m : ST (Handler St) A) (k : A -> ST (Handler St) B) Q :
  logging m (fun _ l => l = []) -> (forall a, logging (k a) Q) -> logging (m ≫= k) Q.
Proof. intros Hm Hk. by apply logging_bind with (P := fun _ => True). Qed.

Lemma logging_seq {B} (m : ST (Handler St) unit) (k : ST (Handler St) B) P (Q : B -> list Entry -> Prop) :
  logging m (fun _ l => P l) -> logging k (fun b l => forall l', P l' -> Q b (l' ++ l)) -> logging (m ≫= fun _ => k) Q.
Proof.
  intros Hm Hk h. destruct (Hm h) as (n1 & E1 & L1). unfold mbind, ST_bind. destruct (m h) as [a h1]. simpl in *.
  destruct (Hk h1) as (n2 & E2 & L2). exists (n1 ++ n2). rewrite E2, E1, app_assoc. split; [done|]. rewrite logs_app. by apply L2.
Qed.

Lemma logging_weaken {A} (m : ST (Handler St) A) (P Q : A -> list Entry -> Prop) :
  logging m P -> (forall a l, P a l -> Q a l) -> logging m Q.
Proof. intros Hm HPQ h. destruct (Hm h) as (new & E & H). exists new. auto. Qed.

Lemma logging_emit e : logging (emit e) (fun _ l => l = option_list (log_of e)).
Proof. intros h. exists [e]. split; [done|]. unfold logs. simpl. by destruct (log_of e). Qed.

Lemma logging_ret {A} (x : A) : logging (mret x) (fun _ l => l = []).
Proof. by apply logging_silent. Qed.

(** ** The shape of the log of one CONNECT *)

Definition plain (x : Entry) : Prop := e_Event x <> "open" /\ e_Event x <> "close" /\ e_Method x = http.MethodConnect.

Definition tunnel_log (l : list Entry) : Prop :=
  (exists x, l = [x] /\ plain x) \/
  (exists o c, l = [o; c] /\ e_Event o = "open" /\ e_Event c = "close" /\ e_Method c = http.MethodConnect /\
     e_Status o = 200 /\ e_Status c = 200 /\ e_Host o = e_Host c).

(** A pass-through entry in front of the tunnel it announces. *)
Definition connect_log (l : list Entry) : Prop :=
  tunnel_log l \/ exists p l', l = p :: l' /\ e_Event p = "mitm_passthrough" /\ e_Method p = http.MethodConnect /\
    Passthrough (e_Host p) = true /\ tunnel_log l'.

Lemma dial_silent_log resolver address :
  logging (dialWithBlockCheck w network resolver address) (fun _ l => l = []).
Proof.
  unfold dialWithBlockCheck. assert (forall a, logging (dial_address network a) (fun _ l => l = [])) as Hd.
  { intros a. apply logging_then; [apply logging_emit|]. intros _. destruct (DialContext network a); apply logging_ret. }
  destruct (net.SplitHostPort address) as [[host port]|]; [|done]. destruct (net.ParseIP host); [done|].
  destruct (LookupIPAddr _ _ _) as [[|ip ips]|msg].
  - apply logging_then; [apply logging_emit|]. intros _. apply logging_ret.
  - destruct (isDNSBlocked ip); (apply logging_then; [apply logging_emit|]); intros _; [apply logging_ret|done].
  - apply logging_then; [apply logging_emit|]. intros _. apply logging_ret.
Qed.

Lemma dial_event e : snd (classifyDialError e) <> "open"%string /\ snd (classifyDialError e) <> "close"%string.
Proof. unfold classifyDialError. repeat case_match; done. Qed.

Lemma one_entry x e : log_of e = Some x -> plain x -> logging (emit e) (fun _ => tunnel_log).
Proof. intros He Hx. eapply logging_weaken; [apply logging_emit|]. intros _ l ->. rewrite He. left. by exists x. Qed.

Ltac one_plain := eapply one_entry; [reflexivity|by repeat split].

Lemma connectTunnel_log env start ip host user :
  logging (connectTunnel w network env start ip host user) (fun _ => tunnel_log).
Proof.
  unfold connectTunnel. apply logging_then.
  { apply logging_silent; [intros h; apply ctxWithUserDNS_silent|done]. }
  intros resolver. destruct (acl_Allow w host); cbn [negb].
  - apply logging_then; [apply dial_silent_log|]. intros [address|e].
    + apply logging_then; [apply logging_emit|]. intros _. eapply logging_seq; [apply logging_emit|].
      apply logging_then; [apply logging_emit|]. intros _. eapply logging_weaken; [apply logging_emit|].
      intros _ l -> l' ->. right. by repeat eexists.
    + pose proof (dial_event e) as He. destruct (classifyDialError e) as [status event].
      apply logging_then; [apply logging_emit|]. intros _. eapply one_entry; [reflexivity|by split; [apply He|split; [apply He|]]].
  - apply logging_then; [apply logging_emit|]. intros _. one_plain.
Qed.

Lemma serveBlocked_log env start ip host user reason :
  logging (serveBlocked w network env start ip host user reason) (fun _ => connect_log).
Proof.
  assert (forall m : ST (Handler St) unit, logging m (fun _ => tunnel_log) -> logging m (fun _ => connect_log)) as Hw
    by (intros m Hm; apply (logging_weaken _ _ _ Hm); intros a l Hl; by left).
  unfold serveBlocked. destruct (negb _ || negb _).
  - apply Hw. apply logging_then; [apply logging_emit|]. intros _. one_plain.
  - destruct (Passthrough host) eqn:Ep.
    + eapply logging_seq; [apply logging_emit|]. eapply logging_weaken; [apply connectTunnel_log|].
      intros a l Hl l1 ->. right. by eexists _, l.
    + apply Hw. apply logging_then; [apply logging_emit|]. intros _. apply logging_then; [apply logging_emit|]. intros _.
      destruct (ce_page env); one_plain.
Qed.

Lemma connect_admitted_log env start now ip host user :
  logging (connect_admitted w network env start now ip host user) (fun _ => connect_log).
Proof.
  unfold connect_admitted. apply logging_then; [by apply logging_silent|]. intros _.
  apply logging_then; [by apply logging_silent|]. intros reason. destruct (negb _); [apply serveBlocked_log|].
  eapply logging_weaken; [apply connectTunnel_log|]. intros a l Hl. by left.
Qed.

Lemma handleConnect_log (r : http.Request) portUser env :
  ce_hijack env = Hijacked -> logging (handleConnect w network r portUser env) (fun _ => connect_log).
Proof.
  intros Hh. unfold handleConnect. rewrite Hh.
  assert (forall e, plain e -> logging (emit (Log e) : ST (Handler St) unit) (fun _ => connect_log)) as Hone
    by (intros e He; eapply logging_weaken; [by eapply one_entry|]; intros a l Hl; by left).
  apply logging_then; [apply logging_silent; [intros; apply limiter_Allow_silent|done]|]. intros allowed.
  destruct allowed; cbn [negb].
  - apply logging_then; [apply logging_silent; [intros; apply authenticate_silent|done]|]. intros a.
    eapply logging_seq with (P := connect_log); [|eapply logging_weaken; [apply logging_emit|]; intros _ l -> l'; by rewrite app_nil_r].
    destruct a as [user|e]; [apply connect_admitted_log|]. unfold connect_retry, connect_answer.
    apply logging_then; [apply logging_emit|]. intros _. destruct (ce_retry env) as [retry|].
    + apply logging_then; [apply logging_silent; [intros; apply check_user_silent|done]|]. intros [user|e'];
        [apply connect_admitted_log|]. apply logging_then; [by apply logging_silent|]. intros _.
      apply logging_then; [apply logging_emit|]. intros _. apply Hone. by repeat split.
    + apply logging_then; [by case_match; apply logging_silent|]. intros _. apply Hone. by repeat split.
  - apply logging_then; [apply logging_emit|]. intros _. apply logging_then; [apply logging_emit|]. intros _. apply Hone. by repeat split.
Qed.

(** ** What the observers make of it *)

Section reported.
Variable error_text : log_error -> string.
Variable userLabel : bool.
Variable ms : Entry -> Z.

(** The metrics calls for a list of entries. *)
Definition reported (l : list Entry) : list instrument_call := flat_map (fun e => Metrics_Observe error_text userLabel (ms e) e) l.

(** Summing a per-call value over one observed entry. *)
Definition calm (f : instrument_call -> Z) : Prop :=
  (forall r, f (BlockedInc r) = 0) /\ f AuthFailuresInc = 0 /\ (forall m d, f (DurationObserve m d) = 0).

Lemma observed_total f e :
  calm f -> e_Method e = http.MethodConnect -> e_Event e <> "open"%string ->
  total f (Metrics_Observe error_text userLabel (ms e) e) =
  (if (e_Event e =? "close")%string then f ActiveTunnelsDec else 0) + f (RequestsInc (request_labels userLabel e)).
Proof.
  intros (Hb & Ha & Hd) Hm He. unfold Metrics_Observe. rewrite (proj2 (String.eqb_neq _ _) He). rewrite !total_app.
  unfold throughput_calls. rewrite Hm. change (negb (http.MethodConnect =? http.MethodConnect)%string) with false.
  assert (total f (blocked_calls error_text e) = 0) as -> by (unfold blocked_calls; repeat case_match; simpl; rewrite ?Hb; done).
  destruct (_ && _), (0 <? ms e), (e_Event e =? "close")%string; simpl; rewrite ?Ha, ?Hd; lia.
Qed.

Lemma observed_open f e : e_Event e = "open"%string -> total f (Metrics_Observe error_text userLabel (ms e) e) = f ActiveTunnelsInc.
Proof. intros He. unfold Metrics_Observe. rewrite He. simpl. lia. Qed.

Lemma reported_cons f e l : total f (reported (e :: l)) = total f (Metrics_Observe error_text userLabel (ms e) e) + total f (reported l).
Proof. unfold reported. cbn [flat_map]. by rewrite total_app. Qed.

(** Counting the requests, the open tunnels and the bytes of a tunnel's log. *)
Lemma tunnel_log_reported l :
  tunnel_log l ->
  total requests_of (reported l) = 1 /\ total tunnels_of (reported l) = 0 /\
  total written_of (reported l) = 0 /\ total read_of (reported l) = 0 /\
  forall n, 0 <= total tunnels_of (reported (take n l)) <= 1.
Proof.
  assert (calm requests_of /\ calm tunnels_of /\ calm written_of /\ calm read_of) as (C1 & C2 & C3 & C4) by done.
  intros [(x & -> & Ho & Hc & Hm)|(o & c & -> & Ho & Hc & Hm & _)].
  - rewrite !reported_cons, !observed_total by done. rewrite (proj2 (String.eqb_neq _ _) Hc). repeat (split; [done|]).
    intros [|n]; cbn [take]; [done|]. rewrite take_nil, reported_cons, observed_total by done.
    by rewrite (proj2 (String.eqb_neq _ _) Hc).
  - assert (e_Event c <> "open"%string) as Hc' by (by rewrite Hc).
    rewrite !reported_cons, !(observed_open _ o Ho), !observed_total, Hc by done. repeat (split; [done|]).
    intros [|[|n]]; cbn [take]; [done|..]; rewrite ?take_nil, !reported_cons, (observed_open _ o Ho); [done|].
    rewrite observed_total, Hc by done. done.
Qed.

(** Every CONNECT is reported once and leaves no tunnel open: whatever
    becomes of a hijacked CONNECT, the gauge of active tunnels is never negative
    nor above one on the way and ends where it began, no bytes are reported by the
    entries (the live counters report them), and the request counter goes up by
    exactly one, or by two for a blocked user's pass-through host, whose
    announcement is counted too. *)
Theorem connect_is_reported_once (r : http.Request) (portUser : string) (env : connect_env) (h : Handler St) :
  ce_hijack env = Hijacked ->
  exists new, trace (snd (handleConnect w network r portUser env h)) = trace h ++ new /\
    let calls := reported (logs new) in
    total tunnels_of calls = 0 /\
    (forall n, 0 <= total tunnels_of (reported (take n (logs new))) <= 1) /\
    total written_of calls = 0 /\ total read_of calls = 0 /\
    (total requests_of calls = 1 \/
     (total requests_of calls = 2 /\
      exists p, p ∈ logs new /\ e_Event p = "mitm_passthrough"%string /\ Passthrough (e_Host p) = true)).
Proof.
  intros Hh. destruct (handleConnect_log r portUser env Hh h) as (new & E & Hl). exists new. split; [done|]. cbn zeta.
  destruct Hl as [Ht|(p & l' & -> & Hp & Hm & Hpass & Ht)]; destruct (tunnel_log_reported _ Ht) as (H1 & H2 & H3 & H4 & H5).
  - split_and!; [done..|by left].
  - assert (e_Event p <> "open"%string) as Hp' by (by rewrite Hp).
    rewrite !reported_cons, !observed_total, Hp, H1, H2, H3, H4 by done. cbn.
    split; [done|]. split; [|split; [done|split; [done|right; split; [done|]; exists p; by rewrite elem_of_cons; auto]]].
    intros [|n]; cbn [take]; [done|]. rewrite reported_cons, observed_total, Hp by done. apply H5.
Qed.

(** An opened tunnel is two visits of its host: the open and the close entry both
    count. *)
Theorem tunnel_counts_two_visits (r : http.Request) (portUser : string) (env : connect_env) (h : Handler St) (o : Entry) :
  ce_hijack env = Hijacked ->
  exists new, trace (snd (handleConnect w network r portUser env h)) = trace h ++ new /\
    (o ∈ logs new -> e_Event o = "open"%string -> e_Host o <> ""%string ->
     (2 <= length (filter (fun x => hit_host x = hostOnly (e_Host o)) (flat_map (fun e => visits_of (EvObserve e)) (logs new))))%nat).
Proof.
  intros Hh. destruct (handleConnect_log r portUser env Hh h) as (new & E & Hl). exists new. split; [done|].
  intros Ho Hev Hne. assert (forall l, tunnel_log l -> o ∈ l ->
    (2 <= length (filter (fun x => hit_host x = hostOnly (e_Host o)) (flat_map (fun e => visits_of (EvObserve e)) l)))%nat) as Ht.
  { intros l [(x & -> & Hx & _)|(o' & c & -> & Ho' & Hc & _ & Hs & Hs' & Hhost)] Hin.
    - apply list_elem_of_singleton in Hin. congruence.
    - assert (o = o') as <- by (repeat (apply elem_of_cons in Hin as [->|Hin]); [done|congruence|by apply not_elem_of_nil in Hin]).
      cbn [flat_map visits_of]. rewrite Hs, Hs', <- Hhost. rewrite (proj2 (String.eqb_neq _ _) Hne). cbn [negb andb Z.ltb Z.compare].
      simpl app. rewrite !filter_cons_True by done. simpl. lia. }
  destruct Hl as [Hl|(p & l' & El & Hp & _ & _ & Hl)]; [by apply Ht|]. rewrite El in *.
  apply elem_of_cons in Ho as [->|Ho]; [congruence|]. cbn [flat_map]. rewrite filter_app, length_app. pose proof (Ht _ Hl Ho). lia.
Qed.
End reported.
End logs.

(** ** Bytes counted twice

    The body of a forwarded answer goes through a counting writer, whose deltas
    reach [ObserveLiveBytes] and [AddLiveBytes], and its length is in the log
    entry, which reaches [Observe]. *)

Definition live_calls (tc : TrafficCounter) : list instrument_call :=
  flat_map (fun d => ObserveLiveBytes (d_Read d) (d_Written d)) (tc_observed tc).

Theorem forwarded_bytes_counted_twice error_text userLabel ms (e : Entry) (n now : Z) :
  e_Method e <> http.MethodConnect -> e_Event e = ""%string -> e_BytesWritten e = n -> 0 < n <= int64_max ->
  let tc := stop_drain now (snd (run_counter [CNew false; CWrite 0 n; CTotal 0; CSwap 0; CSend 0] (NewTrafficCounter NewCollector))) in
  total written_of (live_calls tc) = n /\
  total written_of (Metrics_Observe error_text userLabel ms e ++ live_calls tc) = 2 * n.
Proof.
  intros Hm He Hn Hr. cbn zeta. assert (wrap64 n = n) as Hw by (apply wrap64_id; unfold int64_min; lia).
  assert (live_calls (stop_drain now (snd (run_counter [CNew false; CWrite 0 n; CTotal 0; CSwap 0; CSend 0] (NewTrafficCounter NewCollector)))) = [BytesWrittenAdd n]) as ->.
  { assert (add_pending n (mkCW false 0 0 0 0) = mkCW false n 0 n 0) as E
      by (unfold add_pending; cbn [cw_isRead cw_pending cw_total cw_taken]; by rewrite (proj2 (Z.ltb_lt 0 n)), Z.add_0_l, Hw by lia).
    assert (add_total (mkCW false n 0 n 0) = mkCW false n n 0 0) as E' by (unfold add_total; cbn [cw_isRead cw_pending cw_total cw_taken cw_adding]; by rewrite Z.add_0_l, Hw).
    unfold run_counter, counter_step, on_writer, NewWriter, NewTrafficCounter.
    cbn [tc_writers set_writers app lookup list_lookup insert list_insert cw_adding Z.eqb]. rewrite E. cbn [lookup list_lookup insert list_insert tc_writers set_writers].
    rewrite E'. unfold send_taken. cbn [lookup list_lookup insert list_insert tc_writers set_writers cw_taken swap_pending cw_pending Z.eqb].
    rewrite (proj2 (Z.eqb_neq n 0)) by lia. cbn. by rewrite (proj2 (Z.ltb_lt 0 n)) by lia. }
  split; [cbn; lia|]. rewrite total_app. unfold Metrics_Observe. rewrite He.
  change ("" =? "open")%string with false. change ("" =? "close")%string with false. cbv iota. rewrite !total_app. unfold throughput_calls.
  rewrite (proj2 (String.eqb_neq _ _) Hm), Hn. rewrite (proj2 (Z.ltb_lt 0 n)) by lia.
  assert (total written_of (blocked_calls error_text e) = 0) as -> by (unfold blocked_calls; by repeat case_match).
  destruct (_ && _), (0 <? ms), (0 <? e_BytesRead e); cbn; lia.
Qed.

(** ** The theorem at a concrete request *)

Section examples.
#[local] Existing Instance toy_crypto.
#[local] Existing Instance toy_codec.
#[local] Existing Instance toy_sqlite.
#[local] Existing Instance ex_store.

Lemma connect_is_reported_once_witness :
  exists new,
    trace (snd (handleConnect (ex_wiring true) ex_network (ex_request "CONNECT" "example.com:443" true) "amy" ex_cenv (ex_handler ex_db))) =
      [] ++ new /\
    total tunnels_of (reported (fun _ => "") false (fun _ => 3) (logs new)) = 0.
Proof.
  destruct (connect_is_reported_once (ex_wiring true) ex_network (fun _ => ""%string) false (fun _ => 3)
    (ex_request "CONNECT" "example.com:443" true) "amy" ex_cenv (ex_handler ex_db) eq_refl) as (new & E & H & _).
  exists new. split; [exact E|exact H].
Defined.
End examples.
