(* ===== verification/DeviceTokens.v ===== *)
(** * Paired devices (pkg/userdb/devicetokens.go)

    The [device_tokens] table keeps the digest of each token; a token is only
    ever seen by the caller of [CreateDeviceToken].  [raw] is the outcome of
    [rand.Read] into the 32-byte buffer. *)

From S2P Require Import Prelude GoStrings GoBase64 GoTime Password UserTable UserDB UserDBLemmas.

Open Scope list_scope.

(** The row as the admin page shows it: a NULL time is empty. *)
Record DeviceToken := mkDeviceToken {
  ID : string;
  Name : string;
  DeviceCreatedAt : string;
  LastSeenAt : string;
}.

(** ** Rows of the table *)

Definition token_conflict (rows : list TokenRow) (t : TokenRow) : option string :=
  if existsb (fun x => (t_id x =? t_id t)%string) rows then Some "UNIQUE constraint failed: device_tokens.id"
  else if existsb (fun x => (t_sha256 x =? t_sha256 t)%string) rows
       then Some "UNIQUE constraint failed: device_tokens.token_sha256"
  else None.

(** [WHERE token_sha256 = ?], a unique column. *)
Definition token_row (rows : list TokenRow) (sum : string) : option TokenRow :=
  List.find (fun t => (t_sha256 t =? sum)%string) rows.

Definition touch_row (seen : string) (t : TokenRow) : TokenRow :=
  mkTokenRow (t_id t) (t_sha256 t) (t_name t) (t_created_at t) (Some seen).

Definition created_le (a b : TokenRow) : Prop := String.leb (t_created_at a) (t_created_at b) = true.

#[global] Instance created_le_dec : RelDecision created_le.
Proof. intros a b. unfold created_le. apply _. Defined.

Definition device_of_row (t : TokenRow) : DeviceToken :=
  mkDeviceToken (t_id t) (t_name t) (t_created_at t) (default "" (t_last_seen_at t)).

Section devices.
Context {crypto : Crypto} {sqlite : SQLiteClock}.

(** The public id of a token: the first eight bytes of its digest. *)
Definition token_id (token : string) : string :=
  base64.EncodeToString base64.RawURLEncoding (strings.take 8 (Sum256 token)).

Definition exec_insert_token (t : TokenRow) : M DB db_error unit :=
  sql (fun d => match token_conflict (device_tokens d) t with
                | Some msg => (Err (ErrSQL msg), d)
                | None => (Ok tt, set_device_tokens d (device_tokens d ++ [t]))
                end).

Definition CreateDeviceToken (name : string) (raw : option string) (now : Z) : M DB db_error (string * string) :=
  match raw with
  | None => throw ErrRand
  | Some raw =>
      let token := base64.EncodeToString base64.RawURLEncoding raw in
      let id := token_id token in
      _ ← wrap (Wrapped "inserting device token")
            (exec_insert_token (mkTokenRow id (Sum256 token) name (datetime_now now) None));
      mret (token, id)
  end.

Definition select_token_name (sum : string) : M DB db_error string :=
  sql (fun d => match token_row (device_tokens d) sum with
                | Some t => (Ok (t_name t), d)
                | None => (Err ErrNoRows, d)
                end).

Definition exec_touch (sum : string) (now : Z) : M DB db_error unit :=
  sql (fun d => (Ok tt, set_device_tokens d
    (map (fun t => if (t_sha256 t =? sum)%string then touch_row (datetime_now now) t else t) (device_tokens d)))).

(** [None] is Go's [("", false)]; the outcome of the UPDATE is ignored. *)
Definition ValidateDeviceToken (token : string) (now : Z) : ST DB (option string) := fun d =>
  if (token =? "")%string then (None, d) else
  let sum := Sum256 token in
  match select_token_name sum d with
  | (Err _, d1) => (None, d1)
  | (Ok name, d1) => (Some name, snd (exec_touch sum now d1))
  end.

Definition ListDeviceTokens : M DB db_error (list DeviceToken) :=
  rows ← wrap (Wrapped "listing device tokens") (query (fun d => merge_sort created_le (device_tokens d)));
  mret (map device_of_row rows).

Definition RevokeDeviceToken (id : string) : M DB db_error unit :=
  n ← wrap (Wrapped "revoking device token")
        (sql (fun d => (Ok (length (List.filter (fun t => (t_id t =? id)%string) (device_tokens d))),
                        set_device_tokens d (List.filter (fun t => negb (t_id t =? id)%string) (device_tokens d)))));
  if (n =? 0)%nat then throw ErrUnknownDevice else mret tt.

(** ** Lemmas *)

(** Every row was written by [CreateDeviceToken] for some token. *)
Definition tokens_ok (rows : list TokenRow) : Prop :=
  Forall (fun t => exists token, t_sha256 t = Sum256 token /\ t_id t = token_id token) rows.

(** Statements on devices leave everything else alone. *)
Definition only_devices (d d' : DB) : Prop := exists ts fs, d' = set_faults (set_device_tokens d ts) fs.

#[global] Instance only_devices_refl : Reflexive only_devices.
Proof. intros []. by eexists _, _. Qed.

#[global] Instance only_devices_trans : Transitive only_devices.
Proof. intros d1 d2 d3 (ts & fs & ->) (ts' & fs' & ->). by exists ts', fs'. Qed.

Lemma only_faults_devices d d' : only_faults d d' -> only_devices d d'.
Proof. intros [fs ->]. exists (device_tokens d), fs. by destruct d. Qed.

Lemma ValidateDeviceToken_inv token now d r d' :
  ValidateDeviceToken token now d = (r, d') ->
  only_devices d d' /\
  (forall name, r = Some name -> token <> "" /\ exists t, token_row (device_tokens d) (Sum256 token) = Some t /\ t_name t = name).
Proof.
  unfold ValidateDeviceToken. destruct (String.eqb_spec token ""); [intros [= <- <-]; by split|].
  destruct (select_token_name (Sum256 token) d) as [[name|e] d1] eqn:E.
  - apply sql_inv in E as [(? & ? & _)|(fs & E)]; [done|]. cbn -[token_row] in E.
    destruct (token_row (device_tokens d) (Sum256 token)) as [t|]; simplify_eq. intros H. simplify_eq.
    split; [|intros ? [= <-]; eauto].
    destruct (exec_touch (Sum256 token) now (set_faults d fs)) as [r' d2] eqn:E2.
    apply sql_inv in E2 as [(? & _ & [fs' ->])|(fs' & E2)]; [apply only_faults_devices; by exists fs'|].
    simplify_eq/=. by eexists _, fs'.
  - apply sql_inv in E as [(? & _ & ?)|(fs & E)]; [intros [= <- <-]; split; [by apply only_faults_devices|done]|].
    cbn -[token_row] in E. destruct (token_row (device_tokens d) (Sum256 token)); simplify_eq. intros [= <- <-].
    split; [|done]. apply only_faults_devices. by exists fs.
Qed.

Lemma CreateDeviceToken_inv name raw now d r d' :
  CreateDeviceToken name raw now d = (r, d') ->
  ((exists e, r = Err e) /\ only_faults d d') \/
  exists token fs, r = Ok (token, token_id token) /\
    raw = Some (default "" raw) /\ token = base64.EncodeToString base64.RawURLEncoding (default "" raw) /\
    let t := mkTokenRow (token_id token) (Sum256 token) name (datetime_now now) None in
    token_conflict (device_tokens d) t = None /\
    d' = set_device_tokens (set_faults d fs) (device_tokens d ++ [t]).
Proof.
  unfold CreateDeviceToken. destruct raw as [raw|]; [|unfold throw; intros [= <- <-]; left; split; [by eexists|done]].
  intros [(a & d1 & H & Hk)|(e & H & ->)]%bind_inv.
  - apply wrap_inv in H as [(? & _ & H)|(? & ? & _)]; [|done]. unfold mret, M_ret in Hk. simplify_eq.
    apply sql_inv in H as [(? & ? & _)|(fs & H)]; [done|]. cbn -[token_conflict] in H. case_match; simplify_eq. right. by eexists _, fs.
  - apply wrap_inv in H as [(? & ? & _)|(? & _ & H)]; [done|]. left. split; [by eexists|].
    apply sql_inv in H as [(? & _ & ?)|(fs & H)]; [done|]. cbn -[token_conflict] in H. case_match; simplify_eq. by exists fs.
Qed.

Lemma RevokeDeviceToken_inv id d r d' :
  RevokeDeviceToken id d = (r, d') ->
  (exists e, r = Err e /\ only_devices d d') \/
  r = Ok tt /\ exists fs, d' = set_faults (set_device_tokens d
    (List.filter (fun t => negb (t_id t =? id)%string) (device_tokens d))) fs.
Proof.
  unfold RevokeDeviceToken. intros [(n & d1 & H & Hk)|(e & H & ->)]%bind_inv.
  - apply wrap_inv in H as [(? & [= <-] & H)|(? & ? & _)]; [|done].
    apply sql_inv in H as [(? & ? & _)|(fs & H)]; [done|]. simplify_eq/=.
    case_match; unfold throw, mret, M_ret in Hk; simplify_eq; [left; eexists; split; [done|]; by eexists _, fs|].
    right. split; [done|]. by exists fs.
  - apply wrap_inv in H as [(? & ? & _)|(? & _ & H)]; [done|]. left. eexists. split; [done|].
    apply sql_inv in H as [(? & _ & ?)|(fs & H)]; [by apply only_faults_devices|]. by simplify_eq/=.
Qed.

Lemma token_row_app rows t sum :
  token_row (rows ++ [t]) sum =
    match token_row rows sum with Some x => Some x | None => if (t_sha256 t =? sum)%string then Some t else None end.
Proof.
  unfold token_row. induction rows as [|x rows IH]; simpl; [done|]. by destruct (t_sha256 x =? sum)%string.
Qed.

Lemma token_row_conflict rows t : token_conflict rows t = None -> token_row rows (t_sha256 t) = None.
Proof.
  unfold token_conflict, token_row. destruct (existsb (fun x => (t_id x =? t_id t)%string) rows); [done|].
  destruct (existsb (fun x => (t_sha256 x =? t_sha256 t)%string) rows) eqn:E; [done|]. intros _.
  destruct (List.find _ rows) as [x|] eqn:F; [|done]. apply List.find_some in F as [Hin Hx].
  assert (existsb (fun x => (t_sha256 x =? t_sha256 t)%string) rows = true); [|congruence].
  apply existsb_exists. by exists x.
Qed.

(** A token whose id was removed has no row left: ids follow from digests. *)
Lemma token_row_revoked rows id token :
  tokens_ok rows -> token_id token = id ->
  token_row (List.filter (fun t => negb (t_id t =? id)%string) rows) (Sum256 token) = None.
Proof.
  intros Hok <-. unfold token_row. destruct (List.find _ _) as [t|] eqn:F; [|done].
  apply List.find_some in F as [Hin Hs]. apply List.filter_In in Hin as [Hin Hid]. apply String.eqb_eq in Hs.
  unfold tokens_ok in Hok. rewrite Forall_forall in Hok. destruct (Hok t) as (tok & Hsum & Hti); [by apply list_elem_of_In|].
  exfalso. apply negb_true_iff, String.eqb_neq in Hid. apply Hid. rewrite Hti. unfold token_id. by rewrite <- Hsum, Hs.
Qed.

Lemma token_row_kept rows id token :
  tokens_ok rows -> token_id token <> id ->
  token_row (List.filter (fun t => negb (t_id t =? id)%string) rows) (Sum256 token) = token_row rows (Sum256 token).
Proof.
  intros Hok Hid. unfold token_row. induction rows as [|t rows IH]; simpl; [done|].
  unfold tokens_ok in Hok. rewrite Forall_cons in Hok. destruct Hok as [(tok & Hsum & Hti) Hok].
  destruct (String.eqb_spec (t_id t) id) as [E|E]; cbn [negb].
  - rewrite IH by done. destruct (String.eqb_spec (t_sha256 t) (Sum256 token)) as [E2|]; [|done].
    exfalso. apply Hid. rewrite <- E, Hti. unfold token_id. by rewrite <- E2, Hsum.
  - simpl. by rewrite IH.
Qed.

(** ** Histories of the table *)

Inductive device_op :=
| DCreate (name : string) (raw : option string) (now : Z)
| DValidate (token : string) (now : Z)
| DRevoke (id : string)
| DFaults (fs : list (option string)).

Definition run_device_op (d : DB) (op : device_op) : DB :=
  match op with
  | DCreate name raw now => snd (CreateDeviceToken name raw now d)
  | DValidate token now => snd (ValidateDeviceToken token now d)
  | DRevoke id => snd (RevokeDeviceToken id d)
  | DFaults fs => set_faults d fs
  end.

(** What one operation does to the rows. *)
Lemma run_device_op_rows d op :
  let rows := device_tokens d in
  let rows' := device_tokens (run_device_op d op) in
  match op with
  | DCreate name raw now =>
      rows' = rows \/ exists token t, raw = Some (default "" raw) /\
        token = base64.EncodeToString base64.RawURLEncoding (default "" raw) /\
        t_sha256 t = Sum256 token /\ t_id t = token_id token /\ rows' = rows ++ [t]
  | DValidate token now =>
      exists f, (forall t, t_id (f t) = t_id t /\ t_sha256 (f t) = t_sha256 t /\ t_name (f t) = t_name t) /\ rows' = map f rows
  | DRevoke id => rows' = rows \/ rows' = List.filter (fun t => negb (t_id t =? id)%string) rows
  | DFaults _ => rows' = rows
  end.
Proof.
  destruct op; simpl; [| | |done].
  - destruct (CreateDeviceToken _ _ _ d) as [r d'] eqn:E.
    apply CreateDeviceToken_inv in E as [(_ & [fs ->])|(tok & fs & _ & Hr & -> & _ & ->)]; [by left|].
    right. eexists _, (mkTokenRow _ _ _ _ _). split_and!; [exact Hr|reflexivity..].
  - unfold ValidateDeviceToken, select_token_name, exec_touch, sql.
    assert (exists f, (forall t : TokenRow, t_id (f t) = t_id t /\ t_sha256 (f t) = t_sha256 t /\ t_name (f t) = t_name t) /\
      device_tokens d = map f (device_tokens d)) as Hid by (exists id; split; [done|by rewrite map_id]).
    assert (exists f, (forall t : TokenRow, t_id (f t) = t_id t /\ t_sha256 (f t) = t_sha256 t /\ t_name (f t) = t_name t) /\
      map (fun t => if (t_sha256 t =? Sum256 token)%string then touch_row (datetime_now now) t else t) (device_tokens d) =
      map f (device_tokens d)) as Htouch by (eexists; split; [|done]; intros t; simpl; by destruct (t_sha256 t =? Sum256 token)%string).
    destruct (token =? "")%string; [done|]. destruct (faults d) as [|[msg|] fs] eqn:Ef; simpl; try exact Hid;
      destruct (token_row (device_tokens d) (Sum256 token)); simpl; try exact Hid; [by rewrite Ef|].
    by destruct fs as [|[msg|] fs].
  - unfold RevokeDeviceToken, wrap, sql, mbind, M_bind.
    destruct (faults d) as [|[msg|] fs]; simpl; [|by left|]; destruct (length _ =? 0)%nat; by right.
Qed.

Lemma tokens_ok_run d op : tokens_ok (device_tokens d) -> tokens_ok (device_tokens (run_device_op d op)).
Proof.
  intros Hok. pose proof (run_device_op_rows d op) as H. unfold tokens_ok in *. destruct op; cbn zeta in H.
  - destruct H as [->|(tok & t & _ & _ & Hs & Hi & ->)]; [done|]. apply Forall_app. split; [done|].
    apply Forall_singleton. eauto.
  - destruct H as (f & Hf & ->). apply Forall_map. apply (Forall_impl _ _ _ Hok). intros t (tok & ? & ?). simpl.
    destruct (Hf t) as (-> & -> & _). eauto.
  - destruct H as [->| ->]; [done|]. rewrite Forall_forall in *. intros t Ht.
    apply list_elem_of_In, List.filter_In in Ht as [Ht _]. apply Hok. by apply list_elem_of_In.
  - by rewrite H.
Qed.

(** Recognition of a digest: the name and id its row has. *)
Definition recognised (rows : list TokenRow) (sum : string) : option (string * string) :=
  (fun t => (t_name t, t_id t)) <$> token_row rows sum.

Lemma recognised_map rows f sum :
  (forall t, t_id (f t) = t_id t /\ t_sha256 (f t) = t_sha256 t /\ t_name (f t) = t_name t) ->
  recognised (map f rows) sum = recognised rows sum.
Proof.
  intros Hf. unfold recognised, token_row. induction rows as [|t rows IH]; simpl; [done|].
  destruct (Hf t) as (Hi & -> & Hn). destruct (t_sha256 t =? sum)%string; simpl; [by rewrite Hi, Hn|done].
Qed.

(** A recognised token stays recognised until its id is revoked. *)
Lemma recognised_kept d op token x :
  tokens_ok (device_tokens d) -> recognised (device_tokens d) (Sum256 token) = Some x -> op <> DRevoke (token_id token) ->
  recognised (device_tokens (run_device_op d op)) (Sum256 token) = Some x.
Proof.
  intros Hok Hx Hop. pose proof (run_device_op_rows d op) as H. destruct op; cbn zeta in H.
  - destruct H as [->|(tok & t & _ & _ & _ & _ & ->)]; [done|]. unfold recognised in *. rewrite token_row_app.
    by destruct (token_row (device_tokens d) (Sum256 token)).
  - destruct H as (f & Hf & ->). by rewrite recognised_map.
  - destruct H as [->| ->]; [done|]. unfold recognised. rewrite token_row_kept; [done|done|congruence].
  - by rewrite H.
Qed.

(** A token without a row stays unknown until it is created. *)
Lemma unknown_kept d op token :
  recognised (device_tokens d) (Sum256 token) = None ->
  (forall name raw now, op = DCreate name (Some raw) now ->
     Sum256 (base64.EncodeToString base64.RawURLEncoding raw) <> Sum256 token) ->
  recognised (device_tokens (run_device_op d op)) (Sum256 token) = None.
Proof.
  intros Hx Hop. pose proof (run_device_op_rows d op) as H. destruct op; cbn zeta in H.
  - destruct H as [->|(tok & t & Hr & -> & Hs & _ & ->)]; [done|]. rewrite Hr in Hop. unfold recognised in *. rewrite token_row_app.
    destruct (token_row (device_tokens d) (Sum256 token)); [done|]. destruct (String.eqb_spec (t_sha256 t) (Sum256 token)); [|done].
    exfalso. eapply Hop; [done|]. congruence.
  - destruct H as (f & Hf & ->). by rewrite recognised_map.
  - destruct H as [->| ->]; [done|]. unfold recognised, token_row in *. induction (device_tokens d) as [|t rows IH]; [done|].
    simpl in *. destruct (t_sha256 t =? Sum256 token)%string eqn:E; [done|]. destruct (negb _); simpl; [rewrite E|]; by apply IH.
  - by rewrite H.
Qed.

Lemma Validate_recognised token now d :
  token <> "" -> faults d = [] ->
  fst (ValidateDeviceToken token now d) = fst <$> recognised (device_tokens d) (Sum256 token).
Proof.
  intros Hne Hf. unfold ValidateDeviceToken, select_token_name, sql, recognised.
  rewrite (proj2 (String.eqb_neq token "") Hne), Hf. by destruct (token_row _ _).
Qed.

Lemma Validate_unknown token now d :
  recognised (device_tokens d) (Sum256 token) = None -> fst (ValidateDeviceToken token now d) = None.
Proof.
  intros H. destruct (ValidateDeviceToken token now d) as [[name|] d'] eqn:E; [|done].
  apply ValidateDeviceToken_inv in E as [_ Hn]. destruct (Hn name eq_refl) as (_ & t & Ht & _).
  unfold recognised in H. by rewrite Ht in H.
Qed.

(** [C21] The life of a paired device: from the moment [CreateDeviceToken] returns
    a token, whatever else happens to the table, the token authenticates under
    the device's name until its id is revoked; and once a revocation of its id
    has succeeded it never authenticates again, unless the random generator
    produces a token with the same digest. *)
Theorem device_lifecycle (d d1 : DB) (name : string) (raw : option string) (now t : Z) (token id : string)
    (ops : list device_op) :
  tokens_ok (device_tokens d) ->
  CreateDeviceToken name raw now d = (Ok (token, id), d1) -> token <> "" -> (DRevoke id ∉ ops) ->
  let d2 := foldl run_device_op d1 ops in
  (faults d2 = [] -> fst (ValidateDeviceToken token t d2) = Some name) /\
  forall d3 ops', RevokeDeviceToken id d2 = (Ok tt, d3) ->
    (forall name' raw' now', DCreate name' (Some raw') now' ∈ ops' ->
       Sum256 (base64.EncodeToString base64.RawURLEncoding raw') <> Sum256 token) ->
    fst (ValidateDeviceToken token t (foldl run_device_op d3 ops')) = None.
Proof.
  intros Hok Hc Hne Hops. cbn zeta.
  pose proof (tokens_ok_run d (DCreate name raw now) Hok) as Hok1. simpl in Hok1. rewrite Hc in Hok1. simpl in Hok1.
  apply CreateDeviceToken_inv in Hc as [[(? & ?) _]|(tok & fs & E & _ & _ & Hn & ->)]; [done|]. simplify_eq.
  assert (recognised (device_tokens (foldl run_device_op (set_device_tokens (set_faults d fs)
      (device_tokens d ++ [mkTokenRow (token_id tok) (Sum256 tok) name (datetime_now now) None])) ops)) (Sum256 tok) =
      Some (name, token_id tok) /\
    tokens_ok (device_tokens (foldl run_device_op (set_device_tokens (set_faults d fs)
      (device_tokens d ++ [mkTokenRow (token_id tok) (Sum256 tok) name (datetime_now now) None])) ops))) as [Hr Hok2].
  { assert (recognised (device_tokens d ++ [mkTokenRow (token_id tok) (Sum256 tok) name (datetime_now now) None]) (Sum256 tok) =
      Some (name, token_id tok)) as Hr
      by (unfold recognised; rewrite token_row_app; apply token_row_conflict in Hn; simpl in Hn; by rewrite Hn; simpl; rewrite String.eqb_refl).
    revert Hr Hok1 Hops. clear Hn Hok. change (device_tokens d ++ _) with (device_tokens (set_device_tokens (set_faults d fs)
      (device_tokens d ++ [mkTokenRow (token_id tok) (Sum256 tok) name (datetime_now now) None]))) at 1.
    generalize (set_device_tokens (set_faults d fs)
      (device_tokens d ++ [mkTokenRow (token_id tok) (Sum256 tok) name (datetime_now now) None])).
    induction ops as [|op ops IH]; intros e Hr Hok1 Hops; [done|]. rewrite not_elem_of_cons in Hops. destruct Hops as [Hop Hops].
    simpl. apply IH; [apply recognised_kept; [done..|congruence]|by apply tokens_ok_run|done]. }
  split.
  - intros Hf. by rewrite Validate_recognised, Hr.
  - intros d3 ops' Hrev Hcr. apply Validate_unknown.
    assert (recognised (device_tokens d3) (Sum256 tok) = None) as H3.
    { apply RevokeDeviceToken_inv in Hrev as [(? & ? & _)|[_ [fs3 ->]]]; [done|]. simpl. unfold recognised.
      by rewrite token_row_revoked. }
    clear Hrev. revert d3 H3. induction ops' as [|op ops' IH]; intros d3 H3; [done|]. simpl. apply IH.
    + intros name' raw' now' Hin. eapply Hcr. apply elem_of_cons. by right.
    + apply unknown_kept; [done|]. intros name' raw' now' ->. eapply Hcr. apply elem_of_cons. by left.
Qed.
End devices.

(** ** The theorem at concrete tables *)

Section examples.
#[local] Existing Instance toy_crypto.
#[local] Instance example_clock : SQLiteClock := {| datetime_now _ := "2025-01-01 00:00:00" |}.

Definition ex_tables : DB := mkDB [] [] ∅ [] ∅ ∅ ∅ ∅ ∅ ∅.
Definition ex_raw : string := "0123456789abcdef0123456789abcdef".
Definition ex_token : string := base64.EncodeToString base64.RawURLEncoding ex_raw.
Definition ex_paired : DB := snd (CreateDeviceToken "phone" (Some ex_raw) 0 ex_tables).

Lemma device_lifecycle_witness :
  fst (ValidateDeviceToken ex_token 7
    (foldl run_device_op ex_paired [DValidate ex_token 1; DCreate "tablet" (Some "fedcba9876543210fedcba9876543210") 2])) = Some "phone" /\
  fst (ValidateDeviceToken ex_token 7 (foldl run_device_op
    (snd (RevokeDeviceToken (token_id ex_token) ex_paired)) [DValidate ex_token 3])) = None.
Proof.
  assert (CreateDeviceToken "phone" (Some ex_raw) 0 ex_tables = (Ok (ex_token, token_id ex_token), ex_paired)) as Hc by reflexivity.
  assert (ex_token <> "") as Hne by (by vm_compute).
  assert (tokens_ok (device_tokens ex_tables)) as Hok by apply Forall_nil_2.
  split.
  - apply (device_lifecycle ex_tables ex_paired "phone" (Some ex_raw) 0 7 ex_token (token_id ex_token)
      [DValidate ex_token 1; DCreate "tablet" (Some "fedcba9876543210fedcba9876543210") 2]); [done|done|done| |by vm_compute].
    intros H. repeat (apply elem_of_cons in H as [H|H]; [done|]). by apply elem_of_nil in H.
  - destruct (device_lifecycle ex_tables ex_paired "phone" (Some ex_raw) 0 7 ex_token (token_id ex_token) [] Hok Hc Hne)
      as [_ Hdead]; [by apply not_elem_of_nil|].
    apply (Hdead _ [DValidate ex_token 3]); [by vm_compute|].
    intros name' raw' now' H. by apply list_elem_of_singleton in H.
Defined.
End examples.
