(* ===== verification/AdminSession.v ===== *)
(** * Admin sessions and enrollment codes (pkg/admin/session.go, pkg/admin/enroll.go)

    Both stores are maps under a mutex.  [Validate] takes its lock twice, so it
    is a reading half and a writing half.  The random bytes of a new token or
    code are arguments. *)

From S2P Require Import Prelude GoStrings GoBase64 GoTime GoNet.

Open Scope list_scope.

(** [hex.EncodeToString]. *)
Fixpoint hex_encode (l : list Z) : string :=
  match l with
  | [] => EmptyString
  | b :: l' => String (net.hex_digit (b / 16)) (String (net.hex_digit (b mod 16)) (hex_encode l'))
  end.

(** ** Sessions *)

(** Tokens with their expiry. *)
Record SessionStore := mkSessionStore { ttl : Z; sessions : gmap string Z }.

Definition set_sessions (ss : SessionStore) (m : gmap string Z) : SessionStore := mkSessionStore (ttl ss) m.

Definition NewSessionStore (ttl : Z) : SessionStore := mkSessionStore ttl ∅.

(** [b] is the 32-byte buffer after [rand.Read]. *)
Definition session_token (b : list Z) : string := hex_encode b.

Definition SessionStore_Create (b : list Z) (now : Z) (ss : SessionStore) : string * SessionStore :=
  let token := session_token b in
  (token, set_sessions ss (<[token := time.Add now (ttl ss)]> (sessions ss))).

(** What the read-locked lookup decides. *)
Inductive session_verdict := Unknown | Expired | Fresh.

Definition Validate_read (token : string) (now : Z) (ss : SessionStore) : session_verdict :=
  match sessions ss !! token with
  | None => Unknown
  | Some expiresAt => if time.After now expiresAt then Expired else Fresh
  end.

Definition Validate_write (token : string) (now : Z) (v : session_verdict) (ss : SessionStore) : bool * SessionStore :=
  match v with
  | Unknown => (false, ss)
  | Expired => (false, set_sessions ss (delete token (sessions ss)))
  | Fresh => (true, set_sessions ss (<[token := time.Add now (ttl ss)]> (sessions ss)))
  end.

Definition Validate (token : string) (now : Z) (ss : SessionStore) : bool * SessionStore :=
  Validate_write token now (Validate_read token now ss) ss.

Definition SessionStore_Delete (token : string) (ss : SessionStore) : SessionStore :=
  set_sessions ss (delete token (sessions ss)).

(** One tick of the cleanup goroutine. *)
Definition session_cleanup (now : Z) (ss : SessionStore) : SessionStore :=
  set_sessions ss (filter (fun te => time.After now (snd te) = false) (sessions ss)).

(** ** Enrollment codes *)

Definition demoEnrollCode : string := "demo-appstore-pair".

(** Codes with their expiry; the zero time never expires. *)
Record enrollStore := mkEnrollStore { ettl : Z; persistent : bool; codes : gmap string Z }.

Definition set_codes (es : enrollStore) (m : gmap string Z) : enrollStore := mkEnrollStore (ettl es) (persistent es) m.

Definition newEnrollStore (ttl : Z) (persistent : bool) : enrollStore :=
  mkEnrollStore ttl persistent (if persistent then {[demoEnrollCode := time.zero]} else ∅).

Definition live (exp now : Z) : bool := time.IsZero exp || time.Before now exp.

(** [raw] is the 16-byte buffer after [rand.Read]. *)
Definition enroll_create (raw : string) (now : Z) (es : enrollStore) : string * enrollStore :=
  if persistent es then (demoEnrollCode, set_codes es (<[demoEnrollCode := time.zero]> (codes es))) else
  let code := base64.EncodeToString base64.RawURLEncoding raw in
  (code, set_codes es (<[code := time.Add now (ettl es)]> (codes es))).

Definition peek (code : string) (now : Z) (es : enrollStore) : bool :=
  match codes es !! code with Some exp => live exp now | None => false end.

Definition consume (code : string) (now : Z) (es : enrollStore) : bool * enrollStore :=
  match codes es !! code with
  | None => (false, es)
  | Some exp =>
      if negb (live exp now) then (false, set_codes es (delete code (codes es))) else
      (true, if negb (persistent es) then set_codes es (delete code (codes es)) else es)
  end.

Definition enroll_cleanup (now : Z) (es : enrollStore) : enrollStore :=
  set_codes es (filter (fun ce => negb (time.IsZero (snd ce)) && time.After now (snd ce) = false) (codes es)).

(** ** Sessions slide *)

Inductive session_event :=
| SCreate (b : list Z)
| SValidate (token : string)
| SDelete (token : string)
| SCleanup.

Definition run_session_event (ss : SessionStore) (e : Z * session_event) : SessionStore :=
  let '(now, ev) := e in
  match ev with
  | SCreate b => snd (SessionStore_Create b now ss)
  | SValidate token => snd (Validate token now ss)
  | SDelete token => SessionStore_Delete token ss
  | SCleanup => session_cleanup now ss
  end.

(** The specification: when [token] was last opened or used without having been
    logged out or having lapsed. *)
Definition last_use (ttl : Z) (token : string) (last : option Z) (e : Z * session_event) : option Z :=
  let '(now, ev) := e in
  match ev with
  | SCreate b => if (session_token b =? token)%string then Some now else last
  | SValidate t =>
      if (t =? token)%string then
        match last with Some s => if now <=? s + ttl then Some now else None | None => None end
      else last
  | SDelete t => if (t =? token)%string then None else last
  | SCleanup => last
  end.

(** Event times do not run backwards. *)
Fixpoint ordered_from {A} (t : Z) (l : list (Z * A)) : Prop :=
  match l with
  | [] => True
  | (now, _) :: l' => t <= now /\ ordered_from now l'
  end.

(** The store and the specification agree for all instants from [t] on. *)
Definition session_agrees (token : string) (t : Z) (ss : SessionStore) (last : option Z) : Prop :=
  match sessions ss !! token with
  | Some exp => exists s, last = Some s /\ exp = s + ttl ss
  | None => forall s, last = Some s -> s + ttl ss < t
  end.

Lemma run_session_ttl ss e : ttl (run_session_event ss e) = ttl ss.
Proof.
  destruct e as [now []]; try done. simpl. unfold Validate. by destruct (Validate_read token now ss).
Qed.

Lemma session_agrees_step token t ss last now ev :
  t <= now -> session_agrees token t ss last ->
  session_agrees token now (run_session_event ss (now, ev)) (last_use (ttl ss) token last (now, ev)).
Proof.
  intros Ht H. unfold session_agrees in *. destruct ev as [b|tok|tok|]; simpl.
  - rewrite lookup_insert. destruct (String.eqb_spec (session_token b) token); [rewrite decide_True by done; eauto|].
    rewrite decide_False by done. destruct (sessions ss !! token); [done|]. intros s Hs. specialize (H s Hs). lia.
  - unfold Validate, Validate_read, time.After. destruct (String.eqb_spec tok token) as [->|Hne].
    + destruct (sessions ss !! token) as [exp|] eqn:E.
      * destruct H as (s & -> & ->). destruct (Z.ltb_spec (s + ttl ss) now); simpl.
        { rewrite lookup_delete_eq. destruct (Z.leb_spec now (s + ttl ss)); [lia|done]. }
        rewrite lookup_insert_eq. destruct (Z.leb_spec now (s + ttl ss)); [eauto|lia].
      * simpl. rewrite E. destruct last as [s|]; [|done]. specialize (H s eq_refl). destruct (Z.leb_spec now (s + ttl ss)); [lia|done].
    + destruct (sessions ss !! tok) as [exp|]; simpl; [destruct (exp <? now)|]; simpl; rewrite ?lookup_delete_ne, ?lookup_insert_ne by done;
        (destruct (sessions ss !! token); [done|]; intros s Hs; specialize (H s Hs); lia).
  - rewrite lookup_delete. destruct (String.eqb_spec tok token); [by rewrite decide_True by done|]. rewrite decide_False by done.
    destruct (sessions ss !! token); [done|]. intros s Hs. specialize (H s Hs). lia.
  - rewrite map_lookup_filter. destruct (sessions ss !! token) as [exp|] eqn:E; simpl;
      [|intros s Hs; specialize (H s Hs); lia]. destruct H as (s & -> & ->). unfold time.After.
    destruct (Z.ltb_spec (s + ttl ss) now).
    + rewrite option_guard_False by done. intros s' [= <-]. lia.
    + rewrite option_guard_True by done. eauto.
Qed.

(** The time of the last event. *)
Fixpoint end_time {A} (t : Z) (l : list (Z * A)) : Z :=
  match l with
  | [] => t
  | (now, _) :: l' => end_time now l'
  end.

Lemma session_agrees_run token l t ss last :
  ordered_from t l -> session_agrees token t ss last ->
  session_agrees token (end_time t l) (foldl run_session_event ss l) (foldl (last_use (ttl ss) token) last l) /\
  ttl (foldl run_session_event ss l) = ttl ss.
Proof.
  revert t ss last. induction l as [|[now ev] l IH]; intros t ss last Ho H; [done|].
  destruct Ho as [Ht Ho]. cbn [foldl end_time]. rewrite <- (run_session_ttl ss (now, ev)).
  apply (IH now _ _ Ho). rewrite run_session_ttl. by apply (session_agrees_step token t).
Qed.

(** [C22] Admin sessions slide and end: after any history of log-ins, uses,
    log-outs and cleanup ticks whose clock does not run backwards, [Validate]
    accepts a token exactly when it was opened, not logged out since, and never
    left unused for longer than the lifetime. *)
Theorem sessions_slide (ttl t now : Z) (token : string) (l : list (Z * session_event)) :
  ordered_from t l -> end_time t l <= now ->
  fst (Validate token now (foldl run_session_event (NewSessionStore ttl) l)) =
    match foldl (last_use ttl token) None l with Some s => now <=? s + ttl | None => false end.
Proof.
  intros Ho Hn. destruct (session_agrees_run token l t (NewSessionStore ttl) None Ho) as [H Htt].
  { unfold session_agrees. simpl. by rewrite lookup_empty. }
  change (AdminSession.ttl (NewSessionStore ttl)) with ttl in *.
  unfold session_agrees in H. unfold Validate, Validate_read, time.After.
  destruct (sessions _ !! token) as [exp|].
  - destruct H as (s & -> & ->). rewrite Htt. destruct (Z.ltb_spec (s + ttl) now), (Z.leb_spec now (s + ttl)); try lia; done.
  - simpl. destruct (foldl (last_use ttl token) None l) as [s|]; [|done]. specialize (H s eq_refl). rewrite Htt in H.
    destruct (Z.leb_spec now (s + ttl)); [lia|done].
Qed.

Lemma sessions_slide_witness :
  let b := [1; 2; 255] in
  let token := "0102ff" in
  fst (Validate token 150 (foldl run_session_event (NewSessionStore 100) [(0, SCreate b); (60, SValidate token); (130, SCleanup)])) = true /\
  fst (Validate token 150 (foldl run_session_event (NewSessionStore 100) [(0, SCreate b); (60, SDelete token)])) = false.
Proof.
  cbn zeta. split.
  - rewrite (sessions_slide 100 0); [by vm_compute|cbn; lia|cbn; lia].
  - rewrite (sessions_slide 100 0); [by vm_compute|cbn; lia|cbn; lia].
Defined.

(** The two halves of [Validate] can straddle a log-out: a request that
    looked the token up just before it was deleted writes it back, and the
    logged-out session is valid for another lifetime. *)
Theorem logged_out_session_revives (ss : SessionStore) (token : string) (now later : Z) :
  Validate_read token now ss = Fresh -> later <= now + ttl ss ->
  let ss' := snd (Validate_write token now (Validate_read token now ss) (SessionStore_Delete token ss)) in
  fst (Validate token later ss') = true /\
  fst (Validate token later (SessionStore_Delete token ss)) = false.
Proof.
  intros Hr Hl. cbn zeta. rewrite Hr. unfold Validate, Validate_read, time.After, time.Add. simpl. rewrite lookup_insert_eq.
  rewrite lookup_delete_eq. change (time.Add now (ttl ss)) with (now + ttl ss). destruct (Z.ltb_spec (now + ttl ss) later); [lia|done].
Qed.

Lemma logged_out_session_revives_witness :
  let ss := snd (SessionStore_Create [7] 0 (NewSessionStore 100)) in
  let ss' := snd (Validate_write "07" 10 (Validate_read "07" 10 ss) (SessionStore_Delete "07" ss)) in
  fst (Validate "07" 105 ss') = true.
Proof.
  cbn zeta. apply (logged_out_session_revives (snd (SessionStore_Create [7] 0 (NewSessionStore 100))) "07" 10 105);
    vm_compute; done.
Defined.

(** ** Codes redeem once *)

Inductive enroll_event :=
| ECreate (raw : string)
| EPeek (code : string)
| EConsume (code : string)
| ECleanup.

(** The new state, with the code the event created and the code it redeemed. *)
Definition run_enroll_event (es : enrollStore) (e : Z * enroll_event) : enrollStore * option string * option string :=
  let '(now, ev) := e in
  match ev with
  | ECreate raw => let '(code, es') := enroll_create raw now es in (es', Some code, None)
  | EPeek _ => (es, None, None)
  | EConsume code => let '(b, es') := consume code now es in (es', None, if b then Some code else None)
  | ECleanup => (enroll_cleanup now es, None, None)
  end.

(** Creations and redemptions of [code] in a history. *)
Fixpoint enroll_counts (code : string) (es : enrollStore) (l : list (Z * enroll_event)) : nat * nat :=
  match l with
  | [] => (0, 0)%nat
  | e :: l' =>
      let '(es', created, redeemed) := run_enroll_event es e in
      let '(c, r) := enroll_counts code es' l' in
      ((if bool_decide (created = Some code) then S c else c), (if bool_decide (redeemed = Some code) then S r else r))
  end.

Definition held (code : string) (es : enrollStore) : nat := match codes es !! code with Some _ => 1 | None => 0 end.

Lemma run_enroll_persistent es e : persistent (fst (fst (run_enroll_event es e))) = persistent es.
Proof.
  destruct e as [now []]; simpl; try done.
  - unfold enroll_create. by destruct (persistent es) eqn:E; simpl; rewrite ?E.
  - unfold consume. destruct (codes es !! code) as [exp|]; [|done]. destruct (live exp now); simpl; [|done].
    by destruct (persistent es) eqn:E; simpl; rewrite ?E.
Qed.

Lemma redeem_bound code es l :
  persistent es = false ->
  (snd (enroll_counts code es l) <= held code es + fst (enroll_counts code es l))%nat.
Proof.
  revert es. induction l as [|[now ev] l IH]; intros es Hp; [simpl; lia|]. cbn [enroll_counts].
  pose proof (run_enroll_persistent es (now, ev)) as Hp'. destruct (run_enroll_event es (now, ev)) as [[es' cr] rd] eqn:E.
  simpl in Hp'. rewrite Hp in Hp'. specialize (IH es' Hp'). destruct (enroll_counts code es' l) as [c r]. simpl in *.
  destruct ev as [raw|q|q|]; simpl in E.
  - unfold enroll_create in E. rewrite Hp in E. simplify_eq. rewrite (bool_decide_eq_false_2 (None = Some code)) by done.
    unfold held in *. simpl in IH. case_bool_decide as Hc.
    + injection Hc as <-. rewrite lookup_insert_eq in IH. lia.
    + rewrite lookup_insert_ne in IH by congruence. lia.
  - simplify_eq. rewrite !(bool_decide_eq_false_2 (None = Some code)) by done. done.
  - unfold consume in E. destruct (codes es !! q) as [exp|] eqn:Eq.
    + assert (es' = set_codes es (delete q (codes es)) /\ cr = None /\ (rd = None \/ rd = Some q)) as (-> & -> & Hrd)
        by (destruct (live exp now); rewrite Hp in E; cbn [negb] in E; simplify_eq; auto).
      rewrite (bool_decide_eq_false_2 (None = Some code)) by done. unfold held in *. simpl in IH. rewrite lookup_delete in IH.
      destruct (decide (q = code)) as [->|Hne]; [rewrite Eq; case_bool_decide; lia|].
      rewrite bool_decide_eq_false_2; [done|]. destruct Hrd as [->| ->]; congruence.
    + simplify_eq. rewrite !(bool_decide_eq_false_2 (None = Some code)) by done. done.
  - simplify_eq. rewrite !(bool_decide_eq_false_2 (None = Some code)) by done. unfold held in *. simpl in IH.
    rewrite map_lookup_filter in IH. destruct (codes es !! code) as [exp|]; simpl in IH; [|lia].
    case_match; lia.
Qed.

(** Enrollment codes are single-use: in any history of an ordinary store a
    code is redeemed at most as often as it was minted, that is once unless the
    random generator repeats itself, and only while it is live; in demo mode the
    fixed code is redeemable at every moment of every history. *)
Theorem enrollment_codes_redeem_once (ttl now : Z) (code : string) (l : list (Z * enroll_event)) :
  let run persistent := foldl (fun es e => fst (fst (run_enroll_event es e))) (newEnrollStore ttl persistent) l in
  (snd (enroll_counts code (newEnrollStore ttl false) l) <= fst (enroll_counts code (newEnrollStore ttl false) l))%nat /\
  (fst (consume code now (run false)) = true -> exists exp, codes (run false) !! code = Some exp /\ live exp now = true) /\
  fst (consume demoEnrollCode now (run true)) = true.
Proof.
  cbn zeta. split; [|split].
  - pose proof (redeem_bound code (newEnrollStore ttl false) l eq_refl) as H. unfold held in H.
    simpl in H. rewrite lookup_empty in H. exact H.
  - unfold consume. destruct (codes _ !! code) as [exp|]; [|done]. destruct (live exp now) eqn:E; [by eauto|done].
  - assert (forall es : enrollStore, persistent es = true -> codes es !! demoEnrollCode = Some time.zero ->
      fst (consume demoEnrollCode now (foldl (fun es e => fst (fst (run_enroll_event es e))) es l)) = true) as H;
      [|by apply H].
    induction l as [|[t ev] l IH]; intros es Hp Hc; [simpl; unfold consume; by rewrite Hc, Hp|]. simpl. apply IH.
    { rewrite <- Hp. apply (run_enroll_persistent es (t, ev)). }
    destruct ev as [raw|q|q|]; simpl; [| done | | ].
    + unfold enroll_create. rewrite Hp. simpl. by rewrite lookup_insert_eq.
    + unfold consume. destruct (codes es !! q) as [exp|] eqn:Eq; [|done]. destruct (live exp t) eqn:El; simpl; [by rewrite Hp|].
      rewrite lookup_delete. case_decide as Hd; [|done]. subst q. rewrite Hc in Eq. by simplify_eq.
    + by rewrite map_lookup_filter, Hc.
Qed.
