(* ===== verification/ClientIP.v ===== *)
(** * Whose request it is (pkg/admin/clientip.go)

    The address the admin login counts failures against. *)

From S2P Require Import Prelude GoStrings GoNet GoHTTP.

Open Scope list_scope.

Definition ipInAny (ip : net.IP) (nets : list net.IPNet) : bool := existsb (fun n => net.Contains n ip) nets.

(** The loop over the parts of X-Forwarded-For, from the right: [parts] is the
    list reversed. *)
Fixpoint rightmost_untrusted (parts : list string) (trustedProxies : list net.IPNet) : option string :=
  match parts with
  | [] => None
  | part :: rest =>
      let ipStr := strings.TrimSpace part in
      match net.ParseIP ipStr with
      | None => rightmost_untrusted rest trustedProxies
      | Some ip => if ipInAny ip trustedProxies then rightmost_untrusted rest trustedProxies else Some ipStr
      end
  end.

Definition peer_host (r : http.Request) : string :=
  match net.SplitHostPort (http.RemoteAddr r) with
  | Some (host, _) => host
  | None => http.RemoteAddr r
  end.

Definition clientIP (r : http.Request) (trustedProxies : list net.IPNet) : string :=
  let host := peer_host r in
  match net.ParseIP host with
  | None => host
  | Some peer =>
      if (length trustedProxies =? 0)%nat || negb (ipInAny peer trustedProxies) then host else
      let xff := http.Get (http.HeaderOf r) "X-Forwarded-For" in
      if (xff =? "")%string then host else
      default host (rightmost_untrusted (rev (strings.Split xff ",")) trustedProxies)
  end.

(** ** Lemmas *)

Lemma rightmost_app l k nets x :
  rightmost_untrusted l nets = Some x -> rightmost_untrusted (l ++ k) nets = Some x.
Proof. induction l as [|p l IH]; simpl; [done|]. intros H. repeat case_match; auto. Qed.

Lemma rightmost_inv l nets x :
  rightmost_untrusted l nets = Some x ->
  exists part ip, part ∈ l /\ x = strings.TrimSpace part /\ net.ParseIP x = Some ip /\ ipInAny ip nets = false.
Proof.
  induction l as [|p l IH]; simpl; [done|]. intros H.
  assert (rightmost_untrusted l nets = Some x -> exists part ip, part ∈ p :: l /\ x = strings.TrimSpace part /\
    net.ParseIP x = Some ip /\ ipInAny ip nets = false) as Hrest.
  { intros (part & ip & Hin & ?)%IH. exists part, ip. split; [|done]. apply elem_of_cons. by right. }
  destruct (net.ParseIP (strings.TrimSpace p)) as [ip|] eqn:E; [|auto].
  destruct (ipInAny ip nets) eqn:Ei; [auto|]. simplify_eq. exists p, ip. split; [apply elem_of_cons; by left|done].
Qed.

(** The request with another X-Forwarded-For value. *)
Definition with_xff (r : http.Request) (xff : string) : http.Request :=
  http.mkRequest (http.Method r) (http.Host r) (http.URL_Host r) (http.URL_Path r) (http.RequestURI r)
    (http.RemoteAddr r) (http.Set_ (http.HeaderOf r) "X-Forwarded-For" xff) (http.Cookies r) (http.Query r) (http.TLS r).

Lemma Get_with_xff r xff : http.Get (http.HeaderOf (with_xff r xff)) "X-Forwarded-For" = xff.
Proof. unfold http.Get, http.Values, with_xff, http.Set_. cbn [http.HeaderOf]. by rewrite lookup_insert_eq. Qed.

Lemma append_comma_not_empty s t : ((s +:+ String "," t) =? "")%string = false.
Proof. by destruct s. Qed.

(** [C23] X-Forwarded-For cannot be spoofed.  A peer that is not a trusted proxy is
    its own address whatever the header says; once the part of the header written
    by trusted proxies names an untrusted address, nothing a client puts in front
    of it matters; and an answer other than the peer itself is an address of the
    header outside the trusted nets. *)
Theorem clientIP_not_spoofable (r : http.Request) (nets : list net.IPNet) :
  ((forall ip, net.ParseIP (peer_host r) = Some ip -> ipInAny ip nets = false) ->
     forall xff, clientIP (with_xff r xff) nets = peer_host r) /\
  (forall spoofed tail, rightmost_untrusted (rev (strings.Split tail ",")) nets <> None ->
     clientIP (with_xff r (spoofed +:+ String "," tail)) nets = clientIP (with_xff r tail) nets) /\
  (clientIP r nets = peer_host r \/
   exists part ip, part ∈ strings.Split (http.Get (http.HeaderOf r) "X-Forwarded-For") "," /\
     clientIP r nets = strings.TrimSpace part /\
     net.ParseIP (clientIP r nets) = Some ip /\ ipInAny ip nets = false).
Proof.
  split; [|split].
  - intros H xff. unfold clientIP. change (peer_host (with_xff r xff)) with (peer_host r).
    destruct (net.ParseIP (peer_host r)) as [ip|]; [|done]. rewrite (H ip eq_refl). simpl. by rewrite orb_true_r.
  - intros spoofed tail Hn. unfold clientIP. rewrite !Get_with_xff, append_comma_not_empty.
    change (peer_host (with_xff r (spoofed +:+ String "," tail))) with (peer_host r).
    change (peer_host (with_xff r tail)) with (peer_host r). rewrite Split_app, rev_app_distr.
    destruct (rightmost_untrusted (rev (strings.Split tail ",")) nets) as [x|] eqn:E; [|done].
    rewrite (rightmost_app _ _ _ _ E). destruct (String.eqb_spec tail "") as [->|]; [by vm_compute in E|done].
  - unfold clientIP. destruct (net.ParseIP (peer_host r)); [|by left]. destruct (_ || _); [by left|].
    destruct (_ =? "")%string; [by left|]. destruct (rightmost_untrusted _ nets) as [x|] eqn:E; [|by left]. right. simpl.
    destruct (rightmost_inv _ _ _ E) as (part & ip & Hin & -> & Hp & Hi). exists part, ip. split; [|done].
    apply list_elem_of_In. apply in_rev. by apply list_elem_of_In.
Qed.

Lemma clientIP_not_spoofable_witness :
  let nets := [net.mkIPNet [10; 0; 0; 0] [255; 0; 0; 0]] in
  let r := http.mkRequest "POST" "h" "" "/api/login" "/api/login" "10.0.0.7:4711" ∅ [] [] false in
  clientIP (with_xff r "1.2.3.4, 198.51.100.9, 10.0.0.3") nets = "198.51.100.9" /\
  clientIP (with_xff r ("127.0.0.1" +:+ String "," " 198.51.100.9, 10.0.0.3")) nets =
    clientIP (with_xff r " 198.51.100.9, 10.0.0.3") nets.
Proof.
  cbn zeta. split; [by vm_compute|].
  apply (clientIP_not_spoofable (http.mkRequest "POST" "h" "" "/api/login" "/api/login" "10.0.0.7:4711" ∅ [] [] false)
    [net.mkIPNet [10; 0; 0; 0] [255; 0; 0; 0]]). by vm_compute.
Defined.
