(* ===== verification/AdminServer.v ===== *)
(** * The admin server: state, sessions and log-in (pkg/admin/server.go,
    pkg/admin/cookie.go, pkg/auth/admin.go, first part of pkg/admin/api.go)

    The admin API works on the database and the port manager the proxy uses:
    [api] holds the proxy's [Handler] itself, whose store is the database. *)

From S2P Require Import Prelude GoStrings GoBase64 GoTime GoNet GoHTTP Downtime Password UserTable UserDB RateLimit Dns Config.
From S2P Require Import Proxy UserPorts Collector DeviceTokens AdminSession ClientIP.

Open Scope list_scope.

Record api := mkApi {
  ap_sessions : SessionStore;
  ap_stats : Collector;
  ap_loginLimiter : Limiter;
  ap_globalFails : globalCounter;
  ap_enroll : enrollStore;
  ap_proxy : Handler DB;
}.

Definition set_ap_sessions (a : api) (x : SessionStore) : api :=
  mkApi x (ap_stats a) (ap_loginLimiter a) (ap_globalFails a) (ap_enroll a) (ap_proxy a).
Definition set_ap_stats (a : api) (x : Collector) : api :=
  mkApi (ap_sessions a) x (ap_loginLimiter a) (ap_globalFails a) (ap_enroll a) (ap_proxy a).
Definition set_ap_login (a : api) (l : Limiter) (g : globalCounter) : api :=
  mkApi (ap_sessions a) (ap_stats a) l g (ap_enroll a) (ap_proxy a).
Definition set_ap_enroll (a : api) (x : enrollStore) : api :=
  mkApi (ap_sessions a) (ap_stats a) (ap_loginLimiter a) (ap_globalFails a) x (ap_proxy a).
Definition set_ap_proxy (a : api) (x : Handler DB) : api :=
  mkApi (ap_sessions a) (ap_stats a) (ap_loginLimiter a) (ap_globalFails a) (ap_enroll a) x.

(** The database the admin API and the proxy share. *)
Definition database (a : api) : DB := store (ap_proxy a).

(** The settings that do not change: credentials, trusted nets, modes, and the
    wiring of the proxy. *)
Record api_wiring := mkApiWiring {
  aw_user : string;
  aw_bcryptHash : string;
  trustedProxies : list net.IPNet;
  loginRetryAfter : string;
  secureCookies : bool;
  demoMode : bool;
  mountDiagnostics : bool;
  aw_proxy : Wiring;
}.

(** [NewServer]: the stores of a fresh server. *)
Definition NewServer (loginRateLimit loginWindow loginGlobalMax : Z) (demo : bool) (collector : Collector) (proxy : Handler DB) : api :=
  mkApi (NewSessionStore (24 * time.Hour)) collector (newLimiter loginRateLimit loginWindow)
    (newGlobalCounter loginGlobalMax loginWindow) (newEnrollStore (5 * time.Minute) demo) proxy.

(** ** Answers *)

Record http_cookie := mkCookie {
  ck_Name : string;
  ck_Value : string;
  ck_Path : string;
  ck_HttpOnly : bool;
  ck_Secure : bool;
  ck_SameSiteStrict : bool;
  ck_MaxAge : Z;
}.

Definition sessionCookie : string := "evan-proxy-session".

Definition sessionCookieFor (token : string) (secure : bool) : http_cookie :=
  mkCookie sessionCookie token "/" true secure true 86400.

Definition clearedSessionCookie (secure : bool) : http_cookie :=
  mkCookie sessionCookie "" "/" true secure true (-1).

(** The body of an answer before its JSON encoding; [LogStream] is an event stream
    fed from a channel of the collector. *)
Inductive payload :=
| NoBody
| Text (msg : string)
| BadSchedule (e : schedule_error)
| PortOutOfRange (min max : Z)
| PortTaken (port : Z) (owner : string)
| Hosts (l : list (string * Z))
| TrafficChart (l : list TrafficBucket)
| LogStream (ch : nat)
| Users (l : list UserInfo)
| Devices (l : list DeviceToken)
| Enrollment (code pair_url : string) (expires_in : Z) (reusable : bool)
| SVG (image : string)
| PairedToken (token : string)
| DNSTest (ok : bool) (addresses : list string) (error : string).

Record reply := mkReply {
  rp_status : Z;
  rp_RetryAfter : string;
  rp_cookie : option http_cookie;
  rp_body : payload;
}.

Definition answer (status : Z) (body : payload) : reply := mkReply status "" None body.
Definition WriteHeader (status : Z) : reply := answer status NoBody.

(** ** Pieces of the state *)

(** A call of a method of the database. *)
Definition db {A} (m : M DB db_error A) : ST api (result db_error A) := fun a =>
  let '(r, d) := m (database a) in (r, set_ap_proxy a (set_store (ap_proxy a) d)).

Definition db_ST {A} (m : ST DB A) : ST api A := fun a =>
  let '(r, d) := m (database a) in (r, set_ap_proxy a (set_store (ap_proxy a) d)).

(** A call of a method of the port manager. *)
Definition ports {A} (m : ST (Handler DB) A) : ST api A := fun a =>
  let '(r, h) := m (ap_proxy a) in (r, set_ap_proxy a h).

Definition validate_session (token : string) (now : Z) : ST api bool := fun a =>
  let '(b, ss) := Validate token now (ap_sessions a) in (b, set_ap_sessions a ss).

Definition open_session (b : list Z) (now : Z) : ST api string := fun a =>
  let '(token, ss) := SessionStore_Create b now (ap_sessions a) in (token, set_ap_sessions a ss).

(** ** Log-in *)

Inductive admin_auth_error := UnknownAdmin (user : string) | WrongAdminPassword.

Record loginRequest := mkLogin { lr_Username : string; lr_Password : string }.

Section login.
Context {crypto : Crypto} {sqlite : SQLiteClock}.

(** bcrypt.CompareHashAndPassword of golang.org/x/crypto: no error. *)
Variable CompareHashAndPassword : string -> string -> bool.
Variable w : api_wiring.

Definition AdminAuth_Check (user password : string) : result admin_auth_error unit :=
  let userMatch := (user =? aw_user w)%string in
  let passOk := CompareHashAndPassword (aw_bcryptHash w) password in
  if negb userMatch then Err (UnknownAdmin user)
  else if negb passOk then Err WrongAdminPassword
  else Ok tt.

(** The two gates; the global one is asked only when the first one opens. *)
Definition login_gate (ip : string) (now : Z) : ST api bool := fun a =>
  let '(b, l) := Allow ip now (ap_loginLimiter a) in
  if negb b then (false, set_ap_login a l (ap_globalFails a)) else
  let '(b', g) := allow now (ap_globalFails a) in (b', set_ap_login a l g).

Definition login_failed (ip : string) (now : Z) : ST api unit :=
  update (fun a => set_ap_login a (RecordFailure ip now (ap_loginLimiter a)) (record now (ap_globalFails a))).

(** [body] is the decoded request, [None] when decoding fails; [b] the random
    bytes of a new session. *)
Definition handleLogin (r : http.Request) (body : option loginRequest) (b : list Z) (now : Z) : ST api reply :=
  if negb (http.Method r =? http.MethodPost)%string then mret (WriteHeader 405) else
  let ip := clientIP r (trustedProxies w) in
  allowed ← login_gate ip now;
  if negb allowed then mret (mkReply 429 (loginRetryAfter w) None NoBody) else
  match body with
  | None => mret (WriteHeader 400)
  | Some req =>
      match AdminAuth_Check (lr_Username req) (lr_Password req) with
      | Err _ => _ ← login_failed ip now; mret (WriteHeader 401)
      | Ok _ =>
          token ← open_session b now;
          mret (mkReply 200 "" (Some (sessionCookieFor token (secureCookies w))) NoBody)
      end
  end.

Definition handleLogout (r : http.Request) : ST api reply :=
  if negb (http.Method r =? http.MethodPost)%string then mret (WriteHeader 405) else
  _ ← (match http.Cookie r sessionCookie with
       | Some token => update (fun a => set_ap_sessions a (SessionStore_Delete token (ap_sessions a)))
       | None => mret tt
       end);
  mret (mkReply 200 "" (Some (clearedSessionCookie (secureCookies w))) NoBody).

(** ** Guards *)

Definition bearer_prefix : string := "Bearer ".

Definition authed_bearer (r : http.Request) (now : Z) : ST api bool :=
  let h := http.Get (http.HeaderOf r) "Authorization" in
  if strings.HasPrefix h bearer_prefix then
    v ← db_ST (ValidateDeviceToken (strings.TrimPrefix h bearer_prefix) now);
    mret (match v with Some _ => true | None => false end)
  else mret false.

Definition authed_cookie (r : http.Request) (now : Z) : ST api bool :=
  match http.Cookie r sessionCookie with
  | Some token => validate_session token now
  | None => mret false
  end.

Definition authed (r : http.Request) (now : Z) : ST api bool :=
  b ← authed_bearer r now;
  if (b : bool) then mret true else authed_cookie r now.

Definition requireSession (next : ST api reply) (r : http.Request) (now : Z) : ST api reply :=
  if demoMode w then next else
  ok ← authed r now;
  if negb ok then mret (WriteHeader 401) else next.

Definition requireAdminSession (next : ST api reply) (r : http.Request) (now : Z) : ST api reply :=
  ok ← authed_cookie r now;
  if negb ok then mret (WriteHeader 401) else next.

(** The index page redirects to the log-in page instead. *)
Definition requireSessionPage (next : ST api reply) (r : http.Request) (now : Z) : ST api reply :=
  ok ← authed_cookie r now;
  if negb ok then mret (answer 303 (Text "/login")) else next.
End login.
