(* ===== verification/Pairing.v ===== *)
(** * Pairing a device (pairURL and qrSVG of pkg/admin/devices.go)

    The deep link of an enrollment code and its drawing; the QR encoder is a
    parameter that yields the bitmap.  The specifications read the link and the
    drawing back. *)

From S2P Require Import Prelude GoStrings.

Open Scope list_scope.

(** ** The pairing link *)

Definition upper_hex (d : Z) : ascii := ascii_of_N (Z.to_N (if d <? 10 then d + 48 else d + 55)).

Definition is_unreserved (a : ascii) : bool :=
  let n := N_of_ascii a in
  ((97 <=? n)%N && (n <=? 122)%N) || ((65 <=? n)%N && (n <=? 90)%N) || ((48 <=? n)%N && (n <=? 57)%N) ||
  existsb (fun c => Ascii.eqb a c) ["-"; "_"; "."; "~"]%char.

Fixpoint QueryEscape (s : string) : string :=
  match s with
  | EmptyString => EmptyString
  | String a s' =>
      if Ascii.eqb a " " then String "+" (QueryEscape s')
      else if is_unreserved a then String a (QueryEscape s')
      else let n := Z.of_N (N_of_ascii a) in
           String "%" (String (upper_hex (n / 16)) (String (upper_hex (n mod 16)) (QueryEscape s')))
  end.

Definition pairURL (scheme host code : string) : string :=
  ("evanproxy://pair?scheme=" +:+ QueryEscape scheme +:+ "&host=" +:+ QueryEscape host +:+ "&code=" +:+ QueryEscape code)%string.

(** ** The drawing *)

(** The squares of a row, and of the rows below. *)
Definition module_path (x y : Z) : string := ("M" +:+ strconv.Itoa x +:+ " " +:+ strconv.Itoa y +:+ "h1v1h-1z")%string.

Fixpoint row_path (x y : Z) (row : list bool) : string :=
  match row with
  | [] => EmptyString
  | on :: row' => ((if on then module_path x y else EmptyString) +:+ row_path (x + 1) y row')%string
  end.

Fixpoint path (y : Z) (bm : list (list bool)) : string :=
  match bm with
  | [] => EmptyString
  | row :: bm' => (row_path 0 y row +:+ path (y + 1) bm')%string
  end.

(** The literals, with a backquote for every double quote. *)
Definition svg_head : string := Eval vm_compute in quoted "<svg xmlns=`http://www.w3.org/2000/svg` viewBox=`0 0 ".
Definition svg_body : string := Eval vm_compute in
  quoted ("` shape-rendering=`crispEdges`>" +:+ "<rect width=`100%` height=`100%` fill=`#ffffff`/>" +:+ "<path fill=`#000000` d=`").
Definition svg_foot : string := Eval vm_compute in quoted "`/></svg>".

Definition svg (bm : list (list bool)) : string :=
  let n := strconv.Itoa (Z.of_nat (length bm)) in
  (svg_head +:+ n +:+ " " +:+ n +:+ svg_body +:+ path 0 bm +:+ svg_foot)%string.

Definition qrSVG (qrcode_New : string -> option (list (list bool))) (content : string) : option string :=
  bm ← qrcode_New content; Some (svg bm).

(** ** Reading a link *)

Definition hex_value (a : ascii) : option Z :=
  let n := Z.of_N (N_of_ascii a) in
  if (48 <=? n) && (n <=? 57) then Some (n - 48)
  else if (65 <=? n) && (n <=? 70) then Some (n - 55)
  else if (97 <=? n) && (n <=? 102) then Some (n - 87) else None.

(** [url.QueryUnescape]. *)
Fixpoint QueryUnescape (s : string) : option string :=
  match s with
  | EmptyString => Some EmptyString
  | String "%" (String a (String b s')) =>
      x ← hex_value a; y ← hex_value b; t ← QueryUnescape s'; Some (String (ascii_of_N (Z.to_N (x * 16 + y))) t)
  | String "%" _ => None
  | String a s' => t ← QueryUnescape s'; Some (String (if Ascii.eqb a "+" then " "%char else a) t)
  end.

Definition read_pair (s : string) : option (string * string) :=
  '(k, v) ← strings.Cut s "="; v ← QueryUnescape v; Some (k, v).

(** The parameters of a pairing link, in order. *)
Definition read_link (s : string) : option (list (string * string)) :=
  let start := "evanproxy://pair?"%string in
  if strings.HasPrefix s start then mapM read_pair (strings.Split (strings.drop (String.length start) s) "&") else None.

(** The escape of one byte. *)
Definition escaped (a : ascii) : string := QueryEscape (String a EmptyString).

Lemma QueryEscape_cons a s : QueryEscape (String a s) = (escaped a +:+ QueryEscape s)%string.
Proof. unfold escaped. cbn [QueryEscape]. destruct (Ascii.eqb a " "); [done|]. by destruct (is_unreserved a). Qed.

Lemma escaped_ok a :
  QueryUnescape (escaped a) = Some (String a EmptyString) /\ strings.HasByte (escaped a) "&" = false /\ strings.HasByte (escaped a) "=" = false.
Proof.
  assert (bool_decide (QueryUnescape (escaped a) = Some (String a EmptyString)) && negb (strings.HasByte (escaped a) "&") &&
    negb (strings.HasByte (escaped a) "=") = true) as H by (revert a; apply ascii_forall; by vm_compute).
  apply andb_true_iff in H as [[H1%bool_decide_eq_true H2%negb_true_iff]%andb_true_iff H3%negb_true_iff]. done.
Qed.

Lemma QueryUnescape_escaped a t : QueryUnescape (escaped a +:+ t) = (x ← QueryUnescape t; Some (String a x)).
Proof. destruct a as [[] [] [] [] [] [] [] []]; reflexivity. Qed.

Lemma QueryUnescape_QueryEscape s : QueryUnescape (QueryEscape s) = Some s.
Proof. induction s as [|a s IH]; [done|]. by rewrite QueryEscape_cons, QueryUnescape_escaped, IH. Qed.

Lemma QueryEscape_free s : free_of "&" (QueryEscape s) /\ free_of "=" (QueryEscape s).
Proof.
  induction s as [|a s [H1 H2]]; [done|]. rewrite QueryEscape_cons. destruct (escaped_ok a) as (_ & E1 & E2).
  split; apply free_of_app; (split; [by apply free_of_HasByte|done]).
Qed.

Lemma read_pair_escaped k v : free_of "=" k -> read_pair (k +:+ String "=" (QueryEscape v)) = Some (k, v).
Proof. intros Hk. unfold read_pair. rewrite Cut_app_free by done. cbn [mbind option_bind]. by rewrite QueryUnescape_QueryEscape. Qed.

Lemma read_link_pairURL scheme host code :
  read_link (pairURL scheme host code) = Some [("scheme", scheme); ("host", host); ("code", code)]%string.
Proof.
  unfold read_link. change (strings.HasPrefix (pairURL scheme host code) "evanproxy://pair?") with true. cbv iota.
  change (strings.drop (String.length "evanproxy://pair?") (pairURL scheme host code)) with
    (("scheme" +:+ String "=" (QueryEscape scheme)) +:+ String "&" (("host" +:+ String "=" (QueryEscape host)) +:+ String "&" ("code" +:+ String "=" (QueryEscape code))))%string.
  assert (forall k v, free_of "&" k -> free_of "&" (k +:+ String "=" (QueryEscape v))) as Hf.
  { intros k v Hk. apply free_of_app. split; [done|]. split; [done|]. apply QueryEscape_free. }
  rewrite !Split_app_free by (apply Hf; by repeat split). rewrite Split_free by (apply Hf; by repeat split).
  cbn [mapM]. rewrite !read_pair_escaped by (by repeat split). done.
Qed.

(** ** Reading a drawing *)

(** One square of the path: where it is. *)
Definition read_module (s : string) : option (Z * Z) :=
  match s with
  | String "M" s =>
      '(x, rest) ← strings.Cut s " "; '(y, square) ← strings.Cut rest "h";
      x ← strconv.Atoi x; y ← strconv.Atoi y;
      if (square =? "1v1h-1")%string then Some (x, y) else None
  | _ => None
  end.

(** The squares of a path, each ended by a z. *)
Definition read_path (d : string) : option (list (Z * Z)) :=
  mapM read_module (filter (fun s => s <> EmptyString) (strings.Split d "z")).

(** The attributes viewBox and d, by their place among the quotes. *)
Definition read_svg (s : string) : option (string * list (Z * Z)) :=
  let parts := strings.Split s "034" in
  v ← parts !! 3%nat; d ← parts !! 15%nat; l ← read_path d; Some (v, l).

(** The dark modules of a bitmap, row by row. *)
Fixpoint dark_row (x y : Z) (row : list bool) : list (Z * Z) :=
  match row with [] => [] | on :: row' => (if on then [(x, y)] else []) ++ dark_row (x + 1) y row' end.

Fixpoint dark_from (y : Z) (bm : list (list bool)) : list (Z * Z) :=
  match bm with [] => [] | row :: bm' => dark_row 0 y row ++ dark_from (y + 1) bm' end.

Definition dark (bm : list (list bool)) : list (Z * Z) := dark_from 0 bm.

Lemma elem_of_dark_row x0 y0 row x y :
  (x, y) ∈ dark_row x0 y0 row <-> y = y0 /\ exists i, x = x0 + Z.of_nat i /\ row !! i = Some true.
Proof.
  revert x0. induction row as [|on row IH]; intros x0; cbn [dark_row].
  { split; [by intros ?%not_elem_of_nil|]. by intros (_ & i & _ & ?). }
  rewrite elem_of_app, IH. split.
  - intros [H|(-> & i & -> & Hi)]; [|split; [done|]; exists (S i); split; [lia|done]].
    destruct on; [|by apply not_elem_of_nil in H]. apply list_elem_of_singleton in H as [= -> ->]. split; [done|]. exists 0%nat. split; [lia|done].
  - intros (-> & [|i] & -> & Hi); simpl in Hi; [left; injection Hi as ->; apply list_elem_of_singleton; f_equal; lia|].
    right. split; [done|]. exists i. split; [lia|done].
Qed.

Lemma elem_of_dark_from y0 bm x y :
  (x, y) ∈ dark_from y0 bm <-> exists i j row, x = Z.of_nat i /\ y = y0 + Z.of_nat j /\ bm !! j = Some row /\ row !! i = Some true.
Proof.
  revert y0. induction bm as [|row bm IH]; intros y0; cbn [dark_from].
  { split; [by intros ?%not_elem_of_nil|]. by intros (i & j & row & _ & _ & ? & _). }
  rewrite elem_of_app, IH, elem_of_dark_row. split.
  - intros [(-> & i & -> & Hi)|(i & j & r & -> & -> & Hj & Hi)].
    + exists i, 0%nat, row. split; [lia|]. split; [lia|]. done.
    + exists i, (S j), r. split; [lia|]. split; [lia|]. done.
  - intros (i & [|j] & r & -> & -> & Hj & Hi); simpl in Hj.
    + injection Hj as <-. left. split; [lia|]. exists i. split; [lia|done].
    + right. exists i, j, r. split; [lia|]. split; [lia|]. done.
Qed.

(** A module is dark exactly when the bitmap says so. *)
Lemma elem_of_dark bm i j : (Z.of_nat i, Z.of_nat j) ∈ dark bm <-> (bm !! j ≫= fun row => row !! i) = Some true.
Proof.
  unfold dark. rewrite elem_of_dark_from. split.
  - intros (i' & j' & row & Hi & Hj & Hr & Ht). assert (i = i' /\ j = j') as [-> ->] by lia. by rewrite Hr.
  - intros (row & Hr & Ht)%bind_Some. exists i, j, row. split; [done|]. split; [lia|]. done.
Qed.

Definition is_int (z : Z) : Prop := 0 <= z <= int64_max.

Lemma read_path_module x y t : is_int x -> is_int y -> read_path (module_path x y +:+ t) = (l ← read_path t; Some ((x, y) :: l)).
Proof.
  unfold is_int. intros Hx Hy. set (body := ("M" +:+ strconv.Itoa x +:+ String " " (strconv.Itoa y +:+ String "h" "1v1h-1"))%string).
  assert ((module_path x y +:+ t = body +:+ String "z" t)%string) as ->.
  { unfold module_path, body. rewrite !string_app_assoc, !string_app_cons, !string_app_assoc. done. }
  unfold read_path. rewrite Split_app_free.
  2: { repeat (apply free_of_app; split); try (by repeat split); [by apply free_of_Itoa|]. split; [done|].
       apply free_of_app. split; [by apply free_of_Itoa|by repeat split]. }
  rewrite filter_cons_True by done. cbn [mapM]. assert (read_module body = Some (x, y)) as ->; [|done].
  change body with (String "M" (strconv.Itoa x +:+ String " " (strconv.Itoa y +:+ String "h" "1v1h-1")))%string. unfold read_module.
  rewrite Cut_app_free by (by apply free_of_Itoa). cbn [mbind option_bind]. rewrite Cut_app_free by (by apply free_of_Itoa). cbn [mbind option_bind].
  rewrite !strconv.Atoi_Itoa by (unfold int64_min; lia). done.
Qed.

Lemma read_path_row x y row t :
  is_int x -> is_int (x + Z.of_nat (length row)) -> is_int y -> read_path (row_path x y row +:+ t) = (l ← read_path t; Some (dark_row x y row ++ l)).
Proof.
  revert x. induction row as [|on row IH]; intros x Hx Hr Hy; cbn [row_path dark_row].
  { change (EmptyString +:+ t)%string with t. by destruct (read_path t). }
  cbn [length] in Hr. rewrite string_app_assoc. destruct on.
  - rewrite read_path_module, IH by (unfold is_int in *; lia || done). by destruct (read_path t).
  - change (EmptyString +:+ (row_path (x + 1) y row +:+ t))%string with (row_path (x + 1) y row +:+ t)%string.
    rewrite IH by (unfold is_int in *; lia || done). by destruct (read_path t).
Qed.

(** A bitmap whose sizes are Go ints. *)
Definition sizes_ok (bm : list (list bool)) : Prop :=
  Z.of_nat (length bm) <= int64_max /\ Forall (fun row : list bool => Z.of_nat (length row) <= int64_max) bm.

Lemma read_path_rows y bm :
  is_int y -> is_int (y + Z.of_nat (length bm)) -> Forall (fun row : list bool => Z.of_nat (length row) <= int64_max) bm ->
  read_path (path y bm) = Some (dark_from y bm).
Proof.
  revert y. induction bm as [|row bm IH]; intros y Hy Hb; [done|]. intros [Hr Hbm]%Forall_cons. cbn [path dark_from]. cbn [length] in Hb.
  rewrite read_path_row by (unfold is_int in *; lia || done). by rewrite IH by (unfold is_int in *; lia || done).
Qed.

Lemma path_free c y bm : strconv.digit_val c = None -> c <> "-"%char -> free_of c ("M" +:+ " " +:+ "h1v1h-1z") -> free_of c (path y bm).
Proof.
  intros Hd Hm Hc. assert (forall y row x, free_of c (row_path x y row)) as Hrow.
  { clear y. intros y. induction row as [|on row IH]; intros x; [done|]. cbn [row_path]. apply free_of_app. split; [|apply IH]. destruct on; [|done].
    apply free_of_app in Hc as [H1 [H2 H3]%free_of_app]. unfold module_path.
    apply free_of_app; split; [done|]. apply free_of_app; split; [by apply free_of_Itoa|]. apply free_of_app; split; [done|].
    apply free_of_app; split; [by apply free_of_Itoa|done]. }
  revert y. induction bm as [|row bm IH]; intros y; [done|]. cbn [path]. apply free_of_app. split; [apply Hrow|apply IH].
Qed.

Lemma split_quotes n mid p :
  free_of "034" n -> free_of "034" p ->
  strings.Split ("0 0 " +:+ n +:+ " " +:+ n +:+ String "034" (mid +:+ String "034" (p +:+ String "034" "/></svg>")))%string "034" =
  ("0 0 " +:+ n +:+ " " +:+ n)%string :: strings.Split mid "034" ++ [p; "/></svg>"%string].
Proof.
  intros Hn Hp. set (rest := (mid +:+ _)%string).
  replace ("0 0 " +:+ n +:+ " " +:+ n +:+ String "034" rest)%string with (("0 0 " +:+ n +:+ " " +:+ n) +:+ String "034" rest)%string
    by (by rewrite !string_app_assoc). unfold rest.
  rewrite Split_app_free, Split_app, Split_app_free; [done|done|].
  apply free_of_app; split; [by repeat split|]. apply free_of_app; split; [done|]. apply free_of_app; split; [by repeat split|done].
Qed.

Definition svg_open : string := Eval vm_compute in quoted "<svg xmlns=`http://www.w3.org/2000/svg` viewBox=".
Definition svg_mid : string := Eval vm_compute in
  quoted " shape-rendering=`crispEdges`><rect width=`100%` height=`100%` fill=`#ffffff`/><path fill=`#000000` d=".

Lemma read_svg_svg bm :
  sizes_ok bm ->
  read_svg (svg bm) = Some ("0 0 " +:+ strconv.Itoa (Z.of_nat (length bm)) +:+ " " +:+ strconv.Itoa (Z.of_nat (length bm)), dark bm)%string.
Proof.
  intros [Hn Hr]. unfold read_svg, svg. assert (free_of "034" (path 0 bm)) as Hp by (apply path_free; by repeat split).
  assert (read_path (path 0 bm) = Some (dark bm)) as Hread
    by (apply read_path_rows; [unfold is_int, int64_max; lia|unfold is_int; lia|done]).
  assert (free_of "034" (strconv.Itoa (Z.of_nat (length bm)))) as Hf by (by apply free_of_Itoa).
  generalize dependent (strconv.Itoa (Z.of_nat (length bm))). intros n Hf. generalize dependent (path 0 bm). intros p Hp Hread.
  assert (svg_head +:+ n +:+ " " +:+ n +:+ svg_body +:+ p +:+ svg_foot =
    svg_open +:+ String "034" ("0 0 " +:+ n +:+ " " +:+ n +:+ String "034" (svg_mid +:+ String "034" (p +:+ String "034" "/></svg>"))))%string as ->
    by reflexivity.
  rewrite Split_app, split_quotes by done.
  assert (length (strings.Split svg_open "034") = 3%nat /\ length (strings.Split svg_mid "034") = 11%nat) as [H1 H2] by (by vm_compute).
  generalize dependent (strings.Split svg_open "034"). intros A H1. generalize dependent (strings.Split svg_mid "034"). intros B H2.
  set (l := _ ++ _ :: _). assert (l !! 3%nat = Some ("0 0 " +:+ n +:+ " " +:+ n)%string) as -> by (by apply list_lookup_middle).
  cbn [mbind option_bind]. assert (l !! 15%nat = Some p) as ->; [|by cbn [mbind option_bind]; rewrite Hread]. unfold l.
  rewrite app_comm_cons, app_assoc. apply list_lookup_middle. rewrite length_app. cbn [length]. by rewrite H1, H2.
Qed.

Section pairing.
Variable qrcode_New : string -> option (list (list bool)).

(** The encoder yields square codes of at most 177 modules and a border of four. *)
Hypothesis qrcode_square : forall content bm,
  qrcode_New content = Some bm -> Z.of_nat (length bm) <= 185 /\ Forall (fun row : list bool => length row = length bm) bm.

(** [C31] A pairing code is shown faithfully: the drawing of a link reads back as the
    view box of the code's size and as squares exactly at its dark modules, and the
    link itself reads back as the scheme, the host and the code, whatever bytes they
    have. *)
Theorem pairing_code_reads_back (scheme host code image : string) :
  qrSVG qrcode_New (pairURL scheme host code) = Some image ->
  exists bm n squares, qrcode_New (pairURL scheme host code) = Some bm /\ n = strconv.Itoa (Z.of_nat (length bm)) /\
    read_svg image = Some ("0 0 " +:+ n +:+ " " +:+ n, squares)%string /\
    (forall i j, (Z.of_nat i, Z.of_nat j) ∈ squares <-> (bm !! j ≫= fun row => row !! i) = Some true) /\
    read_link (pairURL scheme host code) = Some [("scheme", scheme); ("host", host); ("code", code)]%string.
Proof.
  intros (bm & Hbm & [= <-])%bind_Some. destruct (qrcode_square _ _ Hbm) as [Hn Hr].
  exists bm, (strconv.Itoa (Z.of_nat (length bm))), (dark bm). split; [done|]. split; [done|]. split; [|split].
  - apply read_svg_svg. split; [unfold int64_max; lia|]. eapply Forall_impl; [exact Hr|]. intros row Hlen. cbn beta in *. unfold int64_max. lia.
  - intros i j. apply elem_of_dark.
  - apply read_link_pairURL.
Qed.
End pairing.

Lemma pairing_code_reads_back_witness :
  exists image, qrSVG (fun _ => Some [[true; false]; [false; true]]) (pairURL "https" "proxy.example:443" "a+b/c=&") = Some image /\
    read_svg image = Some ("0 0 2 2"%string, [(0, 0); (1, 1)]).
Proof.
  eexists. split; [reflexivity|].
  destruct (pairing_code_reads_back (fun _ => Some [[true; false]; [false; true]])) with (scheme := "https"%string) (host := "proxy.example:443"%string)
    (code := "a+b/c=&"%string) (image := svg [[true; false]; [false; true]]) as (bm & n & squares & [= <-] & -> & Hs & _).
  - intros content bm [= <-]. split; [vm_compute; discriminate|]. by repeat constructor.
  - reflexivity.
  - rewrite Hs. by vm_compute in Hs.
Defined.
