(* ===== verification/AdminAPI.v ===== *)
(** * The admin API (pkg/admin/api.go, pkg/admin/devices.go)

    Every handler over the database and the port manager.  A request body is
    given decoded: one optional value per request struct, [None] when the JSON
    decoder returns an error for it.  Log lines are not modelled. *)

From S2P Require Import Prelude GoStrings GoBase64 GoTime GoNet GoHTTP Downtime Password UserTable UserDB RateLimit Dns Config.
From S2P Require Import Proxy UserPorts Collector DeviceTokens AdminSession ClientIP AdminServer ProxyOverDB Pairing.

Open Scope list_scope.

(** ** Requests *)

Record portRequest := mkPortReq { pr_Username : string; pr_Port : Z }.
Record enabledRequest := mkEnabledReq { en_Username : string; en_Enabled : bool }.
Record dnsRequest := mkDnsReq { dn_Username : string; dn_DNSServer : string; dn_DNSProtocol : string }.
Record dnsTestRequest := mkDnsTestReq { dt_DNSServer : string; dt_DNSProtocol : string }.
Record downtimeRequest := mkDowntimeReq { do_Username : string; do_DowntimeSchedule : DowntimeSchedule }.
Record overrideRequest := mkOverrideReq { ov_Username : string; ov_DurationMinutes : Z }.
Record downtimeNowRequest := mkNowReq { nw_Username : string; nw_DurationMinutes : Z }.
Record pairRequest := mkPairReq { pa_Code : string; pa_DeviceName : string }.

(** What the decoder makes of the body, per struct. *)
Record bodies := mkBodies {
  as_login : option loginRequest;
  as_port : option portRequest;
  as_enabled : option enabledRequest;
  as_dns : option dnsRequest;
  as_dnsTest : option dnsTestRequest;
  as_downtime : option downtimeRequest;
  as_override : option overrideRequest;
  as_downtimeNow : option downtimeNowRequest;
  as_pair : option pairRequest;
}.

(** The clock, the random generator and the identity of a fresh channel during one
    request. *)
Record request_env := mkRequestEnv {
  re_now : Z;
  re_salt : option string;
  re_session : list Z;
  re_device : option string;
  re_code : string;
  re_channel : nat;
}.

(** ** Helpers of the handlers *)

Definition bad_request : reply := answer 400 (Text "bad request").
Definition internal_error : reply := answer 500 (Text "internal error").
Definition method_not_allowed : reply := WriteHeader 405.

(** The two error arms every user operation ends in. *)
Definition user_op_failed (e : db_error) : reply :=
  if errors_Is e ErrUnknownUser then answer 404 (Text "user not found") else internal_error.

Definition known_protocol (p : string) : bool :=
  (p =? "plain")%string || (p =? "tls")%string || (p =? "https")%string.

Definition normalizeDNSServer (server protocol : string) : string :=
  if (protocol =? "plain")%string || (protocol =? "tls")%string then
    match net.SplitHostPort server with
    | Some _ => server
    | None => net.JoinHostPort server (if (protocol =? "tls")%string then "853" else "53")
    end
  else if (protocol =? "https")%string then
    if strings.HasPrefix server "https://" then server else ("https://" +:+ server)%string
  else server.

(** [time.Duration(minutes) * time.Minute]: 64-bit arithmetic. *)
Definition minutes_duration (minutes : Z) : Z := wrap64 (minutes * time.Minute).

(** ** The pairing link *)

Definition requestScheme (r : http.Request) : string :=
  if http.TLS r || (http.Get (http.HeaderOf r) "X-Forwarded-Proto" =? "https")%string then "https" else "http".

(** The bytes of the first rune of a string: its length and whether it is well
    formed; a malformed byte counts as one rune. *)
Definition between (lo hi : N) (a : ascii) : bool := ((lo <=? N_of_ascii a) && (N_of_ascii a <=? hi))%N.

Definition rune_length (s : string) : nat * bool :=
  let cont := between 128 191 in
  match s with
  | EmptyString => (0%nat, true)
  | String a s1 =>
      if between 0 127 a then (1%nat, true) else
      match s1 with
      | EmptyString => (1%nat, false)
      | String b s2 =>
          if between 194 223 a && cont b then (2%nat, true) else
          match s2 with
          | EmptyString => (1%nat, false)
          | String c s3 =>
              if ((between 224 224 a && between 160 191 b) || (between 225 236 a && cont b) ||
                  (between 237 237 a && between 128 159 b) || (between 238 239 a && cont b)) && cont c then (3%nat, true) else
              match s3 with
              | EmptyString => (1%nat, false)
              | String d _ =>
                  if ((between 240 240 a && between 144 191 b) || (between 241 243 a && cont b) ||
                      (between 244 244 a && between 128 143 b)) && cont c && cont d then (4%nat, true) else (1%nat, false)
              end
          end
      end
  end.

Definition replacement_rune : string := String "239" (String "191" (String "189" EmptyString)).

(** [[]rune(s)], each rune as its encoding; fuel is the length in bytes. *)
Fixpoint runes (fuel : nat) (s : string) : list string :=
  match fuel, s with
  | _, EmptyString | O, _ => []
  | S fuel', _ =>
      let '(n, ok) := rune_length s in
      (if ok then strings.take n s else replacement_rune) :: runes fuel' (strings.drop n s)
  end.

(** At most 64 runes of the name. *)
Definition device_name (name : string) : string :=
  let name := if (name =? "")%string then "device" else name in
  let r := runes (String.length name) name in
  if (64 <? length r)%nat then strings.Join (take 64 r) "" else name.

Section api.
Context {crypto : Crypto} {codec : ScheduleCodec} {sqlite : SQLiteClock} {sorting : MapSort}.
Variable loc : time.Location.
Variable w : api_wiring.
Variable network : Network.

(** [qrcode.New] of github.com/skip2/go-qrcode, as the code's bitmap; [None] is an
    error. *)
Variable qrcode_New : string -> option (list (list bool)).

#[local] Instance api_store : UserStore DB := DB_UserStore loc.

(** [users, _ := a.users.List()]. *)
Definition listed (now : Z) : ST api (list UserInfo) :=
  r ← db (List_ now);
  mret (match r with Ok l => l | Err _ => [] end).

(** The loop that finds the user's port. *)
Definition with_port (username : string) (l : list UserInfo) : option UserInfo :=
  List.find (fun u => (Username u =? username)%string && (0 <? Port u)) l.

(** ** Statistics *)

Definition handleTopSites (now : Z) : ST api reply := gets (fun a => answer 200 (Hosts (TopHosts 10 now (ap_stats a)))).
Definition handleTopBlocked (now : Z) : ST api reply := gets (fun a => answer 200 (Hosts (TopBlocked 10 now (ap_stats a)))).
Definition handleTraffic : ST api reply := gets (fun a => answer 200 (TrafficChart (Traffic 60 (ap_stats a)))).

(** [handleLogs] up to its loop, which is in LogStream: the stream is open and
    subscribed. *)
Definition handleLogs (ch : nat) : ST api reply :=
  _ ← update (fun a => set_ap_stats a (Subscribe ch (ap_stats a)));
  mret (answer 200 (LogStream ch)).

(** ** Users *)

Definition handleListUsers (now : Z) : ST api reply :=
  r ← db (List_ now);
  mret (match r with Ok l => answer 200 (Users l) | Err _ => internal_error end).

Definition handleCreateUser (body : option loginRequest) (salt : option string) (now : Z) : ST api reply :=
  match body with
  | None => mret bad_request
  | Some req =>
      if (lr_Username req =? "")%string || (lr_Password req =? "")%string
      then mret (answer 400 (Text "username and password required")) else
      let '(min, max) := UserPortRange (aw_proxy w) in
      r ← db (Add (lr_Username req) (lr_Password req) min max salt now);
      match r with
      | Err e =>
          mret (if errors_Is e ErrUserExists then answer 409 (Text "user already exists")
                else if errors_Is e ErrNoPortAvailable then answer 409 (Text "no ports available")
                else internal_error)
      | Ok port =>
          _ ← ports (UpdateUserPort (aw_proxy w) (lr_Username req) port);
          mret (WriteHeader 201)
      end
  end.

Definition handleDeleteUser (r : http.Request) (now : Z) : ST api reply :=
  let username := http.QueryGet r "username" in
  if (username =? "")%string then mret (answer 400 (Text "username required")) else
  l ← listed now;
  _ ← (match with_port username l with
       | Some _ => _ ← ports (UpdateUserPort (aw_proxy w) username 0); mret tt
       | None => mret tt
       end);
  r ← db (Delete username);
  match r with
  | Err e => mret (user_op_failed e)
  | Ok _ => mret (WriteHeader 200)
  end.

Definition handleUsers (r : http.Request) (body : option loginRequest) (salt : option string) (now : Z) : ST api reply :=
  if (http.Method r =? http.MethodGet)%string then handleListUsers now
  else if (http.Method r =? http.MethodPost)%string then handleCreateUser body salt now
  else if (http.Method r =? http.MethodDelete)%string then handleDeleteUser r now
  else mret method_not_allowed.

Definition handleChangePassword (r : http.Request) (body : option loginRequest) (salt : option string) : ST api reply :=
  if negb (http.Method r =? http.MethodPut)%string then mret method_not_allowed else
  match body with
  | None => mret bad_request
  | Some req =>
      if (lr_Username req =? "")%string || (lr_Password req =? "")%string
      then mret (answer 400 (Text "username and password required")) else
      r ← db (ChangePassword (lr_Username req) (lr_Password req) salt);
      mret (match r with Err e => user_op_failed e | Ok _ => WriteHeader 200 end)
  end.

(** ** Ports *)

(** The assignment itself, after the checks. *)
Definition update_port (username : string) (port : Z) : ST api reply :=
  r ← ports (UpdateUserPort (aw_proxy w) username port);
  mret (match r with Err e => user_op_failed e | Ok _ => WriteHeader 200 end).

(** The checks: an answer, or [None] when the port may be assigned. *)
Definition check_port (username : string) (port : Z) : ST api (option reply) :=
  if port =? 0 then mret None else
  let '(min, max) := UserPortRange (aw_proxy w) in
  if (port <? min) || (max <? port) then mret (Some (answer 400 (PortOutOfRange min max))) else
  r ← db (PortOwner port);
  mret (match r with
        | Err _ => Some internal_error
        | Ok owner =>
            if negb (owner =? "")%string && negb (owner =? username)%string
            then Some (answer 409 (PortTaken port owner)) else None
        end).

Definition handleUpdatePort (r : http.Request) (body : option portRequest) : ST api reply :=
  if negb (http.Method r =? http.MethodPut)%string then mret method_not_allowed else
  match body with
  | None => mret bad_request
  | Some req =>
      if (pr_Username req =? "")%string then mret (answer 400 (Text "username required")) else
      refused ← check_port (pr_Username req) (pr_Port req);
      match (refused : option reply) with
      | Some rp => mret rp
      | None => update_port (pr_Username req) (pr_Port req)
      end
  end.

Definition handleSetEnabled (r : http.Request) (body : option enabledRequest) (now : Z) : ST api reply :=
  if negb (http.Method r =? http.MethodPut)%string then mret method_not_allowed else
  match body with
  | None => mret bad_request
  | Some req =>
      if (en_Username req =? "")%string then mret (answer 400 (Text "username required")) else
      r ← db (SetEnabled (en_Username req) (en_Enabled req));
      match r with
      | Err e => mret (user_op_failed e)
      | Ok _ =>
          l ← listed now;
          _ ← (match with_port (en_Username req) l with
               | Some u => if en_Enabled req then ports (StartListener (aw_proxy w) (en_Username req) (Port u))
                           else ports (StopListener (aw_proxy w) (Port u))
               | None => mret tt
               end);
          mret (WriteHeader 200)
      end
  end.

(** ** DNS *)

Definition handleUpdateDNS (r : http.Request) (body : option dnsRequest) : ST api reply :=
  if negb (http.Method r =? http.MethodPut)%string then mret method_not_allowed else
  match body with
  | None => mret bad_request
  | Some req =>
      if (dn_Username req =? "")%string then mret (answer 400 (Text "username required")) else
      if negb (dn_DNSServer req =? "")%string && negb (known_protocol (dn_DNSProtocol req))
      then mret (answer 400 (Text "dns_protocol must be 'plain', 'tls', or 'https'")) else
      let server := if (dn_DNSServer req =? "")%string then "" else normalizeDNSServer (dn_DNSServer req) (dn_DNSProtocol req) in
      r ← db (UpdateDNS (dn_Username req) server (dn_DNSProtocol req));
      mret (match r with Err e => user_op_failed e | Ok _ => WriteHeader 200 end)
  end.

Definition handleTestDNS (r : http.Request) (body : option dnsTestRequest) : ST api reply :=
  if negb (http.Method r =? http.MethodPost)%string then mret method_not_allowed else
  match body with
  | None => mret bad_request
  | Some req =>
      if negb (known_protocol (dt_DNSProtocol req)) then mret (answer 200 (DNSTest false [] "invalid protocol")) else
      let server := normalizeDNSServer (dt_DNSServer req) (dt_DNSProtocol req) in
      match newResolver (dt_DNSProtocol req) server with
      | None => mret (answer 200 (DNSTest false [] "dns: cannot build a resolver"))
      | Some resolver =>
          match LookupIPAddr network resolver "google.com" with
          | Err msg => mret (answer 200 (DNSTest false [] msg))
          | Ok addrs => mret (answer 200 (DNSTest true (map net.String_ addrs) ""))
          end
      end
  end.

(** ** Downtime *)

Definition handleUpdateDowntime (r : http.Request) (body : option downtimeRequest) : ST api reply :=
  if negb (http.Method r =? http.MethodPut)%string then mret method_not_allowed else
  match body with
  | None => mret bad_request
  | Some req =>
      if (do_Username req =? "")%string then mret (answer 400 (Text "username required")) else
      match (if (0 <? size (do_DowntimeSchedule req))%nat then ValidateSchedule (do_DowntimeSchedule req) else Ok tt) with
      | Err e => mret (answer 400 (BadSchedule e))
      | Ok _ =>
          r ← db (UpdateDowntime (do_Username req) (do_DowntimeSchedule req));
          mret (match r with Err e => user_op_failed e | Ok _ => WriteHeader 200 end)
      end
  end.

Definition handleDowntimeOverride (r : http.Request) (body : option overrideRequest) (now : Z) : ST api reply :=
  if negb (http.Method r =? http.MethodPut)%string then mret method_not_allowed else
  match body with
  | None => mret bad_request
  | Some req =>
      if (ov_Username req =? "")%string then mret (answer 400 (Text "username required")) else
      if ov_DurationMinutes req <=? 0 then
        r ← db (ClearDowntimeOverride (ov_Username req));
        mret (match r with Err e => user_op_failed e | Ok _ => WriteHeader 200 end)
      else
        let until := time.Add now (minutes_duration (ov_DurationMinutes req)) in
        r ← db (SetDowntimeOverride (ov_Username req) until);
        match r with
        | Err e => mret (user_op_failed e)
        | Ok _ =>
            l ← listed now;
            _ ← (match with_port (ov_Username req) l with
                 | Some u => ports (StartListener (aw_proxy w) (ov_Username req) (Port u))
                 | None => mret tt
                 end);
            mret (WriteHeader 200)
        end
  end.

Definition handleDowntimeNow (r : http.Request) (body : option downtimeNowRequest) (now : Z) : ST api reply :=
  if negb (http.Method r =? http.MethodPut)%string then mret method_not_allowed else
  match body with
  | None => mret bad_request
  | Some req =>
      if (nw_Username req =? "")%string then mret (answer 400 (Text "username required")) else
      if nw_DurationMinutes req <=? 0 then
        r ← db (ClearDowntimeUntil (nw_Username req));
        match r with
        | Err e => mret (user_op_failed e)
        | Ok _ =>
            l ← listed now;
            _ ← (match List.find (fun u => (Username u =? nw_Username req)%string && (0 <? Port u) && Enabled u) l with
                 | Some u => ports (StartListener (aw_proxy w) (nw_Username req) (Port u))
                 | None => mret tt
                 end);
            mret (WriteHeader 200)
        end
      else
        let until := time.Add now (minutes_duration (nw_DurationMinutes req)) in
        r ← db (SetDowntimeUntil (nw_Username req) until);
        match r with
        | Err e => mret (user_op_failed e)
        | Ok _ =>
            l ← listed now;
            _ ← (match with_port (nw_Username req) l with
                 | Some u => ports (StopListener (aw_proxy w) (Port u))
                 | None => mret tt
                 end);
            mret (WriteHeader 200)
        end
  end.

(** ** Devices *)

Definition enroll_code (raw : string) (now : Z) : ST api string := fun a =>
  let '(code, es) := enroll_create raw now (ap_enroll a) in (code, set_ap_enroll a es).

Definition consume_code (code : string) (now : Z) : ST api bool := fun a =>
  let '(b, es) := consume code now (ap_enroll a) in (b, set_ap_enroll a es).

Definition handleEnroll (r : http.Request) (raw : string) (now : Z) : ST api reply :=
  if (http.Method r =? http.MethodPost)%string then
    code ← enroll_code raw now;
    es ← gets ap_enroll;
    let expiresIn := if persistent es then 0 else ettl es / time.Second in
    mret (answer 200 (Enrollment code (pairURL (requestScheme r) (http.Host r) code) expiresIn (persistent es)))
  else if (http.Method r =? http.MethodGet)%string then
    let code := http.QueryGet r "code" in
    known ← gets (fun a => peek code now (ap_enroll a));
    if (code =? "")%string || negb known then mret (answer 404 (Text "unknown or expired code")) else
    let url := pairURL (requestScheme r) (http.Host r) code in
    match qrSVG qrcode_New url with
    | None => mret internal_error
    | Some svg => mret (answer 200 (SVG svg))
    end
  else mret method_not_allowed.

Definition handlePair (r : http.Request) (body : option pairRequest) (raw : option string) (now : Z) : ST api reply :=
  if negb (http.Method r =? http.MethodPost)%string then mret method_not_allowed else
  match body with
  | None => mret (WriteHeader 400)
  | Some req =>
      if (pa_Code req =? "")%string then mret (WriteHeader 401) else
      ok ← consume_code (pa_Code req) now;
      if negb ok then mret (WriteHeader 401) else
      r ← db (CreateDeviceToken (device_name (pa_DeviceName req)) raw now);
      mret (match r with
            | Err _ => internal_error
            | Ok (token, _) => answer 200 (PairedToken token)
            end)
  end.

Definition handleDevices (r : http.Request) : ST api reply :=
  if (http.Method r =? http.MethodGet)%string then
    r ← db ListDeviceTokens;
    mret (match r with Err _ => internal_error | Ok l => answer 200 (Devices l) end)
  else if (http.Method r =? http.MethodDelete)%string then
    let id := http.QueryGet r "id" in
    if (id =? "")%string then mret (answer 400 (Text "id required")) else
    r ← db (RevokeDeviceToken id);
    mret (match r with
          | Err e => if errors_Is e ErrUnknownDevice then answer 404 (Text "device not found") else internal_error
          | Ok _ => WriteHeader 200
          end)
  else mret method_not_allowed.

(** ** Routes *)

(** bcrypt.CompareHashAndPassword of golang.org/x/crypto: no error. *)
Variable CompareHashAndPassword : string -> string -> bool.

(** The endpoints behind [requireSession]. *)
Definition session_route (path : string) (r : http.Request) (b : bodies) (e : request_env) : option (ST api reply) :=
  if (path =? "/api/stats/top-sites")%string then Some (handleTopSites (re_now e))
  else if (path =? "/api/stats/top-blocked")%string then Some (handleTopBlocked (re_now e))
  else if (path =? "/api/stats/traffic")%string then Some handleTraffic
  else if (path =? "/api/logs")%string then Some (handleLogs (re_channel e))
  else if (path =? "/api/users")%string then Some (handleUsers r (as_login b) (re_salt e) (re_now e))
  else if (path =? "/api/users/password")%string then Some (handleChangePassword r (as_login b) (re_salt e))
  else if (path =? "/api/users/port")%string then Some (handleUpdatePort r (as_port b))
  else if (path =? "/api/users/dns")%string then Some (handleUpdateDNS r (as_dns b))
  else if (path =? "/api/users/dns/test")%string then Some (handleTestDNS r (as_dnsTest b))
  else if (path =? "/api/users/enabled")%string then Some (handleSetEnabled r (as_enabled b) (re_now e))
  else if (path =? "/api/users/downtime")%string then Some (handleUpdateDowntime r (as_downtime b))
  else if (path =? "/api/users/downtime-override")%string then Some (handleDowntimeOverride r (as_override b) (re_now e))
  else if (path =? "/api/users/downtime-now")%string then Some (handleDowntimeNow r (as_downtimeNow b) (re_now e))
  else None.

(** The endpoints behind [requireAdminSession]. *)
Definition admin_route (path : string) (r : http.Request) (e : request_env) : option (ST api reply) :=
  if (path =? "/api/devices/enroll")%string then Some (handleEnroll r (re_code e) (re_now e))
  else if (path =? "/api/devices")%string then Some (handleDevices r)
  else None.

(** [mux.ServeHTTP] for a path in canonical form: exact patterns, the static
    prefix, and the index page for the rest. *)
Definition serve (r : http.Request) (b : bodies) (e : request_env) : ST api reply :=
  let path := http.URL_Path r in
  if strings.HasPrefix path "/static/" then mret (answer 200 (Text path))
  else if (path =? "/api/login")%string then handleLogin CompareHashAndPassword w r (as_login b) (re_session e) (re_now e)
  else if (path =? "/api/logout")%string then handleLogout w r
  else if (path =? "/api/pair")%string then handlePair r (as_pair b) (re_device e) (re_now e)
  else if (path =? "/api/version")%string || (mountDiagnostics w && (path =? "/metrics")%string) || (path =? "/login")%string
  then mret (answer 200 (Text path))
  else match session_route path r b e with
       | Some next => requireSession w next r (re_now e)
       | None =>
           match admin_route path r e with
           | Some next => requireAdminSession next r (re_now e)
           | None => requireSessionPage (mret (answer 200 (Text path))) r (re_now e)
           end
       end.
End api.
