(* ===== verification/AccessLog.v ===== *)
(** * The admin server's access log and response headers (pkg/admin/access_log.go, pkg/admin/cookie.go)

    In demo mode main wraps the admin handler in [LogRequests].  A handler is the
    list of calls it makes on its response writer; underneath is the writer of
    net/http, whose rules for a status are written out here. *)

From S2P Require Import Prelude GoStrings GoTime GoHTTP UserTable UserDB RateLimit Dns Config Proxy AdminSession AdminServer LogBuffer Logging.

Open Scope list_scope.

(** ** net/http's response writer *)

Inductive writer_call :=
| CWriteHeader (code : Z)
| CWrite (bytes : string)
| CFlush.

Record response := mkResponse { wroteHeader : bool; resp_status : Z; informational : list Z; resp_body : list string }.

Definition new_response : response := mkResponse false 0 [] [].

(** The first final header counts, later ones are superfluous; informational ones
    are sent and change nothing; [None] is the panic on a code that is none. *)
Definition response_WriteHeader (code : Z) (r : response) : option response :=
  if wroteHeader r then Some r
  else if (code <? 100) || (999 <? code) then None
  else if (code <=? 199) && negb (code =? 101)
  then Some (mkResponse false (resp_status r) (informational r ++ [code]) (resp_body r))
  else Some (mkResponse true code (informational r) (resp_body r)).

Definition implicit_ok (r : response) : response :=
  if wroteHeader r then r else mkResponse true 200 (informational r) (resp_body r).

Definition response_Write (bytes : string) (r : response) : response :=
  let r := implicit_ok r in mkResponse (wroteHeader r) (resp_status r) (informational r) (resp_body r ++ [bytes]).

(** What the client has got when the handler has returned. *)
Definition sent_status (r : response) : Z := resp_status (implicit_ok r).

(** ** statusWriter *)

Record statusWriter := mkStatusWriter { sw_response : response; sw_status : Z; sw_wrote : bool }.

Definition new_statusWriter : statusWriter := mkStatusWriter new_response 200 false.

Definition sw_WriteHeader (code : Z) (s : statusWriter) : option statusWriter :=
  let '(status, wrote) := if negb (sw_wrote s) then (code, true) else (sw_status s, sw_wrote s) in
  r ← response_WriteHeader code (sw_response s); Some (mkStatusWriter r status wrote).

Definition sw_Write (bytes : string) (s : statusWriter) : statusWriter :=
  mkStatusWriter (response_Write bytes (sw_response s)) (sw_status s) true.

Definition sw_Flush (s : statusWriter) : statusWriter :=
  mkStatusWriter (implicit_ok (sw_response s)) (sw_status s) (sw_wrote s).

Definition sw_call (c : writer_call) (s : statusWriter) : option statusWriter :=
  match c with
  | CWriteHeader code => sw_WriteHeader code s
  | CWrite bytes => Some (sw_Write bytes s)
  | CFlush => Some (sw_Flush s)
  end.

Fixpoint sw_calls (cs : list writer_call) (s : statusWriter) : option statusWriter :=
  match cs with [] => Some s | c :: cs' => s' ← sw_call c s; sw_calls cs' s' end.

(** The same calls on the writer of net/http alone. *)
Definition response_call (c : writer_call) (r : response) : option response :=
  match c with
  | CWriteHeader code => response_WriteHeader code r
  | CWrite bytes => Some (response_Write bytes r)
  | CFlush => Some (implicit_ok r)
  end.

Fixpoint response_calls (cs : list writer_call) (r : response) : option response :=
  match cs with [] => Some r | c :: cs' => r' ← response_call c r; response_calls cs' r' end.

(** ** LogRequests *)

Section log.
(** The verb for quoted strings. *)
Variable quoted : string -> string.

Definition auth_kind (r : http.Request) : string :=
  if strings.HasPrefix (http.Get (http.HeaderOf r) "Authorization") "Bearer " then "bearer"
  else match http.Cookie r sessionCookie with Some _ => "cookie" | None => "none" end.

Definition access_text (r : http.Request) (status : Z) : string :=
  (http.Method r +:+ " " +:+ http.URL_Path r +:+ " -> " +:+ strconv.Itoa status +:+ " auth=" +:+ auth_kind r +:+
   " ua=" +:+ quoted (http.Get (http.HeaderOf r) "User-Agent"))%string.

(** The wrapped handler's calls, and the line that follows them; a panic skips it. *)
Definition LogRequests {B O} `{logging.Backend B} (now : Z) (r : http.Request) (handler : list writer_call)
    (lg : logging.Logger (B := B) (O := O)) : option (response * logging.Logger) :=
  sw ← sw_calls handler new_statusWriter;
  Some (sw_response sw, logging.Infof now "access" (access_text r (sw_status sw)) lg).
End log.

(** ** securityHeaders *)

Definition securityHeaders (hsts : bool) (h : http.Header) : http.Header :=
  let h := http.Set_ h "X-Content-Type-Options" "nosniff" in
  let h := http.Set_ h "X-Frame-Options" "DENY" in
  let h := http.Set_ h "Referrer-Policy" "no-referrer" in
  if hsts then http.Set_ h "Strict-Transport-Security" "max-age=31536000; includeSubDomains" else h.

(** Strict transport security is announced only with TLS in front. *)
Lemma securityHeaders_hsts hsts : negb (http.Get (securityHeaders hsts ∅) "Strict-Transport-Security" =? "")%string = hsts.
Proof. by destruct hsts. Qed.

(** ** What the log says *)

Lemma sw_calls_response cs s : option_map sw_response (sw_calls cs s) = response_calls cs (sw_response s).
Proof.
  revert s. induction cs as [|[code|bytes|] cs IH]; intros s; simpl; [done| |apply (IH (sw_Write bytes s))|apply (IH (sw_Flush s))].
  unfold sw_WriteHeader. destruct (if negb (sw_wrote s) then _ else _) as [status wrote].
  destruct (response_WriteHeader code (sw_response s)) as [r|]; simpl; [|done]. apply (IH (mkStatusWriter r status wrote)).
Qed.

(** The first header a handler writes is final, and it does not come after a bare
    flush, which has already sent a 200. *)
Fixpoint steady (flushed : bool) (cs : list writer_call) : bool :=
  match cs with
  | [] => true
  | CWriteHeader code :: _ => negb flushed && ((199 <? code) || (code =? 101))
  | CWrite _ :: _ => true
  | CFlush :: cs' => steady true cs'
  end.

Definition in_step (s : statusWriter) : Prop :=
  sw_wrote s = true /\ wroteHeader (sw_response s) = true /\ resp_status (sw_response s) = sw_status s.

Lemma in_step_calls cs s s' : in_step s -> sw_calls cs s = Some s' -> in_step s'.
Proof.
  revert s. induction cs as [|c cs IH]; intros s Hs; simpl; [by intros [= <-]|].
  destruct (sw_call c s) as [s1|] eqn:E; [|done]. simpl. apply IH. destruct s as [[wh rs inf body] st wr], Hs as (H1 & H2 & H3).
  simpl in H1, H2, H3. subst. destruct c as [code|bytes|]; simpl in E; by injection E as <-.
Qed.

Lemma steady_calls flushed cs s s' :
  sw_wrote s = false -> wroteHeader (sw_response s) = flushed -> sw_status s = 200 ->
  (flushed = true -> resp_status (sw_response s) = 200) ->
  steady flushed cs = true -> sw_calls cs s = Some s' -> sw_status s' = sent_status (sw_response s').
Proof.
  assert (forall t, in_step t -> sw_status t = sent_status (sw_response t)) as Hin.
  { intros t (_ & H1 & H2). unfold sent_status, implicit_ok. by rewrite H1. }
  revert flushed s. induction cs as [|[code|bytes|] cs IH]; intros flushed s Hw Hf Hst H2; cbn [steady].
  - intros _ [= <-]. rewrite Hst. unfold sent_status, implicit_ok. rewrite Hf. destruct flushed; [by rewrite H2|done].
  - destruct flushed; [done|]. intros Hc. cbn [sw_calls sw_call]. unfold sw_WriteHeader, response_WriteHeader. rewrite Hw, Hf. cbn [negb].
    cbn [negb andb] in Hc. rewrite Z.ltb_antisym in Hc. destruct ((code <? 100) || (999 <? code)); [done|]. destruct (code <=? 199), (code =? 101); try done;
      simpl; intros H%in_step_calls; first [by apply Hin|by repeat split].
  - intros _. cbn [sw_calls sw_call]. simpl. intros H%in_step_calls; [by apply Hin|].
    unfold sw_Write, response_Write, implicit_ok, in_step. rewrite Hf. simpl. destruct flushed; simpl; [|done]. by rewrite Hf, H2, Hst.
  - intros Hs. cbn [sw_calls sw_call]. simpl. apply (IH true); [done| |done| |done]; unfold sw_Flush, implicit_ok; rewrite Hf; destruct flushed; auto.
Qed.

(** The access log is transparent and truthful: the client gets from the wrapped
    handler exactly what the handler itself would have sent, a panic included; and
    the line that follows carries the status that was sent, for every handler whose
    first header is final and not written after a bare flush. *)
Theorem access_log_is_truthful (quoted : string -> string) {B O} `{logging.Backend B} (now : Z) (r : http.Request)
    (handler : list writer_call) (lg : logging.Logger (B := B) (O := O)) :
  match LogRequests quoted now r handler lg with
  | None => response_calls handler new_response = None
  | Some (resp, lg') =>
      response_calls handler new_response = Some resp /\
      (steady false handler = true -> lg' = logging.Infof now "access" (access_text quoted r (sent_status resp)) lg)
  end.
Proof.
  unfold LogRequests. pose proof (sw_calls_response handler new_statusWriter) as Hr. simpl in Hr.
  destruct (sw_calls handler new_statusWriter) as [sw|] eqn:E; simpl; [|done]. split; [done|]. intros Hs.
  by rewrite (steady_calls false handler new_statusWriter sw).
Qed.

(** Outside those handlers it can be wrong. *)
Example flush_then_header_is_misreported :
  option_map (fun s => (sw_status s, sent_status (sw_response s))) (sw_calls [CFlush; CWriteHeader 500] new_statusWriter) = Some (500, 200).
Proof. reflexivity. Qed.

Example early_hints_are_misreported :
  option_map (fun s => (sw_status s, sent_status (sw_response s))) (sw_calls [CWriteHeader 103; CWriteHeader 404] new_statusWriter) = Some (103, 404).
Proof. reflexivity. Qed.

(** The same request with other credentials. *)
Definition with_credentials (authorization : string) (cookies : list (string * string)) (r : http.Request) : http.Request :=
  http.mkRequest (http.Method r) (http.Host r) (http.URL_Host r) (http.URL_Path r) (http.RequestURI r) (http.RemoteAddr r)
    (http.Set_ (http.HeaderOf r) "Authorization" authorization) cookies (http.Query r) (http.TLS r).

(** The access log does not show credentials: what it writes depends on the
    Authorization header only through its being a bearer token, and on the cookies
    only through the presence of a session cookie. *)
Theorem access_log_hides_credentials (quoted : string -> string) (r : http.Request) (status : Z)
    (a a' : string) (cs cs' : list (string * string)) :
  strings.HasPrefix a "Bearer " = strings.HasPrefix a' "Bearer " ->
  is_Some (http.find_pair sessionCookie cs) <-> is_Some (http.find_pair sessionCookie cs') ->
  access_text quoted (with_credentials a cs r) status = access_text quoted (with_credentials a' cs' r) status.
Proof.
  intros Ha Hc. unfold access_text. f_equal. f_equal. f_equal. f_equal. f_equal. f_equal.
  assert (forall x cookies, http.Get (http.HeaderOf (with_credentials x cookies r)) "Authorization" = x) as Hx.
  { intros x cookies. unfold http.Get, http.Values, with_credentials, http.Set_. simpl. by rewrite lookup_insert. }
  assert (forall x cookies, http.Get (http.HeaderOf (with_credentials x cookies r)) "User-Agent" = http.Get (http.HeaderOf r) "User-Agent") as Hu.
  { intros x cookies. unfold http.Get, http.Values, with_credentials, http.Set_. simpl. by rewrite lookup_insert_ne. }
  rewrite !Hu. f_equal. unfold auth_kind. rewrite !Hx, Ha. destruct (strings.HasPrefix a' "Bearer "); [done|].
  unfold http.Cookie. simpl. destruct (http.find_pair sessionCookie cs), (http.find_pair sessionCookie cs'); try done;
    destruct Hc as [H1 H2]; exfalso; [destruct H1 as [? H1]; by eauto|destruct H2 as [? H2]; by eauto].
Qed.

(** The path is written decoded and unquoted: a client without any credentials
    puts a line of its own choice into the console log. *)
Theorem access_log_line_can_be_forged (quoted : string -> string) (now : Z) (r : http.Request) (status : Z) (p forged q : string) :
  http.URL_Path r = (p +:+ String "010" (forged +:+ String "010" q))%string -> free_of "010" forged ->
  forged ∈ strings.Split (logging.serverLine (logging.mkServerMessage now "info" "access" (access_text quoted r status))) "010".
Proof.
  intros Hp Hf. unfold logging.serverLine, access_text. cbn [logging.s_Timestamp logging.s_Level logging.s_Component logging.s_Text]. rewrite Hp.
  generalize (fmt.timestamp now) (fmt.left 5 "info") (http.Method r) (strconv.Itoa status) (auth_kind r) (quoted (http.Get (http.HeaderOf r) "User-Agent")).
  intros t0 level method st kind ua.
  match goal with |- _ ∈ strings.Split ?line _ =>
    assert (line = ((t0 +:+ "  " +:+ level +:+ "  " +:+ "access" +:+ ": " +:+ method +:+ " " +:+ p) +:+
      String "010" (forged +:+ String "010" (q +:+ " -> " +:+ st +:+ " auth=" +:+ kind +:+ " ua=" +:+ ua)))%string) as ->
  end.
  { by rewrite ?string_app_assoc, ?string_app_cons, ?string_app_assoc, ?string_app_cons, ?string_app_assoc. }
  rewrite Split_app, Split_app_free by done. apply elem_of_app. right. by left.
Qed.
