(* ===== verification/UserDBCalm.v ===== *)
(** * A working engine

    Methods consume injected statement failures and never add any: with none to
    come, every method leaves none. *)

From S2P Require Import Prelude GoStrings GoTime Downtime Password UserTable UserDB UserDBLemmas UserDBOps UserDBCoherence DeviceTokens.

Open Scope list_scope.

Definition calm {A} (m : M DB db_error A) : Prop := forall d, faults d = [] -> faults (snd (m d)) = [].

(** At most the devices change, and no failures appear. *)
Definition undisturbed (d d' : DB) : Prop := only_devices d d' /\ (faults d = [] -> faults d' = []).

Lemma calm_ret {A} (a : A) : calm (mret a).
Proof. by intros d. Qed.

Lemma calm_throw {A} e : calm (throw e : M DB db_error A).
Proof. by intros d. Qed.

Lemma calm_bind {A B} (m : M DB db_error A) (k : A -> M DB db_error B) : calm m -> (forall a, calm (k a)) -> calm (x ← m; k x).
Proof.
  intros Hm Hk d Hd. unfold mbind, M_bind. specialize (Hm d Hd). destruct (m d) as [[a|e] d1]; [by apply Hk|done].
Qed.

Lemma calm_wrap {A} f (m : M DB db_error A) : calm m -> calm (wrap f m).
Proof. intros Hm d Hd. unfold wrap. specialize (Hm d Hd). by destruct (m d) as [[a|e] d1]. Qed.

Lemma calm_ignore {A} (m : M DB db_error A) : calm m -> calm (ignore m).
Proof. intros Hm d Hd. by apply Hm. Qed.

Lemma calm_sql {A} (run : DB -> result db_error A * DB) : (forall d, faults (snd (run d)) = faults d) -> calm (sql run).
Proof. intros Hr d Hd. unfold sql. rewrite Hd, Hr. done. Qed.

Lemma calm_modify f : (forall d, faults (f d) = faults d) -> calm (modify f : M DB db_error unit).
Proof. intros Hf d Hd. unfold modify. simpl. by rewrite Hf. Qed.

Lemma calm_query {A} (f : DB -> A) : calm (query f).
Proof. by apply calm_sql. Qed.

Lemma calm_affected ctx u g : calm (affected_user ctx u (exec_where u g)).
Proof.
  apply calm_bind; [by apply calm_wrap, calm_sql|]. intros n. case_match; [apply calm_throw|apply calm_ret].
Qed.

Ltac calm :=
  repeat match goal with
    | |- calm (mbind _ _) => apply calm_bind; [|intros ?]
    | |- calm (mret _) => apply calm_ret
    | |- calm (throw _) => apply calm_throw
    | |- calm (wrap _ _) => apply calm_wrap
    | |- calm (ignore _) => apply calm_ignore
    | |- calm (affected_user _ _ _) => apply calm_affected
    | |- calm (query _) => apply calm_query
    | |- calm (modify _) => apply calm_modify; intros ?; by repeat case_match
    | |- calm (sql _) => apply calm_sql; intros ?; by repeat case_match
    | |- calm (exec_where _ _) => by apply calm_sql
    | |- calm (if ?b then _ else _) => destruct b
    | |- calm (match ?x with _ => _ end) => destruct x
    end.

Section methods.
Context {crypto : Crypto} {codec : ScheduleCodec} {sqlite : SQLiteClock}.

Lemma calm_Check header salt now : calm (Check header salt now).
Proof.
  unfold Check. apply calm_bind; [by intros d|]. intros d. destruct (check_cache d now header) as [[r|e]|user pass]; [by intros d'..|].
  apply calm_bind; [unfold select_hash; calm|]. intros hash. unfold check_finish, exec_update. calm.
Qed.

Lemma calm_run_op op d : faults d = [] -> faults (run_op op d) = [].
Proof.
  destruct op; simpl; try (match goal with |- _ -> faults (snd (?m d)) = [] => assert (calm m) as H; [|apply H] end).
  all: unfold UpdateDNS, UpdateDowntime, SetDowntimeOverride, ClearDowntimeOverride, SetDowntimeUntil, ClearDowntimeUntil, Add, SetEnabled,
    Delete, ChangePassword, UpdatePort, nextAvailablePort, exec_update, exec_delete, exec_insert; cbn zeta; calm.
  apply calm_Check.
Qed.

Lemma undisturbed_faults d d' : only_faults d d' -> (faults d = [] -> faults d' = []) -> undisturbed d d'.
Proof. intros Ho Hf. split; [by apply only_faults_devices|done]. Qed.

Lemma query_faults {A} (f : DB -> A) (g : db_error -> db_error) d : only_faults d (snd (wrap g (query f) d)).
Proof. unfold wrap, query, sql. by destruct (faults d) as [|[msg|] fs]; [|eexists..]. Qed.

Lemma undisturbed_query {A} (f : DB -> A) (g : db_error -> db_error) d : undisturbed d (snd (wrap g (query f) d)).
Proof. apply undisturbed_faults; [apply query_faults|apply calm_wrap, calm_query]. Qed.

Lemma PortOwner_faults port d : only_faults d (snd (PortOwner port d)).
Proof.
  unfold PortOwner, mbind, M_bind.
  pose proof (query_faults (fun d => List.find (fun r => r_port r =? port) (users d)) (Wrapped "querying port owner") d) as H.
  by destruct (wrap _ _ d) as [[rows|e] d1].
Qed.

Lemma undisturbed_then {A B} (m : M DB db_error A) (k : A -> B) d : undisturbed d (snd (m d)) -> undisturbed d (snd ((x ← m; mret (k x)) d)).
Proof. unfold mbind, M_bind. by destruct (m d) as [[a|e] d1]. Qed.

Lemma undisturbed_List now d : undisturbed d (snd (List_ now d)).
Proof. apply undisturbed_then, undisturbed_query. Qed.

Lemma undisturbed_ListPorts d : undisturbed d (snd (ListPorts d)).
Proof. apply undisturbed_then, undisturbed_query. Qed.

Lemma undisturbed_PortOwner port d : undisturbed d (snd (PortOwner port d)).
Proof. apply undisturbed_then, undisturbed_query. Qed.

Lemma undisturbed_ListDevices d : undisturbed d (snd (ListDeviceTokens d)).
Proof. apply undisturbed_then, undisturbed_query. Qed.

Lemma undisturbed_Revoke id d : undisturbed d (snd (RevokeDeviceToken id d)).
Proof.
  split; [|revert d; change (calm (RevokeDeviceToken id)); unfold RevokeDeviceToken; calm].
  destruct (RevokeDeviceToken id d) as [r d'] eqn:E. simpl.
  apply RevokeDeviceToken_inv in E as [(? & _ & H)|[_ [fs ->]]]; [done|by eexists _, _].
Qed.

Lemma undisturbed_Create name raw now d : undisturbed d (snd (CreateDeviceToken name raw now d)).
Proof.
  split; [|revert d; change (calm (CreateDeviceToken name raw now)); unfold CreateDeviceToken, exec_insert_token; calm].
  destruct (CreateDeviceToken name raw now d) as [r d'] eqn:E. simpl.
  apply CreateDeviceToken_inv in E as [[_ H]|(? & fs & _ & _ & _ & _ & ->)]; [by apply only_faults_devices|].
  by eexists _, fs.
Qed.

Lemma undisturbed_Validate token now d : undisturbed d (snd (ValidateDeviceToken token now d)).
Proof.
  split.
  - destruct (ValidateDeviceToken token now d) as [x d'] eqn:E. by apply ValidateDeviceToken_inv in E as [Ho _].
  - intros Hd. unfold ValidateDeviceToken. case_match; [done|].
    assert (calm (select_token_name (Sum256 token))) as Hs by (unfold select_token_name; calm).
    assert (calm (exec_touch (Sum256 token) now)) as Ht by (unfold exec_touch; calm).
    specialize (Hs d Hd). destruct (select_token_name _ d) as [[name|e] d1]; [by apply Ht|done].
Qed.
End methods.
