(* ===== verification/AdminLemmas.v ===== *)
(** * What a request to the admin API can do to the proxy and its database

    Whatever holds of the proxy handler and survives each database method and
    port operation the API uses survives every request; the three handlers that
    create and remove ports are treated apart. *)

From S2P Require Import Prelude GoStrings GoBase64 GoTime GoNet GoHTTP GoRFC3339 Downtime Password UserTable UserDB UserDBLemmas.
From S2P Require Import UserDBOps UserDBCoherence UserDBReach RateLimit Dns Config Proxy UserPorts Collector DeviceTokens UserDBCalm AdminSession ClientIP.
From S2P Require Import AdminServer ProxyOverDB AdminAPI.

Open Scope list_scope.

(** ** Port operations and the store *)

Section ports.
Context {St : Type} {us : UserStore St} (w : Wiring).

Lemma StopUserListener_store port (h : Handler St) : store (snd (StopUserListener port h)) = store h.
Proof. unfold StopUserListener. by destruct (userServers h !! port). Qed.

Lemma StopListener_store port (h : Handler St) : store (snd (StopListener w port h)) = store h.
Proof. unfold StopListener. case_match; [done|apply StopUserListener_store]. Qed.

Lemma StartListener_store u port (h : Handler St) : store (snd (StartListener w u port h)) = store h.
Proof.
  unfold StartListener, startListenerLocked. cbn zeta. cbn [userServers set_ports]. destruct (userServers h !! port); [done|]. by destruct (DemoMode (cfg w)).
Qed.

Lemma UpdateUserPort_eq u port (h : Handler St) :
  fst (UpdateUserPort w u port h) = fst (us_UpdatePort u port (store h)) /\
  store (snd (UpdateUserPort w u port h)) = snd (us_UpdatePort u port (store h)).
Proof.
  unfold UpdateUserPort, mbind, ST_bind, gets, UpdatePort_.
  assert (store (snd ((if negb (current_port u h =? 0) then StopUserListener (current_port u h) else mret tt) h)) = store h) as Hs
    by (case_match; [apply StopUserListener_store|done]).
  destruct ((if negb (current_port u h =? 0) then StopUserListener (current_port u h) else mret tt) h) as [[] h1]. simpl in Hs.
  rewrite <- Hs. destruct (us_UpdatePort u port (store h1)) as [[[]|e] s]; [|done]. destruct (port =? 0); [done|].
  destruct (assign_and_start_eq w port u (set_store h1 s)) as (h2 & -> & Hs2 & _). by split.
Qed.
End ports.

(** ** Properties that requests preserve *)

Definition stable (P : Handler DB -> Prop) {A} (m : ST api A) : Prop := forall a, P (ap_proxy a) -> P (ap_proxy (snd (m a))).

Section stable.
Context (P : Handler DB -> Prop).

Lemma stable_ret {A} (x : A) : stable P (mret x).
Proof. by intros a Ha. Qed.

(** Stability with something said of the result. *)
Definition yields {A} (Q : A -> Handler DB -> Prop) (m : ST api A) : Prop :=
  forall a, P (ap_proxy a) -> P (ap_proxy (snd (m a))) /\ Q (fst (m a)) (ap_proxy (snd (m a))).

Lemma stable_bind_yields {A B} (Q : A -> Handler DB -> Prop) (m : ST api A) (k : A -> ST api B) :
  yields Q m -> (forall x a, P (ap_proxy a) -> Q x (ap_proxy a) -> P (ap_proxy (snd (k x a)))) -> stable P (x ← m; k x).
Proof.
  intros Hm Hk a Ha. unfold mbind, ST_bind. destruct (Hm a Ha) as [H1 H2]. destruct (m a) as [x a1]. by apply Hk.
Qed.

Lemma stable_bind {A B} (m : ST api A) (k : A -> ST api B) :
  stable P m -> (forall x, stable P (k x)) -> stable P (x ← m; k x).
Proof. intros Hm Hk. apply (stable_bind_yields (fun _ _ => True)); [by split; [apply Hm|]|]. intros x a Ha _. by apply Hk. Qed.

Lemma stable_db {A} (m : M DB db_error A) : (forall h, P h -> P (set_store h (snd (m (store h))))) -> stable P (db m).
Proof. intros H a Ha. unfold db, database. specialize (H _ Ha). by destruct (m (store (ap_proxy a))). Qed.

Lemma stable_db_ST {A} (m : ST DB A) : (forall h, P h -> P (set_store h (snd (m (store h))))) -> stable P (db_ST m).
Proof. intros H a Ha. unfold db_ST, database. specialize (H _ Ha). by destruct (m (store (ap_proxy a))). Qed.

Lemma stable_ports {A} (m : ST (Handler DB) A) : (forall h, P h -> P (snd (m h))) -> stable P (ports m).
Proof. intros H a Ha. unfold ports. specialize (H _ Ha). by destruct (m (ap_proxy a)). Qed.

Lemma stable_same {A} (m : ST api A) : (forall a, ap_proxy (snd (m a)) = ap_proxy a) -> stable P m.
Proof. intros H a. by rewrite H. Qed.
End stable.

Lemma login_gate_proxy ip now a : ap_proxy (snd (login_gate ip now a)) = ap_proxy a.
Proof. unfold login_gate. destruct (Allow _ _ _) as [[] l]; [|done]. simpl. by destruct (allow _ _). Qed.

Lemma open_session_proxy b now a : ap_proxy (snd (open_session b now a)) = ap_proxy a.
Proof. done. Qed.

Lemma validate_session_proxy token now a : ap_proxy (snd (validate_session token now a)) = ap_proxy a.
Proof. unfold validate_session. by destruct (Validate _ _ _). Qed.

Lemma enroll_code_proxy raw now a : ap_proxy (snd (enroll_code raw now a)) = ap_proxy a.
Proof. unfold enroll_code. by destruct (enroll_create _ _ _). Qed.

Lemma consume_code_proxy code now a : ap_proxy (snd (consume_code code now a)) = ap_proxy a.
Proof. unfold consume_code. by destruct (consume _ _ _). Qed.

Section requests.
Context {crypto : Crypto} {codec : ScheduleCodec} {sqlite : SQLiteClock}.
Variable loc : time.Location.
Variable w : api_wiring.
Variable network : Network.
Variable qrcode_New : string -> option (list (list bool)).
Variable CompareHashAndPassword : string -> string -> bool.

(** A property closed under the database methods the API calls and under starting
    and stopping listeners of assigned ports.  [ok] restricts the operations. *)
Definition plain_op (op : db_op) : Prop :=
  match op with OpAdd _ _ _ _ _ _ | OpDelete _ | OpUpdatePort _ _ => False | _ => True end.

(** Only the ad-hoc pauses of users in [may] change. *)
Definition pauses_only (may : string -> Prop) (op : db_op) : Prop :=
  match op with OpSetUntil u _ | OpClearUntil u => may u | _ => True end.

Context (may : string -> Prop) (P : Handler DB -> Prop).
Hypothesis P_op : forall op h, op_ok op -> plain_op op -> pauses_only may op -> P h -> P (set_store h (run_op op (store h))).
Hypothesis P_undisturbed : forall h d', undisturbed (store h) d' -> P h -> P (set_store h d').
Hypothesis P_unique : forall h, P h -> unique_usernames (users (store h)).
Hypothesis P_start : forall u row h, P h -> row_of (users (store h)) u = Some row -> 0 < r_port row ->
  P (snd (@StartListener DB (aw_proxy w) u (r_port row) h)).
Hypothesis P_stop : forall port h, P h -> P (snd (@StopListener DB (aw_proxy w) port h)).

(** What [List] shows is in the table. *)
Definition shown (l : list UserInfo) (h : Handler DB) : Prop :=
  forall x, x ∈ l -> exists row, row_of (users (store h)) (Username x) = Some row /\ r_port row = Port x.

Lemma listed_shown now : yields P shown (listed now).
Proof.
  intros a Ha. pose proof (P_unique _ Ha) as Hu.
  assert (stable P (listed now)) as Hs.
  { apply stable_bind; [|intros; apply stable_ret]. apply stable_db. intros h. apply P_undisturbed, undisturbed_List. }
  split; [by apply Hs|]. unfold listed, mbind, ST_bind, db, database. pose proof (undisturbed_List now (store (ap_proxy a))) as [Hq _].
  destruct (List_ now (store (ap_proxy a))) as [[l|e] d'] eqn:E; simpl in *; [|intros x Hx; by apply elem_of_nil in Hx].
  destruct Hq as (ts & fs & ->). intros x Hx. simpl.
  unfold List_, mbind, M_bind, wrap, query, sql in E. destruct (faults (store (ap_proxy a))) as [|[msg|] fs']; simpl in E; try discriminate E;
    injection E as <- _; apply list_elem_of_In, in_map_iff in Hx as (row & <- & Hin); apply list_elem_of_In in Hin;
    rewrite merge_sort_Permutation in Hin; exists row; (split; [by apply row_of_unique|done]).
Qed.

Lemma stable_listed now : stable P (listed now).
Proof. intros a Ha. by apply listed_shown. Qed.

Lemma stable_op op {A} (m : M DB db_error A) : (forall d, snd (m d) = run_op op d) -> op_ok op -> plain_op op -> pauses_only may op -> stable P (db m).
Proof. intros H Hok Hp Hm. apply stable_db. intros h Hh. rewrite H. by apply P_op. Qed.

(** The tail of a handler that lists the users and acts on the port of one. *)
Lemma stable_listed_then {A} now (f : UserInfo -> bool) (act : UserInfo -> ST api unit) (k : ST api A) :
  (forall x row a, P (ap_proxy a) -> row_of (users (store (ap_proxy a))) (Username x) = Some row -> r_port row = Port x ->
     f x = true -> P (ap_proxy (snd (act x a)))) ->
  stable P k -> stable P (l ← listed now; _ ← (match List.find f l with Some x => act x | None => mret tt end); k).
Proof.
  intros Hact Hk. eapply stable_bind_yields; [apply listed_shown|]. intros l a Ha Hl.
  assert (P (ap_proxy (snd ((match List.find f l with Some x => act x | None => mret tt end) a)))) as H1.
  { destruct (List.find f l) as [x|] eqn:E; [|done]. apply List.find_some in E as [Hin Hf]. apply list_elem_of_In in Hin.
    destruct (Hl x Hin) as (row & Hr & Hp). by eapply Hact. }
  unfold mbind, ST_bind. destruct ((match List.find f l with Some x => act x | None => mret tt end) a) as [[] a1]. by apply Hk.
Qed.

Lemma stable_start_at u x row a :
  P (ap_proxy a) -> row_of (users (store (ap_proxy a))) (Username x) = Some row -> r_port row = Port x ->
  (Username x =? u)%string && (0 <? Port x) = true ->
  P (ap_proxy (snd (ports (@StartListener DB (aw_proxy w) u (Port x)) a))).
Proof.
  intros Ha Hr Hp [Hu%String.eqb_eq Hpos%Z.ltb_lt]%andb_true_iff. rewrite Hu in Hr. unfold ports.
  assert (P (snd (@StartListener DB (aw_proxy w) u (Port x) (ap_proxy a)))) as H by (rewrite <- Hp; apply P_start; [done..|lia]).
  by destruct (StartListener _ _ _ _).
Qed.

Lemma stable_stop port : stable P (ports (@StopListener DB (aw_proxy w) port)).
Proof. apply stable_ports. apply P_stop. Qed.

Lemma ValidateSchedule_empty s : (0 <? size s)%nat = false -> ValidateSchedule s = Ok tt.
Proof.
  intros H. apply Nat.ltb_ge in H. assert (s = ∅) as -> by (apply map_size_empty_inv; lia).
  unfold ValidateSchedule. by rewrite map_to_list_empty.
Qed.

(** Any int64 offset from the clock has a year of four digits: the clock shows a
    time from 1970 to 9707. *)
Definition clock_ok (now : Z) : Prop := 0 <= now < 244178928763 * time.Second.

Lemma clock_ok_until now m : clock_ok now -> rfc3339.four_digit_year (time.Add now (minutes_duration m)).
Proof.
  unfold clock_ok, rfc3339.four_digit_year, time.Add, minutes_duration, time.Unix, time.Second. intros [H1 H2].
  pose proof (wrap64_range (m * time.Minute)) as Hw. unfold int64_min, int64_max in Hw.
  split; [apply Z.div_le_lower_bound; lia|apply Z.div_lt_upper_bound; lia].
Qed.

(** ** Requests *)

Lemma stable_handleSetEnabled r body now : stable P (handleSetEnabled w r body now).
Proof.
  unfold handleSetEnabled. case_match; [apply stable_ret|]. destruct body as [req|]; [|apply stable_ret].
  case_match; [apply stable_ret|]. apply stable_bind; [by apply (stable_op (OpSetEnabled (en_Username req) (en_Enabled req)))|].
  intros [[]|e]; [|apply stable_ret]. apply stable_listed_then; [|apply stable_ret]. intros x row a Ha Hr Hp Hf.
  destruct (en_Enabled req); [by eapply stable_start_at|by apply stable_stop].
Qed.

Lemma stable_handleDowntimeOverride r body now : clock_ok now -> stable P (handleDowntimeOverride w r body now).
Proof.
  intros Hc. unfold handleDowntimeOverride. case_match; [apply stable_ret|]. destruct body as [req|]; [|apply stable_ret].
  case_match; [apply stable_ret|]. case_match.
  - apply stable_bind; [by apply (stable_op (OpClearOverride (ov_Username req)))|]. intros; apply stable_ret.
  - apply stable_bind.
    { apply (stable_op (OpSetOverride (ov_Username req) (time.Add now (minutes_duration (ov_DurationMinutes req))))); [done| |done|done].
      by apply clock_ok_until. }
    intros [[]|e]; [|apply stable_ret]. apply stable_listed_then; [|apply stable_ret]. intros x row a Ha Hr Hp Hf.
    by eapply stable_start_at.
Qed.

Lemma stable_handleDowntimeNow r body now : clock_ok now -> (forall req, body = Some req -> may (nw_Username req)) ->
  stable P (handleDowntimeNow w r body now).
Proof.
  intros Hc Hm. unfold handleDowntimeNow. case_match; [apply stable_ret|]. destruct body as [req|]; [|apply stable_ret].
  case_match; [apply stable_ret|]. case_match.
  - apply stable_bind; [apply (stable_op (OpClearUntil (nw_Username req))); [done..|by apply Hm]|].
    intros [[]|e]; [|apply stable_ret]. apply stable_listed_then; [|apply stable_ret]. intros x row a Ha Hr Hp Hf.
    eapply stable_start_at; [done..|]. by apply andb_true_iff in Hf as [Hf _].
  - apply stable_bind.
    { apply (stable_op (OpSetUntil (nw_Username req) (time.Add now (minutes_duration (nw_DurationMinutes req))))); [done| |done|by apply Hm].
      by apply clock_ok_until. }
    intros [[]|e]; [|apply stable_ret]. apply stable_listed_then; [|apply stable_ret]. intros x row a Ha Hr Hp Hf.
    by apply stable_stop.
Qed.

Lemma stable_handleUpdateDowntime r body : stable P (handleUpdateDowntime r body).
Proof.
  unfold handleUpdateDowntime. case_match; [apply stable_ret|]. destruct body as [req|]; [|apply stable_ret].
  case_match; [apply stable_ret|]. destruct (if (0 <? size _)%nat then _ else _) as [[]|e] eqn:E; [|apply stable_ret].
  apply stable_bind; [|intros; apply stable_ret].
  apply (stable_op (OpUpdateDowntime (do_Username req) (do_DowntimeSchedule req))); [done| |done|done].
  simpl. case_match; [done|by apply ValidateSchedule_empty].
Qed.

Lemma stable_handleUpdateDNS r body : stable P (handleUpdateDNS r body).
Proof.
  unfold handleUpdateDNS. case_match; [apply stable_ret|]. destruct body as [req|]; [|apply stable_ret].
  do 2 (case_match; [apply stable_ret|]). apply stable_bind; [|intros; apply stable_ret].
  eapply (stable_op (OpUpdateDNS _ _ _)); done.
Qed.

Lemma stable_handleChangePassword r body salt : stable P (handleChangePassword r body salt).
Proof.
  unfold handleChangePassword. case_match; [apply stable_ret|]. destruct body as [req|]; [|apply stable_ret].
  case_match; [apply stable_ret|]. apply stable_bind; [|intros; apply stable_ret].
  by apply (stable_op (OpChangePassword (lr_Username req) (lr_Password req) salt)).
Qed.

Lemma stable_handleListUsers now : stable P (handleListUsers now).
Proof.
  apply stable_bind; [|intros; apply stable_ret]. apply stable_db. intros h. apply P_undisturbed, undisturbed_List.
Qed.

Lemma stable_handleTestDNS r body : stable P (handleTestDNS network r body).
Proof. apply stable_same. intros a. unfold handleTestDNS. by repeat case_match. Qed.

Lemma stable_handleEnroll r raw now : stable P (handleEnroll qrcode_New r raw now).
Proof.
  unfold handleEnroll. case_match.
  - apply stable_bind; [apply stable_same; intros; apply enroll_code_proxy|]. intros code.
    apply stable_bind; [by apply stable_same|]. intros; apply stable_ret.
  - case_match; [|apply stable_ret]. apply stable_bind; [by apply stable_same|]. intros known.
    repeat case_match; apply stable_ret.
Qed.

Lemma stable_handlePair r body raw now : stable P (handlePair r body raw now).
Proof.
  unfold handlePair. case_match; [apply stable_ret|]. destruct body as [req|]; [|apply stable_ret].
  case_match; [apply stable_ret|]. apply stable_bind; [apply stable_same; intros; apply consume_code_proxy|]. intros ok.
  case_match; [apply stable_ret|]. apply stable_bind; [|intros; apply stable_ret]. apply stable_db. intros h.
  apply P_undisturbed, undisturbed_Create.
Qed.

Lemma stable_handleDevices r : stable P (handleDevices r).
Proof.
  unfold handleDevices. case_match.
  { apply stable_bind; [|intros; apply stable_ret]. apply stable_db. intros h. apply P_undisturbed, undisturbed_ListDevices. }
  case_match; [|apply stable_ret]. case_match; [apply stable_ret|]. apply stable_bind; [|intros; apply stable_ret].
  apply stable_db. intros h. apply P_undisturbed, undisturbed_Revoke.
Qed.

Lemma stable_handleLogin r body b now : stable P (handleLogin CompareHashAndPassword w r body b now).
Proof.
  unfold handleLogin. case_match; [apply stable_ret|].
  apply stable_bind; [apply stable_same; intros; apply login_gate_proxy|]. intros allowed.
  case_match; [apply stable_ret|]. destruct body as [req|]; [|apply stable_ret]. case_match.
  - apply stable_bind; [by apply stable_same|]. intros; apply stable_ret.
  - apply stable_bind; [by apply stable_same|]. intros; apply stable_ret.
Qed.

Lemma stable_handleLogout r : stable P (handleLogout w r).
Proof.
  unfold handleLogout. case_match; [apply stable_ret|]. apply stable_bind; [|intros; apply stable_ret].
  by apply stable_same; intros a; case_match.
Qed.

Lemma stable_authed_cookie r now : stable P (authed_cookie r now).
Proof. apply stable_same. intros a. unfold authed_cookie. case_match; [apply validate_session_proxy|done]. Qed.

Lemma stable_authed r now : stable P (authed r now).
Proof.
  apply stable_bind; [|intros []; [apply stable_ret|apply stable_authed_cookie]].
  unfold authed_bearer. case_match; [|apply stable_ret]. apply stable_bind; [|intros; apply stable_ret].
  apply stable_db_ST. intros h. apply P_undisturbed, undisturbed_Validate.
Qed.

Lemma stable_guards (next : ST api reply) r now : stable P next ->
  stable P (requireSession w next r now) /\ stable P (requireAdminSession next r now) /\
  stable P (requireSessionPage next r now).
Proof.
  intros Hn. split; [|split].
  - unfold requireSession. case_match; [done|]. apply stable_bind; [apply stable_authed|]. intros []; [done|apply stable_ret].
  - apply stable_bind; [apply stable_authed_cookie|]. intros []; [done|apply stable_ret].
  - apply stable_bind; [apply stable_authed_cookie|]. intros []; [done|apply stable_ret].
Qed.

(** The three handlers that assign or withdraw ports, for the user of the property
    to show; [login_ok] restricts who may be created. *)
Context (login_ok : option loginRequest -> Prop).
Hypothesis P_create : forall body salt now, login_ok body -> stable P (handleCreateUser loc w body salt now).
Hypothesis P_delete : forall r now, stable P (handleDeleteUser loc w r now).
Hypothesis P_port : forall r body, stable P (handleUpdatePort loc w r body).

Lemma stable_session_route path r b e next :
  login_ok (as_login b) -> clock_ok (re_now e) -> (forall req, as_downtimeNow b = Some req -> may (nw_Username req)) ->
  session_route loc w network path r b e = Some next -> stable P next.
Proof.
  intros Hl Hc Hm. unfold session_route. repeat (case_match; [intros [= <-]|]); [by apply stable_same| by apply stable_same| by apply stable_same| by apply stable_same| | | | | | | | | |done].
  - unfold handleUsers. repeat case_match; auto using stable_handleListUsers, stable_ret.
  - apply stable_handleChangePassword.
  - apply P_port.
  - apply stable_handleUpdateDNS.
  - apply stable_handleTestDNS.
  - apply stable_handleSetEnabled.
  - apply stable_handleUpdateDowntime.
  - by apply stable_handleDowntimeOverride.
  - by apply stable_handleDowntimeNow.
Qed.

Lemma stable_serve r b e :
  login_ok (as_login b) -> clock_ok (re_now e) -> (forall req, as_downtimeNow b = Some req -> may (nw_Username req)) ->
  stable P (serve loc w network qrcode_New CompareHashAndPassword r b e).
Proof.
  intros Hl Hc Hm. unfold serve. cbn zeta. destruct (strings.HasPrefix _ _); [apply stable_ret|].
  destruct (_ =? "/api/login")%string; [apply stable_handleLogin|].
  destruct (_ =? "/api/logout")%string; [apply stable_handleLogout|].
  destruct (_ =? "/api/pair")%string; [apply stable_handlePair|]. destruct (_ || _); [apply stable_ret|].
  destruct (session_route _ _ _ _ _ _ _) as [next|] eqn:Es; [apply stable_guards; by eapply stable_session_route|].
  destruct (admin_route _ _ _ _) as [next|] eqn:Ea; [|apply stable_guards, stable_ret]. apply stable_guards. revert Ea.
  unfold admin_route. repeat case_match; intros [= <-]; [apply stable_handleEnroll|apply stable_handleDevices].
Qed.
End requests.

(** ** Properties of the database alone *)

Definition of_store (P : DB -> Prop) (h : Handler DB) : Prop := P (store h).

Section database.
Context {crypto : Crypto} {codec : ScheduleCodec} {sqlite : SQLiteClock}.
Variable loc : time.Location.
Variable w : api_wiring.
Variable network : Network.
Variable qrcode_New : string -> option (list (list bool)).
Variable CompareHashAndPassword : string -> string -> bool.

Context (may : string -> Prop) (P : DB -> Prop).
Hypothesis P_op : forall op d, op_ok op -> (forall u p, op <> OpUpdatePort u p) -> pauses_only may op -> P d -> P (run_op op d).
Hypothesis P_unassign : forall u d, P d -> P (run_op (OpUpdatePort u 0) d).
Hypothesis P_devices : forall d d', only_devices d d' -> P d -> P d'.
Hypothesis P_unique : forall d, P d -> unique_usernames (users d).
Hypothesis P_create : forall body salt now, stable (of_store P) (handleCreateUser loc w body salt now).
Hypothesis P_port : forall r body, stable (of_store P) (handleUpdatePort loc w r body).

Lemma stable_store_delete r now : stable (of_store P) (handleDeleteUser loc w r now).
Proof.
  unfold handleDeleteUser. case_match; [apply stable_ret|]. apply stable_bind.
  { apply stable_bind; [|intros; apply stable_ret]. apply stable_db. intros h. apply P_devices, undisturbed_List. }
  intros l. apply stable_bind.
  { case_match; [|apply stable_ret]. apply stable_bind; [|intros; apply stable_ret]. apply stable_ports. intros h Hh. unfold of_store in *.
    destruct (UpdateUserPort_eq (us := DB_UserStore loc) (aw_proxy w) (http.QueryGet r "username") 0 h) as [_ E].
    pose proof (P_unassign (http.QueryGet r "username") _ Hh) as H1. change (run_op _ _) with (snd (us_UpdatePort (UserStore := DB_UserStore loc) (http.QueryGet r "username") 0 (store h))) in H1.
    rewrite <- E in H1. exact H1. }
  intros _. apply stable_bind; [|intros [[]|e]; apply stable_ret]. apply stable_db. intros h. by apply (P_op (OpDelete (http.QueryGet r "username"))).
Qed.

Lemma stable_serve_store r b e :
  clock_ok (re_now e) -> (forall req, as_downtimeNow b = Some req -> may (nw_Username req)) ->
  stable (of_store P) (serve loc w network qrcode_New CompareHashAndPassword r b e).
Proof.
  intros Hc Hm. apply stable_serve with (may := may) (login_ok := fun _ => True); unfold of_store; try done.
  - intros op h Hok Hp. apply P_op; [done|]. by intros u p ->.
  - intros h d' [Hq _]. by apply P_devices.
  - intros h. apply P_unique.
  - intros u row h Hh _ _. simpl. by rewrite StartListener_store.
  - intros port h Hh. by rewrite StopListener_store.
  - apply stable_store_delete.
Qed.
End database.
