(* ===== verification/AdminAccess.v ===== *)
(** * Who gets into the admin API

    Log-in on every branch, the bound on password guesses, and the guards in
    front of the endpoints. *)

From S2P Require Import Prelude GoStrings GoBase64 GoTime GoNet GoHTTP Downtime Password UserTable UserDB UserDBLemmas RateLimit Dns Config.
From S2P Require Import Proxy UserPorts Collector DeviceTokens AdminSession ClientIP AdminServer ProxyOverDB AdminAPI.

Open Scope list_scope.

Section access.
Context {crypto : Crypto} {codec : ScheduleCodec} {sqlite : SQLiteClock}.
Variable loc : time.Location.
Variable w : api_wiring.
Variable network : Network.
Variable qrcode_New : string -> option (list (list bool)).
Variable CompareHashAndPassword : string -> string -> bool.

Abbreviation serve_ := (serve loc w network qrcode_New CompareHashAndPassword).
Abbreviation login := (handleLogin CompareHashAndPassword w).

(** ** Credentials a request can carry *)

Definition session_live (r : http.Request) (now : Z) (a : api) : Prop :=
  exists token exp, http.Cookie r sessionCookie = Some token /\ sessions (ap_sessions a) !! token = Some exp /\ now <= exp.

Definition device_known (r : http.Request) (a : api) : Prop :=
  let h := http.Get (http.HeaderOf r) "Authorization" in
  let token := strings.TrimPrefix h bearer_prefix in
  strings.HasPrefix h bearer_prefix = true /\ token <> "" /\
  is_Some (token_row (device_tokens (database a)) (Sum256 token)).

(** Nothing but an expired session and pending engine failures is gone. *)
Definition untouched (a a' : api) : Prop :=
  ap_enroll a' = ap_enroll a /\ ap_stats a' = ap_stats a /\ ap_loginLimiter a' = ap_loginLimiter a /\ ap_globalFails a' = ap_globalFails a /\
  sessions (ap_sessions a') ⊆ sessions (ap_sessions a) /\
  exists fs, ap_proxy a' = set_store (ap_proxy a) (set_faults (database a) fs).

Lemma untouched_refl a : untouched a a.
Proof. repeat (split; [done|]). exists (faults (database a)). unfold database. rewrite set_faults_id. by destruct a as [? ? ? ? ? []]. Qed.

Lemma authed_cookie_refused r now a :
  ~ session_live r now a -> exists a', authed_cookie r now a = (false, a') /\ untouched a a'.
Proof.
  intros Hn. unfold authed_cookie. destruct (http.Cookie r sessionCookie) as [token|] eqn:E; [|exists a; split; [done|apply untouched_refl]].
  unfold validate_session, Validate, Validate_read, time.After. destruct (sessions (ap_sessions a) !! token) as [exp|] eqn:Es;
    [|eexists; split; [done|]; destruct a; apply untouched_refl].
  destruct (Z.ltb_spec exp now); [|exfalso; apply Hn; by exists token, exp]. eexists. split; [done|].
  destruct (untouched_refl a) as (? & ? & ? & ? & _ & ?). repeat (split; [done|]). split; [simpl; apply delete_subseteq|done].
Qed.

Lemma authed_bearer_refused r now a :
  ~ device_known r a -> exists a', authed_bearer r now a = (false, a') /\ untouched a a' /\ ap_sessions a' = ap_sessions a.
Proof.
  intros Hn. unfold authed_bearer. destruct (strings.HasPrefix _ _) eqn:Eh; [|exists a; split; [done|]; split; [apply untouched_refl|done]].
  set (token := strings.TrimPrefix _ _) in *. unfold mbind, ST_bind, db_ST.
  destruct (ValidateDeviceToken token now (database a)) as [x d'] eqn:Ev.
  assert (x = None /\ only_faults (database a) d') as [-> [fs ->]].
  { unfold ValidateDeviceToken in Ev. destruct (String.eqb_spec token ""); [by simplify_eq|].
    destruct (select_token_name (Sum256 token) (database a)) as [[name|err] d1] eqn:E.
    - exfalso. apply sql_inv in E as [(? & ? & _)|(fs & E)]; [done|]. apply Hn. split; [done|]. split; [done|]. fold token.
      cbn -[token_row] in E. destruct (token_row _ _); [by eexists|done].
    - simplify_eq. split; [done|]. apply sql_inv in E as [(? & _ & ?)|(fs & E)]; [done|]. cbn -[token_row] in E.
      destruct (token_row _ _); simplify_eq. by exists fs. }
  eexists. split; [done|]. split; [|done]. repeat (split; [done|]). by exists fs.
Qed.

Lemma untouched_trans a1 a2 a3 : untouched a1 a2 -> untouched a2 a3 -> untouched a1 a3.
Proof.
  intros (E1 & C1 & L1 & G1 & S1 & fs1 & P1) (E2 & C2 & L2 & G2 & S2 & fs2 & P2). do 4 (split; [congruence|]). split; [by transitivity (sessions (ap_sessions a2))|]. exists fs2. unfold database in *. by rewrite P2, P1.
Qed.

(** The endpoints by guard. *)
Definition session_paths : list string :=
  ["/api/stats/top-sites"; "/api/stats/top-blocked"; "/api/stats/traffic"; "/api/logs"; "/api/users"; "/api/users/password";
   "/api/users/port"; "/api/users/dns"; "/api/users/dns/test"; "/api/users/enabled"; "/api/users/downtime";
   "/api/users/downtime-override"; "/api/users/downtime-now"].

Definition admin_paths : list string := ["/api/devices/enroll"; "/api/devices"].

Lemma serve_session_path r b e :
  http.URL_Path r ∈ session_paths -> exists next, serve_ r b e = requireSession w next r (re_now e).
Proof.
  intros H. unfold session_paths in H.
  repeat (apply elem_of_cons in H as [H|H]; [unfold serve; rewrite H; destruct (mountDiagnostics w); eexists; reflexivity|]).
  by apply elem_of_nil in H.
Qed.

Lemma serve_admin_path r b e :
  http.URL_Path r ∈ admin_paths -> exists next, serve_ r b e = requireAdminSession next r (re_now e).
Proof.
  intros H. unfold admin_paths in H.
  repeat (apply elem_of_cons in H as [H|H]; [unfold serve; rewrite H; destruct (mountDiagnostics w); eexists; reflexivity|]).
  by apply elem_of_nil in H.
Qed.

(** [C12] No credential, no API: outside demo mode a request to a guarded endpoint
    that carries neither a live session cookie nor a known device token is
    answered 401 and changes nothing; and device management refuses even a valid
    device token, so that a leaked token can neither enroll nor revoke. *)
Theorem admin_api_requires_credentials (r : http.Request) (b : bodies) (e : request_env) (a : api) :
  (http.URL_Path r ∈ session_paths /\ demoMode w = false /\ ~ session_live r (re_now e) a /\ ~ device_known r a) \/
  (http.URL_Path r ∈ admin_paths /\ ~ session_live r (re_now e) a) ->
  let '(rp, a') := serve_ r b e a in rp = WriteHeader 401 /\ untouched a a'.
Proof.
  intros [(Hp & Hd & Hs & Hk)|(Hp & Hs)].
  - destruct (serve_session_path r b e Hp) as [next ->]. unfold requireSession. rewrite Hd. unfold authed.
    destruct (authed_bearer_refused r (re_now e) a Hk) as (a1 & E1 & H1 & Hss).
    destruct (authed_cookie_refused r (re_now e) a1) as (a2 & E2 & H2); [unfold session_live in *; by rewrite Hss|].
    unfold mbind, ST_bind. rewrite E1, E2. simpl. split; [done|]. by eapply untouched_trans.
  - destruct (serve_admin_path r b e Hp) as [next ->]. unfold requireAdminSession.
    destruct (authed_cookie_refused r (re_now e) a Hs) as (a1 & E1 & H1). unfold mbind, ST_bind. by rewrite E1.
Qed.

(** ** Log-in *)

Lemma AdminAuth_Check_ok user password :
  AdminAuth_Check CompareHashAndPassword w user password = Ok tt <->
  user = aw_user w /\ CompareHashAndPassword (aw_bcryptHash w) password = true.
Proof.
  unfold AdminAuth_Check. destruct (String.eqb_spec user (aw_user w)), (CompareHashAndPassword _ _); simpl; naive_solver.
Qed.

(** The state once the gates have been asked. *)
Definition gated (r : http.Request) (now : Z) (a : api) : api := snd (login_gate (clientIP r (trustedProxies w)) now a).

(** [C17] Log-in, completely: 200 exactly for a POST that passes both limiters and
    carries the admin's name and a password matching the bcrypt hash; then the
    cookie holds a fresh session that is valid for its whole lifetime.  In every
    other case no session and no cookie come into being.  A failure is counted,
    for the client and globally, exactly when the answer is 401. *)
Theorem login_decides (r : http.Request) (body : option loginRequest) (bytes : list Z) (now : Z) (a : api) :
  let ip := clientIP r (trustedProxies w) in
  let '(rp, a') := login r body bytes now a in
  (rp_status rp = 200 <->
     http.Method r = http.MethodPost /\ fst (login_gate ip now a) = true /\
     exists req, body = Some req /\ lr_Username req = aw_user w /\
       CompareHashAndPassword (aw_bcryptHash w) (lr_Password req) = true) /\
  (rp_status rp = 200 ->
     rp_cookie rp = Some (sessionCookieFor (session_token bytes) (secureCookies w)) /\
     forall t, t <= now + ttl (ap_sessions a) -> fst (Validate (session_token bytes) t (ap_sessions a')) = true) /\
  (rp_status rp <> 200 -> rp_cookie rp = None /\ ap_sessions a' = ap_sessions a) /\
  (rp_status rp = 401 ->
     ap_loginLimiter a' = RecordFailure ip now (ap_loginLimiter (gated r now a)) /\
     ap_globalFails a' = record now (ap_globalFails (gated r now a))) /\
  (rp_status rp <> 401 -> http.Method r = http.MethodPost ->
     ap_loginLimiter a' = ap_loginLimiter (gated r now a) /\ ap_globalFails a' = ap_globalFails (gated r now a)).
Proof.
  cbn zeta. unfold handleLogin, gated. destruct (String.eqb_spec (http.Method r) http.MethodPost) as [Hm|Hm]; cbn [negb].
  2: { simpl. repeat split; try done; by intros [? _]. }
  unfold mbind, ST_bind. pose proof (eq_refl (ap_sessions (snd (login_gate (clientIP r (trustedProxies w)) now a)))) as Hs.
  assert (ap_sessions (snd (login_gate (clientIP r (trustedProxies w)) now a)) = ap_sessions a) as Hss.
  { unfold login_gate. destruct (Allow _ _ _) as [[] l]; [|done]. simpl. by destruct (allow _ _). }
  clear Hs. destruct (login_gate (clientIP r (trustedProxies w)) now a) as [allowed a1]. cbn [fst snd] in *.
  destruct allowed; cbn [negb]; [|simpl; rewrite Hss; repeat split; try done; by intros (_ & ? & _)].
  destruct body as [req|]; [|simpl; rewrite Hss; repeat split; try done; by intros (_ & _ & ? & ? & _)].
  pose proof (AdminAuth_Check_ok (lr_Username req) (lr_Password req)) as Hc.
  destruct (AdminAuth_Check _ _ (lr_Username req) (lr_Password req)) as [[]|err].
  - destruct (proj1 Hc eq_refl) as [Hu Hpw]. simpl. rewrite Hss. repeat split; try done; [by eexists|].
    intros t Ht. unfold Validate, Validate_read, time.After, time.Add. simpl. rewrite lookup_insert_eq.
    destruct (Z.ltb_spec (now + ttl (ap_sessions a)) t); [lia|done].
  - simpl. rewrite Hss. repeat split; try done. intros (_ & _ & req' & [= <-] & ? & ?).
    assert (Err err = Ok tt); [|done]. by apply Hc.
Qed.

(** ** Guessing *)

(** A log-in attempt, or a tick of the limiter's cleanup. *)
Inductive login_event :=
| Attempt (r : http.Request) (body : option loginRequest) (bytes : list Z) (now : Z)
| Tick (now : Z).

Definition event_time (ev : login_event) : Z := match ev with Attempt _ _ _ now => now | Tick now => now end.

Definition run_login (ev : login_event) (a : api) : option (string * reply) * api :=
  match ev with
  | Attempt r body bytes now => let '(rp, a') := login r body bytes now a in (Some (clientIP r (trustedProxies w), rp), a')
  | Tick now => (None, set_ap_login a (limiter_cleanup now (ap_loginLimiter a)) (ap_globalFails a))
  end.

(** Wrong passwords tried, by the clients that [who] selects. *)
Fixpoint wrong_guesses (who : string -> bool) (l : list login_event) (a : api) : Z :=
  match l with
  | [] => 0
  | ev :: l' =>
      let '(out, a') := run_login ev a in
      (match out with Some (ip, rp) => if who ip && (rp_status rp =? 401) then 1 else 0 | None => 0 end) + wrong_guesses who l' a'
  end.

(** Failures on record since [t0]. *)
Definition since (t0 : Z) (times : list Z) : Z := Z.of_nat (length (filter (fun t => t0 <= t) times)).

Lemma since_active t0 cutoff times : cutoff < t0 -> since t0 (active cutoff times) = since t0 times.
Proof. intros H. unfold since, active. rewrite list_filter_filter_l; [done|]. intros x. lia. Qed.

Lemma since_le t0 times : since t0 times <= Z.of_nat (length times).
Proof. unfold since. pose proof (length_filter (fun t => t0 <= t) times). lia. Qed.

Lemma since_snoc t0 times t : t0 <= t -> since t0 (times ++ [t]) = since t0 times + 1.
Proof. intros H. unfold since. rewrite filter_app, filter_cons, decide_True, filter_nil, length_app by done. simpl. lia. Qed.

Lemma since_nonneg t0 times : 0 <= since t0 times.
Proof. unfold since. lia. Qed.

Definition ip_failures (t0 : Z) (ip : string) (a : api) : Z := since t0 (default [] (counts (ap_loginLimiter a) !! ip)).

(** The limits of a state; no step changes them. *)
Definition limits (a : api) : Z * Z * Z * Z :=
  (limit (ap_loginLimiter a), window (ap_loginLimiter a), RateLimit.max (ap_globalFails a), gwindow (ap_globalFails a)).

Lemma login_gate_spec ip now t0 a :
  now - window (ap_loginLimiter a) < t0 -> now - gwindow (ap_globalFails a) < t0 ->
  let '(b, a1) := login_gate ip now a in
  limits a1 = limits a /\ (forall ip', ip_failures t0 ip' a1 = ip_failures t0 ip' a) /\
  since t0 (times (ap_globalFails a1)) = since t0 (times (ap_globalFails a)) /\
  (b = true -> ip_failures t0 ip a < Z.max 1 (limit (ap_loginLimiter a)) /\
     (0 < RateLimit.max (ap_globalFails a) -> since t0 (times (ap_globalFails a)) < RateLimit.max (ap_globalFails a))).
Proof.
  intros Hw Hg. unfold login_gate.
  assert (let '(b, l) := Allow ip now (ap_loginLimiter a) in
    limit l = limit (ap_loginLimiter a) /\ window l = window (ap_loginLimiter a) /\
    (forall ip', since t0 (default [] (counts l !! ip')) = ip_failures t0 ip' a) /\
    (b = true -> ip_failures t0 ip a < Z.max 1 (limit (ap_loginLimiter a)))) as HA.
  { unfold Allow, ip_failures, time.Add. destruct (counts (ap_loginLimiter a) !! ip) as [ts|] eqn:E; cbn [default from_option];
      [|split; [done|]; split; [done|]; split; [done|]; intros _; unfold since; simpl; lia].
    split; [done|]. split; [done|]. split.
    - intros ip'. simpl. rewrite lookup_insert. case_decide as Hd; [|done]. subst ip'. rewrite E. cbn [default from_option id].
      apply since_active. lia.
    - intros Hb. apply Z.ltb_lt in Hb. cbn [id]. rewrite <- (since_active t0 (now + - window (ap_loginLimiter a)) ts) by lia.
      pose proof (since_le t0 (active (now + - window (ap_loginLimiter a)) ts)). lia. }
  destruct (Allow ip now (ap_loginLimiter a)) as [[] l]; destruct HA as (Hl & Hwi & Hc & Hb); cbn [negb].
  2: { split; [unfold limits; simpl; by rewrite Hl, Hwi|]. split; [exact Hc|]. by split. }
  unfold allow, time.Add. destruct (Z.leb_spec (RateLimit.max (ap_globalFails a)) 0) as [Hm|Hm].
  - split; [unfold limits; simpl; by rewrite Hl, Hwi|]. split; [exact Hc|]. split; [done|]. intros _. split; [by apply Hb|lia].
  - split; [unfold limits; simpl; by rewrite Hl, Hwi|]. split; [exact Hc|]. simpl. rewrite since_active by lia.
    split; [done|]. intros Hg2. split; [by apply Hb|]. intros _. apply Z.ltb_lt in Hg2.
    rewrite <- (since_active t0 (now + - gwindow (ap_globalFails a))) by lia.
    pose proof (since_le t0 (active (now + - gwindow (ap_globalFails a)) (times (ap_globalFails a)))). lia.
Qed.

(** One event: the failures on record grow with the wrong guesses, and a wrong
    guess is only heard below the limits. *)
Lemma run_login_step t0 ev a :
  t0 <= event_time ev -> event_time ev - window (ap_loginLimiter a) < t0 -> event_time ev - gwindow (ap_globalFails a) < t0 ->
  let '(out, a') := run_login ev a in
  limits a' = limits a /\
  match out with
  | None => forall ip, ip_failures t0 ip a' = ip_failures t0 ip a
  | Some (ip, rp) =>
      if rp_status rp =? 401 then
        (forall ip', ip_failures t0 ip' a' = ip_failures t0 ip' a + (if (ip' =? ip)%string then 1 else 0)) /\
        ip_failures t0 ip a < Z.max 1 (limit (ap_loginLimiter a)) /\
        (0 < RateLimit.max (ap_globalFails a) -> since t0 (times (ap_globalFails a)) < RateLimit.max (ap_globalFails a) /\
           since t0 (times (ap_globalFails a')) = since t0 (times (ap_globalFails a)) + 1)
      else forall ip', ip_failures t0 ip' a' = ip_failures t0 ip' a
  end /\
  (match out with Some (_, rp) => (rp_status rp =? 401) = false | None => True end ->
     since t0 (times (ap_globalFails a')) = since t0 (times (ap_globalFails a))).
Proof.
  destruct ev as [r body bytes now|now]; simpl; intros Ht Hw Hg.
  - unfold handleLogin. destruct (negb _); [by simpl|]. unfold mbind at 1, ST_bind at 1.
    pose proof (login_gate_spec (clientIP r (trustedProxies w)) now t0 a Hw Hg) as H.
    destruct (login_gate (clientIP r (trustedProxies w)) now a) as [allowed a1]. destruct H as (Hl & Hi & Hs & Hb).
    destruct allowed; cbn [negb]; [|by simpl]. destruct (Hb eq_refl) as [Hb1 Hb2].
    destruct body as [req|]; [|by simpl]. destruct (AdminAuth_Check _ _ _ _) as [[]|err]; [by simpl|].
    unfold login_failed, update, mbind, ST_bind. simpl. split; [by rewrite <- Hl; unfold limits, record; simpl; case_match|].
    split; [|done]. split; [|split; [done|]].
    + intros ip'. unfold ip_failures, RecordFailure in *. simpl. rewrite lookup_insert, <- Hi.
      destruct (String.eqb_spec ip' (clientIP r (trustedProxies w))) as [->|Hne]; [|rewrite decide_False by done; lia].
      rewrite decide_True by done. cbn [default from_option id]. by rewrite since_snoc.
    + intros Hm. split; [by apply Hb2|]. unfold record. injection Hl as _ _ Hm1 _. rewrite Hm1.
      destruct (Z.leb_spec (RateLimit.max (ap_globalFails a)) 0); [lia|]. simpl. by rewrite since_snoc, Hs.
  - split; [done|]. split; [|done]. intros ip. unfold ip_failures, limiter_cleanup, time.Add. simpl. rewrite lookup_omap.
    destruct (counts (ap_loginLimiter a) !! ip) as [ts|]; [|done]. simpl.
    rewrite <- (since_active t0 (now + - window (ap_loginLimiter a)) ts) by lia. by destruct (active _ ts).
Qed.

(** [C18] Password guesses are bounded.  Within any stretch of time shorter than
    the windows, from any state and whatever the interleaving of attempts and
    cleanup, one client address gets at most the per-address limit of wrong
    guesses heard (one if the limit is not positive), and when the global ceiling
    is on, all addresses together get at most the ceiling. *)
Theorem password_guesses_are_bounded (t0 : Z) (l : list login_event) (a : api) :
  (forall ev, ev ∈ l -> t0 <= event_time ev /\ event_time ev - window (ap_loginLimiter a) < t0 /\
     event_time ev - gwindow (ap_globalFails a) < t0) ->
  (forall ip, wrong_guesses (fun ip' => (ip =? ip')%string) l a <= Z.max 1 (limit (ap_loginLimiter a))) /\
  (0 < RateLimit.max (ap_globalFails a) -> wrong_guesses (fun _ => true) l a <= RateLimit.max (ap_globalFails a)).
Proof.
  intros Hl.
  assert ((forall ip, 0 <= wrong_guesses (fun ip' => (ip =? ip')%string) l a /\
      (wrong_guesses (fun ip' => (ip =? ip')%string) l a = 0 \/
       ip_failures t0 ip a + wrong_guesses (fun ip' => (ip =? ip')%string) l a <= Z.max 1 (limit (ap_loginLimiter a)))) /\
    (0 < RateLimit.max (ap_globalFails a) -> wrong_guesses (fun _ => true) l a = 0 \/
       since t0 (times (ap_globalFails a)) + wrong_guesses (fun _ => true) l a <= RateLimit.max (ap_globalFails a))) as [H1 H2].
  { revert a Hl. induction l as [|ev l IH]; intros a Hl; [simpl; split; [split; [lia|by left]|by left]|].
    cbn [wrong_guesses]. destruct (Hl ev) as (Ht & Hw & Hg); [apply elem_of_cons; by left|].
    pose proof (run_login_step t0 ev a Ht Hw Hg) as Hs. destruct (run_login ev a) as [out a'].
    destruct Hs as (Hlim & Hout & Hglob). injection Hlim as E1 E2 E3 E4. destruct (IH a') as [IH1 IH2].
    { intros ev' Hin. rewrite E2, E4. apply Hl. apply elem_of_cons. by right. }
    rewrite E1 in IH1. rewrite E3 in IH2. destruct out as [[ip rp]|]; [destruct (rp_status rp =? 401)|]; cbn [andb].
    - destruct Hout as (Hc & Hlt & Hgl). split.
      + intros ip'. destruct (IH1 ip') as [Hn Hd]. rewrite Hc in Hd. rewrite andb_true_r.
        destruct (String.eqb_spec ip' ip) as [->|]; [|split; [lia|destruct Hd; [left; lia|right; lia]]].
        split; [lia|]. right. destruct Hd; lia.
      + intros Hm. destruct (Hgl Hm) as [Hg1 Hg2]. destruct (IH2 Hm) as [E|E]; right; lia.
    - split.
      + intros ip'. destruct (IH1 ip') as [Hn Hd]. rewrite Hout in Hd. rewrite andb_false_r. by rewrite Z.add_0_l.
      + intros Hm. rewrite (Hglob eq_refl) in IH2. rewrite Z.add_0_l. by apply IH2.
    - split.
      + intros ip'. destruct (IH1 ip') as [Hn Hd]. rewrite Hout in Hd. by rewrite Z.add_0_l.
      + intros Hm. rewrite (Hglob I) in IH2. rewrite Z.add_0_l. by apply IH2. }
  split.
  - intros ip. destruct (H1 ip) as [Hn [->|H]]; [lia|]. pose proof (since_nonneg t0 (default [] (counts (ap_loginLimiter a) !! ip))).
    unfold ip_failures in H. lia.
  - intros Hm. pose proof (since_nonneg t0 (times (ap_globalFails a))). destruct (H2 Hm); lia.
Qed.
End access.
