(* ===== verification/AdminSpec.v ===== *)
(** * What the admin API promises

    Guarded routes need a credential; every request keeps the database coherent
    and the ports unique; pausing, overriding, disabling and deleting a user do
    what they say; and the places where they do not. *)

From S2P Require Import Prelude GoStrings GoBase64 GoTime GoNet GoHTTP GoRFC3339 Downtime Password UserTable UserDB UserDBLemmas.
From S2P Require Import UserDBOps UserDBCoherence UserDBReach UserDBSpec RateLimit Dns Config Proxy UserPorts Collector DeviceTokens AdminSession ClientIP.
From S2P Require Import UserDBCalm AdminServer ProxyOverDB AdminAPI AdminLemmas.

Open Scope list_scope.

Section spec.
Context {crypto : Crypto} {codec : ScheduleCodec} {sqlite : SQLiteClock}.
Variable loc : time.Location.
Variable w : api_wiring.
Variable network : Network.
Variable qrcode_New : string -> option (list (list bool)).
Variable CompareHashAndPassword : string -> string -> bool.

Abbreviation serve_ := (serve loc w network qrcode_New CompareHashAndPassword).

(** ** Coherence *)

Lemma stable_any_port (P : DB -> Prop) u port :
  (forall d, P d -> P (run_op (OpUpdatePort u port) d)) ->
  stable (of_store P) (ports (@UpdateUserPort DB (DB_UserStore loc) (aw_proxy w) u port)).
Proof.
  intros H. apply stable_ports. intros h Hh. unfold of_store in *.
  destruct (UpdateUserPort_eq (us := DB_UserStore loc) (aw_proxy w) u port h) as [_ ->]. by apply H.
Qed.

(** What every operation on users in [may] preserves, requests preserve. *)
Lemma stable_closed (may : string -> Prop) (P : DB -> Prop) r b e :
  (forall op d, op_ok op -> pauses_only may op -> P d -> P (run_op op d)) ->
  (forall d d', only_devices d d' -> P d -> P d') -> (forall d, P d -> unique_usernames (users d)) ->
  clock_ok (re_now e) -> (forall req, as_downtimeNow b = Some req -> may (nw_Username req)) ->
  stable (of_store P) (serve_ r b e).
Proof.
  intros Hop Hdev Huniq. apply stable_serve_store; [|intros u d; by apply Hop|done|done| |].
  - intros op d Hok _. by apply Hop.
  - intros body salt now. unfold handleCreateUser. destruct body as [req|]; [|apply stable_ret].
    case_match; [apply stable_ret|]. cbn [UserPortRange]. apply stable_bind.
    { apply stable_db. intros h. by apply (Hop (OpAdd _ _ _ _ _ _)). }
    intros [port|err]; [|apply stable_ret]. apply stable_bind; [|intros; apply stable_ret].
    apply stable_any_port. intros d. by apply Hop.
  - intros r' body. unfold handleUpdatePort. case_match; [apply stable_ret|]. destruct body as [req|]; [|apply stable_ret].
    case_match; [apply stable_ret|]. apply stable_bind.
    + unfold check_port. case_match; [apply stable_ret|]. cbn [UserPortRange]. case_match; [apply stable_ret|].
      apply stable_bind; [|intros; apply stable_ret]. apply stable_db. intros h.
      apply Hdev. by destruct (undisturbed_PortOwner (pr_Port req) (store h)).
    + intros [rp|]; [apply stable_ret|]. apply stable_bind; [|intros; apply stable_ret].
      apply stable_any_port. intros d. by apply Hop.
Qed.

Lemma history_op since op d : op_ok op -> history true since d -> history true since (run_op op d).
Proof. intros Hok Hh. by apply h_op. Qed.

Lemma history_devices since d d' : only_devices d d' -> history true since d -> history true since d'.
Proof. intros (ts & fs & ->) Hd. by apply h_faults, h_devices. Qed.

(** [C20] The admin API stays within the specification of the database: a request
    of any kind, authenticated or not, well-formed or not and with any engine
    failures, takes a database state reachable by the documented operations to
    another one; so everything proved of reachable states (unique names, caches
    that agree with the rows, sound password checks) holds while the API runs. *)
Theorem api_requests_are_histories (since : Z) (r : http.Request) (b : bodies) (e : request_env) (a : api) :
  history true since (database a) -> clock_ok (re_now e) ->
  history true since (database (snd (serve_ r b e a))).
Proof.
  intros Hh Hc. revert a Hh. apply (stable_closed (fun _ => True) (history true since)); try done.
  - intros op d Hok _. by apply history_op.
  - apply history_devices.
  - intros d. apply history_unique.
Qed.

(** ** Unique ports *)

(** The table as the API keeps it. *)
Definition table_ok (rows : list Row) : Prop :=
  unique_usernames rows /\ (EmptyString ∉ usernames rows) /\ unique_ports rows.

Lemma unique_ports_map f rows :
  (forall r, r_port (f r) = r_port r) -> unique_ports rows -> unique_ports (map f rows).
Proof.
  intros Hf. unfold unique_ports. induction rows as [|r rows IH]; simpl; [done|]. intros [Hr Hu].
  split; [|by apply IH]. apply Forall_map. apply (Forall_impl _ _ _ Hr). intros r'. simpl. by rewrite !Hf.
Qed.

Lemma unique_ports_delete rows u : unique_ports rows -> unique_ports (delete_rows rows u).
Proof.
  unfold unique_ports, delete_rows. induction rows as [|r rows IH]; simpl; [done|]. intros [Hr Hu].
  destruct (negb _); simpl; [|by apply IH]. split; [|by apply IH]. rewrite Forall_forall in *. intros r' Hin.
  apply Hr. apply list_elem_of_In, List.filter_In in Hin as [Hin _]. by apply list_elem_of_In.
Qed.

(** Giving a user a port that nobody else has. *)
Lemma unique_ports_assign rows u p :
  unique_usernames rows -> unique_ports rows ->
  (forall r, r ∈ rows -> r_username r <> u -> p = 0 \/ r_port r <> p) ->
  unique_ports (update_rows rows u (fun r => set_port r p)).
Proof.
  unfold unique_usernames, unique_ports, update_rows. induction rows as [|x rows IH]; simpl; [done|].
  intros [Hx Hn]%NoDup_cons [Hr Hu] Hfree. split.
  - apply Forall_map. rewrite Forall_forall in *. intros y Hy. specialize (Hr y Hy). simpl.
    pose proof (Hfree x ltac:(apply elem_of_cons; by left)) as Fx. pose proof (Hfree y ltac:(apply elem_of_cons; by right)) as Fy.
    destruct (String.eqb_spec (r_username x) u) as [Ex|Ex], (String.eqb_spec (r_username y) u) as [Ey|Ey]; simpl.
    + exfalso. apply Hx. rewrite Ex, <- Ey. apply list_elem_of_In, in_map. by apply list_elem_of_In.
    + destruct (Fy Ey); [by left|by right].
    + destruct (Fx Ex) as [->|]; [|by right]. destruct (decide (r_port x = 0)); auto.
    + done.
  - apply IH; [done..|]. intros r Hin. apply Hfree. apply elem_of_cons. by right.
Qed.

(** What an operation other than a port assignment does to the rows. *)
Inductive rows_change (rows : list Row) : list Row -> Prop :=
| rc_same : rows_change rows rows
| rc_update u f : keeps_username f -> (forall r, r_port (f r) = r_port r) -> rows_change rows (update_rows rows u f)
| rc_delete u : rows_change rows (delete_rows rows u)
| rc_insert r : r_username r <> "" -> row_of rows (r_username r) = None ->
    (forall r', r' ∈ rows -> r_port r' <> r_port r) -> rows_change rows (rows ++ [r]).

Lemma rows_change_ok rows rows' : rows_change rows rows' -> table_ok rows -> table_ok rows'.
Proof.
  intros [|u f Hu Hp|u|r Hne Hn Hp] (H1 & H2 & H3); [done|..].
  - split; [by apply unique_update|]. split; [by rewrite usernames_update|]. apply unique_ports_map; [|done].
    intros r. by destruct (r_username r =? u)%string.
  - split; [by apply unique_delete|]. split; [|by apply unique_ports_delete].
    intros Hin. apply H2. unfold usernames, delete_rows in *. apply list_elem_of_In, in_map_iff in Hin as (x & Hx & Hin).
    apply List.filter_In in Hin as [Hin _]. apply list_elem_of_In. rewrite <- Hx. by apply in_map.
  - split; [by apply unique_snoc|]. split; [|by apply unique_ports_snoc].
    unfold usernames. rewrite map_app, elem_of_app. intros [Hin|Hin%list_elem_of_singleton]; [by apply H2|congruence].
Qed.

Lemma run_op_rows op d : (forall u p, op <> OpUpdatePort u p) -> rows_change (users d) (users (run_op op d)).
Proof.
  intros Hop. destruct op; simpl;
    try (run_inv write_through_inv; destruct Hrun as [(? & _ & Ho & _)|(row & fs & _ & _ & ->)];
         [rewrite (only_faults_users _ _ Ho); by constructor|simpl; by apply rc_update]).
  - run_inv Add_inv. destruct Hrun as [[_ Ho]|(s & port & fs & _ & _ & Hu & _ & Hn & Hf & ->)].
    { rewrite (only_faults_users _ _ Ho). by constructor. }
    simpl. apply free_port_Some in Hf as (_ & Hf & _). by apply rc_insert.
  - run_inv Delete_inv. destruct Hrun as [(? & _ & Ho & _)|(row & fs & _ & _ & ->)].
    { rewrite (only_faults_users _ _ Ho). by constructor. }
    simpl. by apply rc_delete.
  - run_inv ChangePassword_inv. destruct Hrun as [[_ Ho]|(s & row & fs & _ & _ & _ & ->)].
    { rewrite (only_faults_users _ _ Ho). by constructor. }
    simpl. by apply rc_update.
  - by destruct (Hop u port).
  - run_inv Check_inv. destruct Hrun as [[Ho _]|(user & pass & row & rows & fs & _ & _ & _ & _ & Hr & ->)].
    { rewrite (only_faults_users _ _ Ho). by constructor. }
    simpl. destruct Hr as [->|(s & _ & _ & ->)]; [by constructor|by apply rc_update].
Qed.

Lemma run_port_rows u p d :
  users (run_op (OpUpdatePort u p) d) = users d \/
  users (run_op (OpUpdatePort u p) d) = update_rows (users d) u (fun r => set_port r p).
Proof.
  simpl. destruct (UpdatePort u p d) as [r d'] eqn:E. unfold UpdatePort in E.
  apply affected_user_inv in E as [(? & _ & Ho & _)|(row & fs & _ & _ & ->)]; [| |auto with evan].
  - left. by rewrite <- (only_faults_users _ _ Ho).
  - by right.
Qed.

Lemma table_ok_assign u p d :
  table_ok (users d) -> (forall r, r ∈ users d -> r_username r <> u -> p = 0 \/ r_port r <> p) ->
  table_ok (users (run_op (OpUpdatePort u p) d)).
Proof.
  intros (H1 & H2 & H3) Hf. destruct (run_port_rows u p d) as [->| ->]; [done|].
  split; [by apply unique_update|]. split; [by rewrite usernames_update|]. by apply unique_ports_assign.
Qed.

Lemma table_ok_query d d' : only_faults d d' -> table_ok (users d) -> table_ok (users d').
Proof. intros Ho. by rewrite (only_faults_users _ _ Ho). Qed.

Lemma Add_port_free u p lo hi salt now d port d' r :
  Add u p lo hi salt now d = (Ok port, d') -> r ∈ users d' -> r_username r <> u -> r_port r <> port.
Proof.
  intros [[(? & ?) _]|(s & port' & fs & _ & [= <-] & _ & _ & _ & Hf & ->)]%Add_inv; [done|]. simpl.
  apply free_port_Some in Hf as (_ & Hf & _). rewrite elem_of_app. intros [Hin|Hin%list_elem_of_singleton] Hne; [by apply Hf|].
  by subst r.
Qed.

Lemma PortOwner_owner p d owner r :
  fst (PortOwner p d) = Ok owner -> table_ok (users d) -> p <> 0 -> r ∈ users d -> r_port r = p ->
  owner = r_username r /\ owner <> "".
Proof.
  intros H (_ & H2 & H3) Hp Hin Hr. unfold PortOwner, query, sql, wrap, mbind, M_bind, mret, M_ret in H.
  assert (owner = match List.find (fun r => r_port r =? p) (users d) with Some r => r_username r | None => "" end) as ->
    by (destruct (faults d) as [|[msg|] fs]; simpl in H; congruence).
  assert (List.find (fun r => r_port r =? p) (users d) = Some r) as ->.
  { clear H H2. unfold unique_ports in H3. induction (users d) as [|x rows IH]; [by apply elem_of_nil in Hin|]. simpl in *.
    destruct H3 as [Hx H3]. destruct (Z.eqb_spec (r_port x) p) as [E|E].
    - apply elem_of_cons in Hin as [->|Hin]; [done|]. rewrite Forall_forall in Hx. destruct (Hx r Hin); congruence.
    - apply elem_of_cons in Hin as [->|Hin]; [done|]. by apply IH. }
  split; [done|]. intros E. apply H2. unfold usernames. apply list_elem_of_In. rewrite <- E. apply in_map. by apply list_elem_of_In.
Qed.

(** What a passed check says. *)
Lemma check_port_free u p a a' :
  check_port w u p a = (None, a') -> table_ok (users (database a)) ->
  users (database a') = users (database a) /\
  forall r, r ∈ users (database a') -> r_username r <> u -> p = 0 \/ r_port r <> p.
Proof.
  unfold check_port. destruct (Z.eqb_spec p 0); [intros [= <-]; auto|]. cbn [UserPortRange].
  destruct (_ || _); [done|]. unfold mbind at 1, ST_bind at 1, db.
  pose proof (PortOwner_faults p (database a)) as Ho. destruct (PortOwner p (database a)) as [[owner|err] d'] eqn:E; [|done].
  simpl in Ho. destruct (negb (owner =? "")%string && negb (owner =? u)%string) eqn:Eb; [done|].
  intros [= <-] Hok. change (database (set_ap_proxy a (set_store (ap_proxy a) d'))) with d'.
  rewrite (only_faults_users _ _ Ho). split; [done|]. intros r Hin Hne. right. intros Hp.
  destruct (PortOwner_owner p (database a) owner r) as [-> Hnn]; [by rewrite E|done..|].
  apply andb_false_iff in Eb as [Eb|Eb]; apply negb_false_iff, String.eqb_eq in Eb; congruence.
Qed.

(** A result computed from another leaves the state alone. *)
Lemma snd_fmap {A B} (m : ST api A) (f : A -> B) a : snd ((x ← m; mret (f x)) a) = snd (m a).
Proof. unfold mbind, ST_bind. by destruct (m a). Qed.

Lemma assign_step u p a :
  table_ok (users (database a)) -> (forall r, r ∈ users (database a) -> r_username r <> u -> p = 0 \/ r_port r <> p) ->
  table_ok (users (database (snd (ports (@UpdateUserPort DB (DB_UserStore loc) (aw_proxy w) u p) a)))).
Proof.
  intros Hok Hf. unfold ports. destruct (UpdateUserPort_eq (us := DB_UserStore loc) (aw_proxy w) u p (ap_proxy a)) as [_ E].
  destruct (UpdateUserPort _ _ _ _) as [x h]. simpl in E. unfold database. simpl. rewrite E. by apply (table_ok_assign u p).
Qed.

(** [C13] Dedicated ports stay unique under the whole API: if user names are
    unique and non-empty and no two users share a port, then the same holds after
    any request, whichever of its checks fail and wherever the engine does. *)
Theorem api_keeps_ports_unique (r : http.Request) (b : bodies) (e : request_env) (a : api) :
  table_ok (users (database a)) -> clock_ok (re_now e) ->
  table_ok (users (database (snd (serve_ r b e a)))).
Proof.
  intros Hh Hc. revert a Hh. apply (stable_serve_store loc w network qrcode_New CompareHashAndPassword (fun _ => True) (fun d => table_ok (users d))); try done.
  - intros op d _ Hop _. apply rows_change_ok. by apply run_op_rows.
  - intros u d H. apply table_ok_assign; auto.
  - by intros d d' (ts & fs & ->).
  - by intros d [H _].
  - intros body salt now. unfold handleCreateUser. destruct body as [req|]; [|apply stable_ret].
    case_match; [apply stable_ret|]. cbn [UserPortRange]. intros a Ha. unfold mbind at 1, ST_bind at 1, db.
    pose proof (run_op_rows (OpAdd (lr_Username req) (lr_Password req) (UserPortMin (cfg (aw_proxy w)))
      (UserPortMax (cfg (aw_proxy w))) salt now) (database a) ltac:(done)) as Hc1. simpl in Hc1.
    destruct (Add _ _ _ _ _ _ (database a)) as [[port|err] d'] eqn:E; simpl in Hc1; [|by apply (rows_change_ok _ _ Hc1)].
    rewrite (snd_fmap _ (fun _ => WriteHeader 201)). apply assign_step; [by apply (rows_change_ok _ _ Hc1)|].
    intros r0 Hin Hne. right. by eapply Add_port_free.
  - intros r' body. unfold handleUpdatePort. case_match; [apply stable_ret|]. destruct body as [req|]; [|apply stable_ret].
    case_match; [apply stable_ret|]. intros a Ha. unfold mbind at 1, ST_bind at 1.
    assert (users (database (snd (check_port w (pr_Username req) (pr_Port req) a))) = users (database a)) as Hq.
    { unfold check_port. case_match; [done|]. cbn [UserPortRange]. case_match; [done|]. rewrite snd_fmap. unfold db.
      pose proof (PortOwner_faults (pr_Port req) (database a)) as Ho. destruct (PortOwner _ (database a)). simpl in Ho.
      by apply only_faults_users. }
    destruct (check_port w (pr_Username req) (pr_Port req) a) as [[rp|] a1] eqn:E; simpl in Hq;
      [change (table_ok (users (database a1))); by rewrite Hq|].
    destruct (check_port_free _ _ _ _ E Ha) as [_ Hf]. unfold update_port. rewrite snd_fmap. apply assign_step; [by rewrite Hq|done].
Qed.

(** ** Pausing, overriding, deleting *)

Lemma set_database_id a : set_ap_proxy a (set_store (ap_proxy a) (database a)) = a.
Proof. by destruct a as [? ? ? ? ? []]. Qed.

(** A database call without failures, as a step of the API. *)
Lemma db_eq {A} (m : M DB db_error A) a x d : m (database a) = (x, d) -> db m a = (x, set_ap_proxy a (set_store (ap_proxy a) d)).
Proof. unfold db. by intros ->. Qed.

Lemma listed_eq now a :
  faults (database a) = [] -> listed now a = (map (user_info now) (merge_sort name_le (users (database a))), a).
Proof.
  intros Hf. unfold listed, mbind, ST_bind.
  rewrite (db_eq _ a (Ok (map (user_info now) (merge_sort name_le (users (database a))))) (database a)), set_database_id; [done|].
  unfold List_, query, sql, wrap, mbind, M_bind. by rewrite Hf.
Qed.

Lemma find_listed (f : UserInfo -> bool) now rows u row :
  unique_usernames rows -> row_of rows u = Some row -> f (user_info now row) = true ->
  (forall i, f i = true -> Username i = u) ->
  List.find f (map (user_info now) (merge_sort name_le rows)) = Some (user_info now row).
Proof.
  intros Hu Hr Hf Hname. apply find_only; [|done|].
  - apply list_elem_of_In, in_map, list_elem_of_In. rewrite merge_sort_Permutation. by eapply row_of_elem.
  - intros i Hi Hfi. apply list_elem_of_In, in_map_iff in Hi as (x & <- & Hx). apply list_elem_of_In in Hx.
    rewrite merge_sort_Permutation in Hx. specialize (Hname _ Hfi). simpl in Hname.
    pose proof (row_of_unique _ _ Hu Hx) as Hrx. rewrite Hname, Hr in Hrx. by injection Hrx as ->.
Qed.

Lemma with_port_listed now rows u row :
  unique_usernames rows -> row_of rows u = Some row -> 0 < r_port row ->
  with_port u (map (user_info now) (merge_sort name_le rows)) = Some (user_info now row).
Proof.
  intros Hu Hr Hp. apply find_listed with (u := u); [done..| |].
  - simpl. rewrite (row_of_username _ _ _ Hr), String.eqb_refl. by apply Z.ltb_lt.
  - intros i Hi. by apply andb_true_iff in Hi as [Hi%String.eqb_eq _].
Qed.

Lemma StopUserListener_stops port (h : Handler DB) : userServers (snd (StopUserListener port h)) !! port = None.
Proof. unfold StopUserListener. destruct (userServers h !! port) eqn:E; [simpl; by rewrite lookup_delete_eq|done]. Qed.

Lemma StartListener_starts u port (h : Handler DB) : is_Some (userServers (snd (StartListener (aw_proxy w) u port h)) !! port).
Proof.
  unfold StartListener, startListenerLocked. cbn zeta. cbn [userServers set_ports]. destruct (userServers h !! port) eqn:E; [by eexists|].
  destruct (DemoMode _); simpl; rewrite lookup_insert_eq; by eexists.
Qed.

(** The state after [SetDowntimeUntil] on an existing user. *)
Definition paused_until (u : string) (until : Z) (d : DB) : DB :=
  set_downtimeUntilCache (set_users d (update_rows (users d) u (fun r => set_downtime_until r (rfc3339.Format until))))
    (<[u := until]> (downtimeUntilCache d)).

Lemma SetDowntimeUntil_ok u until d row :
  faults d = [] -> row_of (users d) u = Some row -> SetDowntimeUntil u until d = (Ok tt, paused_until u until d).
Proof.
  intros Hf Hr. unfold SetDowntimeUntil, exec_update. cbn zeta.
  by rewrite (write_through_ok _ u _ (fun d => set_downtimeUntilCache d (<[u := until]> (downtimeUntilCache d))) d row).
Qed.

Lemma handleDowntimeNow_eq r req now a row :
  http.Method r = http.MethodPut -> nw_Username req <> "" -> 0 < nw_DurationMinutes req ->
  faults (database a) = [] -> unique_usernames (users (database a)) -> row_of (users (database a)) (nw_Username req) = Some row ->
  exists a', handleDowntimeNow w r (Some req) now a = (WriteHeader 200, a') /\
    database a' = paused_until (nw_Username req) (now + minutes_duration (nw_DurationMinutes req)) (database a) /\
    (MITMEnabled (cfg (aw_proxy w)) = false -> 0 < r_port row -> userServers (ap_proxy a') !! r_port row = None).
Proof.
  intros Hm Hu Hd Hf Hun Hr. unfold handleDowntimeNow. rewrite Hm. cbn [String.eqb negb].
  change (negb (http.MethodPut =? http.MethodPut)%string) with false. cbv iota.
  rewrite (proj2 (String.eqb_neq _ _) Hu), (proj2 (Z.leb_gt _ _) Hd). cbv iota zeta.
  set (until := time.Add now _). set (d' := paused_until (nw_Username req) until (database a)).
  set (a1 := set_ap_proxy a (set_store (ap_proxy a) d')).
  rewrite (ST_step _ _ _ _ _ (db_eq _ a (Ok tt) d' (SetDowntimeUntil_ok _ _ _ _ Hf Hr))). fold a1. cbv beta iota.
  rewrite (ST_step _ _ _ _ _ (listed_eq now a1 Hf)). cbv beta.
  assert (Hun1 : unique_usernames (users (database a1))) by (by apply unique_update).
  assert (row_of (users (database a1)) (nw_Username req) = Some (set_downtime_until row (rfc3339.Format until))) as Hr1.
  { simpl. rewrite row_of_update by done. by rewrite decide_True, Hr. }
  destruct (Z.ltb_spec 0 (r_port row)) as [Hp|Hp].
  - rewrite (with_port_listed now _ _ _ Hun1 Hr1) by done. cbn [Port user_info r_port set_downtime_until].
    unfold ports, mbind, ST_bind. destruct (StopListener (aw_proxy w) (r_port row) (ap_proxy a1)) as [[] h] eqn:E. eexists. split; [done|]. split.
    + unfold database. cbn [set_ap_proxy ap_proxy]. pose proof (StopListener_store (aw_proxy w) (r_port row) (ap_proxy a1)) as Hs.
      rewrite E in Hs. exact Hs.
    + intros Hmitm _. cbn [set_ap_proxy ap_proxy]. unfold StopListener in E. rewrite Hmitm in E.
      pose proof (StopUserListener_stops (r_port row) (ap_proxy a1)) as Hs. by rewrite E in Hs.
  - assert (exists a', (match with_port (nw_Username req) (map (user_info now) (merge_sort name_le (users (database a1)))) with
       | Some u => ports (StopListener (aw_proxy w) (Port u)) | None => mret tt end) a1 = (tt, a') /\ database a' = database a1)
       as (a' & E & Hdb).
    { case_match; [|by exists a1]. unfold ports. destruct (StopListener _ _ _) as [[] h] eqn:E. eexists. split; [done|].
      pose proof (StopListener_store (aw_proxy w) (Port u) (ap_proxy a1)) as Hs. rewrite E in Hs. exact Hs. }
    rewrite (ST_step _ _ _ _ _ E). exists a'. split; [done|]. split; [by rewrite Hdb|lia].
Qed.

(** [C14] Pausing a user takes effect at once: with a working engine, a PUT that asks
    for a positive time under 292 years for a user with a row is answered 200, and then
    the user is in downtime for the whole requested time; when the block page is off,
    no server is left on the user's port (with the block page on the port stays open to
    show it).  Longer pauses wrap around, which is a theorem of its own. *)
Theorem downtime_now_blocks_at_once (r : http.Request) (req : downtimeNowRequest) (now : Z) (a : api) (row : Row) :
  http.Method r = http.MethodPut -> nw_Username req <> "" ->
  0 < nw_DurationMinutes req -> nw_DurationMinutes req * time.Minute <= int64_max -> 0 <= now ->
  faults (database a) = [] -> unique_usernames (users (database a)) -> row_of (users (database a)) (nw_Username req) = Some row ->
  let '(rp, a') := handleDowntimeNow w r (Some req) now a in
  rp = WriteHeader 200 /\
  (forall t, t < now + nw_DurationMinutes req * time.Minute -> IsInDowntime loc t (database a') (nw_Username req) = true) /\
  (MITMEnabled (cfg (aw_proxy w)) = false -> 0 < r_port row -> userServers (ap_proxy a') !! r_port row = None).
Proof.
  intros Hm Hu Hd Hmax Hnow Hf Hun Hr. destruct (handleDowntimeNow_eq r req now a row) as (a' & -> & Hdb & Hp); [done..|].
  split; [done|]. split; [|done]. intros t Ht. rewrite Hdb. unfold IsInDowntime, GetDowntimeUntil, paused_until. simpl.
  rewrite lookup_insert_eq. cbn [default from_option id]. unfold minutes_duration. rewrite wrap64_id by (unfold int64_min, time.Minute, time.Second in *; lia).
  unfold time.IsZero, time.Before, time.zero. unfold time.Minute, time.Second in *.
  destruct (Z.eqb_spec (now + nw_DurationMinutes req * (60 * 1000000000)) (-62135596800 * 1000000000)); [lia|].
  destruct (Z.ltb_spec t (now + nw_DurationMinutes req * (60 * 1000000000))); [done|lia].
Qed.

(** A pause that is too long is no pause: minutes are multiplied in 64 bits,
    so from 153722868 minutes on the product can wrap to a negative duration; the
    request is answered 200 and the user's downtime is what it would be had the
    pause been lifted. *)
Theorem oversized_pause_is_lost (r : http.Request) (req : downtimeNowRequest) (now t : Z) (a : api) (row : Row) :
  http.Method r = http.MethodPut -> nw_Username req <> "" ->
  0 < nw_DurationMinutes req -> minutes_duration (nw_DurationMinutes req) <= 0 -> now <= t ->
  faults (database a) = [] -> unique_usernames (users (database a)) -> row_of (users (database a)) (nw_Username req) = Some row ->
  let '(rp, a') := handleDowntimeNow w r (Some req) now a in
  rp = WriteHeader 200 /\
  IsInDowntime loc t (database a') (nw_Username req) =
    IsInDowntime loc t (snd (ClearDowntimeUntil (nw_Username req) (database a))) (nw_Username req).
Proof.
  intros Hm Hu Hd Hneg Ht Hf Hun Hr. destruct (handleDowntimeNow_eq r req now a row) as (a' & -> & Hdb & _); [done..|].
  split; [done|]. rewrite Hdb. unfold ClearDowntimeUntil, exec_update.
  rewrite (write_through_ok _ (nw_Username req) _
    (fun d => set_downtimeUntilCache d (delete (nw_Username req) (downtimeUntilCache d))) _ row Hf Hr).
  unfold IsInDowntime, GetDowntimeUntil, GetDowntimeOverride, GetDowntime, paused_until. simpl.
  rewrite lookup_insert_eq, lookup_delete_eq. cbn [default from_option id]. unfold time.Before.
  destruct (Z.ltb_spec t (now + minutes_duration (nw_DurationMinutes req))); [lia|].
  by rewrite !andb_false_r.
Qed.

(** A downtime override opens the port of a disabled user: the handler starts
    the listener of any user with a port, although such a user is not to have one
    and the reconciler will stop it at its next tick. *)
Theorem override_opens_disabled_users_port (r : http.Request) (req : overrideRequest) (now : Z) (a : api) (row : Row) :
  http.Method r = http.MethodPut -> ov_Username req <> "" -> 0 < ov_DurationMinutes req ->
  faults (database a) = [] -> unique_usernames (users (database a)) -> row_of (users (database a)) (ov_Username req) = Some row ->
  0 < r_port row -> IsEnabled (database a) (ov_Username req) = false -> MITMEnabled (cfg (aw_proxy w)) = false ->
  let '(rp, a') := handleDowntimeOverride w r (Some req) now a in
  rp = WriteHeader 200 /\ is_Some (userServers (ap_proxy a') !! r_port row) /\
  forall t, @listenerWanted DB (DB_UserStore loc) (aw_proxy w) t (ap_proxy a') (ov_Username req) = false.
Proof.
  intros Hm Hu Hd Hf Hun Hr Hp He Hmitm. unfold handleDowntimeOverride. rewrite Hm.
  change (negb (http.MethodPut =? http.MethodPut)%string) with false. cbv iota.
  rewrite (proj2 (String.eqb_neq _ _) Hu), (proj2 (Z.leb_gt _ _) Hd). cbv iota zeta.
  set (until := time.Add now _).
  set (d' := set_overrideCache (set_users (database a) (update_rows (users (database a)) (ov_Username req)
     (fun r => set_override_until r (rfc3339.Format until)))) (<[ov_Username req := until]> (overrideCache (database a)))).
  set (a1 := set_ap_proxy a (set_store (ap_proxy a) d')).
  assert (SetDowntimeOverride (ov_Username req) until (database a) = (Ok tt, d')) as Hset.
  { unfold SetDowntimeOverride, exec_update. cbn zeta. by rewrite (write_through_ok _ (ov_Username req) _
      (fun d => set_overrideCache d (<[ov_Username req := until]> (overrideCache d))) (database a) row). }
  rewrite (ST_step _ _ _ _ _ (db_eq _ a (Ok tt) d' Hset)). fold a1. cbv beta iota.
  rewrite (ST_step _ _ _ _ _ (listed_eq now a1 Hf)). cbv beta.
  rewrite (with_port_listed now _ _ (set_override_until row (rfc3339.Format until)));
    [|by apply unique_update|simpl; rewrite row_of_update by done; by rewrite decide_True, Hr|done].
  cbn [Port user_info r_port set_override_until]. unfold ports, mbind, ST_bind.
  pose proof (StartListener_starts (ov_Username req) (r_port row) (ap_proxy a1)) as Hs.
  pose proof (StartListener_store (aw_proxy w) (ov_Username req) (r_port row) (ap_proxy a1)) as Hst.
  destruct (StartListener _ _ _ _) as [[] h]. simpl in *. split; [done|]. split; [done|].
  intros t. unfold listenerWanted. rewrite Hmitm, Hst. change (IsEnabled d' (ov_Username req)) with (IsEnabled (database a) (ov_Username req)).
  simpl. change (IsEnabled d' (ov_Username req)) with (IsEnabled (database a) (ov_Username req)). by rewrite He.
Qed.

(** The state after [Delete] on an existing user. *)
Lemma Delete_ok u d row :
  faults d = [] -> row_of (users d) u = Some row ->
  Delete u d = (Ok tt, mkDB (delete_rows (users d) u) (device_tokens d) (columns d) [] (delete u (cache d))
    (delete u (dnsCache d)) (delete u (downtimeCache d)) (delete u (overrideCache d)) (downtimeUntilCache d)
    (delete u (enabledCache d))).
Proof.
  intros Hf Hr. unfold Delete, affected_user, exec_delete, exec_where, wrap, sql, mbind, M_bind. rewrite Hf. cbn.
  destruct (rows_affected (users d) u =? 0)%nat eqn:E; [apply rows_affected_0 in E; congruence|]. destruct d. simpl in *. by subst.
Qed.

Lemma UpdatePort_ok u port d row :
  faults d = [] -> row_of (users d) u = Some row ->
  UpdatePort u port d = (Ok tt, set_users d (update_rows (users d) u (fun r => set_port r port))).
Proof.
  intros Hf Hr. unfold UpdatePort, affected_user, exec_update, exec_where, wrap, sql, mbind, M_bind. rewrite Hf. cbn.
  destruct (rows_affected (users d) u =? 0)%nat eqn:E; [|done]. apply rows_affected_0 in E. congruence.
Qed.

(** Unassigning the only port a user has in the table stops its server. *)
Lemma UpdateUserPort_stops u port (h : Handler DB) :
  (forall p, portUsers h !! p = Some u <-> p = port) -> port <> 0 ->
  userServers (snd (@UpdateUserPort DB (DB_UserStore loc) (aw_proxy w) u 0 h)) !! port = None.
Proof.
  intros Hp Hne. unfold UpdateUserPort. unfold mbind, ST_bind, gets.
  assert (current_port u h = port) as ->.
  { unfold current_port. rewrite (find_only _ _ (port, u)); [done| | |].
    - apply elem_of_map_to_list. by apply Hp.
    - simpl. apply String.eqb_refl.
    - intros [p v] Hin Hv. simpl in Hv. apply String.eqb_eq in Hv as ->. apply elem_of_map_to_list in Hin.
      apply Hp in Hin. by subst p. }
  rewrite (proj2 (Z.eqb_neq port 0) Hne). cbn [negb].
  pose proof (StopUserListener_stops port h) as Hs. destruct (StopUserListener port h) as [[] h1]. simpl in Hs.
  unfold UpdatePort_. destruct (us_UpdatePort u 0 (store h1)) as [[[]|e] s]; done.
Qed.

(** [C15] Deleting a user closes everything: with a working engine the answer is
    200, the row is gone, no password is accepted for the name, and the server of
    the user's port has been stopped. *)
Theorem delete_closes_everything (r : http.Request) (now : Z) (a : api) (row : Row) :
  let u := http.QueryGet r "username" in
  u <> "" -> faults (database a) = [] -> unique_usernames (users (database a)) ->
  row_of (users (database a)) u = Some row -> 0 < r_port row ->
  (forall p, portUsers (ap_proxy a) !! p = Some u <-> p = r_port row) ->
  let '(rp, a') := handleDeleteUser loc w r now a in
  rp = WriteHeader 200 /\ row_of (users (database a')) u = None /\
  (forall header salt t, fst (Check header salt t (database a')) <> Ok u) /\
  userServers (ap_proxy a') !! r_port row = None.
Proof.
  intros u Hu Hf Hun Hr Hp Hpu. unfold handleDeleteUser. fold u. rewrite (proj2 (String.eqb_neq u "") Hu).
  rewrite (ST_step _ _ _ _ _ (listed_eq now a Hf)). rewrite (with_port_listed now _ _ _ Hun Hr Hp).
  pose proof (UpdateUserPort_stops u (r_port row) (ap_proxy a) Hpu ltac:(lia)) as Hstop.
  destruct (UpdateUserPort_eq (us := DB_UserStore loc) (aw_proxy w) u 0 (ap_proxy a)) as [_ Hst].
  change (us_UpdatePort u 0 (store (ap_proxy a))) with (UpdatePort u 0 (database a)) in Hst.
  rewrite (UpdatePort_ok u 0 (database a) row Hf Hr) in Hst.
  destruct (@UpdateUserPort DB (DB_UserStore loc) (aw_proxy w) u 0 (ap_proxy a)) as [x h] eqn:Eu. simpl in Hstop, Hst.
  assert ((_ ← ports (@UpdateUserPort DB (DB_UserStore loc) (aw_proxy w) u 0); mret tt) a = (tt, set_ap_proxy a h)) as Ep
    by (unfold mbind, ST_bind, ports; by rewrite Eu).
  rewrite (ST_step _ _ _ _ _ Ep).
  assert (row_of (users (store h)) u = Some (set_port row 0)) as Hr'
    by (rewrite Hst; simpl; rewrite row_of_update by done; by rewrite decide_True, Hr).
  assert (faults (store h) = []) as Hf' by (by rewrite Hst).
  pose proof (Delete_ok u (store h) _ Hf' Hr') as Hdel.
  rewrite (ST_step _ _ _ _ _ (db_eq _ (set_ap_proxy a h) _ _ Hdel)).
  split; [done|]. split; [simpl; rewrite row_of_delete; by rewrite decide_True|]. split; [|done].
  intros header salt t. exact (fun E => Delete_locks_out_core _ _ _ _ _ _ Hdel E).
Qed.

(** ** Two port requests at once *)

Lemma check_port_ok u p a :
  p <> 0 -> in_range (aw_proxy w) p = true -> faults (database a) = [] ->
  (forall r, r ∈ users (database a) -> r_port r <> p) -> check_port w u p a = (None, a).
Proof.
  intros Hp Hr Hf Hfree. unfold check_port, in_range in *. rewrite (proj2 (Z.eqb_neq p 0) Hp). cbn [UserPortRange].
  apply andb_true_iff in Hr as [H1%Z.leb_le H2%Z.leb_le].
  rewrite (proj2 (Z.ltb_ge _ _) H1), (proj2 (Z.ltb_ge _ _) H2). cbn [orb].
  assert (PortOwner p (database a) = (Ok "", database a)) as E.
  { unfold PortOwner, query, sql, wrap, mbind, M_bind. rewrite Hf.
    destruct (List.find (fun r => r_port r =? p) (users (database a))) as [x|] eqn:F; [|done].
    apply List.find_some in F as [Hin Hx]. apply Z.eqb_eq in Hx. by destruct (Hfree x); [apply list_elem_of_In|]. }
  rewrite (ST_step _ _ _ _ _ (db_eq _ a _ _ E)), set_database_id. done.
Qed.

Lemma update_port_ok u p a row :
  faults (database a) = [] -> row_of (users (database a)) u = Some row ->
  exists a', update_port loc w u p a = (WriteHeader 200, a') /\
    database a' = set_users (database a) (update_rows (users (database a)) u (fun r => set_port r p)).
Proof.
  intros Hf Hr. unfold update_port, api_store, ports, mbind, ST_bind.
  destruct (UpdateUserPort_eq (us := DB_UserStore loc) (aw_proxy w) u p (ap_proxy a)) as [E1 E2].
  change (us_UpdatePort u p (store (ap_proxy a))) with (UpdatePort u p (database a)) in E1, E2.
  rewrite (UpdatePort_ok u p (database a) row Hf Hr) in E1, E2.
  destruct (@UpdateUserPort DB (DB_UserStore loc) (aw_proxy w) u p (ap_proxy a)) as [x h]. simpl in E1, E2. subst x.
  exists (set_ap_proxy a h). by split.
Qed.

(** The check that a port is free and its assignment are two steps of the
    handler: when two requests for the same free port both check before either
    assigns, both are answered 200 and the two users share the port. *)
Theorem interleaved_port_updates_share_a_port (u v : string) (p : Z) (a : api) (ru rv : Row) :
  u <> v -> p <> 0 -> in_range (aw_proxy w) p = true -> faults (database a) = [] ->
  row_of (users (database a)) u = Some ru -> row_of (users (database a)) v = Some rv ->
  (forall r, r ∈ users (database a) -> r_port r <> p) ->
  let '(c1, a1) := check_port w u p a in let '(c2, a2) := check_port w v p a1 in
  let '(r1, a3) := update_port loc w u p a2 in let '(r2, a4) := update_port loc w v p a3 in
  c1 = None /\ c2 = None /\ r1 = WriteHeader 200 /\ r2 = WriteHeader 200 /\
  r_port <$> row_of (users (database a4)) u = Some p /\ r_port <$> row_of (users (database a4)) v = Some p.
Proof.
  intros Huv Hp Hr Hf Hu Hv Hfree. rewrite (check_port_ok u p a), (check_port_ok v p a) by done.
  destruct (update_port_ok u p a ru Hf Hu) as (a3 & -> & E3).
  destruct (update_port_ok v p a3 rv) as (a4 & -> & E4); [by rewrite E3| |].
  { rewrite E3. simpl. rewrite row_of_update by done. by rewrite decide_False. }
  do 4 (split; [done|]). rewrite E4, E3. simpl. rewrite !row_of_update by done.
  rewrite (decide_False (P := v = u)), (decide_False (P := u = v)), !decide_True by done. by rewrite Hu, Hv.
Qed.

(** ** DNS servers *)

Lemma prefix_app s t : String.prefix s (s +:+ t) = true.
Proof. induction s as [|a s IH]; [by destruct t|]. simpl. by destruct (ascii_dec a a). Qed.

Lemma IndexByte_bracket host t :
  strings.HasByte host "]" = false -> strings.IndexByte (String "[" (host +:+ String "]" t)) "]" = Some (S (String.length host)).
Proof. intros H. simpl. by rewrite net.IndexByte_app. Qed.

(** A literal in brackets without a port does not split. *)
Lemma SplitHostPort_bare_bracket host :
  strings.HasByte host "]" = false -> net.SplitHostPort (String "[" (host +:+ "]")) = None.
Proof.
  intros H. unfold net.SplitHostPort. destruct (strings.LastIndexByte _ ":") as [i|]; [|done].
  rewrite (IndexByte_bracket host "" H). cbn [String.length]. rewrite net.length_app. cbn [String.length].
  by rewrite (proj2 (Nat.eqb_eq _ _)) by lia.
Qed.

(** Nor does it once it has been joined with one. *)
Lemma SplitHostPort_double_bracket host port :
  strings.HasByte host "]" = false -> strings.HasByte port ":" = false ->
  net.SplitHostPort (String "[" (String "[" (host +:+ "]")) +:+ "]:" +:+ port) = None.
Proof.
  intros H Hp.
  set (joined := String "[" (String "[" host +:+ String "]" (String "]" (String ":" port)))).
  assert (String "[" (String "[" (host +:+ "]")) +:+ "]:" +:+ port = joined) as ->
    by exact (f_equal (fun x => String "[" (String "[" x)) (string_app_assoc host "]" ("]:" +:+ port))).
  assert (joined = String "[" (String "[" (host +:+ "]]")) +:+ String ":" port) as E
    by (symmetry; exact (f_equal (fun x => String "[" (String "[" x)) (string_app_assoc host "]]" (String ":" port)))).
  assert (strings.LastIndexByte joined ":" = Some (String.length (String "[" (String "[" (host +:+ "]]"))))) as El
    by (rewrite E; by apply net.LastIndexByte_app).
  assert (strings.IndexByte joined "]" = Some (S (String.length (String "[" host)))) as Ei
    by (apply IndexByte_bracket; by rewrite net.HasByte_cons, H).
  assert (String.length joined = (String.length host + 5 + String.length port)%nat) as Elen
    by (rewrite E, net.length_app; cbn [String.length]; rewrite net.length_app; cbn [String.length]; lia).
  unfold net.SplitHostPort. rewrite El. cbv beta zeta. rewrite Ei, Elen. cbn [String.length]. rewrite net.length_app. cbn [String.length].
  rewrite !(proj2 (Nat.eqb_neq _ _)) by lia. reflexivity.
Qed.

(** Normalising a DNS server makes it dialable and is idempotent: for the
    plain and tls protocols a server without brackets ends up as host and port,
    the default port being supplied when there is none, and for https it carries
    the scheme.  An IPv6 literal in brackets without a port is the exception: the
    result does not split, so every lookup of that user fails. *)
Theorem normalizeDNSServer_dialable (server protocol : string) :
  let n := normalizeDNSServer server protocol in
  (protocol = "plain" \/ protocol = "tls" -> net.unbracketed server ->
     is_Some (net.SplitHostPort n) /\ normalizeDNSServer n protocol = n /\
     (net.SplitHostPort server = None -> net.SplitHostPort n = Some (server, if (protocol =? "tls")%string then "853" else "53"))) /\
  (protocol = "https" -> strings.HasPrefix n "https://" = true /\ normalizeDNSServer n protocol = n) /\
  (protocol = "plain" \/ protocol = "tls" -> forall host, server = String "[" (host +:+ "]") ->
     strings.HasByte host "]" = false -> strings.HasByte host ":" = true -> net.SplitHostPort n = None).
Proof.
  cbn zeta.
  assert (forall s, protocol = "plain" \/ protocol = "tls" -> normalizeDNSServer s protocol =
    match net.SplitHostPort s with Some _ => s | None => net.JoinHostPort s (if (protocol =? "tls")%string then "853" else "53") end) as Ep
    by (intros s [->| ->]; done).
  assert (net.unbracketed (if (protocol =? "tls")%string then "853" else "53") /\
    strings.HasByte (if (protocol =? "tls")%string then "853" else "53") ":" = false) as [Hb Hc] by (by destruct (protocol =? "tls")%string).
  split; [|split].
  - intros Hp Hs. rewrite !(Ep server Hp).
    destruct (net.SplitHostPort server) as [hp|] eqn:E; [rewrite (Ep server Hp), E; split; [by eexists|done]|].
    pose proof (net.SplitHostPort_JoinHostPort server _ Hs Hb Hc) as Hj. rewrite (Ep _ Hp), Hj. split; [by eexists|]. by split.
  - intros ->. change (normalizeDNSServer server "https") with
      (if strings.HasPrefix server "https://" then server else ("https://" +:+ server)%string).
    destruct (strings.HasPrefix server "https://") eqn:E.
    + split; [done|]. unfold normalizeDNSServer. simpl. by rewrite E.
    + assert (strings.HasPrefix ("https://" +:+ server) "https://" = true) as E2 by apply prefix_app. split; [done|].
      unfold normalizeDNSServer. change (("https" =? "plain")%string || ("https" =? "tls")%string) with false. cbv iota.
      change ("https" =? "https")%string with true. cbv iota. by rewrite E2.
  - intros Hp host -> Hh Hcol. rewrite (Ep _ Hp).
    rewrite SplitHostPort_bare_bracket by done. unfold net.JoinHostPort.
    rewrite net.HasByte_cons, net.HasByte_app, Hcol. simpl orb. cbv iota.
    apply (SplitHostPort_double_bracket host); done.
Qed.
End spec.
