(* ===== verification/AdminPorts.v ===== *)
(** * Listening ports follow the table

    While the engine works, every running server belongs to the user whom the
    database gives the port and no server listens that the handler has forgotten,
    under every request to the admin API, every reconciliation and every failing
    server. *)

From S2P Require Import Prelude GoStrings GoBase64 GoTime GoNet GoHTTP GoRFC3339 Downtime Password UserTable UserDB UserDBLemmas.
From S2P Require Import UserDBOps UserDBCoherence UserDBReach UserDBSpec RateLimit Dns Config Proxy UserPorts UserPortsSpec Sockets Collector DeviceTokens.
From S2P Require Import UserDBCalm AdminSession ClientIP AdminServer ProxyOverDB AdminAPI AdminLemmas AdminSpec.

Open Scope list_scope.

(** Who owns a port, in the table. *)
Definition owns (rows : list Row) (u : string) (p : Z) : Prop :=
  exists row, row_of rows u = Some row /\ r_port row = p.

Definition assigned (h : Handler DB) : Prop :=
  faults (store h) = [] /\ table_ok (users (store h)) /\
  (forall p, portUsers h !! p = sv_owner <$> userServers h !! p) /\
  (forall p srv, userServers h !! p = Some srv -> 0 < p /\ owns (users (store h)) (sv_owner srv) p) /\
  known h.

Lemma unique_owner rows u v p : table_ok rows -> 0 < p -> owns rows u p -> owns rows v p -> u = v.
Proof.
  intros (_ & _ & Hp) Hpos (r & Hr & E) (r' & Hr' & E').
  pose proof (find_port rows p r Hp Hpos (row_of_elem _ _ _ Hr) E) as H1.
  pose proof (find_port rows p r' Hp Hpos (row_of_elem _ _ _ Hr') E') as H2. rewrite H1 in H2. injection H2 as ->.
  by rewrite <- (row_of_username _ _ _ Hr), <- (row_of_username _ _ _ Hr').
Qed.

Lemma owns_functional rows u p q : owns rows u p -> owns rows u q -> p = q.
Proof. intros (r & Hr & <-) (r' & Hr' & <-). congruence. Qed.

(** A change of the rows that keeps the owners of the running servers. *)
Lemma assigned_rows (h : Handler DB) d' :
  assigned h -> faults d' = [] -> table_ok (users d') ->
  (forall p srv, userServers h !! p = Some srv -> owns (users (store h)) (sv_owner srv) p -> owns (users d') (sv_owner srv) p) ->
  assigned (set_store h d').
Proof.
  intros (_ & _ & Ha & Hs & Hk) Hf Ht Ho. split; [done|]. split; [done|]. split; [done|]. split; [|done]. intros p srv Hsrv.
  destruct (Hs p srv Hsrv) as [Hp Hown]. split; [done|]. by apply Ho.
Qed.

Lemma owns_update rows u f v p :
  keeps_username f -> (forall r, r_port (f r) = r_port r) -> owns rows v p -> owns (update_rows rows u f) v p.
Proof.
  intros Hu Hp (r & Hr & <-). unfold owns. rewrite row_of_update by done. case_decide; rewrite Hr; simpl; eexists; (split; [done|]); auto.
Qed.

Section operations.
Context {crypto : Crypto} {codec : ScheduleCodec} {sqlite : SQLiteClock}.
Variable loc : time.Location.

Lemma plain_op_owns op d v p : plain_op op -> owns (users d) v p -> owns (users (run_op op d)) v p.
Proof.
  intros Hop Ho. destruct op; simpl in Hop; try done; simpl;
    try (run_inv write_through_inv; destruct Hrun as [(? & _ & Hof & _)|(row & fs & _ & _ & ->)];
         [by rewrite (only_faults_users _ _ Hof)|simpl; by apply owns_update]).
  - run_inv ChangePassword_inv. destruct Hrun as [[_ Hof]|(s & row & fs & _ & _ & _ & ->)].
    { by rewrite (only_faults_users _ _ Hof). }
    simpl. by apply owns_update.
  - run_inv Check_inv. destruct Hrun as [[Hof _]|(user & pass & row & rows & fs & _ & _ & _ & _ & Hr & ->)].
    { by rewrite (only_faults_users _ _ Hof). }
    simpl. destruct Hr as [->|(s & _ & _ & ->)]; [done|by apply owns_update].
Qed.

Lemma assigned_op op h : plain_op op -> assigned h -> assigned (set_store h (run_op op (store h))).
Proof.
  intros Hp Ha. pose proof Ha as (Hf & Ht & _). apply assigned_rows; [done|by apply calm_run_op| |].
  - apply (rows_change_ok (users (store h))); [|done]. apply run_op_rows. by intros u p ->.
  - intros p srv _. by apply plain_op_owns.
Qed.

Lemma assigned_undisturbed h d' : undisturbed (store h) d' -> assigned h -> assigned (set_store h d').
Proof.
  intros [(ts & fs & ->) Hc] Ha. pose proof Ha as (Hf & Ht & _). by apply assigned_rows; [|apply Hc| |].
Qed.

Lemma assigned_stop port (h h' : Handler DB) :
  assigned h -> store h' = store h -> portUsers h' = delete port (portUsers h) -> userServers h' = delete port (userServers h) ->
  known h' -> assigned h'.
Proof.
  intros (Hf & Ht & Ha & Hs & _) E1 E2 E3 Hk. unfold assigned. rewrite E1, E2, E3. split; [done|]. split; [done|]. split; [|split; [|done]].
  - intros p. rewrite !lookup_delete. case_decide; [done|apply Ha].
  - intros p srv. rewrite lookup_delete. case_decide; [done|apply Hs].
Qed.

(** The state seen by [assigned], ignoring effects that are not about servers. *)
Lemma assigned_eq (h h' : Handler DB) :
  store h' = store h -> portUsers h' = portUsers h -> userServers h' = userServers h -> known h' -> assigned h -> assigned h'.
Proof. unfold assigned. intros -> -> -> Hk (H1 & H2 & H3 & H4 & _). by split_and!. Qed.

Lemma assigned_insert (h h' : Handler DB) port u id :
  assigned h -> 0 < port -> owns (users (store h)) u port -> store h' = store h ->
  portUsers h' = <[port := u]> (portUsers h) -> userServers h' = <[port := mkServer id u]> (userServers h) -> known h' -> assigned h'.
Proof.
  intros (Hf & Ht & Ha & Hs & _) Hp Ho E1 E2 E3 Hk. unfold assigned. rewrite E1, E2, E3. split; [done|]. split; [done|]. split; [|split; [|done]].
  - intros p. rewrite !lookup_insert. case_decide; [done|apply Ha].
  - intros p srv. rewrite lookup_insert. case_decide as E; [intros [= <-]; subst p; simpl; auto|apply Hs].
Qed.

Lemma assigned_known (h : Handler DB) : assigned h -> known h.
Proof. by intros (_ & _ & _ & _ & Hk). Qed.

Lemma StopUserListener_assigned port (h : Handler DB) : assigned h -> assigned (snd (StopUserListener port h)).
Proof.
  intros Ha. pose proof (known_stop port h (assigned_known h Ha)) as Hk. revert Hk. unfold StopUserListener.
  destruct (userServers h !! port); [|done]. intros Hk. by apply (assigned_stop port h).
Qed.

Lemma StopListener_assigned w port (h : Handler DB) : assigned h -> assigned (snd (StopListener w port h)).
Proof. intros Ha. unfold StopListener. case_match; [done|by apply StopUserListener_assigned]. Qed.

Lemma startLocked_eq w port u (h : Handler DB) :
  let h' := snd (startListenerLocked w port u h) in
  store h' = store h /\ portUsers h' = portUsers h /\ userServers h' = <[port := mkServer (nextServer h) u]> (userServers h).
Proof. unfold startListenerLocked. by destruct (DemoMode (cfg w)). Qed.

Lemma StartListener_assigned w u row (h : Handler DB) :
  assigned h -> row_of (users (store h)) u = Some row -> 0 < r_port row -> assigned (snd (StartListener w u (r_port row) h)).
Proof.
  intros Ha Hr Hp. pose proof Ha as (Hf & Ht & Hag & Hs & Hk). assert (owns (users (store h)) u (r_port row)) as Ho by (by exists row).
  pose proof (known_StartListener w (r_port row) u h Hk) as Hk'. revert Hk'.
  unfold StartListener. cbn zeta. cbn [userServers set_ports]. destruct (userServers h !! r_port row) as [srv|] eqn:E; intros Hk'.
  - destruct (Hs _ _ E) as [_ Ho']. assert (u = sv_owner srv) as Hu by (by eapply unique_owner).
    apply (assigned_eq h); [done| |done|done|done]. simpl. rewrite Hu. apply insert_id. by rewrite Hag, E.
  - destruct (startLocked_eq w (r_port row) u (set_ports h (<[r_port row:=u]> (portUsers h)) (userServers h))) as (E1 & E2 & E3).
    by eapply (assigned_insert h).
Qed.

(** The port the map has for a user is the one in the table, and a user without
    a server has none. *)
Lemma current_port_owned u (h : Handler DB) p srv :
  assigned h -> userServers h !! p = Some srv -> sv_owner srv = u -> current_port u h = p.
Proof.
  intros (Hf & Ht & Ha & Hs & _) E Hu. unfold current_port.
  assert (forall q, portUsers h !! q = Some u -> q = p) as Honly.
  { intros q Hq. rewrite Ha in Hq. destruct (userServers h !! q) as [srv'|] eqn:Eq; [|done]. simpl in Hq. injection Hq as Hq.
    destruct (Hs _ _ E) as [_ H1], (Hs _ _ Eq) as [_ H2]. rewrite Hu in H1. rewrite Hq in H2. by eapply owns_functional. }
  rewrite (find_only _ _ (p, u)); [done| | |].
  - apply elem_of_map_to_list. by rewrite Ha, E; simpl; rewrite Hu.
  - simpl. apply String.eqb_refl.
  - intros [q v] Hin Hv. simpl in Hv. apply String.eqb_eq in Hv as ->. apply elem_of_map_to_list, Honly in Hin. by subst.
Qed.

(** Without the user's server. *)
Definition without (u : string) (h : Handler DB) : Prop := forall p srv, userServers h !! p = Some srv -> sv_owner srv <> u.

Lemma stop_current (u : string) (h : Handler DB) :
  assigned h ->
  exists h1, (if negb (current_port u h =? 0) then StopUserListener (current_port u h) else mret tt) h = (tt, h1) /\
    assigned h1 /\ store h1 = store h /\ without u h1.
Proof.
  intros Ha. set (m := if negb (current_port u h =? 0) then StopUserListener (current_port u h) else mret tt : ST (Handler DB) unit).
  exists (snd (m h)). split; [by destruct (m h) as [[] h1]|]. unfold m. clear m.
  assert (assigned (snd ((if negb (current_port u h =? 0) then StopUserListener (current_port u h) else mret tt) h))) as H1
    by (case_match; [by apply StopUserListener_assigned|done]).
  split; [exact H1|]. split; [case_match; [apply StopUserListener_store|done]|]. intros p srv Hsrv Hu.
  assert (userServers h !! p = Some srv /\ p <> current_port u h) as [E Hne].
  { destruct (Z.eqb_spec (current_port u h) 0) as [E0|E0]; cbn [negb] in Hsrv.
    - split; [done|]. simpl in Hsrv. destruct Ha as (_ & _ & _ & Hs & _). destruct (Hs _ _ Hsrv). lia.
    - unfold StopUserListener in Hsrv. destruct (userServers h !! current_port u h) as [srv'|] eqn:E'; simpl in Hsrv.
      + by apply lookup_delete_Some in Hsrv as [? ?].
      + split; [done|]. intros ->. congruence. }
  by rewrite (current_port_owned u h p srv Ha E Hu) in Hne.
Qed.

Abbreviation UpdateUserPort_ w := (@UpdateUserPort DB (DB_UserStore loc) w).

(** Assigning a port that nobody else has, or none. *)
Lemma UpdateUserPort_assigned w u p (h : Handler DB) :
  assigned h -> 0 <= p -> (forall r, r ∈ users (store h) -> r_username r <> u -> p = 0 \/ r_port r <> p) ->
  assigned (snd (UpdateUserPort_ w u p h)) /\ (p = 0 -> without u (snd (UpdateUserPort_ w u p h))).
Proof.
  intros Ha Hp Hfree. destruct (UpdateUserPort_ w u p h) as [res h'] eqn:E. cbn [snd]. revert E.
  unfold UpdateUserPort, gets. unfold mbind at 1, ST_bind at 1. cbv beta iota.
  destruct (stop_current u h Ha) as (h1 & E & H1 & Hst & Hw). unfold mbind at 1, ST_bind at 1. rewrite E. clear E.
  unfold UpdatePort_, mbind at 1, ST_bind at 1. pose proof H1 as (Hf & Ht & Hag & Hs & Hk1). rewrite <- Hst in Hfree.
  pose proof (table_ok_assign u p (store h1) Ht Hfree) as Ht'. pose proof (calm_run_op (OpUpdatePort u p) (store h1) Hf) as Hf'.
  change (us_UpdatePort u p (store h1)) with (UpdatePort u p (store h1)). simpl in Ht', Hf'.
  destruct (UpdatePort u p (store h1)) as [r d'] eqn:E. unfold UpdatePort in E. simpl in Ht', Hf'.
  apply affected_user_inv in E as [(e & -> & Ho & _)|(row & fs & -> & Hrow & ->)]; [| |auto with evan].
  - intros [= _ <-]. split; [|done]. apply assigned_rows; [done..|]. by rewrite (only_faults_users _ _ Ho).
  - set (d' := set_users (set_faults (store h1) fs) (update_rows (users (store h1)) u (fun r => set_port r p))) in *.
    assert (forall v q, v <> u -> owns (users (store h1)) v q -> owns (users d') v q) as Hother.
    { intros v q Hv (r & Hr & <-). exists r. simpl. by rewrite row_of_update, decide_False by done. }
    assert (assigned (set_store h1 d')) as H2.
    { apply assigned_rows; [done..|]. intros q srv Hsrv Hown. apply Hother; [by eapply Hw|done]. }
    destruct (Z.eqb_spec p 0) as [->|Hne]; [by intros [= _ <-]|].
    destruct (assign_and_start_eq w p u (set_store h1 d')) as (h2 & E2 & Hs2 & Hp2 & Hu2). unfold mbind, ST_bind. rewrite E2.
    intros [= _ <-]. split; [|done]. eapply (assigned_insert _ _ p u); [exact H2|lia| |done..|].
    { simpl. exists (set_port row p). by rewrite row_of_update, decide_True, Hrow by done. }
    pose proof (known_start w p u (set_store h1 d')) as Hk2. rewrite E2 in Hk2. apply Hk2; [|exact Hk1]. simpl.
    destruct (userServers h1 !! p) as [srv|] eqn:Esrv; [|done]. exfalso. pose proof (Hw _ _ Esrv) as Hne'. destruct (Hs _ _ Esrv) as [_ (r & Hr & Hpr)].
    destruct (Hfree r (row_of_elem _ _ _ Hr)) as [|Hq]; [by rewrite (row_of_username _ _ _ Hr)|done|done].
Qed.
(** ** Reconciliation and failing servers *)

Lemma ListPorts_owns d m d' p u :
  table_ok (users d) -> ListPorts d = (Ok m, d') -> m !! p = Some u -> 0 < p /\ owns (users d) u p.
Proof.
  intros (Hun & _ & Hup) H Hm. unfold ListPorts, query, sql, wrap, mbind, M_bind, mret, M_ret in H.
  assert (m = port_map (users d) ∅) as ->
    by (destruct (faults d) as [|[msg|] fs]; simpl in H; try discriminate H; by injection H as <- _).
  destruct (decide (0 < p)) as [Hp|Hp].
  - split; [done|]. rewrite port_map_lookup, lookup_empty in Hm by done. destruct (List.find _ _) as [r|] eqn:E; [|done].
    injection Hm as <-. apply List.find_some in E as [Hin E%Z.eqb_eq]. apply list_elem_of_In in Hin.
    exists r. by rewrite (row_of_unique _ _ Hun Hin).
  - exfalso. clear Hun Hup H. unfold port_map in Hm.
    assert (forall rows (m : gmap Z string), m !! p = None -> foldl (fun m r => <[r_port r := r_username r]> m) m (filter (fun r => 0 < r_port r) rows) !! p = None) as Hno.
    { induction rows as [|x rows IH]; intros m Hm0; [done|]. rewrite filter_cons. case_decide; [|by apply IH].
      simpl. apply IH. by rewrite lookup_insert_ne by lia. }
    by rewrite Hno in Hm.
Qed.

Lemma reconcile_assigned w now (h : Handler DB) :
  assigned h -> assigned (snd (@reconcileListeners DB (DB_UserStore loc) w now h)).
Proof.
  intros Ha. pose proof Ha as (Hf & Ht & Hag & Hs & Hk). pose proof (known_reconcile (us := DB_UserStore loc) w now h Hk) as Hk'. revert Hk'. pose proof (undisturbed_ListPorts (store h)) as Hq.
  destruct (ListPorts (store h)) as [r s] eqn:E. simpl in Hq. pose proof (assigned_undisturbed h s Hq Ha) as (Hf' & Ht' & _ & Hs' & _).
  destruct r as [m|e].
  - destruct (reconcileListeners_inv (us := DB_UserStore loc) w now h m s E) as (h' & -> & Est & Hp). cbn [snd]. intros Hk'.
    split; [by rewrite Est|]. split; [by rewrite Est|]. split; [|split; [|done]].
    + intros p. specialize (Hp p). specialize (Hag p). destruct (wanted_ports _ _ _ _ !! p), (userServers h !! p) eqn:Eu.
      * destruct Hp as [-> ->]. by rewrite Hag.
      * destruct Hp as [[id ->] ->]. done.
      * by destruct Hp as [-> ->].
      * by destruct Hp as [-> ->].
    + intros p srv Hsrv. specialize (Hp p). rewrite Est. destruct (wanted_ports _ _ _ _ !! p) as [u|] eqn:Ew; [|destruct Hp; congruence].
      destruct (userServers h !! p) as [srv'|] eqn:Eu.
      * destruct Hp as [E1 _]. rewrite E1 in Hsrv. injection Hsrv as <-. by apply Hs'.
      * destruct Hp as [[id E1] _]. rewrite E1 in Hsrv. injection Hsrv as <-. simpl.
        unfold wanted_ports in Ew. apply map_lookup_filter_Some in Ew as [Em _].
        destruct Hq as [(ts & fs & ->) _]. by apply (ListPorts_owns _ _ _ _ _ Ht E).
  - unfold reconcileListeners, reconcile_plan, ListPorts_, mbind, ST_bind.
    change (us_ListPorts (store h)) with (ListPorts (store h)). rewrite E. simpl. intros _. by apply assigned_undisturbed.
Qed.

Lemma serverFailed_assigned port id (h : Handler DB) : assigned h -> assigned (snd (serverFailed port id h)).
Proof.
  intros Ha. pose proof (known_failed port id h (assigned_known h Ha)) as Hk.
  destruct (serverFailed_cases port id h) as (E1 & _ & [[E2 E3]|(srv & _ & E2 & E3)]); [by apply (assigned_eq h)|by apply (assigned_stop port h)].
Qed.

(** ** Requests *)

Section requests.
Variable w : api_wiring.
Variable network : Network.
Variable qrcode_New : string -> option (list (list bool)).
Variable CompareHashAndPassword : string -> string -> bool.

(** The configured range holds port numbers. *)
Hypothesis positive_ports : 0 < UserPortMin (cfg (aw_proxy w)).

Lemma assigned_port u p a :
  assigned (ap_proxy a) -> 0 <= p -> (forall r, r ∈ users (database a) -> r_username r <> u -> p = 0 \/ r_port r <> p) ->
  assigned (ap_proxy (snd (ports (UpdateUserPort_ (aw_proxy w) u p) a))) /\
  (p = 0 -> without u (ap_proxy (snd (ports (UpdateUserPort_ (aw_proxy w) u p) a)))).
Proof.
  intros Ha Hp Hf. destruct (UpdateUserPort_assigned (aw_proxy w) u p (ap_proxy a) Ha Hp Hf) as [H1 H2]. unfold ports.
  by destruct (UpdateUserPort_ (aw_proxy w) u p (ap_proxy a)) as [x h].
Qed.

Lemma assigned_create body salt now : stable assigned (handleCreateUser loc w body salt now).
Proof.
  unfold handleCreateUser. destruct body as [req|]; [|apply stable_ret]. case_match; [apply stable_ret|]. cbn [UserPortRange].
  set (lo := UserPortMin (cfg (aw_proxy w))). set (hi := UserPortMax (cfg (aw_proxy w))). set (op := OpAdd (lr_Username req) (lr_Password req) lo hi salt now).
  intros a Ha. pose proof Ha as (Hf & Ht & _). unfold mbind at 1, ST_bind at 1, db.
  pose proof (rows_change_ok _ _ (run_op_rows op (database a) ltac:(done)) Ht) as Ht'.
  pose proof (calm_run_op op (database a) Hf) as Hf'. simpl in Ht', Hf'.
  destruct (Add _ _ _ _ _ _ (database a)) as [r d'] eqn:E. simpl in Ht', Hf'.
  assert (assigned (set_store (ap_proxy a) d')) as H1.
  { apply assigned_rows; [done..|]. intros p srv _ (row & Hr & Hp). apply Add_inv in E as [[_ Ho]|(s & port & fs & _ & _ & _ & _ & Hn & _ & ->)].
    - rewrite (only_faults_users _ _ Ho). by exists row.
    - exists row. simpl. rewrite row_of_snoc by done. simpl. rewrite decide_False; [done|]. intros Hu. unfold database in Hn. congruence. }
  destruct r as [port|err]; [|exact H1]. rewrite (snd_fmap _ (fun _ => WriteHeader 201)).
  apply (assigned_port _ _ (set_ap_proxy a (set_store (ap_proxy a) d'))); [exact H1| |].
  - pose proof E as [[(? & ?) _]|(s & port' & fs & _ & [= <-] & _ & _ & _ & Hfp & _)]%Add_inv; [done|].
    apply free_port_Some in Hfp as (? & _). lia.
  - intros r Hin Hne. right. by eapply Add_port_free.
Qed.

Lemma assigned_update r body : stable assigned (handleUpdatePort loc w r body).
Proof.
  unfold handleUpdatePort. case_match; [apply stable_ret|]. destruct body as [req|]; [|apply stable_ret].
  case_match; [apply stable_ret|]. intros a Ha. unfold mbind at 1, ST_bind at 1. pose proof Ha as (_ & Ht & _).
  assert (assigned (ap_proxy (snd (check_port w (pr_Username req) (pr_Port req) a))) /\
    (fst (check_port w (pr_Username req) (pr_Port req) a) = None -> 0 <= pr_Port req)) as [H1 Hpos].
  { unfold check_port. destruct (Z.eqb_spec (pr_Port req) 0) as [->|]; [done|]. cbn [UserPortRange].
    destruct (_ || _) eqn:Eb; [done|]. apply orb_false_iff in Eb as [Eb%Z.ltb_ge _]. split; [|lia].
    rewrite snd_fmap. apply (stable_db assigned (PortOwner (pr_Port req))); [|done]. intros h. apply assigned_undisturbed, undisturbed_PortOwner. }
  destruct (check_port w (pr_Username req) (pr_Port req) a) as [[rp|] a1] eqn:E; [exact H1|]. simpl in H1, Hpos.
  destruct (check_port_free w _ _ _ _ E Ht) as [_ Hf]. unfold update_port. rewrite snd_fmap. by apply assigned_port; [|apply Hpos|].
Qed.

Lemma assigned_delete r now : stable assigned (handleDeleteUser loc w r now).
Proof.
  unfold handleDeleteUser. set (u := http.QueryGet r "username"). case_match; [apply stable_ret|]. intros a Ha. pose proof Ha as (Hf & Ht & Hag & Hs & _).
  rewrite (ST_step _ _ _ _ _ (listed_eq now a Hf)). unfold mbind at 1, ST_bind at 1.
  match goal with |- context [match ?m a with (_, _) => _ end] => set (stop := m) end.
  assert (assigned (ap_proxy (snd (stop a))) /\ without u (ap_proxy (snd (stop a)))) as [H1 Hw].
  { unfold stop. destruct (with_port u _) as [x|] eqn:Ew.
    - rewrite (snd_fmap _ (fun _ => tt)). destruct (assigned_port u 0 a Ha) as [H1 H2]; [done|by left|]. by split; [|apply H2].
    - split; [done|]. intros p srv Hsrv Hu. destruct (Hs _ _ Hsrv) as [Hp (row & Hr & E)]. rewrite Hu in Hr. destruct Ht as [Hun _].
      rewrite (with_port_listed now _ u row) in Ew; [done|done|done|lia]. }
  destruct (stop a) as [[] a1]. simpl in H1, Hw. clear stop Ha Hf Ht Hag Hs. pose proof H1 as (Hf & Ht & _).
  unfold mbind at 1, ST_bind at 1, db.
  pose proof (rows_change_ok _ _ (run_op_rows (OpDelete u) (database a1) ltac:(done)) Ht) as Ht'.
  pose proof (calm_run_op (OpDelete u) (database a1) Hf) as Hf'. simpl in Ht', Hf'.
  destruct (Delete u (database a1)) as [res d'] eqn:E. simpl in Ht', Hf'.
  assert (assigned (set_store (ap_proxy a1) d')) as H2; [|by destruct res as [[]|e]].
  apply assigned_rows; [done..|]. intros p srv Hsrv (row & Hr & Hp). apply Delete_inv in E as [(? & _ & Ho & _)|(row' & fs & _ & _ & ->)].
  - rewrite (only_faults_users _ _ Ho). by exists row.
  - exists row. simpl. rewrite row_of_delete, decide_False; [done|]. intros Hu. by apply (Hw _ _ Hsrv).
Qed.

Lemma assigned_serve r b e :
  clock_ok (re_now e) -> stable assigned (serve loc w network qrcode_New CompareHashAndPassword r b e).
Proof.
  intros Hc. apply stable_serve with (may := fun _ => True) (login_ok := fun _ => True); try done.
  - intros op h _ Hp _. by apply assigned_op.
  - intros h d'. apply assigned_undisturbed.
  - by intros h (_ & [Hu _] & _).
  - intros u row h. apply StartListener_assigned.
  - intros port h. apply StopListener_assigned.
  - intros body salt now _. apply assigned_create.
  - apply assigned_delete.
  - apply assigned_update.
Qed.
End requests.
End operations.
