(* ===== verification/Running.v ===== *)
(** * Every known server listens

    The converse of Sockets: outside demo mode a server the handler has for a port
    listens there, because numbers are never used twice and a server leaves the map
    in the same section that shuts it down. *)

From S2P Require Import Prelude GoStrings GoBase64 GoTime GoNet GoHTTP GoRFC3339 Downtime Password UserTable UserDB UserDBLemmas.
From S2P Require Import UserDBOps UserDBCoherence UserDBReach UserDBSpec RateLimit Dns Config Proxy ProxyFrame UserPorts UserPortsSpec Sockets Collector DeviceTokens.
From S2P Require Import UserDBCalm AdminSession ClientIP AdminServer ProxyOverDB AdminAPI AdminLemmas AdminSpec.

Open Scope list_scope.

(** The number of the server an effect is about. *)
Definition effect_id (e : effect) : option nat :=
  match e with Listen _ id _ | Shutdown _ id | ListenFailed _ id => Some id | _ => None end.

Definition ends_server (p : Z) (id : nat) (e : effect) : bool :=
  match e with Shutdown q i | ListenFailed q i => (p =? q) && (i =? id)%nat | _ => false end.

Section running.
Context {St : Type} {us : UserStore St} (w : Wiring).

Definition numbered (h : Handler St) (new : list effect) : Prop :=
  Forall (fun e => forall id, effect_id e = Some id -> (id < nextServer h)%nat) new.

Definition alive (h : Handler St) : Prop :=
  numbered h (trace h) /\
  forall p srv, userServers h !! p = Some srv ->
    (sv_id srv < nextServer h)%nat /\ (DemoMode (cfg w) = false -> listening (trace h) p (sv_id srv) (sv_owner srv)).

Lemma listening_more tr new p id u :
  Forall (fun e => ends_server p id e = false) new -> listening tr p id u -> listening (tr ++ new) p id u.
Proof.
  intros Hn (H1 & H2 & H3). rewrite Forall_forall in Hn. unfold listening. rewrite !elem_of_app.
  split; [by left|]. split; intros [?|Hin]; try done; specialize (Hn _ Hin); simpl in Hn; by rewrite Z.eqb_refl, Nat.eqb_refl in Hn.
Qed.

(** Effects that end none of the remaining servers. *)
Lemma alive_more (h h' : Handler St) new :
  trace h' = trace h ++ new -> nextServer h' = nextServer h -> numbered h new ->
  (forall p srv, userServers h' !! p = Some srv -> userServers h !! p = Some srv /\ Forall (fun e => ends_server p (sv_id srv) e = false) new) ->
  alive h -> alive h'.
Proof.
  intros Et En Hn Hs [H1 H2]. unfold alive, numbered in *. rewrite Et, En. split; [by apply Forall_app|].
  intros p srv Hsrv. destruct (Hs p srv Hsrv) as [Hold Hends]. destruct (H2 p srv Hold) as [Hid Hl]. split; [done|].
  intros Hd. by apply listening_more, Hl.
Qed.

Lemma alive_same (h h' : Handler St) :
  trace h' = trace h -> userServers h' = userServers h -> nextServer h' = nextServer h -> alive h -> alive h'.
Proof. unfold alive, numbered. by intros -> -> ->. Qed.

Lemma alive_quiet (h h' : Handler St) new :
  trace h' = trace h ++ new -> Forall (fun e => socket e = false) new -> userServers h' = userServers h -> nextServer h' = nextServer h ->
  alive h -> alive h'.
Proof.
  intros Et Hn Es En. apply (alive_more h h' new); [done|done| |].
  - eapply Forall_impl; [exact Hn|]. intros e He id Hid. by destruct e.
  - rewrite Es. intros p srv Hsrv. split; [done|]. eapply Forall_impl; [exact Hn|]. intros e He. by destruct e.
Qed.

Lemma alive_store (h : Handler St) s : alive h -> alive (set_store h s).
Proof. by apply alive_same. Qed.

Lemma alive_stop port (h : Handler St) : alive h -> alive (snd (StopUserListener port h)).
Proof.
  intros Ha. unfold StopUserListener. destruct (userServers h !! port) as [srv|] eqn:E; [|done].
  pose proof Ha as [_ H2]. destruct (H2 _ _ E) as [Hid _]. revert Ha. apply (alive_more h _ [Shutdown port (sv_id srv)]); [done|done| |].
  - apply Forall_singleton. by intros id [= <-].
  - simpl. intros p s Hs. apply lookup_delete_Some in Hs as [Hne Hs]. split; [done|]. apply Forall_singleton. simpl.
    by rewrite (proj2 (Z.eqb_neq p port)) by congruence.
Qed.

Lemma alive_start_locked port u (h : Handler St) : alive h -> alive (snd (startListenerLocked w port u h)).
Proof.
  intros [H1 H2]. unfold startListenerLocked. set (n := nextServer h) in *.
  assert (forall id, (id < n)%nat -> (id < S n)%nat) as Hlt by lia.
  destruct (DemoMode (cfg w)) eqn:Ed; unfold alive, numbered; simpl.
  - split; [eapply Forall_impl; [exact H1|]; intros e He id Hid; by apply Hlt, He|]. intros p srv Hs. split; [|congruence].
    apply lookup_insert_Some in Hs as [[_ <-]|[_ Hs]]; [simpl; lia|]. by apply Hlt, (H2 p srv).
  - split.
    + apply Forall_app. split; [eapply Forall_impl; [exact H1|]; intros e He id Hid; by apply Hlt, He|].
      apply Forall_singleton. intros id [= <-]. lia.
    + intros p srv Hs. apply lookup_insert_Some in Hs as [[-> <-]|[_ Hs]].
      * split; [simpl; lia|]. intros _. cbn [sv_id sv_owner]. unfold listening. rewrite !elem_of_app, list_elem_of_singleton. split; [by right|].
        unfold numbered in H1. rewrite Forall_forall in H1.
        split; intros [Hin|Hin%list_elem_of_singleton]; try done; specialize (H1 _ Hin _ eq_refl); unfold n in *; lia.
      * destruct (H2 p srv Hs) as [Hid Hl]. split; [by apply Hlt|]. intros Hd. apply listening_more; [by apply Forall_singleton|]. by apply Hl.
Qed.

Lemma alive_assign port u (h : Handler St) : alive h -> alive (snd (assign_and_start w port u h)).
Proof. intros Ha. unfold assign_and_start, update, mbind, ST_bind. by apply alive_start_locked. Qed.

Lemma alive_StartListener u port (h : Handler St) : alive h -> alive (snd (StartListener w u port h)).
Proof. intros Ha. unfold StartListener. cbn zeta. case_match; [by apply (alive_same h)|by apply alive_start_locked]. Qed.

Lemma alive_StopListener port (h : Handler St) : alive h -> alive (snd (StopListener w port h)).
Proof. intros Ha. unfold StopListener. case_match; [done|by apply alive_stop]. Qed.

(** A server that was started fails. *)
Lemma alive_failed port id (h : Handler St) : (id < nextServer h)%nat -> alive h -> alive (snd (serverFailed port id h)).
Proof.
  intros Hid. unfold serverFailed, emit, update, mbind, ST_bind. simpl.
  set (h' := match userServers h !! port with Some srv => _ | None => _ end).
  assert (trace h' = trace h ++ [ListenFailed port id] /\ nextServer h' = nextServer h) as [Et En] by (unfold h'; by repeat case_match).
  apply (alive_more h h' [ListenFailed port id]); [done|done|apply Forall_singleton; by intros i [= <-]|]. intros p srv Hs.
  rewrite Forall_singleton. simpl.
  assert (userServers h !! p = Some srv /\ (p = port -> sv_id srv <> id)) as [Hp Hne].
  { unfold h' in Hs. destruct (userServers h !! port) as [srv'|] eqn:E; [|simpl in Hs; split; [exact Hs|]; intros ->; congruence].
    destruct (Nat.eqb_spec (sv_id srv') id) as [Ei|Ei]; simpl in Hs; [apply lookup_delete_Some in Hs as [? ?]; split; [done|congruence]|].
    split; [done|]. intros ->. congruence. }
  split; [done|]. destruct (Z.eqb_spec p port) as [Ep|]; [|done]. apply Nat.eqb_neq. intros E. by apply (Hne Ep).
Qed.

(** Some servers leave the map and are shut down. *)
Lemma alive_shutdown (stop : gmap Z server) (h h' : Handler St) :
  trace h' = trace h -> nextServer h' = nextServer h -> userServers h' = userServers h ∖ stop ->
  (forall p srv, stop !! p = Some srv -> userServers h !! p = Some srv) ->
  alive h -> alive (snd (shutdown_all (map_to_list stop) h')).
Proof.
  intros Et En Es Hsub Ha. destruct (shutdown_all_trace (map_to_list stop) h') as [Et' Es'].
  assert (nextServer (snd (shutdown_all (map_to_list stop) h')) = nextServer h) as En'.
  { rewrite <- En. clear. revert h'. induction (map_to_list stop) as [|[p srv] l IH]; intros h'; [done|]. cbn [shutdown_all].
    unfold emit, update, mbind, ST_bind. by rewrite IH. }
  pose proof Ha as [_ H2]. revert Ha. eapply alive_more; [by rewrite Et', Et|done| |].
  - apply Forall_forall. intros e He. apply list_elem_of_fmap in He as ([p srv] & -> & Hin%elem_of_map_to_list).
    intros id [= <-]. by apply (H2 p srv), Hsub.
  - intros p srv. rewrite Es', Es. intros [Hs Hn]%lookup_difference_Some. split; [done|]. apply Forall_forall.
    intros e He. apply list_elem_of_fmap in He as ([q srv'] & -> & Hin%elem_of_map_to_list). simpl.
    by rewrite (proj2 (Z.eqb_neq p q)) by congruence.
Qed.

Lemma alive_Shutdown (h : Handler St) : alive h -> alive (snd (ShutdownUserListeners h)).
Proof. intros Ha. unfold ShutdownUserListeners. apply (alive_shutdown _ h); [done|done|simpl; by rewrite map_difference_diag|done|done]. Qed.

Lemma alive_entries f l (h : Handler St) :
  (forall p u h, alive h -> alive (snd (f p u h))) -> alive h -> alive (snd (for_entries f l h)).
Proof.
  intros Hf. revert h. induction l as [|[p u] l IH]; intros h Ha; [done|]. cbn [for_entries]. unfold mbind, ST_bind.
  pose proof (Hf p u h Ha) as H1. destruct (f p u h) as [[] h1]. by apply IH.
Qed.

Lemma alive_reconcile now (h : Handler St) : alive h -> alive (snd (reconcileListeners w now h)).
Proof.
  intros Ha. unfold reconcileListeners. unfold mbind at 1, ST_bind at 1.
  assert (alive (snd (reconcile_plan w now h))) as H0.
  { unfold reconcile_plan, ListPorts_, mbind, ST_bind, gets. destruct (us_ListPorts (store h)) as [[ports|e] s]; by apply (alive_same h). }
  destruct (reconcile_plan w now h) as [[plan|] h0]; [|done]. simpl in H0. unfold mbind, ST_bind. cbn [reconcile_stop].
  match goal with |- context [shutdown_all (map_to_list ?stop) ?h1] =>
    pose proof (alive_shutdown stop h0 h1 eq_refl eq_refl eq_refl) as H2; destruct (shutdown_all (map_to_list stop) h1) as [[] h2] end.
  apply alive_entries; [|apply H2; [|done]; intros p srv; by intros [? _]%map_lookup_filter_Some].
  intros p u h3 H3. case_match; [done|by apply alive_assign].
Qed.

Lemma alive_StartUserListeners now (h : Handler St) : alive h -> alive (snd (StartUserListeners w now h)).
Proof.
  intros Ha. unfold StartUserListeners, ListPorts_, mbind at 1, ST_bind at 1. destruct (us_ListPorts (store h)) as [[ports|e] s]; [|by apply alive_store].
  unfold gets, mbind, ST_bind. match goal with |- context [for_entries ?f ?l ?h1] => assert (alive (snd (for_entries f l h1))) as H;
    [apply alive_entries; [intros; by apply alive_assign|by apply alive_store]|by destruct (for_entries f l h1) as [[] h2]] end.
Qed.

Lemma alive_UpdateUserPort u port (h : Handler St) : alive h -> alive (snd (UpdateUserPort w u port h)).
Proof.
  intros Ha. unfold UpdateUserPort, gets. unfold mbind at 1, ST_bind at 1. cbv beta iota. unfold mbind at 1, ST_bind at 1.
  set (m := if negb (current_port u h =? 0) then StopUserListener (current_port u h) else mret tt : ST (Handler St) unit).
  assert (alive (snd (m h))) as H1 by (unfold m; case_match; [by apply alive_stop|done]).
  destruct (m h) as [[] h1]. unfold UpdatePort_, mbind at 1, ST_bind at 1. simpl in H1.
  destruct (us_UpdatePort u port (store h1)) as [[[]|e] s]; [|by apply alive_store]. case_match; [by apply alive_store|].
  pose proof (alive_assign port u (set_store h1 s) (alive_store h1 s H1)) as H2. unfold mbind, ST_bind.
  by destruct (assign_and_start w port u (set_store h1 s)) as [[] h2].
Qed.
End running.
