(* ===== verification/AdminFrame.v ===== *)
(** * What the admin API never does to the proxy

    No request to the admin API opens a session of the proxy or reaches out to a
    destination, and every name it puts on a port is one that can authenticate. *)

From S2P Require Import Prelude GoStrings GoBase64 GoTime GoNet GoHTTP GoRFC3339 Downtime Password UserTable UserDB UserDBLemmas.
From S2P Require Import UserDBOps UserDBCoherence UserDBReach UserDBSpec RateLimit Dns Config Proxy ProxyFrame UserPorts UserPortsSpec Collector DeviceTokens.
From S2P Require Import UserDBCalm AdminSession ClientIP AdminServer ProxyOverDB AdminAPI AdminLemmas AdminSpec AdminPorts Running.

Open Scope list_scope.

(** An effect that contacts nobody, and starts servers only for owners in [Q]. *)
Definition inside (Q : string -> Prop) (e : effect) : Prop :=
  contact e = false /\ match e with Listen _ _ u => Q u | _ => True end.

(** From the first handler to the second: the sessions are the same, and nothing but
    such effects happened. *)
Definition inward {St} (Q : string -> Prop) (h h' : Handler St) : Prop :=
  authSessions h' = authSessions h /\ exists new, trace h' = trace h ++ new /\ Forall (inside Q) new.

#[global] Instance inward_preorder {St} Q : PreOrder (@inward St Q).
Proof.
  split.
  - intros h. split; [done|]. exists []. by rewrite app_nil_r.
  - intros h1 h2 h3 [E1 (n1 & T1 & F1)] [E2 (n2 & T2 & F2)]. split; [congruence|]. exists (n1 ++ n2).
    rewrite T2, T1, app_assoc. split; [done|]. by apply Forall_app.
Qed.

Section ports.
Context {St : Type} {us : UserStore St} (w : Wiring) (Q : string -> Prop).

Lemma inward_same (h h' : Handler St) : authSessions h' = authSessions h -> trace h' = trace h -> inward Q h h'.
Proof. intros E1 E2. split; [done|]. exists []. by rewrite app_nil_r. Qed.

Lemma inward_one e (h h' : Handler St) : inside Q e -> authSessions h' = authSessions h -> trace h' = trace h ++ [e] -> inward Q h h'.
Proof. intros He E1 E2. split; [done|]. exists [e]. split; [done|]. by apply Forall_singleton. Qed.

Lemma inward_stop port : respects (inward Q) (StopUserListener (St := St) port).
Proof.
  intros h. unfold StopUserListener. destruct (userServers h !! port); [|reflexivity]. by apply (inward_one (Shutdown port (sv_id s))).
Qed.

Lemma inward_start_locked port u : Q u -> respects (inward Q) (startListenerLocked (St := St) w port u).
Proof.
  intros Hu h. unfold startListenerLocked. destruct (DemoMode (cfg w)); [by apply inward_same|].
  by apply (inward_one (Listen port (nextServer h) u)).
Qed.

Lemma inward_StopListener port : respects (inward Q) (StopListener (St := St) w port).
Proof. unfold StopListener. case_match; [apply respects_ret, _|apply inward_stop]. Qed.

Lemma inward_StartListener u port : Q u -> respects (inward Q) (StartListener (St := St) w u port).
Proof.
  intros Hu h. unfold StartListener. cbn zeta. case_match; [by apply inward_same|]. etransitivity; [|by apply inward_start_locked]. by apply inward_same.
Qed.

Lemma inward_assign port u : Q u -> respects (inward Q) (assign_and_start (St := St) w port u).
Proof. intros Hu. apply respects_bind; [apply _|by intros h; apply inward_same|intros _; by apply inward_start_locked]. Qed.

(** A port is only opened for a user whom the database has given it. *)
Lemma inward_UpdateUserPort u port (h : Handler St) :
  (fst (us_UpdatePort u port (store h)) = Ok tt -> Q u) -> inward Q h (snd (UpdateUserPort w u port h)).
Proof.
  intros Hu. unfold UpdateUserPort, gets. unfold mbind at 1, ST_bind at 1. cbv beta iota. unfold mbind at 1, ST_bind at 1.
  set (m := if negb (current_port u h =? 0) then StopUserListener (current_port u h) else mret tt : ST (Handler St) unit).
  assert (inward Q h (snd (m h)) /\ store (snd (m h)) = store h) as [H1 Hs].
  { unfold m. case_match; [|by split; [apply inward_same|]]. split; [apply inward_stop|apply StopUserListener_store]. }
  destruct (m h) as [[] h1]. simpl in H1, Hs. unfold UpdatePort_. unfold mbind at 1, ST_bind at 1. rewrite Hs.
  destruct (us_UpdatePort u port (store h)) as [[[]|e] s]; (etransitivity; [exact H1|]); [|by apply inward_same].
  destruct (port =? 0); [by apply inward_same|]. pose proof (inward_assign port u (Hu eq_refl) (set_store h1 s)) as H2. unfold mbind, ST_bind.
  destruct (assign_and_start w port u (set_store h1 s)) as [[] h2]. simpl in *. etransitivity; [|exact H2]. by apply inward_same.
Qed.

Lemma inward_entries f l :
  (forall p u, (p, u) ∈ l -> respects (inward Q) (f p u)) -> respects (inward Q) (for_entries (St := St) f l).
Proof.
  intros Hf. induction l as [|[p u] l IH]; [apply respects_ret, _|].
  apply respects_bind; [apply _|apply Hf; by left|intros; apply IH; intros; apply Hf; by right].
Qed.

Lemma inward_shutdown_all l : respects (inward Q) (shutdown_all (St := St) l).
Proof.
  induction l as [|[p srv] l IH]; [apply respects_ret, _|].
  apply respects_bind; [apply _|by intros h; apply (inward_one (Shutdown p (sv_id srv)))|done].
Qed.

(** The users of the port table that was read are in [Q]. *)
Definition listed_in (h : Handler St) : Prop :=
  forall ports p u, fst (us_ListPorts (store h)) = Ok ports -> ports !! p = Some u -> Q u.

Lemma wanted_in now (h h' : Handler St) ports : fst (us_ListPorts (store h)) = Ok ports -> listed_in h ->
  forall p u, (p, u) ∈ map_to_list (wanted_ports w now h' ports) -> Q u.
Proof.
  intros E Hq p u Hin%elem_of_map_to_list. unfold wanted_ports in Hin. apply map_lookup_filter_Some in Hin as [Hin _]. by eapply Hq.
Qed.

Lemma inward_StartUserListeners now (h : Handler St) : listed_in h -> inward Q h (snd (StartUserListeners w now h)).
Proof.
  intros Hq. unfold StartUserListeners, ListPorts_. unfold mbind at 1, ST_bind at 1. pose proof (wanted_in now h) as Hw.
  destruct (us_ListPorts (store h)) as [[ports|e] s]; [|by apply inward_same]. unfold gets. unfold mbind at 1, ST_bind at 1. unfold mbind, ST_bind.
  match goal with |- context [for_entries ?f ?l ?h0] => pose proof (inward_entries f l) as He; specialize (He (fun p u Hin => inward_assign p u (Hw _ ports eq_refl Hq p u Hin)) h0);
    destruct (for_entries f l h0) as [[] h1] end.
  simpl in *. etransitivity; [|exact He]. by apply inward_same.
Qed.

Lemma inward_reconcile now (h : Handler St) : listed_in h -> inward Q h (snd (reconcileListeners w now h)).
Proof.
  intros Hq. unfold reconcileListeners. unfold mbind at 1, ST_bind at 1. pose proof (wanted_in now h) as Hw.
  unfold reconcile_plan, ListPorts_, gets. unfold mbind at 1, ST_bind at 1.
  destruct (us_ListPorts (store h)) as [[ports|e] s]; [|by apply inward_same]. simpl.
  etransitivity; [by apply (inward_same h (set_store h s))|]. revert Hw. intros Hw.
  apply (respects_bind (inward Q)); [by intros h0; apply inward_same|]. intros toStop.
  apply respects_bind; [apply _|apply inward_shutdown_all|]. intros _. apply inward_entries. intros p u Hin h0.
  case_match; [reflexivity|]. apply inward_assign. by eapply (Hw _ ports).
Qed.

(** The users of the plan of a tick that runs are in [Q]. *)
Definition tick_in (t : option tick) : Prop :=
  match t with
  | None => True
  | Some (Planned plan | Unlisted plan _ | Stopped plan) => forall p u, plan !! p = Some u -> Q u
  end.

Lemma inward_start plan : (forall p u, plan !! p = Some u -> Q u) -> respects (inward Q) (reconcile_start (St := St) w plan).
Proof.
  intros Hp. apply inward_entries. intros p u Hin%elem_of_map_to_list h. case_match; [reflexivity|]. apply inward_assign. by eapply Hp.
Qed.

Lemma inward_tick now t (h : Handler St) : listed_in h -> tick_in t ->
  inward Q h (snd (tick_phase w now t h)) /\ tick_in (fst (tick_phase w now t h)).
Proof.
  intros Hq Ht. destruct t as [[plan|plan toStop|plan]|]; unfold tick_phase; unfold mbind at 1 2, ST_bind at 1 2.
  - split; [by apply inward_same|done].
  - pose proof (inward_shutdown_all (map_to_list toStop) h) as H. by destruct (shutdown_all _ h).
  - pose proof (inward_start plan Ht h) as H. by destruct (reconcile_start w plan h).
  - unfold reconcile_plan, ListPorts_, gets, mbind, ST_bind. pose proof (wanted_in now h) as Hw.
    destruct (us_ListPorts (store h)) as [[ports|e] s]; (split; [by apply inward_same|]); [|done].
    intros p u Hp. eapply (Hw _ ports); [done|done|]. by apply elem_of_map_to_list.
Qed.

Lemma inward_failed port id : respects (inward Q) (serverFailed (St := St) port id).
Proof.
  intros h. destruct (serverFailed_cases port id h) as (_ & Et & _). apply (inward_one (ListenFailed port id)); [done| |done].
  unfold serverFailed, emit, update, mbind, ST_bind. simpl. by repeat case_match.
Qed.
End ports.

(** ** Names that can authenticate *)

(** Basic credentials cannot name a user with a colon. *)
Definition good_name (u : string) : Prop := u <> "" /\ free_of ":" u.

Definition names_ok (h : Handler DB) : Prop :=
  Forall good_name (usernames (users (store h))) /\ forall p id u, Listen p id u ∈ trace h -> good_name u.

Lemma row_good rows u row : Forall good_name (usernames rows) -> row_of rows u = Some row -> good_name u.
Proof.
  rewrite Forall_forall. intros H Hr. apply H. rewrite <- (row_of_username _ _ _ Hr). apply list_elem_of_In, in_map, list_elem_of_In.
  by eapply row_of_elem.
Qed.

Lemma names_delete rows u : Forall good_name (usernames rows) -> Forall good_name (usernames (delete_rows rows u)).
Proof.
  rewrite !Forall_forall. intros H x Hx. apply H. unfold usernames, delete_rows in *. apply list_elem_of_In, in_map_iff in Hx as (r & <- & Hx).
  apply List.filter_In in Hx as [Hx _]. by apply list_elem_of_In, in_map.
Qed.

Section names.
Context {crypto : Crypto} {codec : ScheduleCodec} {sqlite : SQLiteClock}.
Variable loc : time.Location.

Lemma run_op_names op d :
  (forall u p lo hi s now, op = OpAdd u p lo hi s now -> good_name u) ->
  Forall good_name (usernames (users d)) -> Forall good_name (usernames (users (run_op op d))).
Proof.
  intros Hop H. destruct op; simpl;
    try (run_inv write_through_inv; destruct Hrun as [(? & _ & Hof & _)|(row & fs & _ & _ & ->)];
         [by rewrite (only_faults_users _ _ Hof)|simpl; by rewrite usernames_update]).
  - run_inv Add_inv. destruct Hrun as [[_ Hof]|(s & port & fs & _ & _ & _ & _ & _ & _ & ->)]; [by rewrite (only_faults_users _ _ Hof)|].
    simpl. unfold usernames in *. rewrite map_app. apply Forall_app. split; [done|]. repeat constructor; by eapply (Hop _ _ _ _ _ _ eq_refl).
  - run_inv Delete_inv. destruct Hrun as [(? & _ & Hof & _)|(row & fs & _ & _ & ->)]; [by rewrite (only_faults_users _ _ Hof)|].
    simpl. by apply names_delete.
  - run_inv ChangePassword_inv. destruct Hrun as [[_ Hof]|(s & row & fs & _ & _ & _ & ->)]; [by rewrite (only_faults_users _ _ Hof)|].
    simpl. by rewrite usernames_update.
  - destruct (run_port_rows u port d) as [E|E]; simpl in E; rewrite E; [done|by rewrite usernames_update].
  - run_inv Check_inv. destruct Hrun as [[Hof _]|(user & pass & row & rows & fs & _ & _ & _ & _ & Hr & ->)]; [by rewrite (only_faults_users _ _ Hof)|].
    simpl. destruct Hr as [->|(s & _ & _ & ->)]; [done|by rewrite usernames_update].
Qed.

Lemma inward_names (h h' : Handler DB) :
  inward good_name h h' -> names_ok h -> Forall good_name (usernames (users (store h'))) -> names_ok h'.
Proof.
  intros [_ (new & E & Hnew)] [_ H2] H1. split; [done|]. intros p id u. rewrite E, elem_of_app. intros [Hin|Hin]; [by eapply H2|].
  rewrite Forall_forall in Hnew. by destruct (Hnew _ Hin).
Qed.

Lemma UpdatePort_good u p d :
  Forall good_name (usernames (users d)) -> fst (UpdatePort u p d) = Ok tt -> good_name u.
Proof.
  intros Hg. destruct (UpdatePort u p d) as [r d'] eqn:E. unfold UpdatePort in E. simpl. intros ->.
  apply affected_user_inv in E as [(e & [=] & _)|(row & fs & _ & Hrow & _)]; [|auto with evan]. by eapply row_good.
Qed.

(** ** Requests *)

Section requests.
Variable w : api_wiring.
Variable network : Network.
Variable qrcode_New : string -> option (list (list bool)).
Variable CompareHashAndPassword : string -> string -> bool.

(** What requests keep: the database stays reachable, names stay good, and with them
    any property [R] of the handler that does not look at the database and that the
    port operations on good names keep. *)
Context (R : Handler DB -> Prop).
Hypothesis R_store : forall h d, R h -> R (set_store h d).
Hypothesis R_update : forall h u p, (fst (UpdatePort u p (store h)) = Ok tt -> good_name u) -> R h ->
  R (snd (@UpdateUserPort DB (DB_UserStore loc) (aw_proxy w) u p h)).
Hypothesis R_start : forall h u p, good_name u -> R h -> R (snd (StartListener (aw_proxy w) u p h)).
Hypothesis R_stop : forall h p, R h -> R (snd (StopListener (aw_proxy w) p h)).

Definition kept (since : Z) (h : Handler DB) : Prop :=
  history true since (store h) /\ Forall good_name (usernames (users (store h))) /\ R h.

Lemma kept_store since h d' :
  kept since h -> history true since d' -> Forall good_name (usernames (users d')) -> kept since (set_store h d').
Proof. intros (_ & _ & Hi) Hd Hn. split; [done|]. split; [done|]. by apply R_store. Qed.

Lemma kept_op since h op :
  op_ok op -> (forall u p lo hi s now, op = OpAdd u p lo hi s now -> good_name u) ->
  kept since h -> kept since (set_store h (run_op op (store h))).
Proof.
  intros Hok Hadd Hk. pose proof Hk as (Hh & Hn & _). apply kept_store; [done|by apply history_op|by apply run_op_names].
Qed.

Lemma kept_undisturbed since h d' : undisturbed (store h) d' -> kept since h -> kept since (set_store h d').
Proof.
  intros [(ts & fs & ->) _] Hk. pose proof Hk as (Hh & Hn & _). by apply kept_store; [|apply h_faults, h_devices|].
Qed.

Lemma kept_update since u p : stable (kept since) (ports (@UpdateUserPort DB (DB_UserStore loc) (aw_proxy w) u p)).
Proof.
  apply stable_ports. intros h (Hh & Hn & Hr). destruct (UpdateUserPort_eq (us := DB_UserStore loc) (aw_proxy w) u p h) as [_ E].
  split; [rewrite E; by apply (history_op since (OpUpdatePort u p))|]. split; [rewrite E; by apply (run_op_names (OpUpdatePort u p))|].
  apply R_update; [|done]. by apply UpdatePort_good.
Qed.

(** A created user has a name that can authenticate. *)
Definition login_ok (body : option loginRequest) : Prop := forall req, body = Some req -> free_of ":" (lr_Username req).

Lemma kept_create since body salt now : login_ok body -> stable (kept since) (handleCreateUser loc w body salt now).
Proof.
  intros Hl. unfold handleCreateUser. destruct body as [req|]; [|apply stable_ret]. destruct (String.eqb_spec (lr_Username req) "") as [?|Hne]; [apply stable_ret|].
  cbn [orb]. case_match; [apply stable_ret|]. cbn [UserPortRange]. apply stable_bind.
  { apply stable_db. intros h Hk. apply (kept_op since h (OpAdd _ _ _ _ _ _)); [done| |done]. intros u p lo hi s t [= <- _ _ _ _ _].
    split; [done|by apply Hl]. }
  intros [port|err]; [|apply stable_ret]. apply stable_bind; [apply kept_update|intros; apply stable_ret].
Qed.

Lemma kept_listed since now : stable (kept since) (listed now).
Proof. apply stable_bind; [|intros; apply stable_ret]. apply stable_db. intros h. apply kept_undisturbed, undisturbed_List. Qed.

Lemma kept_delete since r now : stable (kept since) (handleDeleteUser loc w r now).
Proof.
  unfold handleDeleteUser. case_match; [apply stable_ret|]. apply stable_bind; [apply kept_listed|]. intros l. apply stable_bind.
  { case_match; [|apply stable_ret]. apply stable_bind; [apply kept_update|intros; apply stable_ret]. }
  intros _. apply stable_bind; [|intros [[]|e]; apply stable_ret]. apply stable_db. intros h. by apply (kept_op since h (OpDelete _)).
Qed.

Lemma kept_port since r body : stable (kept since) (handleUpdatePort loc w r body).
Proof.
  unfold handleUpdatePort. case_match; [apply stable_ret|]. destruct body as [req|]; [|apply stable_ret].
  case_match; [apply stable_ret|]. apply stable_bind.
  - unfold check_port. case_match; [apply stable_ret|]. cbn [UserPortRange]. case_match; [apply stable_ret|].
    apply stable_bind; [|intros; apply stable_ret]. apply stable_db. intros h. apply kept_undisturbed, undisturbed_PortOwner.
  - intros [rp|]; [apply stable_ret|]. apply stable_bind; [apply kept_update|intros; apply stable_ret].
Qed.

Lemma kept_serve since r b e :
  login_ok (as_login b) -> clock_ok (re_now e) ->
  stable (kept since) (serve loc w network qrcode_New CompareHashAndPassword r b e).
Proof.
  intros Hl Hc. apply stable_serve with (may := fun _ => True) (login_ok := login_ok); try done.
  - intros op h Hok Hp _. apply kept_op; [done|]. by intros u p lo hi s now ->.
  - intros h d'. apply kept_undisturbed.
  - intros h (Hh & _). by eapply history_unique.
  - intros u row h (Hh & Hn & Hr) Hrow _. split; [by rewrite StartListener_store|]. split; [by rewrite StartListener_store|].
    apply R_start; [by eapply row_good|done].
  - intros port h (Hh & Hn & Hr). split; [by rewrite StopListener_store|]. split; [by rewrite StopListener_store|]. by apply R_stop.
  - apply kept_create.
  - apply kept_delete.
  - apply kept_port.
Qed.
End requests.

(** The two properties of the handler that are kept. *)
Lemma inward_serve (w : api_wiring) network qrcode_New Compare since h0 r b e :
  login_ok (as_login b) -> clock_ok (re_now e) -> stable (kept (inward good_name h0) since) (serve loc w network qrcode_New Compare r b e).
Proof.
  apply kept_serve.
  - intros h d H. etransitivity; [exact H|]. by apply inward_same.
  - intros h u p Hg H. etransitivity; [exact H|]. by apply inward_UpdateUserPort.
  - intros h u p Hg H. etransitivity; [exact H|]. by apply inward_StartListener.
  - intros h p H. etransitivity; [exact H|]. apply inward_StopListener.
Qed.

Lemma alive_serve (w : api_wiring) network qrcode_New Compare since r b e :
  login_ok (as_login b) -> clock_ok (re_now e) -> stable (kept (alive (aw_proxy w)) since) (serve loc w network qrcode_New Compare r b e).
Proof.
  apply kept_serve.
  - intros h d. apply alive_store.
  - intros h u p _. apply alive_UpdateUserPort.
  - intros h u p _. apply alive_StartListener.
  - intros h p. apply alive_StopListener.
Qed.
End names.
