(* ===== verification/AdminExamples.v ===== *)
(** * The admin API at a concrete server *)

From S2P Require Import Prelude GoStrings GoBase64 GoTime GoNet GoHTTP GoRFC3339 Downtime Password UserTable UserDB UserDBLemmas.
From S2P Require Import UserDBOps UserDBCoherence UserDBReach UserDBSpec RateLimit Dns Config Proxy UserPorts Collector DeviceTokens AdminSession ClientIP.
From S2P Require Import AdminServer ProxyOverDB AdminAPI AdminLemmas AdminAccess AdminSpec.

Open Scope list_scope.

Section examples.
#[local] Existing Instance toy_crypto.
#[local] Existing Instance toy_codec.
#[local] Existing Instance toy_sqlite.

Definition ex_bcrypt (hash password : string) : bool := (hash =? password)%string.

Definition ex_api_wiring : api_wiring :=
  mkApiWiring "admin" "secret" [net.mkIPNet [10; 0; 0; 0] [255; 0; 0; 0]] "900" true false false (ex_wiring false).

Definition ex_api (d : DB) : api := NewServer 2 900 3 false NewCollector (ex_handler d).

Definition ex_call (method path : string) : http.Request :=
  http.mkRequest method "admin.example" "" path path "198.51.100.9:4711" ∅ [] [("username", "amy"); ("id", "x")] true.

Definition ex_bodies : bodies :=
  mkBodies (Some (mkLogin "bob" "pw")) (Some (mkPortReq "amy" 9001)) None None None None None None None.

Definition ex_env : request_env := mkRequestEnv 5 (Some ex_salt) [1; 2; 3] (Some "0123456789abcdef") "code" 0.

Definition ex_serve := serve time.UTC ex_api_wiring ex_network (fun _ => None) ex_bcrypt.

Lemma ex_clock : clock_ok 5.
Proof. by vm_compute. Qed.

Lemma api_requests_are_histories_witness :
  history true 0 (database (snd (ex_serve (ex_call "POST" "/api/pair") ex_bodies ex_env (ex_api ex_db)))).
Proof.
  apply (api_requests_are_histories time.UTC ex_api_wiring ex_network (fun _ => None) ex_bcrypt 0
    (ex_call "POST" "/api/pair") ex_bodies ex_env (ex_api ex_db)); [apply ex_db_history|apply ex_clock].
Defined.

Lemma ex_unique : unique_usernames (users ex_db).
Proof. apply (history_unique true 0), ex_db_history. Qed.

Lemma ex_table : table_ok (users ex_db).
Proof.
  split; [apply ex_unique|]. split; [|by vm_compute; repeat constructor].
  intros H. vm_compute in H. apply elem_of_cons in H as [H|H]; [done|by apply elem_of_nil in H].
Qed.

Lemma api_keeps_ports_unique_witness :
  table_ok (users (database (snd (ex_serve (ex_call "POST" "/api/users") ex_bodies ex_env (ex_api ex_db))))).
Proof.
  apply (api_keeps_ports_unique time.UTC ex_api_wiring ex_network (fun _ => None) ex_bcrypt
    (ex_call "POST" "/api/users") ex_bodies ex_env (ex_api ex_db)); [apply ex_table|apply ex_clock].
Defined.

Lemma ex_no_session r now d : ~ session_live r now (ex_api d).
Proof. intros (token & exp & _ & H & _). simpl in H. by rewrite lookup_empty in H. Qed.

Lemma admin_api_requires_credentials_witness :
  let '(rp, a') := ex_serve (ex_call "DELETE" "/api/users") ex_bodies ex_env (ex_api ex_db) in
  rp = WriteHeader 401 /\ untouched (ex_api ex_db) a'.
Proof.
  apply (admin_api_requires_credentials time.UTC ex_api_wiring ex_network (fun _ => None) ex_bcrypt
    (ex_call "DELETE" "/api/users") ex_bodies ex_env (ex_api ex_db)).
  left. split; [|split; [done|]].
  - unfold session_paths. do 4 apply list_elem_of_further. apply list_elem_of_here.
  - split; [apply ex_no_session|]. by intros (? & _).
Defined.

Definition ex_guess (password : string) (now : Z) : login_event :=
  Attempt (ex_call "POST" "/api/login") (Some (mkLogin "admin" password)) [7] now.

Lemma password_guesses_are_bounded_witness :
  let guesses := [ex_guess "a" 1; ex_guess "b" 2; Tick 2; ex_guess "c" 3; ex_guess "d" 4] in
  (forall ip, wrong_guesses ex_api_wiring ex_bcrypt (fun ip' => (ip =? ip')%string) guesses (ex_api ex_db) <= 2) /\
  wrong_guesses ex_api_wiring ex_bcrypt (fun _ => true) guesses (ex_api ex_db) = 2.
Proof.
  split; [|by vm_compute].
  apply (password_guesses_are_bounded ex_api_wiring ex_bcrypt 1
    [ex_guess "a" 1; ex_guess "b" 2; Tick 2; ex_guess "c" 3; ex_guess "d" 4] (ex_api ex_db)).
  intros ev H. repeat (apply elem_of_cons in H as [->|H]; [vm_compute; done|]). by apply elem_of_nil in H.
Defined.

Definition ex_put (path : string) : http.Request := ex_call "PUT" path.

Lemma downtime_now_blocks_at_once_witness :
  let '(rp, a') := handleDowntimeNow ex_api_wiring (ex_put "/") (Some (mkNowReq "amy" 30)) 5 (ex_api ex_db) in
  rp = WriteHeader 200 /\ (forall t, t < 5 + 30 * time.Minute -> IsInDowntime time.UTC t (database a') "amy" = true) /\
  (MITMEnabled (cfg (ex_wiring false)) = false -> 0 < r_port ex_row -> userServers (ap_proxy a') !! r_port ex_row = None).
Proof.
  apply (downtime_now_blocks_at_once time.UTC ex_api_wiring (ex_put "/") (mkNowReq "amy" 30) 5 (ex_api ex_db) ex_row);
    [done|done|by vm_compute|by vm_compute|done|by vm_compute|apply ex_unique|by vm_compute].
Defined.

Lemma oversized_pause_is_lost_witness :
  let '(rp, a') := handleDowntimeNow ex_api_wiring (ex_put "/") (Some (mkNowReq "amy" 153722868)) 5 (ex_api ex_db) in
  rp = WriteHeader 200 /\
  IsInDowntime time.UTC 6 (database a') "amy" =
    IsInDowntime time.UTC 6 (snd (ClearDowntimeUntil "amy" (database (ex_api ex_db)))) "amy".
Proof.
  apply (oversized_pause_is_lost time.UTC ex_api_wiring (ex_put "/") (mkNowReq "amy" 153722868) 5 6 (ex_api ex_db) ex_row);
    [done|done|by vm_compute|by vm_compute|done|by vm_compute|apply ex_unique|by vm_compute].
Defined.

Lemma override_opens_disabled_users_port_witness :
  let '(rp, a') := handleDowntimeOverride ex_api_wiring (ex_put "/") (Some (mkOverrideReq "amy" 30)) 5 (ex_api ex_disabled) in
  rp = WriteHeader 200 /\ is_Some (userServers (ap_proxy a') !! 9000) /\
  forall t, @listenerWanted DB (DB_UserStore time.UTC) (ex_wiring false) t (ap_proxy a') "amy" = false.
Proof.
  apply (override_opens_disabled_users_port time.UTC ex_api_wiring (ex_put "/") (mkOverrideReq "amy" 30) 5 (ex_api ex_disabled)
    (UserTable.set_enabled ex_row 0)); [done|done|by vm_compute|by vm_compute| |by vm_compute|by vm_compute|by vm_compute|done].
  apply (history_unique false 0), ex_disabled_history.
Defined.

Lemma delete_closes_everything_witness :
  let '(rp, a') := handleDeleteUser time.UTC ex_api_wiring (ex_call "DELETE" "/api/users") 5 (ex_api ex_db) in
  rp = WriteHeader 200 /\ row_of (users (database a')) "amy" = None /\
  (forall header salt t, fst (Check header salt t (database a')) <> Ok "amy") /\
  userServers (ap_proxy a') !! 9000 = None.
Proof.
  apply (delete_closes_everything time.UTC ex_api_wiring (ex_call "DELETE" "/api/users") 5 (ex_api ex_db) ex_row);
    [done|by vm_compute|apply ex_unique|by vm_compute|done|].
  intros p. change (r_port ex_row) with 9000. simpl. rewrite lookup_singleton. case_decide; [subst; by split|split; [done|intros ->; done]].
Defined.

Definition ex_two_users : DB := run_op (OpAdd "bob" "pw2" 9000 9010 (Some ex_salt) 0) ex_db.

Lemma interleaved_port_updates_share_a_port_witness :
  let '(c1, a1) := check_port ex_api_wiring "amy" 9005 (ex_api ex_two_users) in
  let '(c2, a2) := check_port ex_api_wiring "bob" 9005 a1 in
  let '(r1, a3) := update_port time.UTC ex_api_wiring "amy" 9005 a2 in
  let '(r2, a4) := update_port time.UTC ex_api_wiring "bob" 9005 a3 in
  c1 = None /\ c2 = None /\ r1 = WriteHeader 200 /\ r2 = WriteHeader 200 /\
  r_port <$> row_of (users (database a4)) "amy" = Some 9005 /\ r_port <$> row_of (users (database a4)) "bob" = Some 9005.
Proof.
  apply (interleaved_port_updates_share_a_port time.UTC ex_api_wiring "amy" "bob" 9005 (ex_api ex_two_users)
    ex_row (new_row 0 "bob" (hashPassword "pw2" ex_salt) 9001)); [done|done|done|by vm_compute|by vm_compute|by vm_compute|].
  intros r H. vm_compute in H. repeat (apply elem_of_cons in H as [->|H]; [done|]). by apply elem_of_nil in H.
Defined.
End examples.
