(* ===== verification/Main.v ===== *)
(** * Starting the program (cmd/evan-proxy/main.go)

    What [main] builds from the environment before it serves: the configuration,
    the database, the proxy handler, the admin server, the block page's CA and the
    per-user listeners, in the order of the source.  Sockets, signals, the autocert
    manager and the pprof handlers are outside the model. *)

From S2P Require Import Prelude GoStrings GoBase64 GoTime GoNet GoHTTP Downtime Password UserTable UserDB UserDBLemmas UserDBReach UserDBCalm RateLimit Dns.
From S2P Require Import Config ConfigLoad Proxy ProxySpec UserPorts UserPortsSpec CertCache Mitm Collector AdminSession AdminServer.
From S2P Require Import AdminLemmas UserDBSpec ProxyOverDB.

Open Scope list_scope.

(** Is this a listen address on the loopback interface only? *)
Definition isLoopbackListen (addr : string) : bool :=
  match net.SplitHostPort addr with
  | None => false
  | Some (host, _) =>
      if (host =? "localhost")%string then true else
      match net.ParseIP host with Some ip => net.IsLoopback ip | None => false end
  end.

(** The trusted networks; an entry that does not parse is skipped. *)
Definition trusted_networks (cidrs : list string) : list net.IPNet := omap ParseCIDR cidrs.

Inductive start_error :=
| ConfigRefused (e : config_error)
| UDPFailed
| TickerPanic (of_what : string)
| DBFailed (e : db_error)
| ResolverPanic
| CAFailed (e : ca_error)
| ListenersFailed (e : db_error).

(** The running program: its settings, the admin server with the proxy inside, the
    fixed wiring of both, and the CA when the block page is on. *)
Record program := mkProgram { p_cfg : Config; p_api : api; p_wiring : api_wiring; p_ca : option CA }.

Section start.
Context {crypto : Crypto} {codec : ScheduleCodec} {sqlite : SQLiteClock}.
Variable loc : time.Location.
Variable ParseDuration : string -> option Z.

#[local] Instance main_store : UserStore DB := DB_UserStore loc.

(** What the process finds: the environment, whether the UDP logger can be set up,
    the database file, the clock, the files, and randomness for the leaf key. *)
Record surroundings := mkSurroundings {
  su_Getenv : string -> string;
  su_udp_ok : bool;
  su_rows : list Row;
  su_tokens : list TokenRow;
  su_columns : gset string;
  su_faults : list (option string);
  su_now : Z;
}.

(** [mitm.LoadCA] on the two configured files. *)
Variable load_ca : string -> string -> Options -> result ca_error CA.

(** [proxy.New] once the resolver is built. *)
Definition New (c : Config) (d : DB) : Handler DB :=
  mkHandler d (newLimiter (AuthFailRateLimit c) (AuthFailWindow c)) ∅ ∅ ∅ 0 ∅ [].

Definition proxy_wiring (c : Config) (resolver : Resolver) : Wiring :=
  mkWiring c true true true (MITMEnabled c) AllowAll resolver.

Definition admin_wiring (c : Config) (w : Wiring) : api_wiring :=
  mkApiWiring (AdminUser c) (AdminPassword c) (trusted_networks (TrustedProxyCIDRs c))
    (strconv.Itoa (AdminLoginWindow c / time.Second)) (ForceHTTPS c) (DemoMode c) (MetricsListen c =? "")%string w.

(** [main] up to the point where it serves.  [time.NewTicker] panics on an
    interval that is not positive; the tickers run in goroutines of the logger and
    of the limiters. *)
Definition main (su : surroundings) : result start_error program :=
  match Load ParseDuration (su_Getenv su) with
  | Err e => Err (ConfigRefused e)
  | Ok c =>
      if (LogNetMode c =? "json-udp")%string && negb (su_udp_ok su) then Err UDPFailed else
      if (LogNetMode c =? "json-http")%string && (LogNetFlushInterval c <=? 0) then Err (TickerPanic "log flush") else
      match Open (su_rows su) (su_tokens su) (su_columns su) (su_faults su) (su_now su) with
      | (Err e, _) => Err (DBFailed e)
      | (Ok _, d) =>
          if AuthFailWindow c <=? 0 then Err (TickerPanic "auth failures") else
          match newResolver (DNSProtocol c) (DNSServer c) with
          | None => Err ResolverPanic
          | Some resolver =>
              let w := proxy_wiring c resolver in
              if AdminLoginWindow c <=? 0 then Err (TickerPanic "log-in failures") else
              match (if MITMEnabled c
                     then match load_ca (MITMCACertFile c) (MITMCAKeyFile c) (mkOptions (MITMLeafTTL c) (MITMCertCacheSize c)) with
                          | Err e => Err e | Ok ca => Ok (Some ca) end
                     else Ok None) with
              | Err e => Err (CAFailed e)
              | Ok ca =>
                  match StartUserListeners w (su_now su) (New c d) with
                  | (Err e, _) => Err (ListenersFailed e)
                  | (Ok _, h) =>
                      Ok (mkProgram c
                        (NewServer (AdminLoginRateLimit c) (AdminLoginWindow c) (AdminLoginGlobalMax c) (DemoMode c) NewCollector h)
                        (admin_wiring c w) ca)
                  end
              end
          end
      end
  end.

(** ** What holds when it serves *)

Lemma for_assign_spec w l (h : Handler DB) :
  let h' := snd (for_entries (assign_and_start w) l h) in
  store h' = store h /\ authSessions h' = authSessions h /\ resolvers h' = resolvers h /\ limiter h' = limiter h /\
  (ports_ok h -> ports_ok h') /\
  (forall p, is_Some (userServers h' !! p) <-> is_Some (userServers h !! p) \/ exists u, (p, u) ∈ l) /\
  (forall p srv, userServers h' !! p = Some srv -> userServers h !! p = Some srv \/ (p, sv_owner srv) ∈ l).
Proof.
  revert h. induction l as [|[port u] l IH]; intros h; cbn zeta; cbn [for_entries].
  { simpl. do 4 (split; [done|]). split; [done|]. split; [|auto]. intros p. split; [auto|]. intros [H|[u H]]; [done|]. by apply not_elem_of_nil in H. }
  unfold mbind, ST_bind. pose proof (assign_and_start_ok w port u h) as Hok.
  assert (exists h1, assign_and_start w port u h = (tt, h1) /\ store h1 = store h /\ authSessions h1 = authSessions h /\ resolvers h1 = resolvers h /\
    limiter h1 = limiter h /\ userServers h1 = <[port := mkServer (nextServer h) u]> (userServers h)) as (h1 & E & S1 & S2 & S3 & S4 & S5).
  { unfold assign_and_start, startListenerLocked, mbind, ST_bind, update, emit. simpl. destruct (DemoMode (cfg w)); eexists; done. }
  rewrite E in *. simpl in Hok. destruct (IH h1) as (H1 & H2 & H3 & H4 & H5 & H6 & H7). destruct (for_entries _ l h1) as [[] h']. simpl in *.
  do 4 (split; [congruence|]). split; [auto|]. split.
  - intros p. rewrite H6, S5, lookup_insert. setoid_rewrite elem_of_cons. case_decide as Hp; [subst p|].
    + split; [intros _; right; exists u; by left|]. intros _. left. by eexists.
    + split; [intros [?|[v ?]]; eauto|]. intros [?|[v [[= -> ->]|?]]]; eauto. done.
  - intros p srv Hsrv. rewrite elem_of_cons. destruct (H7 p srv Hsrv) as [Hh|Hin]; [|auto]. rewrite S5, lookup_insert in Hh.
    case_decide as Hp; [|auto]. subst p. injection Hh as <-. simpl. auto.
Qed.

Lemma StartUserListeners_spec w now (h h' : Handler DB) :
  StartUserListeners w now h = (Ok tt, h') ->
  exists ports s, us_ListPorts (store h) = (Ok ports, s) /\ store h' = s /\ authSessions h' = authSessions h /\ resolvers h' = resolvers h /\
    limiter h' = limiter h /\ (ports_ok h -> ports_ok h') /\
    (userServers h = ∅ ->
      (forall p, is_Some (userServers h' !! p) <->
         exists u, ports !! p = Some u /\ in_range w p = true /\ listenerWanted w now h' u = true) /\
      (forall p srv, userServers h' !! p = Some srv -> ports !! p = Some (sv_owner srv))).
Proof.
  unfold StartUserListeners, ListPorts_, mbind, ST_bind. destruct (us_ListPorts (store h)) as [[ports|e] s] eqn:E; [|done].
  unfold gets. destruct (for_assign_spec w (map_to_list (wanted_ports w now (set_store h s) ports)) (set_store h s)) as (H1 & H2 & H3 & H4 & H5 & H6 & H7).
  destruct (for_entries _ _ _) as [[] h1]. simpl in *. intros [= <-]. exists ports, s. do 6 (split; [done|]). intros He.
  assert (forall u, listenerWanted w now h1 u = listenerWanted w now (set_store h s) u) as Hw
    by (intros u; apply listenerWanted_ext; by rewrite H1).
  assert (forall p u, (p, u) ∈ map_to_list (wanted_ports w now (set_store h s) ports) <->
    ports !! p = Some u /\ in_range w p = true /\ listenerWanted w now h1 u = true) as Hin.
  { intros p u. rewrite elem_of_map_to_list. unfold wanted_ports. rewrite map_lookup_filter_Some, Hw. simpl. by rewrite andb_true_iff. }
  split.
  - intros p. rewrite H6, He, lookup_empty. setoid_rewrite Hin. split; [intros [[? [=]]|?]; done|by right].
  - intros p srv Hsrv. destruct (H7 p srv Hsrv) as [Hx|Hx]; [by rewrite He, lookup_empty in Hx|]. by apply Hin in Hx as [Hx _].
Qed.

Lemma trusted_networks_all cidrs :
  Forall (fun cidr => is_Some (ParseCIDR cidr)) cidrs -> length (trusted_networks cidrs) = length cidrs.
Proof. unfold trusted_networks. induction 1 as [|x l [n Hn] _ IH]; [done|]. cbn [omap list_omap]. rewrite Hn. cbn [length]. by f_equal. Qed.

(** A program that got to serving: every step before succeeded. *)
Lemma main_inv (su : surroundings) (p : program) :
  main su = Ok p ->
  exists c d h resolver ca,
    Load ParseDuration (su_Getenv su) = Ok c /\ usable c /\
    Open (su_rows su) (su_tokens su) (su_columns su) (su_faults su) (su_now su) = (Ok tt, d) /\
    StartUserListeners (proxy_wiring c resolver) (su_now su) (New c d) = (Ok tt, h) /\
    match ca with
    | Some x => MITMEnabled c = true /\
        load_ca (MITMCACertFile c) (MITMCAKeyFile c) (mkOptions (MITMLeafTTL c) (MITMCertCacheSize c)) = Ok x
    | None => MITMEnabled c = false
    end /\
    p = mkProgram c
      (NewServer (AdminLoginRateLimit c) (AdminLoginWindow c) (AdminLoginGlobalMax c) (DemoMode c) NewCollector h)
      (admin_wiring c (proxy_wiring c resolver)) ca.
Proof.
  unfold main. destruct (Load _ _) as [c|] eqn:El; [|done].
  assert (usable c) as Hc by (unfold Load in El; destruct (validate _) eqn:Ev; [done|]; injection El as <-; by apply validate_usable).
  destruct (_ && negb (su_udp_ok su)); [done|]. destruct (_ && (LogNetFlushInterval c <=? 0)); [done|].
  destruct (Open _ _ _ _ _) as [[[]|] d] eqn:Eo; [|done]. destruct (AuthFailWindow c <=? 0); [done|].
  destruct (newResolver _ _) as [resolver|]; [|done]. destruct (AdminLoginWindow c <=? 0); [done|].
  destruct (if MITMEnabled c then _ else _) as [ca|] eqn:Ec; [|done].
  destruct (StartUserListeners (proxy_wiring c resolver) (su_now su) (New c d)) as [[[]|] h] eqn:Es; [|done]. intros [= <-].
  exists c, d, h, resolver, ca. do 4 (split; [done|]). split; [|done]. destruct (MITMEnabled c).
  - destruct (load_ca _ _ _) as [x|] eqn:Ex; [|done]. by injection Ec as <-.
  - by injection Ec as <-.
Qed.

(** The CA loader gives CAs that can sign, as [mitm.LoadCA] does (LoadCA_signing). *)
Hypothesis load_ca_signing : forall certFile keyFile opts ca, load_ca certFile keyFile opts = Ok ca -> signing_ca ca.

(** [C37] The program starts in order: whenever [main] gets to serving, on a database
    file without duplicate names, the configuration is usable, no trusted-proxy
    entry was dropped, the shared database is in a reachable state with coherent
    caches, owners and servers agree, exactly the assigned ports in range of users
    who want a listener are open, each for its owner, there are no sessions and
    outside demo mode no enrollment codes, and the block page has a CA that can
    sign exactly when it is enabled. *)
Theorem startup_establishes_invariants (su : surroundings) (p : program) :
  unique_usernames (su_rows su) -> main su = Ok p ->
  let h := ap_proxy (p_api p) in let w := aw_proxy (p_wiring p) in
  usable (p_cfg p) /\ cfg w = p_cfg p /\
  length (trustedProxies (p_wiring p)) = length (TrustedProxyCIDRs (p_cfg p)) /\
  history true (su_now su) (database (p_api p)) /\
  ports_ok h /\ sessions_ok h /\
  (exists d ports, fst (ListPorts d) = Ok ports /\ only_faults d (store h) /\
     (forall port, is_Some (userServers h !! port) <->
        exists u, ports !! port = Some u /\ in_range w port = true /\ listenerWanted w (su_now su) h u = true) /\
     (forall port srv, userServers h !! port = Some srv -> ports !! port = Some (sv_owner srv))) /\
  sessions (ap_sessions (p_api p)) = ∅ /\ (DemoMode (p_cfg p) = false -> codes (ap_enroll (p_api p)) = ∅) /\
  match p_ca p with Some ca => MITMEnabled (p_cfg p) = true /\ signing_ca ca | None => MITMEnabled (p_cfg p) = false end.
Proof.
  intros Hu (c & d & h & resolver & ca & El & Hc & Eo & Es & Ec & ->)%main_inv. set (w := proxy_wiring c resolver) in *.
  apply StartUserListeners_spec in Es as (ports & s & Hl & Hs & Ha & _ & _ & Hok & Hp). destruct (Hp eq_refl) as [Hp1 Hp2].
  assert (only_faults d s) as Hf.
  { change (us_ListPorts (store (New c d))) with (ListPorts d) in Hl. unfold ListPorts, mbind, M_bind in Hl.
    pose proof (query_faults (fun d => filter (fun r => 0 < r_port r) (users d)) (Wrapped "listing ports") d) as Hq.
    destruct (wrap _ _ d) as [[rows|e] d1]; [|done]. simpl in Hq. injection Hl as _ <-. exact Hq. }
  cbn. split; [done|]. split; [done|]. split; [apply trusted_networks_all, Hc|]. split.
  { unfold database. cbn. rewrite Hs. destruct Hf as [fs ->]. apply h_faults. by eapply h_open. }
  split; [apply Hok; intros q srv; cbn; by rewrite lookup_empty|]. split; [intros k x; rewrite Ha; cbn; by rewrite lookup_empty|]. split.
  { exists d, ports. rewrite Hs. split; [by change (fst (us_ListPorts (store (New c d))) = Ok ports); rewrite Hl|]. by split. }
  split; [done|]. split; [by intros ->|]. destruct ca as [x|]; [|done]. destruct Ec as [Em Ex]. split; [done|]. by eapply load_ca_signing.
Qed.

(** A zero or negative AUTH_FAIL_WINDOW passes validation and crashes the process. *)
Lemma zero_window_crashes (su : surroundings) c d :
  Load ParseDuration (su_Getenv su) = Ok c -> LogNetMode c = ""%string -> AuthFailWindow c <= 0 ->
  Open (su_rows su) (su_tokens su) (su_columns su) (su_faults su) (su_now su) = (Ok tt, d) ->
  main su = Err (TickerPanic "auth failures").
Proof.
  intros Hl Hn Hw Ho. unfold main. rewrite Hl, Hn, Ho. cbn [String.eqb andb]. by rewrite (proj2 (Z.leb_le _ _) Hw).
Qed.
End start.

(** The address test: what passes names this machine only. *)
Lemma isLoopbackListen_sound addr :
  isLoopbackListen addr = true ->
  exists host port, net.SplitHostPort addr = Some (host, port) /\
    (host = "localhost"%string \/ exists ip, net.ParseIP host = Some ip /\ net.IsLoopback ip = true).
Proof.
  unfold isLoopbackListen. destruct (net.SplitHostPort addr) as [[host port]|]; [|done]. intros H. exists host, port. split; [done|].
  destruct (String.eqb_spec host "localhost"); [by left|right]. destruct (net.ParseIP host) as [ip|]; [by exists ip|done].
Qed.

(** ** Starting from a concrete environment *)

Section examples.
#[local] Existing Instance toy_crypto.
#[local] Existing Instance toy_codec.
#[local] Existing Instance toy_sqlite.

Definition ex_environ (key : string) : string :=
  if (key =? "ADMIN_USER")%string then "admin" else if (key =? "ADMIN_PASSWORD")%string then "hash"
  else if (key =? "USER_PORT_MIN")%string then "9000" else if (key =? "USER_PORT_MAX")%string then "9010"
  else if (key =? "MITM_ENABLED")%string then "true" else if (key =? "MITM_CA_CERT_FILE")%string then "ca.pem"
  else if (key =? "MITM_CA_KEY_FILE")%string then "ca.key" else if (key =? "TRUSTED_PROXY_CIDRS")%string then "10.0.0.0/8, ::1/128"
  else "".

Definition ex_su : surroundings := mkSurroundings ex_environ true [ex_row] [] migrated_columns [] 5.
Definition ex_main : result start_error program := main time.UTC (fun _ => None) (fun _ _ _ => Ok ex_ca) ex_su.

Lemma startup_establishes_invariants_witness :
  match ex_main with
  | Ok p => usable (p_cfg p) /\ length (trustedProxies (p_wiring p)) = 2%nat
  | Err _ => False
  end.
Proof.
  assert (match ex_main with Ok p => length (TrustedProxyCIDRs (p_cfg p)) =? 2 | Err _ => false end = true)%nat as Hc by (by vm_compute).
  destruct ex_main as [p|e] eqn:E; [|discriminate Hc]. apply Nat.eqb_eq in Hc.
  assert (signing_ca ex_ca) as Hca by (do 3 (split; [reflexivity|]); split; [vm_compute; lia|reflexivity]).
  assert (unique_usernames (su_rows ex_su)) as Hrows by (by vm_compute; apply NoDup_singleton). unfold ex_main in E.
  apply (startup_establishes_invariants time.UTC (fun _ => None) (fun _ _ _ => Ok ex_ca)) in E as (Hu & _ & Hn & _);
    [|intros _ _ _ ca [= <-]; exact Hca|exact Hrows].
  split; [exact Hu|]. by rewrite Hn.
Defined.
End examples.
