(* ===== verification/Services.v ===== *)
(** * The HTTP services of the process (second half of main, cmd/evan-proxy/main.go)

    Which handler is served on which address, and in which order everything stops.
    Sockets and the autocert manager are outside the model; what reaches the admin
    handler is AdminAPI's [serve]. *)

From S2P Require Import Prelude GoStrings GoBase64 GoTime GoNet GoHTTP Downtime Password UserTable UserDB UserDBLemmas UserDBReach UserDBCalm RateLimit Dns.
From S2P Require Import Config ConfigLoad Proxy ProxySpec UserPorts UserPortsSpec CertCache Mitm Collector AdminSession AdminServer.
From S2P Require Import AdminAPI AdminLemmas UserDBSpec ProxyOverDB Main.

Open Scope list_scope.

(** The handlers [main] builds: the admin server, with the access log in front in
    demo mode; the ACME challenge handler, which redirects the rest to HTTPS; and
    the two diagnostic muxes. *)
Inductive http_handler := AdminHandler (access_logged : bool) | ACMEHandler | MetricsMux | PprofMux.

(** An [http.Server]; a timeout of zero is none.  [sv_fatal]: a failing listener ends
    the process. *)
Record service := mkService {
  sv_Addr : string;
  sv_TLS : bool;
  sv_Handler : http_handler;
  sv_ReadTimeout : Z;
  sv_IdleTimeout : Z;
  sv_fatal : bool;
}.

Definition is_set (s : string) : bool := negb (s =? "")%string.

Definition admin_services (c : Config) : list service :=
  let handler := AdminHandler (DemoMode c) in
  if is_set (AutocertHost c) then
    [mkService ":80" false ACMEHandler 0 0 true;
     mkService ":443" true handler (10 * time.Second) (120 * time.Second) true]
  else [mkService (AdminListen c) false handler (10 * time.Second) (120 * time.Second) true].

Definition metrics_services (c : Config) : list service :=
  if is_set (MetricsListen c)
  then [mkService (MetricsListen c) false MetricsMux (10 * time.Second) (120 * time.Second) true] else [].

Definition pprof_services (c : Config) : list service :=
  if PProfEnabled c then [mkService (PProfListen c) false PprofMux 0 0 false] else [].

Definition services (c : Config) : list service := admin_services c ++ metrics_services c ++ pprof_services c.

(** The error that is logged about the profiling address. *)
Definition pprof_warning (c : Config) : bool := PProfEnabled c && negb (isLoopbackListen (PProfListen c)).

(** What a pattern of a mux leads to: the metrics, profiles, or one of the pages and API
    handlers of the admin server. *)
Inductive page_kind := MetricsPage | ProfilePage | AdminRoute.
#[export] Instance page_kind_eq_dec : EqDecision page_kind.
Proof. solve_decision. Defined.

Definition RegisterPprof : list (string * page_kind) :=
  [("/debug/pprof/", ProfilePage); ("/debug/pprof/cmdline", ProfilePage); ("/debug/pprof/profile", ProfilePage);
   ("/debug/pprof/symbol", ProfilePage); ("/debug/pprof/trace", ProfilePage)]%string.

(** The mux of [NewServer]. *)
Definition admin_mux (w : api_wiring) : list (string * page_kind) :=
  map (fun pattern => (pattern, AdminRoute))
    ["/static/"; "/api/login"; "/api/logout"; "/api/stats/top-sites"; "/api/stats/top-blocked"; "/api/stats/traffic"; "/api/logs";
     "/api/users"; "/api/users/password"; "/api/users/port"; "/api/users/dns"; "/api/users/dns/test"; "/api/users/enabled";
     "/api/users/downtime"; "/api/users/downtime-override"; "/api/users/downtime-now";
     "/api/devices/enroll"; "/api/devices"; "/api/pair"; "/api/version"]%string ++
  (if mountDiagnostics w then [("/metrics"%string, MetricsPage)] else []) ++
  [("/login"%string, AdminRoute); ("/"%string, AdminRoute)].

(** What is registered on the mux of a handler; the ACME handler is no mux and answers
    challenges and redirects only. *)
Definition handler_mux (w : api_wiring) (h : http_handler) : list (string * page_kind) :=
  match h with
  | AdminHandler _ => admin_mux w
  | ACMEHandler => []
  | MetricsMux => [("/metrics"%string, MetricsPage)]
  | PprofMux => RegisterPprof
  end.

(** [http.ServeMux]: a pattern that ends in a slash also takes what is below it, and of
    the patterns that match a path the longest is taken. *)
Definition matches (pattern path : string) : bool :=
  (path =? pattern)%string || (strings.HasSuffix pattern "/" && strings.HasPrefix path pattern).

Definition longer (path : string) (best : option (string * page_kind)) (route : string * page_kind) : option (string * page_kind) :=
  if negb (matches (fst route) path) then best else
  match best with
  | None => Some route
  | Some b => if (String.length (fst b) <? String.length (fst route))%nat then Some route else best
  end.

Definition mux_target (routes : list (string * page_kind)) (path : string) : option page_kind := snd <$> foldl (longer path) None routes.

(** Does the service answer the path with the metrics, or with profiles? *)
Definition serves (what : page_kind) (w : api_wiring) (s : service) (path : string) : bool :=
  bool_decide (mux_target (handler_mux w (sv_Handler s)) path = Some what).

(** ** The end of main *)

Inductive shutdown_action :=
| StopReconciler | ShutdownListeners | StopAuthCleanup | ShutdownAdmin | ShutdownMetrics
| StopCounter | StopCollector | StopLimiter | ShutdownACME | CloseDatabase | CloseLogger.

(** What follows the signal, and then the deferred calls, last deferred first. *)
Definition shutdown_sequence (c : Config) : list shutdown_action :=
  [StopReconciler; ShutdownListeners; StopAuthCleanup; ShutdownAdmin] ++
  (if is_set (MetricsListen c) then [ShutdownMetrics] else []) ++
  [StopCounter; StopCollector; StopLimiter] ++
  (if is_set (AutocertHost c) then [ShutdownACME] else []) ++
  [CloseDatabase; CloseLogger].

(** Nobody reads the database once it is closed and nobody logs once the logger is:
    everything else was stopped before. *)
Lemma shutdown_sequence_order c :
  exists before, shutdown_sequence c = before ++ [CloseDatabase; CloseLogger] /\
    StopReconciler ∈ before /\ ShutdownListeners ∈ before /\ ShutdownAdmin ∈ before /\ head before = Some StopReconciler.
Proof.
  unfold shutdown_sequence. exists ([StopReconciler; ShutdownListeners; StopAuthCleanup; ShutdownAdmin] ++
    (if is_set (MetricsListen c) then [ShutdownMetrics] else []) ++ [StopCounter; StopCollector; StopLimiter] ++
    (if is_set (AutocertHost c) then [ShutdownACME] else [])).
  split; [by rewrite <- !app_assoc|]. cbn [app]. split; [set_solver|]. split; [set_solver|]. split; [set_solver|done].
Qed.

Section exposure.
Context {crypto : Crypto} {codec : ScheduleCodec} {sqlite : SQLiteClock} {sorting : MapSort}.
Variable loc : time.Location.

(** An empty METRICS_LISTEN reads as unset and takes the default, so there is
    always a listener for the metrics in a configuration that was loaded. *)
Lemma MetricsListen_set ParseDuration Getenv c : Load ParseDuration Getenv = Ok c -> is_set (MetricsListen c) = true.
Proof.
  unfold Load. destruct (validate _); [done|]. intros [= <-]. cbn [settings MetricsListen]. unfold envOr, is_set.
  by destruct (Getenv "METRICS_LISTEN" =? "")%string eqn:E; cbn [negb]; rewrite ?E.
Qed.

Lemma mux_target_routed routes path what : mux_target routes path = Some what -> exists pattern, (pattern, what) ∈ routes /\ matches pattern path = true.
Proof.
  unfold mux_target. intros ([pattern w] & Hf & ->)%fmap_Some. cbn [snd].
  assert (forall best, (forall b, best = Some b -> b ∈ routes /\ matches (fst b) path = true) -> forall rs, rs ⊆ routes ->
    forall b, foldl (longer path) best rs = Some b -> b ∈ routes /\ matches (fst b) path = true) as Hgen.
  { intros best Hb rs. revert best Hb. induction rs as [|r rs IH]; intros best Hb Hrs; [exact Hb|]. cbn [foldl]. apply IH; [|set_solver].
    intros b. unfold longer. destruct (matches (fst r) path) eqn:Em; cbn [negb]; [|apply Hb].
    assert (r ∈ routes) as Hr by (apply Hrs; by left). destruct best as [b'|]; [|by intros [= <-]].
    destruct (_ <? _)%nat; [by intros [= <-]|apply Hb]. }
  destruct (Hgen None ltac:(done) routes ltac:(done) _ Hf) as [H1 H2]. by exists pattern.
Qed.

Lemma matches_exact pattern path : strings.HasSuffix pattern "/" = false -> matches pattern path = true -> path = pattern.
Proof. unfold matches. intros ->. rewrite orb_false_r. by intros H%String.eqb_eq. Qed.

(** Which handlers have which diagnostics. *)
Lemma serves_metrics w s path :
  serves MetricsPage w s path = true <->
  path = "/metrics"%string /\ (sv_Handler s = MetricsMux \/ mountDiagnostics w = true /\ exists logged, sv_Handler s = AdminHandler logged).
Proof.
  unfold serves. rewrite bool_decide_eq_true. split.
  - intros (pattern & Hin & Hm)%mux_target_routed. destruct (sv_Handler s) as [logged| | |]; cbn [handler_mux] in Hin; unfold admin_mux in Hin.
    + rewrite !elem_of_app in Hin. destruct Hin as [Hin|[Hin|Hin]].
      * by apply list_elem_of_fmap in Hin as (? & ? & _).
      * destruct (mountDiagnostics w); [|by apply not_elem_of_nil in Hin]. apply list_elem_of_singleton in Hin as [= ->].
        apply matches_exact in Hm as ->; [|done]. split; [done|]. right. split; [done|]. by exists logged.
      * exfalso. set_solver.
    + by apply not_elem_of_nil in Hin.
    + apply list_elem_of_singleton in Hin as [= ->]. apply matches_exact in Hm as ->; [|done]. by auto.
    + exfalso. unfold RegisterPprof in Hin. set_solver.
  - intros [-> [->|[Hm [logged ->]]]]; [done|]. cbn [handler_mux]. unfold admin_mux. rewrite Hm. by vm_compute.
Qed.

Lemma serves_profiles w s path : serves ProfilePage w s path = true -> sv_Handler s = PprofMux.
Proof.
  unfold serves. rewrite bool_decide_eq_true. intros (pattern & Hin & Hm)%mux_target_routed.
  destruct (sv_Handler s) as [logged| | |]; cbn [handler_mux] in Hin; unfold admin_mux in Hin; [|exfalso; set_solver..|done].
  exfalso. rewrite !elem_of_app in Hin. destruct Hin as [Hin|[Hin|Hin]]; [by apply list_elem_of_fmap in Hin as (? & ? & _)| |set_solver].
  destruct (mountDiagnostics w); set_solver.
Qed.

Lemma HasPrefix_app p path : strings.HasPrefix path p = true -> exists s, path = (p +:+ s)%string.
Proof.
  revert path. induction p as [|a p IH]; intros path; [by exists path|]. destruct path as [|b path]; [done|].
  unfold strings.HasPrefix in *. cbn [String.prefix]. destruct (ascii_dec a b) as [->|]; [|done]. intros [s ->]%IH. by exists s.
Qed.

Lemma pprof_path path what : mux_target RegisterPprof path = Some what -> exists s, path = ("/debug/pprof/" +:+ s)%string.
Proof.
  intros (pattern & Hin & Hm)%mux_target_routed. unfold RegisterPprof in Hin. rewrite !elem_of_cons, elem_of_nil in Hin.
  destruct Hin as [[= -> ->]|[[= -> ->]|[[= -> ->]|[[= -> ->]|[[= -> ->]|[]]]]]].
  - unfold matches in Hm. apply orb_true_iff in Hm as [->%String.eqb_eq|[_ H]%andb_true_iff]; [by exists EmptyString|by apply HasPrefix_app].
  - apply matches_exact in Hm as ->; [by exists "cmdline"%string|done].
  - apply matches_exact in Hm as ->; [by exists "profile"%string|done].
  - apply matches_exact in Hm as ->; [by exists "symbol"%string|done].
  - apply matches_exact in Hm as ->; [by exists "trace"%string|done].
Qed.

(** On the admin server a path of the diagnostics that is not mounted there is the
    index page, behind the session. *)
Lemma admin_has_no_profiles w network qrcode_New Compare (r : http.Request) b e what :
  mux_target RegisterPprof (http.URL_Path r) = Some what ->
  serve loc w network qrcode_New Compare r b e = requireSessionPage (mret (answer 200 (Text (http.URL_Path r)))) r (re_now e).
Proof.
  intros [s Hs]%pprof_path. unfold serve. rewrite Hs. by destruct (mountDiagnostics w).
Qed.

(** [C29] Where diagnostics are served, for every configuration: with a metrics
    address the metrics are served there and by nothing else, and the admin server
    answers /metrics with its index page, behind the session; without one they are
    mounted on the admin server, and only there.  There are profiles exactly when they
    are enabled, at their own address only, never at the admin server, and an address
    beyond the loopback interface is reported as an error.  With autocert every admin
    request comes over TLS. *)
Theorem diagnostics_stay_internal (c : Config) (resolver : Resolver) :
  let w := admin_wiring c (proxy_wiring c resolver) in
  let page_of r e := requireSessionPage (mret (answer 200 (Text (http.URL_Path r)))) r (re_now e) in
  (is_set (MetricsListen c) = true ->
    (forall s path, s ∈ services c -> serves MetricsPage w s path = true <-> sv_Handler s = MetricsMux /\ sv_Addr s = MetricsListen c /\ path = "/metrics"%string) /\
    (exists s, s ∈ services c /\ serves MetricsPage w s "/metrics" = true) /\
    (forall network qrcode_New Compare (r : http.Request) b e, http.URL_Path r = "/metrics"%string ->
      serve loc w network qrcode_New Compare r b e = page_of r e)) /\
  (is_set (MetricsListen c) = false ->
    (forall s path, s ∈ services c -> serves MetricsPage w s path = true <-> (exists logged, sv_Handler s = AdminHandler logged) /\ path = "/metrics"%string) /\
    (forall network qrcode_New Compare (r : http.Request) b e, http.URL_Path r = "/metrics"%string ->
      serve loc w network qrcode_New Compare r b e = mret (answer 200 (Text "/metrics")))) /\
  (forall s path, s ∈ services c -> serves ProfilePage w s path = true -> sv_Handler s = PprofMux /\ sv_Addr s = PProfListen c) /\
  ((exists s path, s ∈ services c /\ serves ProfilePage w s path = true) <-> PProfEnabled c = true) /\
  (forall network qrcode_New Compare (r : http.Request) b e what, mux_target RegisterPprof (http.URL_Path r) = Some what ->
      serve loc w network qrcode_New Compare r b e = page_of r e) /\
  (PProfEnabled c = true -> pprof_warning c = false ->
    exists host port, net.SplitHostPort (PProfListen c) = Some (host, port) /\
      (host = "localhost"%string \/ exists ip, net.ParseIP host = Some ip /\ net.IsLoopback ip = true)) /\
  (is_set (AutocertHost c) = true -> forall s logged, s ∈ services c -> sv_Handler s = AdminHandler logged -> sv_TLS s = true).
Proof.
  intros w page_of.
  assert (mountDiagnostics w = negb (is_set (MetricsListen c))) as Hmd by (cbn; unfold is_set; by rewrite negb_involutive).
  assert (forall s, s ∈ services c -> (exists l, sv_Handler s = AdminHandler l /\ (is_set (AutocertHost c) = true -> sv_TLS s = true)) \/ sv_Handler s = ACMEHandler \/
    sv_Handler s = MetricsMux /\ is_set (MetricsListen c) = true /\ sv_Addr s = MetricsListen c \/ sv_Handler s = PprofMux /\ PProfEnabled c = true /\ sv_Addr s = PProfListen c) as Hcases.
  { intros s. unfold services, admin_services, metrics_services, pprof_services. rewrite !elem_of_app. intros [Hs|[Hs|Hs]].
    - destruct (is_set (AutocertHost c)) eqn:E; [apply elem_of_cons in Hs as [->|Hs]; [auto|]|];
        apply list_elem_of_singleton in Hs as ->; left; by eexists.
    - destruct (is_set (MetricsListen c)); [|by apply not_elem_of_nil in Hs]. apply list_elem_of_singleton in Hs as ->. auto 6.
    - destruct (PProfEnabled c); [|by apply not_elem_of_nil in Hs]. apply list_elem_of_singleton in Hs as ->. auto 6. }
  split; [|split; [|split; [|split; [|split; [|split]]]]].
  - intros Hm. rewrite Hm in Hmd. cbn [negb] in Hmd. split; [|split].
    + intros s path Hs. rewrite serves_metrics, Hmd. destruct (Hcases s Hs) as [(l & -> & _)|[->|[(-> & _ & ?)|[-> _]]]]; naive_solver.
    + exists (mkService (MetricsListen c) false MetricsMux (10 * time.Second) (120 * time.Second) true). split; [|done].
      unfold services, metrics_services. rewrite Hm. set_solver.
    + intros network qrcode_New Compare r b e Hp. unfold serve, page_of. by rewrite Hmd, Hp.
  - intros Hm. rewrite Hm in Hmd. cbn [negb] in Hmd. split.
    + intros s path Hs. rewrite serves_metrics, Hmd. destruct (Hcases s Hs) as [(l & -> & _)|[->|[(-> & E & _)|[-> _]]]]; [naive_solver|naive_solver|congruence|naive_solver].
    + intros network qrcode_New Compare r b e Hp. unfold serve. by rewrite Hmd, Hp.
  - intros s path Hs Hp%serves_profiles. by destruct (Hcases s Hs) as [(l & E & _)|[E|[[E _]|(E & _ & E2)]]]; [congruence..|].
  - split.
    + intros (s & path & Hs & Hp%serves_profiles). by destruct (Hcases s Hs) as [(l & E & _)|[E|[[E _]|(_ & E & _)]]]; [congruence..|].
    + intros Hp. exists (mkService (PProfListen c) false PprofMux 0 0 false), "/debug/pprof/"%string. split; [|done].
      unfold services, pprof_services. rewrite Hp. set_solver.
  - intros. by eapply admin_has_no_profiles.
  - unfold pprof_warning. intros -> [host Hh]%negb_false_iff%isLoopbackListen_sound. by exists host.
  - intros Ha s logged Hs E. destruct (Hcases s Hs) as [(l & _ & H)|[H|[[H _]|[H _]]]]; [by apply H|congruence..].
Qed.
End exposure.

Section examples.
#[local] Existing Instance toy_crypto.
#[local] Existing Instance toy_codec.
#[local] Existing Instance toy_sqlite.

(** As the program is started in the example of Main. *)
Lemma diagnostics_stay_internal_witness :
  match ex_main with
  | Ok p => exists s, s ∈ services (p_cfg p) /\ serves MetricsPage (admin_wiring (p_cfg p) (proxy_wiring (p_cfg p) SystemResolver)) s "/metrics" = true
  | Err _ => False
  end.
Proof.
  assert (match ex_main with Ok p => is_set (MetricsListen (p_cfg p)) | Err _ => false end = true) as Hc by (by vm_compute).
  destruct ex_main as [p|e] eqn:E; [|discriminate Hc].
  destruct (diagnostics_stay_internal time.UTC (p_cfg p) SystemResolver) as (H & _).
  destruct (H Hc) as (_ & Hs & _). exact Hs.
Defined.
End examples.
