(* ===== verification/World.v ===== *)
(** * The running program, step by step

    What [main] started, under any sequence of proxied requests, requests to the
    admin API, ticks of the background goroutines, failing listeners and failing
    database statements.  A proxied request comes in on a server that listens, known
    to the handler or not, and is served by that server's closure.  A CONNECT may
    also be taken in two steps, with any events between its challenge and the answer
    of the client.  The invariant of this file says for every contact of the program
    with the network which request it belongs to and why that was admitted. *)

From S2P Require Import Prelude GoStrings GoBase64 GoTime GoNet GoHTTP Downtime Password UserTable UserDB UserDBLemmas UserDBOps UserDBCoherence UserDBReach.
From S2P Require Import UserDBSpec RateLimit Dns Config ConfigLoad Bypass Proxy Connect Forward ProxyFrame ProxySafety ProxySpec Challenge UserPorts UserPortsSpec Sockets.
From S2P Require Import ProxyOverDB CertCache Mitm Collector DeviceTokens UserDBCalm AdminSession AdminServer AdminAPI AdminLemmas AdminSpec AdminPorts Running AdminFrame.

Open Scope list_scope.

(** [conn] names a connection that waits for the answer to its challenge.  A tick of
    the reconciler is taken whole, or phase by phase with other events in between. *)
Inductive event :=
| Proxied (port : Z) (id : nat) (r : http.Request) (cenv : connect_env) (fenv : forward_env)
| Arrived (conn : nat) (port : Z) (id : nat) (r : http.Request) (cenv : connect_env)
| Answered (conn : nat) (cenv : connect_env)
| Administered (r : http.Request) (b : bodies) (e : request_env)
| Reconciled (now : Z)
| ReconcilerMoves (now : Z)
| AuthSessionsSwept (now : Z)
| LimiterSwept (now : Z)
| LoginLimiterSwept (now : Z)
| AdminSessionsSwept (now : Z)
| EnrollmentsSwept (now : Z)
| ServerFailed (port : Z) (id : nat)
| StatementsFail (fs : list (option string)).

(** Both servers of the program, the goroutines that wait for an answer, and the
    reconciler. *)
Record world := mkWorld { wo_api : api; wo_waiting : gmap nat challenge; wo_tick : option tick }.

Definition handler (s : world) : Handler DB := ap_proxy (wo_api s).

Section world.
Context {crypto : Crypto} {codec : ScheduleCodec} {sqlite : SQLiteClock}.
Variable loc : time.Location.
Variable network : Network.
Variable qrcode_New : string -> option (list (list bool)).
Variable CompareHashAndPassword : string -> string -> bool.

#[local] Instance world_store : UserStore DB := DB_UserStore loc.

Variable w : api_wiring.

Definition proxy_step (m : ST (Handler DB) unit) (a : api) : api := set_ap_proxy a (snd (m (ap_proxy a))).

(** The logger hands the entries of a request to the collector. *)
Definition observe_new (h h' : Handler DB) (c : Collector) : Collector :=
  foldl (fun c e => match e with Log x => Observe x c | _ => c end) c (drop (length (trace h)) (trace h')).

Definition proxied {A} (m : ST (Handler DB) A) (a : api) : api :=
  let h' := snd (m (ap_proxy a)) in set_ap_stats (set_ap_proxy a h') (observe_new (ap_proxy a) h' (ap_stats a)).

(** The owner of a server that listens. *)
Definition ends (port : Z) (id : nat) (e : effect) : bool :=
  match e with Shutdown p i | ListenFailed p i => (p =? port) && (i =? id)%nat | _ => false end.

Definition starts (port : Z) (id : nat) (e : effect) : option string :=
  match e with Listen p i u => if (p =? port) && (i =? id)%nat then Some u else None | _ => None end.

Definition listener (tr : list effect) (port : Z) (id : nat) : option string :=
  if existsb (ends port id) tr then None else head (omap (starts port id) tr).

Lemma listener_listening tr port id u : listener tr port id = Some u -> listening tr port id u.
Proof.
  unfold listener. destruct (existsb (ends port id) tr) eqn:E; [done|]. intros Hh.
  assert (forall e, e ∈ tr -> ends port id e = false) as He.
  { intros e Hin. destruct (ends port id e) eqn:Ee; [|done]. rewrite <- E. symmetry. apply existsb_true_iff. by exists e. }
  split; [|split; intros Hin%He; simpl in Hin; by rewrite Z.eqb_refl, Nat.eqb_refl in Hin].
  destruct (omap (starts port id) tr) as [|v l] eqn:Eo; [done|]. injection Hh as ->.
  assert (u ∈ omap (starts port id) tr) as (e & Hin & Hu)%list_elem_of_omap by (rewrite Eo; by left).
  destruct e as [| | | | | | | | | |p i v|p i|]; try done. simpl in Hu. destruct ((p =? port) && (i =? id)%nat) eqn:Ep; [|done]. injection Hu as ->.
  apply andb_true_iff in Ep as [->%Z.eqb_eq ->%Nat.eqb_eq]. done.
Qed.

(** The steps that leave the other goroutines alone. *)
Definition api_step (ev : event) (a : api) : api :=
  match ev with
  | Proxied port id r cenv fenv =>
      match listener (trace (ap_proxy a)) port id with
      | None => a
      | Some owner => proxied (ServeHTTP (aw_proxy w) network r owner cenv fenv) a
      end
  | Administered r b e => snd (serve loc w network qrcode_New CompareHashAndPassword r b e a)
  | AuthSessionsSwept now => proxy_step (cleanupAuthSessions now) a
  | LimiterSwept now => proxy_step (update (fun h => set_limiter h (limiter_cleanup now (limiter h)))) a
  | LoginLimiterSwept now => set_ap_login a (limiter_cleanup now (ap_loginLimiter a)) (ap_globalFails a)
  | AdminSessionsSwept now => set_ap_sessions a (session_cleanup now (ap_sessions a))
  | EnrollmentsSwept now => set_ap_enroll a (enroll_cleanup now (ap_enroll a))
  | ServerFailed port id =>
      match listener (trace (ap_proxy a)) port id with
      | None => a
      | Some _ => proxy_step (serverFailed port id) a
      end
  | StatementsFail fs => proxy_step (update (fun h => set_store h (set_faults (store h) fs))) a
  | _ => a
  end.

(** A CONNECT comes in on a connection that nobody waits on; the reconciler starts no
    tick while one runs. *)
Definition step (ev : event) (s : world) : world :=
  match ev with
  | Arrived conn port id r cenv =>
      match listener (trace (handler s)) port id, wo_waiting s !! conn, (http.Method r =? http.MethodConnect)%string with
      | Some owner, None, true =>
          let m := connect_first (aw_proxy w) network r owner cenv in
          mkWorld (proxied m (wo_api s)) (match fst (m (handler s)) with Some c => <[conn := c]> (wo_waiting s) | None => wo_waiting s end) (wo_tick s)
      | _, _, _ => s
      end
  | Answered conn cenv =>
      match wo_waiting s !! conn with
      | None => s
      | Some c => mkWorld (proxied (connect_second (aw_proxy w) network c cenv) (wo_api s)) (delete conn (wo_waiting s)) (wo_tick s)
      end
  | Reconciled now =>
      match wo_tick s with
      | None => mkWorld (proxy_step (reconcileListeners (aw_proxy w) now) (wo_api s)) (wo_waiting s) None
      | Some _ => s
      end
  | ReconcilerMoves now =>
      let m := tick_phase (aw_proxy w) now (wo_tick s) in
      mkWorld (set_ap_proxy (wo_api s) (snd (m (handler s)))) (wo_waiting s) (fst (m (handler s)))
  | _ => mkWorld (api_step ev (wo_api s)) (wo_waiting s) (wo_tick s)
  end.

Definition run (evs : list event) (s : world) : world := foldl (fun s ev => step ev s) s evs.

Lemma run_snoc evs ev s : run (evs ++ [ev]) s = step ev (run evs s).
Proof. unfold run. by rewrite foldl_app. Qed.

(** ** Why a request was admitted *)

(** Another look at credentials, which may fill the cache and refresh a hash. *)
Definition checked (d d' : DB) : Prop := exists header salt now, d' = snd (Check header salt now d).

(** The headers an event brings, and the address it comes from. *)
Definition answer_header (cenv : connect_env) : list string :=
  match ce_retry cenv with Some retry => [http.Get (http.HeaderOf retry) "Proxy-Authorization"] | None => [] end.

Definition credentials (ev : event) : list string :=
  match ev with
  | Proxied _ _ r cenv _ => http.Get (http.HeaderOf r) "Proxy-Authorization" :: answer_header cenv
  | Arrived _ _ _ r _ => [http.Get (http.HeaderOf r) "Proxy-Authorization"]
  | Answered _ cenv => answer_header cenv
  | _ => []
  end.

Definition address (s : world) (ev : event) : option string :=
  match ev with
  | Proxied _ _ r _ _ | Arrived _ _ _ r _ => Some (clientAddr r)
  | Answered conn _ => ch_clientIP <$> wo_waiting s !! conn
  | _ => None
  end.

(** The event brings the current password of the user. *)
Definition presented (d : DB) (ev : event) (u : string) : Prop :=
  exists header d' pass row, header ∈ credentials ev /\ rtc checked d d' /\ parseBasicAuth header = Some (u, pass) /\
    row_of (users d') u = Some row /\ current_password row pass.

Variable s0 : world.

(** Some request so far came from the address with the user's password of then. *)
Definition vouched (evs : list event) (ip u : string) : Prop :=
  exists before ev after, evs = before ++ ev :: after /\
    address (run before s0) ev = Some ip /\ presented (store (handler (run before s0))) ev u.

(** The connection waits since a CONNECT on a server of [u] that listened then. *)
Definition challenged (evs : list event) (conn : nat) (c : challenge) (u : string) : Prop :=
  exists before port id r cenv after, evs = before ++ Arrived conn port id r cenv :: after /\
    listening (trace (handler (run before s0))) port id u /\
    fst (connect_first (aw_proxy w) network r u cenv (handler (run before s0))) = Some c.

(** The request of the event came in on a server of [u]. *)
Definition came_in (before : list event) (ev : event) (u : string) : Prop :=
  match ev with
  | Proxied port id _ _ _ | Arrived _ port id _ _ => listening (trace (handler (run before s0))) port id u
  | Answered conn _ => exists c, wo_waiting (run before s0) !! conn = Some c /\ challenged before conn c u
  | _ => False
  end.

(** What entitles it to leave, as [ServeHTTP] dispatches it: for a CONNECT, whom it acts
    for and that its host may be reached then; for another request, that its host is
    allowed and its user is in no downtime. *)
Definition cleared (h : Handler DB) (ev : event) (u : string) : Prop :=
  match ev with
  | Proxied _ _ r cenv fenv =>
      if (http.Method r =? http.MethodConnect)%string
      then exists host t, connect_as r u cenv h u host t /\ may_pass (aw_proxy w) h t u host
      else acl_Allow (aw_proxy w) (forward_host r) = true /\
        has_downtimeChecker (aw_proxy w) && us_IsInDowntime (fe_now fenv) (store h) u = false
  | Arrived _ _ _ r cenv => may_pass (aw_proxy w) h (ce_now cenv) u (http.Host r)
  | Answered _ cenv => exists retry, ce_retry cenv = Some retry /\ may_pass (aw_proxy w) h (ce_now2 cenv) u (http.Host retry)
  | _ => False
  end.

(** A contact is the work of one request on a server that listens, or listened when
    the request came in, for its owner, who is cleared and vouched for. *)
Definition attributed (evs : list event) (e : effect) : Prop :=
  exists before ev after u ip new,
    evs = before ++ ev :: after /\
    let s := run before s0 in
    came_in before ev u /\ trace (handler (step ev s)) = trace (handler s) ++ new /\ e ∈ new /\
    cleared (handler s) ev u /\ address s ev = Some ip /\ vouched (before ++ [ev]) ip u.

Lemma vouched_app evs l ip u : vouched evs ip u -> vouched (evs ++ l) ip u.
Proof. intros (before & ev & after & -> & H). exists before, ev, (after ++ l). by rewrite <- app_assoc. Qed.

Lemma challenged_app evs l conn c u : challenged evs conn c u -> challenged (evs ++ l) conn c u.
Proof.
  intros (before & port & id & r & cenv & after & -> & H). exists before, port, id, r, cenv, (after ++ l). by rewrite <- app_assoc.
Qed.

Lemma attributed_app evs l e : attributed evs e -> attributed (evs ++ l) e.
Proof.
  intros (before & ev & after & u & ip & new & -> & H). exists before, ev, (after ++ l), u, ip, new. by rewrite <- app_assoc.
Qed.

Lemma session_key_good ip ip' u u' :
  good_name u -> good_name u' -> authCacheKey ip u = authCacheKey ip' u' -> ip = ip' /\ u = u'.
Proof.
  intros [Hu Hf] [Hu' Hf']. unfold authCacheKey. rewrite (proj2 (String.eqb_neq _ _) Hu), (proj2 (String.eqb_neq _ _) Hu').
  by apply session_key_inj.
Qed.

(** ** The invariant *)

(** A session stands for a user who showed the password from that address. *)
Definition backed (evs : list event) (k : string) (s : authSession) : Prop :=
  good_name (as_user s) /\ exists ip, k = authCacheKey ip (as_user s) /\ vouched evs ip (as_user s).

Definition waiting_ok (evs : list event) (conns : gmap nat challenge) : Prop :=
  forall conn c, conns !! conn = Some c -> good_name (ch_portUser c) /\ challenged evs conn c (ch_portUser c).

Record sound (since : Z) (evs : list event) : Prop := {
  sound_history : history true since (store (handler (run evs s0)));
  sound_names : names_ok (handler (run evs s0));
  sound_filed : filed (backed evs) (handler (run evs s0));
  sound_waiting : waiting_ok evs (wo_waiting (run evs s0));
  sound_tick : tick_in good_name (wo_tick (run evs s0));
  sound_contacts : forall e, e ∈ trace (handler (run evs s0)) -> contact e = true -> attributed evs e;
}.

Lemma backed_app evs l k s : backed evs k s -> backed (evs ++ l) k s.
Proof. intros (Hg & ip & Hk & Hv). split; [done|]. exists ip. split; [done|]. by apply vouched_app. Qed.

Lemma waiting_app evs l conns : waiting_ok evs conns -> waiting_ok (evs ++ l) conns.
Proof. intros H conn c Hc%H. destruct Hc as [Hg Hch]. split; [done|]. by apply challenged_app. Qed.

(** Steps that open no session and contact nobody. *)
Lemma sound_quiet since evs ev :
  sound since evs -> wo_waiting (step ev (run evs s0)) = wo_waiting (run evs s0) -> tick_in good_name (wo_tick (step ev (run evs s0))) ->
  (let h := handler (run evs s0) in let h' := handler (step ev (run evs s0)) in
   history true since (store h') /\ names_ok h' /\
   (forall k s, authSessions h' !! k = Some s -> authSessions h !! k = Some s) /\
   exists new, trace h' = trace h ++ new /\ Forall (fun e => contact e = false) new) ->
  sound since (evs ++ [ev]).
Proof.
  intros [_ _ Hf Hw _ Ht] Ew Htick (Hh & Hn & Hs & new & E & Hnew). split; rewrite run_snoc; [done|done|..|done|].
  - intros k s Hk%Hs. by apply backed_app, Hf.
  - rewrite Ew. by apply waiting_app.
  - intros e He Hc. rewrite E in He. apply elem_of_app in He as [He|He]; [by apply attributed_app, Ht|].
    rewrite Forall_forall in Hnew. specialize (Hnew e He). simpl in Hnew. congruence.
Qed.

(** ** Requests *)

(** What serving a request leaves of the handler. *)
Definition served (h1 h2 : Handler DB) : Prop :=
  portUsers h2 = portUsers h1 /\ userServers h2 = userServers h1 /\ nextServer h2 = nextServer h1 /\ rtc checked (store h1) (store h2) /\
  exists new, trace h2 = trace h1 ++ new /\ Forall (fun e => socket e = false) new.

#[local] Instance served_preorder : PreOrder served.
Proof.
  split; [intros h1; do 4 (split; [done|]); exists []; by rewrite app_nil_r|].
  intros h1 h2 h3 (A1 & A2 & AN & A3 & n1 & A4 & A5) (B1 & B2 & BN & B3 & n2 & B4 & B5).
  split; [congruence|]. split; [congruence|]. split; [congruence|]. split; [by etransitivity|].
  exists (n1 ++ n2). rewrite B4, A4, app_assoc. split; [done|]. by apply Forall_app.
Qed.

Lemma served_quiet (h1 h2 : Handler DB) :
  portUsers h2 = portUsers h1 -> userServers h2 = userServers h1 -> nextServer h2 = nextServer h1 -> store h2 = store h1 -> trace h2 = trace h1 ->
  served h1 h2.
Proof. intros E1 E2 EN E3 E4. do 3 (split; [done|]). split; [by rewrite E3|]. exists []. by rewrite app_nil_r. Qed.

Lemma served_effect e (h : Handler DB) : socket e = false -> served h (emit_effect h e).
Proof. intros He. do 4 (split; [done|]). exists [e]. split; [done|]. by apply Forall_singleton. Qed.

Lemma served_check header salt now (h : Handler DB) : served h (set_store h (snd (us_Check header salt now (store h)))).
Proof. do 3 (split; [done|]). split; [apply rtc_once; by exists header, salt, now|]. exists []. by rewrite app_nil_r. Qed.

Lemma ServeHTTP_served r portUser cenv fenv h : served h (snd (ServeHTTP (aw_proxy w) network r portUser cenv fenv h)).
Proof.
  apply respects_ServeHTTP; try (intros; by apply served_quiet); [apply _|intros e h2; apply served_effect|intros header salt now h2; apply served_check].
Qed.

Lemma phases_served :
  (forall r portUser cenv h, served h (snd (connect_first (aw_proxy w) network r portUser cenv h))) /\
  (forall c cenv h, served h (snd (connect_second (aw_proxy w) network c cenv h))).
Proof.
  apply (respects_phases (aw_proxy w) network served); try (intros; by apply served_quiet);
    [intros e h2; apply served_effect|intros header salt now h2; apply served_check].
Qed.

Lemma checked_history since d d' : history true since d -> rtc checked d d' -> history true since d'.
Proof.
  intros Hh Hd. revert Hh. induction Hd as [d|d1 d2 d3 (h' & s' & n' & ->) _ IH]; [done|]. intros Hd1. apply IH.
  by apply (history_op since (OpCheck h' s' n')).
Qed.

Lemma checked_names d d' : rtc checked d d' -> Forall good_name (usernames (users d)) -> Forall good_name (usernames (users d')).
Proof. induction 1 as [d|d1 d2 d3 (h' & s' & n' & ->) _ IH]; [done|]. intros H. by apply IH, (run_op_names (OpCheck h' s' n')). Qed.

Lemma proxied_handler {A} (m : ST (Handler DB) A) a : ap_proxy (proxied m a) = snd (m (ap_proxy a)).
Proof. done. Qed.

Section request.
Variables (since : Z) (evs : list event) (ev : event) (u ip : string).
Hypothesis Hsound : sound since evs.
Hypothesis Hin : came_in evs ev u.
Hypothesis Haddr : address (run evs s0) ev = Some ip.

Let h := handler (run evs s0).

Lemma came_in_good : good_name u.
Proof.
  clear Haddr. destruct Hsound as [_ [_ Hn] _ Hw _ _]. destruct ev as [port id r cenv fenv|conn port id r cenv|conn cenv| | | | | | | | | |]; try done; cbn in Hin.
  - destruct Hin as [Hl _]. by eapply Hn.
  - destruct Hin as [Hl _]. by eapply Hn.
  - destruct Hin as (c & Hc & before & port & id & r & cenv' & after & _ & _ & Hf).
    apply connect_first_waits in Hf as [<- _]. by destruct (Hw _ _ Hc).
Qed.

(** Credentials of the event that [Check] accepts vouch for the user. *)
Lemma accepted_vouched header salt now d' v :
  header ∈ credentials ev -> rtc checked (store h) d' -> fst (Check header salt now d') = Ok v -> vouched (evs ++ [ev]) ip v.
Proof.
  intros Hhead Hd Hc. exists evs, ev, []. split; [done|]. split; [done|]. destruct (Check header salt now d') as [res d2] eqn:E. simpl in Hc. subst res.
  pose proof (checked_history since _ _ (sound_history _ _ Hsound) Hd) as Hh.
  destruct (Check_accepts_current _ _ _ _ _ _ _ _ Hh E) as (pass & row & Hp & Hrow & Hcur). by exists header, d', pass, row.
Qed.

(** So does a session of the address. *)
Lemma authenticated_vouched header salt now v :
  header ∈ credentials ev -> authenticated h ip header u salt now v -> v = u /\ vouched (evs ++ [ev]) ip v.
Proof.
  pose proof (sound_filed _ _ Hsound) as Hf. destruct came_in_good as [Hne Hfree]. intros Hhead [[Hc [?|Hu]]|(_ & Hv & Hs)]; [done| |].
  - split; [done|]. eapply accepted_vouched; [exact Hhead|reflexivity|exact Hc].
  - unfold checkAuthSession, gets in Hs. cbn [fst] in Hs. destruct (authSessions h !! _) as [s|] eqn:E; [|by subst v].
    case_match; [|by subst v]. destruct (Hf _ _ E) as (Hg & ip' & Hk & Hvo). rewrite Hs in *.
    apply session_key_good in Hk as [-> ->]; [|apply came_in_good|done]. split; [done|]. by apply vouched_app.
Qed.

(** A step that serves the request is sound. *)
Lemma sound_request {A} (m : ST (Handler DB) A) :
  handler (step ev (run evs s0)) = snd (m h) ->
  contacts_only_if m h (cleared h ev u /\ vouched (evs ++ [ev]) ip u) ->
  served h (snd (m h)) -> filed (backed (evs ++ [ev])) (snd (m h)) ->
  waiting_ok (evs ++ [ev]) (wo_waiting (step ev (run evs s0))) -> wo_tick (step ev (run evs s0)) = wo_tick (run evs s0) ->
  sound since (evs ++ [ev]).
Proof.
  intros Er (new & E & Hnew) (_ & _ & _ & E3 & socks & E4 & Hsocks) Hfiled Hwait Htick. pose proof Hsound as [Hh [Hn1 Hn2] Hf _ Hk Ht].
  split; rewrite run_snoc; [..|done|by rewrite Htick|]; rewrite Er.
  - by eapply checked_history.
  - split; [by eapply checked_names|]. intros q i v. rewrite E4, elem_of_app. intros [Hin'|Hin']; [by eapply Hn2|].
    rewrite Forall_forall in Hsocks. by specialize (Hsocks _ Hin').
  - done.
  - intros e He Hc. rewrite E in He. apply elem_of_app in He as [He|He]; [by apply attributed_app, Ht|].
    destruct (Hnew e He Hc) as [Hcl Hv]. exists evs, ev, [], u, ip, new. split; [done|]. cbn zeta. rewrite Er. done.
Qed.
End request.

Section requests.
Variables (since : Z) (evs : list event).
Hypothesis Hsound : sound since evs.

Let h := handler (run evs s0).

Lemma filed_more ev : filed (backed (evs ++ [ev])) h.
Proof. intros k s Hk. by apply backed_app, (sound_filed _ _ Hsound). Qed.

Lemma admitted_vouched port id r cenv fenv u v :
  let ev := Proxied port id r cenv fenv in
  came_in evs ev u -> admitted r u cenv fenv h v -> v = u /\ vouched (evs ++ [ev]) (clientAddr r) v.
Proof.
  intros ev Hin. pose proof (came_in_good since evs ev u Hsound Hin) as [Hne Hfree].
  assert (http.Get (http.HeaderOf r) "Proxy-Authorization" ∈ credentials ev) as Hr by (by left).
  intros [host t [v' Ha|retry v' Er Hc [?|Hu]]|Ha]; [..|].
  - by eapply (authenticated_vouched since).
  - done.
  - split; [done|]. eapply (accepted_vouched since); [done|done| |apply rtc_once|exact Hc].
    + cbn. unfold answer_header. rewrite Er. right. by left.
    + by eexists _, _, _.
  - by eapply (authenticated_vouched since).
Qed.

Lemma ServeHTTP_contacts port id r cenv fenv u :
  let ev := Proxied port id r cenv fenv in
  came_in evs ev u ->
  contacts_only_if (ServeHTTP (aw_proxy w) network r u cenv fenv) h (cleared h ev u /\ vouched (evs ++ [ev]) (clientAddr r) u).
Proof.
  intros ev Hin. unfold ServeHTTP, servePAC. destruct (isPACRequest _ r); [coi|]. unfold cleared, ev at 1. destruct (http.Method r =? http.MethodConnect)%string.
  - eapply coi_weaken; [apply handleConnect_contacts|]. intros (_ & v & host & t & Hc & Hp).
    assert (v = u /\ vouched (evs ++ [ev]) (clientAddr r) v) as [-> Hv] by (by eapply admitted_vouched, admitted_connect).
    split; [by exists host, t|done].
  - eapply coi_weaken; [apply handleForward_contacts|]. intros (_ & Ha & v & Hc & Hp).
    assert (v = u /\ vouched (evs ++ [ev]) (clientAddr r) v) as [-> Hv] by (by apply admitted_vouched, admitted_forward).
    done.
Qed.

Lemma first_vouched conn port id r cenv u v :
  let ev := Arrived conn port id r cenv in
  came_in evs ev u ->
  authenticated h (clientAddr r) (http.Get (http.HeaderOf r) "Proxy-Authorization") u (ce_salt cenv) (ce_now cenv) v ->
  v = u /\ vouched (evs ++ [ev]) (clientAddr r) v.
Proof. intros ev Hin. eapply (authenticated_vouched since); [done..|by left]. Qed.

Lemma first_contacts conn port id r cenv u :
  let ev := Arrived conn port id r cenv in
  came_in evs ev u ->
  contacts_only_if (connect_first (aw_proxy w) network r u cenv) h (cleared h ev u /\ vouched (evs ++ [ev]) (clientAddr r) u).
Proof.
  intros ev Hin. eapply coi_weaken; [apply connect_first_contacts|]. intros (v & Ha & Hp).
  by destruct (first_vouched conn port id r cenv u v Hin Ha) as [-> Hv].
Qed.

Lemma second_vouched conn cenv c v retry :
  let ev := Answered conn cenv in
  wo_waiting (run evs s0) !! conn = Some c -> ce_retry cenv = Some retry ->
  fst (us_Check (http.Get (http.HeaderOf retry) "Proxy-Authorization") (ce_salt2 cenv) (ce_now2 cenv) (store h)) = Ok v ->
  owner_ok (ch_portUser c) v -> v = ch_portUser c /\ vouched (evs ++ [ev]) (ch_clientIP c) v.
Proof.
  intros ev Ec Er Hc Ho. destruct (sound_waiting _ _ Hsound _ _ Ec) as [Hg _]. destruct Ho as [Hu|Hu]; [by destruct Hg|]. split; [done|].
  eapply (accepted_vouched since); [done| | |reflexivity|exact Hc].
  - cbn. by rewrite Ec.
  - cbn. unfold answer_header. rewrite Er. by left.
Qed.

Lemma second_contacts conn cenv c :
  let ev := Answered conn cenv in
  wo_waiting (run evs s0) !! conn = Some c ->
  contacts_only_if (connect_second (aw_proxy w) network c cenv) h (cleared h ev (ch_portUser c) /\ vouched (evs ++ [ev]) (ch_clientIP c) (ch_portUser c)).
Proof.
  intros ev Ec. eapply coi_weaken; [apply connect_second_contacts|]. intros (retry & v & Er & Hc & Ho & Hp).
  destruct (second_vouched conn cenv c v retry Ec Er Hc Ho) as [-> Hvo]. split; [by exists retry|done].
Qed.

Lemma sound_proxied port id r cenv fenv :
  sound since (evs ++ [Proxied port id r cenv fenv]).
Proof.
  set (ev := Proxied port id r cenv fenv). destruct (listener (trace h) port id) as [u|] eqn:Eu.
  2: { apply sound_quiet; [done|done|apply (sound_tick _ _ Hsound)|]. unfold handler, ev, step, api_step. cbn [wo_api]. unfold h, handler in Eu. rewrite Eu.
       destruct Hsound as [H1 H2 _ _ _ _]. split; [done|]. split; [done|]. split; [done|]. exists []. by rewrite app_nil_r. }
  assert (came_in evs ev u) as Hin by (by apply listener_listening).
  apply (sound_request since evs ev u (clientAddr r) Hsound Hin eq_refl (ServeHTTP (aw_proxy w) network r u cenv fenv)).
  - unfold handler, ev, step, api_step. cbn [wo_api]. unfold h, handler in Eu. by rewrite Eu.
  - by apply (ServeHTTP_contacts port id).
  - apply ServeHTTP_served.
  - apply ServeHTTP_filed; [|apply filed_more]. intros v t Ha.
    apply (admitted_vouched port id _ _ _ u) in Ha as [-> Hv]; [|done]. split; [by eapply came_in_good|]. by exists (clientAddr r).
  - apply waiting_app, (sound_waiting _ _ Hsound).
  - done.
Qed.

Lemma sound_arrived conn port id r cenv : sound since (evs ++ [Arrived conn port id r cenv]).
Proof.
  set (ev := Arrived conn port id r cenv).
  assert (wo_tick (step ev (run evs s0)) = wo_tick (run evs s0)) as Ek by (unfold ev, step; by repeat case_match).
  assert (handler (step ev (run evs s0)) = h /\ wo_waiting (step ev (run evs s0)) = wo_waiting (run evs s0) \/
    exists u, listener (trace h) port id = Some u /\ let m := connect_first (aw_proxy w) network r u cenv in
      handler (step ev (run evs s0)) = snd (m h) /\
      wo_waiting (step ev (run evs s0)) = match fst (m h) with Some c => <[conn := c]> (wo_waiting (run evs s0)) | None => wo_waiting (run evs s0) end) as [[Er Ew]|(u & Eu & Er & Ew)].
  { unfold ev, step. fold h. destruct (listener _ _ _) as [u|]; [|by left]. destruct (wo_waiting _ !! conn); [by left|].
    destruct (_ =? _)%string; [|by left]. right. by exists u. }
  { apply sound_quiet; [done|done|rewrite Ek; apply (sound_tick _ _ Hsound)|]. rewrite Er. destruct Hsound as [H1 H2 _ _ _ _]. split; [done|]. split; [done|]. split; [done|].
    exists []. by rewrite app_nil_r. }
  assert (came_in evs ev u) as Hin by (by apply listener_listening).
  apply (sound_request since evs ev u (clientAddr r) Hsound Hin eq_refl (connect_first (aw_proxy w) network r u cenv) Er).
  - by apply (first_contacts conn port id).
  - apply phases_served.
  - apply connect_first_filed; [|apply filed_more]. intros v t Ha.
    destruct (first_vouched conn port id r cenv u v Hin Ha) as [-> Hv]. split; [by eapply came_in_good|]. by exists (clientAddr r).
  - rewrite Ew. pose proof (waiting_app evs [ev] _ (sound_waiting _ _ Hsound)) as Hw. destruct (fst _) as [c|] eqn:Ec; [|done].
    intros conn' c' [[<- <-]|[_ Hc']]%lookup_insert_Some; [|by apply Hw].
    pose proof (connect_first_waits _ _ _ _ _ _ _ Ec) as [-> _]. split; [by eapply came_in_good|].
    exists evs, port, id, r, cenv, []. split; [done|]. split; [by apply listener_listening|done].
  - done.
Qed.

Lemma sound_answered conn cenv : sound since (evs ++ [Answered conn cenv]).
Proof.
  set (ev := Answered conn cenv). destruct (wo_waiting (run evs s0) !! conn) as [c|] eqn:Ec.
  2: { apply sound_quiet; [done|unfold ev, step; by rewrite Ec|unfold ev, step; rewrite Ec; apply (sound_tick _ _ Hsound)|]. unfold ev, step. rewrite Ec.
       destruct Hsound as [H1 H2 _ _ _ _]. split; [done|]. split; [done|]. split; [done|]. exists []. by rewrite app_nil_r. }
  destruct (sound_waiting _ _ Hsound _ _ Ec) as [Hg Hch]. set (u := ch_portUser c) in *.
  assert (came_in evs ev u) as Hin by (by exists c).
  assert (address (run evs s0) ev = Some (ch_clientIP c)) as Ha by (cbn; by rewrite Ec).
  apply (sound_request since evs ev u (ch_clientIP c) Hsound Hin Ha (connect_second (aw_proxy w) network c cenv)).
  - unfold ev, step. by rewrite Ec.
  - by apply second_contacts.
  - apply phases_served.
  - apply connect_second_filed; [|apply filed_more]. intros v t (retry & Er & Hc & Ho).
    destruct (second_vouched conn cenv c v retry Ec Er Hc Ho) as [-> Hvo]. split; [done|]. by exists (ch_clientIP c).
  - unfold ev, step. rewrite Ec. cbn [wo_waiting]. intros conn' c' [_ Hc']%lookup_delete_Some. by apply (waiting_app evs [ev] _ (sound_waiting _ _ Hsound)).
  - unfold ev, step. by rewrite Ec.
Qed.

(** The request of an event is one on a server of [u]. *)
Definition belongs (s : world) (ev : event) (u : string) : Prop :=
  match ev with
  | Proxied port id _ _ _ | Arrived _ port id _ _ => listener (trace (handler s)) port id = Some u
  | Answered conn _ => exists c, wo_waiting s !! conn = Some c /\ ch_portUser c = u
  | _ => False
  end.

Lemma request_contacts ev u :
  belongs (run evs s0) ev u ->
  exists new, trace (handler (step ev (run evs s0))) = trace h ++ new /\ forall e, e ∈ new -> contact e = true -> cleared h ev u.
Proof.
  intros Hb. assert (trace h = trace h ++ [] /\ forall e, e ∈ [] -> contact e = true -> cleared h ev u) as Hnone
    by (rewrite app_nil_r; split; [done|]; by intros e ?%not_elem_of_nil).
  destruct ev as [port id r cenv fenv|conn port id r cenv|conn cenv| | | | | | | | | |]; try done; cbn in Hb.
  - destruct (ServeHTTP_contacts port id r cenv fenv u) as (new & E & Hnew); [by apply listener_listening|]. exists new.
    unfold step, api_step. unfold handler at 1. cbn [wo_api]. unfold handler in Hb. rewrite Hb. split; [exact E|]. intros e He Hc. by apply (Hnew e).
  - unfold step. rewrite Hb. destruct (wo_waiting _ !! conn); [by exists []|]. destruct (_ =? _)%string; [|by exists []].
    destruct (first_contacts conn port id r cenv u) as (new & E & Hnew); [by apply listener_listening|]. exists new.
    split; [exact E|]. intros e He Hc. by apply (Hnew e).
  - destruct Hb as (c & Ec & <-). unfold step. rewrite Ec.
    destruct (second_contacts conn cenv c Ec) as (new & E & Hnew). exists new. split; [exact E|]. intros e He Hc. by apply (Hnew e).
Qed.
End requests.

(** ** The other steps *)

Lemma ListPorts_names d m d' p v : ListPorts d = (Ok m, d') -> m !! p = Some v -> v ∈ usernames (users d).
Proof.
  intros H Hm. unfold ListPorts, query, sql, wrap, mbind, M_bind, mret, M_ret in H.
  assert (m = port_map (users d) ∅) as ->
    by (destruct (faults d) as [|[msg|] fs]; simpl in H; try discriminate H; by injection H as <- _). clear H.
  assert (forall rows (m : gmap Z string), port_map rows m !! p = Some v -> m !! p = Some v \/ v ∈ usernames rows) as Hp.
  { intros rows. unfold port_map. induction rows as [|x rows IH]; intros m0; [by left|]. rewrite filter_cons.
    unfold usernames. cbn [map]. rewrite elem_of_cons. case_decide; cbn [foldl].
    - intros [Hl|Hin]%IH; [|auto]. rewrite lookup_insert in Hl. case_decide; [injection Hl as <-; auto|auto].
    - intros [?|?]%IH; auto. }
  by apply Hp in Hm as [?|?].
Qed.

Lemma undisturbed_history since d d' : undisturbed d d' -> history true since d -> history true since d' /\ users d' = users d.
Proof. intros [(ts & fs & ->) _] Hh. split; [by apply h_faults, h_devices|done]. Qed.

Lemma ListPorts_listed (h : Handler DB) : Forall good_name (usernames (users (store h))) -> listed_in (us := world_store) good_name h.
Proof.
  intros Hg ports p u. change (us_ListPorts (store h)) with (ListPorts (store h)). destruct (ListPorts (store h)) as [[m|e] d'] eqn:E; [|done].
  simpl. intros [= <-] Hp. rewrite Forall_forall in Hg. apply Hg. by eapply ListPorts_names.
Qed.

Lemma reconcile_undisturbed now (h : Handler DB) :
  undisturbed (store h) (store (snd (reconcileListeners (aw_proxy w) now h))).
Proof.
  pose proof (undisturbed_ListPorts (store h)) as Hq. destruct (ListPorts (store h)) as [[m|e] s] eqn:E; simpl in Hq.
  - destruct (reconcileListeners_inv (us := world_store) (aw_proxy w) now h m s E) as (h' & -> & Es & _). simpl. by rewrite Es.
  - unfold reconcileListeners, reconcile_plan, ListPorts_, mbind, ST_bind.
    change (us_ListPorts (store h)) with (ListPorts (store h)). by rewrite E.
Qed.

Lemma undisturbed_refl d : undisturbed d d.
Proof. by split. Qed.

Lemma shutdown_all_store l (h : Handler DB) : store (snd (shutdown_all l h)) = store h.
Proof.
  revert h. induction l as [|[p srv] l IH]; intros h; [done|]. cbn [shutdown_all]. unfold emit, update, mbind, ST_bind. by rewrite IH.
Qed.

Lemma tick_undisturbed now t (h : Handler DB) : undisturbed (store h) (store (snd (tick_phase (aw_proxy w) now t h))).
Proof.
  pose proof undisturbed_refl as Hr.
  destruct t as [[plan|plan toStop|plan]|]; unfold tick_phase, mbind, ST_bind, mret, ST_ret.
  - done.
  - pose proof (shutdown_all_store (map_to_list toStop) h) as E. destruct (shutdown_all _ h) as [[] h1]. simpl in *. by rewrite E.
  - unfold reconcile_start. destruct (for_start_spec (aw_proxy w) (map_to_list plan) h) as (h2 & -> & E & _);
      [apply NoDup_fst_map_to_list|]. simpl. by rewrite E.
  - unfold reconcile_plan, ListPorts_, gets, mbind, ST_bind. pose proof (undisturbed_ListPorts (store h)) as Hq.
    change (us_ListPorts (store h)) with (ListPorts (store h)). by destruct (ListPorts (store h)) as [[ports|e] s].
Qed.

(** From a handler with users that can authenticate, the database keeps its rows. *)
Lemma inward_quiet since evs (h' : Handler DB) :
  sound since evs -> let h := handler (run evs s0) in
  undisturbed (store h) (store h') -> inward good_name h h' ->
  history true since (store h') /\ names_ok h' /\ (forall k s, authSessions h' !! k = Some s -> authSessions h !! k = Some s) /\
  exists new, trace h' = trace h ++ new /\ Forall (fun e => contact e = false) new.
Proof.
  intros [Hh Hn _ _ _ _] h Hu Hi. destruct (undisturbed_history since _ _ Hu Hh) as [H2 H3]. split; [done|].
  split; [eapply inward_names; [exact Hi|exact Hn|rewrite H3; apply Hn]|]. destruct Hi as [-> (new & E & Hnew)]. split; [done|]. exists new.
  split; [done|]. eapply Forall_impl; [exact Hnew|]. by intros e [].
Qed.

Lemma sound_reconciled since evs now : sound since evs -> sound since (evs ++ [Reconciled now]).
Proof.
  intros Hs. pose proof Hs as [Hh [Hg _] _ _ Hk _]. destruct (wo_tick (run evs s0)) as [t|] eqn:Et.
  - assert (step (Reconciled now) (run evs s0) = run evs s0) as E by (unfold step; by rewrite Et).
    apply sound_quiet; rewrite ?E, ?Et; [done..|]. apply inward_quiet; [done|apply undisturbed_refl|by apply inward_same].
  - apply sound_quiet; unfold step; rewrite ?Et; [done..|]. apply inward_quiet; [done|apply reconcile_undisturbed|].
    by apply inward_reconcile, ListPorts_listed.
Qed.

Lemma sound_moves since evs now : sound since evs -> sound since (evs ++ [ReconcilerMoves now]).
Proof.
  intros Hs. pose proof Hs as [Hh [Hg _] _ _ Hk _].
  destruct (inward_tick (us := world_store) (aw_proxy w) good_name now (wo_tick (run evs s0)) (handler (run evs s0))) as [Hi Ht]; [by apply ListPorts_listed|done|].
  apply sound_quiet; [done|done|done|]. apply inward_quiet; [done|apply tick_undisturbed|exact Hi].
Qed.

(** What the end-to-end theorems ask of an admin request: it creates no user with a colon
    in the name (the handler would; such a user could never authenticate, and its
    session keys would collide with others), and its clock is between 1970 and the year
    9707.  Nothing is asked of any other event. *)
Definition event_ok (ev : event) : Prop :=
  match ev with
  | Administered _ b e => login_ok (as_login b) /\ clock_ok (re_now e)
  | _ => True
  end.

Lemma sound_step since evs ev : event_ok ev -> sound since evs -> sound since (evs ++ [ev]).
Proof.
  intros Hok Hs. pose proof Hs as [Hh Hn Hf Hw Hk Ht]. set (h := handler (run evs s0)) in *.
  assert (forall h', history true since (store h') -> Forall good_name (usernames (users (store h'))) -> inward good_name h h' ->
    history true since (store h') /\ names_ok h' /\ (forall k s, authSessions h' !! k = Some s -> authSessions h !! k = Some s) /\
    exists new, trace h' = trace h ++ new /\ Forall (fun e => contact e = false) new) as Hq.
  { intros h' H1 H2 H3. split; [done|]. split; [by eapply inward_names|]. destruct H3 as [-> (new & E & Hnew)]. split; [done|]. exists new.
    split; [done|]. eapply Forall_impl; [exact Hnew|]. by intros e []. }
  pose proof Hn as [Hg _].
  destruct ev as [port id r cenv fenv|conn port id r cenv|conn cenv|r b e|now|now|now|now|now|now|now|port id|fs]; simpl in Hok;
    [by apply sound_proxied|by apply sound_arrived|by apply sound_answered| |by apply sound_reconciled|by apply sound_moves|..];
    (apply sound_quiet; [done|done|done|]); unfold handler, step, api_step; cbn [wo_api].
  - destruct Hok as [Hl Hc].
    destruct (inward_serve loc w network qrcode_New CompareHashAndPassword since h r b e Hl Hc (wo_api (run evs s0))) as (H1 & H2 & H3);
      [by split; [|split; [|by apply inward_same]]|]. by apply Hq.
  - split; [done|]. split; [done|]. split; [|exists []; by rewrite app_nil_r].
    intros k s. simpl. by intros [? _]%map_lookup_filter_Some.
  - by apply Hq; [..|by apply inward_same].
  - by apply Hq; [..|by apply inward_same].
  - by apply Hq; [..|by apply inward_same].
  - by apply Hq; [..|by apply inward_same].
  - destruct (listener (trace h) port id) as [u|] eqn:Eu; unfold h, handler in Eu; rewrite Eu;
      [|by apply Hq; [..|by apply inward_same]].
    destruct (serverFailed_cases port id h) as (Es & _).
    assert (Forall good_name (usernames (users (store (snd (serverFailed port id h))))) /\ history true since (store (snd (serverFailed port id h)))) as [H1 H2]
      by (by rewrite Es).
    apply Hq; [exact H2|exact H1|apply inward_failed].
  - by apply Hq; [by apply h_faults|..|by apply inward_same].
Qed.

Lemma sound_run since evs : sound since [] -> Forall event_ok evs -> sound since evs.
Proof.
  intros H0. induction evs as [|ev evs IH] using rev_ind; [done|]. intros [Hevs Hev]%Forall_app. apply sound_step; [by inversion Hev|by apply IH].
Qed.

(** A step that serves a request, whole or in part. *)
Lemma step_request ev (s : world) :
  (exists port id r cenv fenv, ev = Proxied port id r cenv fenv) \/ (exists conn port id r cenv, ev = Arrived conn port id r cenv) \/
  (exists conn cenv, ev = Answered conn cenv) ->
  served (handler s) (handler (step ev s)).
Proof.
  destruct phases_served as [H1 H2].
  intros [(port & id & r & cenv & fenv & ->)|[(conn & port & id & r & cenv & ->)|(conn & cenv & ->)]]; unfold step, api_step; cbn [wo_api].
  - unfold handler. cbn [wo_api]. destruct (listener _ _ _); [|reflexivity]. apply ServeHTTP_served.
  - destruct (listener _ _ _); [|reflexivity]. destruct (wo_waiting s !! conn); [reflexivity|]. destruct (_ =? _)%string; [|reflexivity]. apply H1.
  - destruct (wo_waiting s !! conn); [|reflexivity]. apply H2.
Qed.

(** No statement fails, and the ticks of the reconciler are undisturbed. *)
Definition orderly (ev : event) : Prop := match ev with StatementsFail _ | ReconcilerMoves _ => False | _ => True end.

Lemma idle_run evs s : Forall orderly evs -> wo_tick s = None -> wo_tick (run evs s) = None.
Proof.
  revert s. induction evs as [|ev evs IH]; intros s; [done|]. intros [Hev Hevs]%Forall_cons Hs. apply (IH (step ev s)); [done|].
  destruct ev; try done; unfold step; by repeat case_match.
Qed.

(** ** Servers that are known listen *)

Lemma alive_served (h1 h2 : Handler DB) : served h1 h2 -> alive (aw_proxy w) h1 -> alive (aw_proxy w) h2.
Proof. intros (_ & E1 & E2 & _ & new & E3 & Hnew). by apply (alive_quiet _ h1 _ new). Qed.

Lemma alive_step since evs ev :
  sound since evs -> event_ok ev -> orderly ev -> alive (aw_proxy w) (handler (run evs s0)) -> alive (aw_proxy w) (handler (step ev (run evs s0))).
Proof.
  intros [Hh [Hg _] _ _ _ _] Hok Hn Ha. set (s := run evs s0) in *.
  destruct ev as [port id r cenv fenv|conn port id r cenv|conn cenv|r b e|now|now|now|now|now|now|now|port id|fs]; simpl in Hok;
    [eapply alive_served; [apply step_request; eauto 10|done]..| | | | | | | | | |];
    unfold handler, step, api_step in *; cbn [wo_api] in *; try done.
  - destruct Hok as [Hl Hc].
    by destruct (alive_serve loc w network qrcode_New CompareHashAndPassword since r b e Hl Hc (wo_api s)) as (_ & _ & H).
  - destruct (wo_tick s); [done|]. by apply alive_reconcile.
  - destruct (listener _ port id) as [u|] eqn:Eu; [|done]. apply alive_failed; [|done].
    apply listener_listening in Eu as [Hin _]. destruct Ha as [Hnum _]. unfold numbered in Hnum. rewrite Forall_forall in Hnum. by apply (Hnum _ Hin).
Qed.

Lemma alive_run since evs :
  sound since [] -> alive (aw_proxy w) (handler s0) -> Forall event_ok evs -> Forall orderly evs -> alive (aw_proxy w) (handler (run evs s0)).
Proof.
  intros H0 Ha. induction evs as [|ev evs IH] using rev_ind; [done|]. intros Hok. pose proof Hok as [H1 H2]%Forall_app. intros [H3 H4]%Forall_app.
  rewrite run_snoc. apply (alive_step since); [by apply sound_run|by inversion H2|by inversion H4|by apply IH].
Qed.

(** ** Ports under a working engine *)

Lemma assigned_served h1 h2 : served h1 h2 -> assigned h1 -> assigned h2.
Proof.
  intros (E1 & E2 & _ & E3 & new & E4 & Hnew) Ha. assert (assigned (set_store h1 (store h2))) as H.
  { clear E1 E2 E4. remember (store h1) as d eqn:Ed. revert h1 Ed Ha. induction E3 as [d|d1 d2 d3 (h' & s' & n' & ->) _ IH]; intros h1 -> Ha.
    - by eapply assigned_eq; [.. |exact Ha]; try done; apply (known_same h1), assigned_known.
    - specialize (IH (set_store h1 (snd (Check h' s' n' (store h1)))) eq_refl). apply IH. by apply (assigned_op (OpCheck h' s' n')). }
  apply (assigned_eq (set_store h1 (store h2))); [done|done|done| |done]. by apply (known_quiet h1 h2 new); [..|apply assigned_known].
Qed.


Lemma assigned_step ev s :
  0 < UserPortMin (cfg (aw_proxy w)) -> event_ok ev -> orderly ev -> assigned (handler s) -> assigned (handler (step ev s)).
Proof.
  intros Hmin Hok Hn Ha.
  destruct ev as [port id r cenv fenv|conn port id r cenv|conn cenv|r b e|now|now|now|now|now|now|now|port id|fs]; simpl in Hok, Hn;
    [eapply assigned_served; [apply step_request; eauto 10|done]..| | | | | | | | | |];
    unfold handler, step, api_step in *; cbn [wo_api] in *; try done.
  - by apply (assigned_serve loc w network qrcode_New CompareHashAndPassword Hmin r b e); [destruct Hok|].
  - destruct (wo_tick s); [done|]. by apply reconcile_assigned.
  - case_match; [by apply serverFailed_assigned|done].
Qed.

Lemma assigned_run evs s :
  0 < UserPortMin (cfg (aw_proxy w)) -> Forall event_ok evs -> Forall orderly evs -> assigned (handler s) ->
  assigned (handler (run evs s)).
Proof.
  intros Hmin. revert s. induction evs as [|ev evs IH]; intros s; [done|]. intros [H1 H2]%Forall_cons [H3 H4]%Forall_cons Ha.
  simpl. apply IH; [done..|]. by apply assigned_step.
Qed.
End world.
