(* ===== verification/System.v ===== *)
(** * The program from its start on

    The started program ([main]) under any events of World: nobody gets out without a
    password, the ports follow the table, the reconciler makes the wanted ports
    listen, and the shutdown closes them. *)

From S2P Require Import Prelude GoStrings GoBase64 GoTime GoNet GoHTTP Downtime Password UserTable UserDB UserDBLemmas UserDBOps UserDBCoherence UserDBReach.
From S2P Require Import UserDBSpec RateLimit Dns Config ConfigLoad Bypass Proxy Connect Forward ProxyFrame ProxySafety ProxySpec ProxyOutcomes Challenge UserPorts UserPortsSpec Sockets.
From S2P Require Import ProxyOverDB CertCache Mitm Collector DeviceTokens UserDBCalm AdminSession AdminServer AdminAPI AdminLemmas AdminSpec AdminPorts Running AdminFrame.
From S2P Require Import Main World.

Open Scope list_scope.

Section system.
Context {crypto : Crypto} {codec : ScheduleCodec} {sqlite : SQLiteClock}.
Variable loc : time.Location.
Variable network : Network.
Variable qrcode_New : string -> option (list (list bool)).
Variable CompareHashAndPassword : string -> string -> bool.

#[local] Instance system_store : UserStore DB := DB_UserStore loc.

#[local] Abbreviation run := (run loc network qrcode_New CompareHashAndPassword).
#[local] Abbreviation sound := (sound loc network qrcode_New CompareHashAndPassword).
#[local] Abbreviation attributed := (attributed loc network qrcode_New CompareHashAndPassword).

(** Right after [main]: nobody waits for an answer. *)
Definition started (p : program) : world := mkWorld (p_api p) ∅ None.

(** ** From the start *)

Section start.
Variable ParseDuration : string -> option Z.
Variable load_ca : string -> string -> Options -> result ca_error CA.

Lemma Open_names rows tokens cols fs now d :
  Open rows tokens cols fs now = (Ok tt, d) -> usernames (users d) = usernames rows.
Proof. intros (cols' & fs' & _ & ->)%Open_inv. simpl. apply usernames_migrated. Qed.

Lemma started_sound (su : surroundings) (p : program) :
  unique_usernames (su_rows su) -> Forall good_name (usernames (su_rows su)) ->
  main loc ParseDuration load_ca su = Ok p -> sound (p_wiring p) (started p) (su_now su) [].
Proof.
  intros Hu Hg (c & d & h & resolver & ca & _ & _ & Eo & Es & _ & ->)%main_inv.
  pose proof (Open_names _ _ _ _ _ _ Eo) as En. rewrite <- En in Hg.
  pose proof (inward_StartUserListeners (us := main_store loc) (proxy_wiring c resolver) good_name (su_now su) (New c d) (ListPorts_listed loc (New c d) Hg)) as Hi.
  rewrite Es in Hi. simpl in Hi. pose proof Hi as [Ha (new & Et & Hnew)].
  apply StartUserListeners_spec in Es as (ports & s & Hl & Hs & _). simpl in Hl.
  pose proof (undisturbed_ListPorts d) as Hq. rewrite Hl in Hq. simpl in Hq.
  assert (history true (su_now su) d) as Hd by (by eapply h_open). destruct (undisturbed_history _ _ _ Hq Hd) as [Hh Eu].
  split; cbn.
  - by rewrite Hs.
  - apply (inward_names (New c d)); [done| |by rewrite Hs, Eu]. split; [done|]. intros p id u. cbn. by intros ?%not_elem_of_nil.
  - intros k x. rewrite Ha. cbn. by rewrite lookup_empty.
  - intros conn ch. by rewrite lookup_empty.
  - done.
  - intros e He Hc. rewrite Et in He. rewrite Forall_forall in Hnew. destruct (Hnew e He). congruence.
Qed.

(** [C1] Nobody gets out without a password, end to end: start the program on any
    database whose users' names are distinct, not empty and without colons, and let
    any events happen in any order, database failures included, also between the
    challenge of a CONNECT and its answer and between the phases of a reconciler tick,
    as long as no admin request creates a user with a colon in the name and their
    clocks are between 1970 and the year 9707 ([event_ok]).  Then every dial, every
    tunnel and every forwarded request in the whole history belongs to one request on
    a dedicated server that listens (whether or not the handler still knows it), or
    that listened when the challenged request came in, made for the owner the server
    was started for; the owner is not paused at that moment, or the request is a
    CONNECT, the block page is on, and the host is one a pause never intercepts; and
    some request up to then, from the same client address, carried the password that
    was the owner's current one when it was checked. *)
Theorem nobody_gets_out_without_password (su : surroundings) (p : program) (evs : list event) :
  unique_usernames (su_rows su) -> Forall good_name (usernames (su_rows su)) ->
  main loc ParseDuration load_ca su = Ok p -> Forall event_ok evs ->
  forall e, e ∈ trace (handler (run (p_wiring p) evs (started p))) -> contact e = true ->
    attributed (p_wiring p) (started p) evs e.
Proof.
  intros Hu Hg Hm Hevs. pose proof (started_sound su p Hu Hg Hm) as H0.
  by destruct (sound_run loc network qrcode_New CompareHashAndPassword (p_wiring p) (started p) (su_now su) evs H0 Hevs).
Qed.

Lemma migrated_table_ok cols rows : table_ok rows -> table_ok (map (migrated_row cols) rows).
Proof.
  intros (H1 & H2 & H3). unfold table_ok, unique_usernames. rewrite usernames_migrated. split; [done|]. split; [done|].
  destruct (decide ("port"%string ∈ cols)) as [Hc|Hc].
  - apply unique_ports_map; [|done]. intros r. unfold migrated_row, default_if. cbn zeta.
    rewrite (bool_decide_eq_true_2 _ Hc). by repeat case_bool_decide.
  - assert (forall r, r_port (migrated_row cols r) = 0) as Hz.
    { intros r. unfold migrated_row, default_if. cbn zeta. rewrite (bool_decide_eq_false_2 _ Hc). by repeat case_bool_decide. }
    clear H1 H2 H3. unfold unique_ports. induction rows as [|r rows IH]; simpl; [done|]. split; [|done].
    apply Forall_map, Forall_true. intros x. left. apply Hz.
Qed.

Lemma calm_Open rows tokens cols now : faults (snd (Open rows tokens cols [] now)) = [].
Proof.
  unfold Open. match goal with |- faults (snd (?m _)) = [] => assert (calm m) as H; [|by apply H] end.
  unfold create_users, create_device_tokens, migrate, add_column, loadDNSCache, loadDowntimeCache, loadOverrideCache, loadDowntimeUntilCache, loadEnabledCache.
  calm.
Qed.

Lemma started_assigned (su : surroundings) (p : program) :
  table_ok (su_rows su) -> su_faults su = [] -> main loc ParseDuration load_ca su = Ok p -> assigned (handler (started p)).
Proof.
  intros Ht Hf (c & d & h & resolver & ca & _ & _ & Eo & Es & _ & ->)%main_inv. cbn. rewrite Hf in Eo.
  pose proof (calm_Open (su_rows su) (su_tokens su) (su_columns su) (su_now su)) as Hd. rewrite Eo in Hd. simpl in Hd.
  apply Open_inv in Eo as (cols' & fs' & _ & Ed). assert (table_ok (users d)) as Htd by (rewrite Ed; by apply migrated_table_ok). clear Ed.
  pose proof (undisturbed_ListPorts d) as Hq. unfold StartUserListeners, ListPorts_, mbind, ST_bind in Es.
  change (us_ListPorts (store (New c d))) with (ListPorts d) in Es.
  destruct (ListPorts d) as [[ports|e] s] eqn:El; [|done]. simpl in Hq. unfold gets in Es. set (w := proxy_wiring c resolver) in *.
  assert (assigned (set_store (New c d) s)) as H0.
  { apply (assigned_undisturbed (New c d)); [done|]. split; [done|]. split; [done|]. split; [|split].
    - intros q. cbn. by rewrite !lookup_empty.
    - intros q srv. cbn. by rewrite lookup_empty.
    - by intros q id u (?%not_elem_of_nil & _). }
  pose proof Hq as [(ts & fs & Hs) _].
  assert (forall l (h1 h2 : Handler DB), assigned h1 -> users (store h1) = users d -> NoDup (map fst l) ->
    (forall q v, (q, v) ∈ l -> userServers h1 !! q = None /\ 0 < q /\ owns (users d) v q) -> for_entries (assign_and_start w) l h1 = (tt, h2) -> assigned h2) as Hl.
  { induction l as [|[q v] l IH]; intros h1 h2 H1 Hu Hd' Hown; cbn [for_entries]; [by intros [= <-]|]. unfold mbind, ST_bind.
    destruct (Hown q v) as (Hn & Hp & Ho); [by left|]. pose proof (known_start w q v h1 Hn (assigned_known h1 H1)) as Hk.
    destruct (assign_and_start_eq w q v h1) as (h3 & E & E1 & E2 & E3). rewrite E in *. simpl in Hd'. apply NoDup_cons in Hd' as [Hd1 Hd2].
    apply IH; [|by rewrite E1|done|].
    - by eapply (assigned_insert h1 h3 q v); [..|by rewrite Hu| | | |].
    - intros q' v' Hin. rewrite E3, lookup_insert_ne; [apply Hown; by right|]. intros <-. apply Hd1, list_elem_of_fmap. by exists (q, v'). }
  destruct (for_entries _ _ _) as [[] h1] eqn:Ef in Es. injection Es as <-. eapply Hl; [exact H0|by rewrite Hs|apply NoDup_fst_map_to_list| |exact Ef].
  intros q v Hin%elem_of_map_to_list. split; [cbn; by rewrite lookup_empty|]. unfold wanted_ports in Hin. apply map_lookup_filter_Some in Hin as [Hin _].
  by apply (ListPorts_owns _ _ _ _ _ Htd El).
Qed.

Lemma started_alive (su : surroundings) (p : program) :
  main loc ParseDuration load_ca su = Ok p -> alive (aw_proxy (p_wiring p)) (handler (started p)).
Proof.
  intros (c & d & h & resolver & ca & _ & _ & _ & Es & _ & ->)%main_inv. cbn.
  pose proof (alive_StartUserListeners (us := main_store loc) (proxy_wiring c resolver) (su_now su) (New c d)) as Ha. rewrite Es in Ha. apply Ha.
  split; [constructor|]. intros q srv. cbn. by rewrite lookup_empty.
Qed.

(** The state of the ports after any events: [assigned] and [alive]. *)
Lemma ports_run (su : surroundings) (p : program) (evs : list event) :
  table_ok (su_rows su) -> Forall good_name (usernames (su_rows su)) -> su_faults su = [] -> main loc ParseDuration load_ca su = Ok p ->
  0 < UserPortMin (p_cfg p) -> Forall event_ok evs -> Forall orderly evs ->
  let h := handler (run (p_wiring p) evs (started p)) in
  cfg (aw_proxy (p_wiring p)) = p_cfg p /\ assigned h /\ alive (aw_proxy (p_wiring p)) h.
Proof.
  intros Ht Hg Hf Hm Hmin Hok Hn. cbn zeta.
  assert (cfg (aw_proxy (p_wiring p)) = p_cfg p) as Hcfg by (by apply main_inv in Hm as (c & d & h' & resolver & ca & _ & _ & _ & _ & _ & ->)).
  split; [done|]. split.
  - apply assigned_run; [by rewrite Hcfg|done..|by apply (started_assigned su p Ht Hf Hm)].
  - apply (alive_run loc network qrcode_New CompareHashAndPassword (p_wiring p) (started p) (su_now su)); [|by apply (started_alive su)|done|done]. apply started_sound; [by destruct Ht|done..].
Qed.

(** [C2] Listening ports follow the table: on a database with distinct, non-empty,
    colon-free names and distinct ports, as long as no database statement fails,
    nothing comes in the middle of a tick of the reconciler, no user with a colon is
    created and the port range is positive, from the start on and after any events, no two users share a port, and every
    server that listens is the one the handler knows for its port, on the port that
    the database gives its owner, with the owner table saying the same; so a server
    closes with the reassignment of its port and with the deletion of its owner.  And
    outside demo mode every server the handler knows listens. *)
Theorem ports_follow_the_table (su : surroundings) (p : program) (evs : list event) :
  table_ok (su_rows su) -> Forall good_name (usernames (su_rows su)) -> su_faults su = [] -> main loc ParseDuration load_ca su = Ok p ->
  0 < UserPortMin (p_cfg p) -> Forall event_ok evs -> Forall orderly evs ->
  let h := handler (run (p_wiring p) evs (started p)) in
  table_ok (users (store h)) /\
  (forall port id u, listening (trace h) port id u -> userServers h !! port = Some (mkServer id u)) /\
  (forall port srv, userServers h !! port = Some srv ->
    owns (users (store h)) (sv_owner srv) port /\ portUsers h !! port = Some (sv_owner srv) /\
    (forall v, owns (users (store h)) v port -> v = sv_owner srv) /\
    (DemoMode (p_cfg p) = false -> listening (trace h) port (sv_id srv) (sv_owner srv))).
Proof.
  intros Ht Hg Hf Hm Hmin Hok Hn h. destruct (ports_run su p evs Ht Hg Hf Hm Hmin Hok Hn) as (Hcfg & (_ & Ht' & Hag & Hs & Hk) & [_ Hal]).
  split; [done|]. split; [exact Hk|]. intros port srv Hsrv. destruct (Hs _ _ Hsrv) as [Hpos Ho]. split; [done|]. split; [specialize (Hag port); fold h in Hag; by rewrite Hag, Hsrv|].
  split; [intros v Hv; by eapply unique_owner|]. rewrite <- Hcfg. by apply Hal.
Qed.

Lemma ListPorts_lookup d m d' p u :
  table_ok (users d) -> ListPorts d = (Ok m, d') -> 0 < p -> owns (users d) u p -> m !! p = Some u.
Proof.
  intros (Hun & Hne & Hup) H Hp (row & Hr & Hrp). unfold ListPorts, query, sql, wrap, mbind, M_bind, mret, M_ret in H.
  assert (m = port_map (users d) ∅) as ->
    by (destruct (faults d) as [|[msg|] fs]; simpl in H; try discriminate H; by injection H as <- _).
  rewrite port_map_lookup, (find_port (users d) p row) by (done || by eapply row_of_elem). by rewrite (row_of_username _ _ _ Hr).
Qed.

(** The ports after a tick of the reconciler. *)
Lemma reconciled_ports (su : surroundings) (p : program) (evs : list event) (now : Z) :
  table_ok (su_rows su) -> Forall good_name (usernames (su_rows su)) -> su_faults su = [] -> main loc ParseDuration load_ca su = Ok p ->
  0 < UserPortMin (p_cfg p) -> DemoMode (p_cfg p) = false -> Forall event_ok evs -> Forall orderly evs ->
  let h := handler (run (p_wiring p) (evs ++ [Reconciled now]) (started p)) in
  forall port u, (exists id, listening (trace h) port id u) <->
    owns (users (store h)) u port /\ in_range (aw_proxy (p_wiring p)) port = true /\ listenerWanted (aw_proxy (p_wiring p)) now h u = true.
Proof.
  intros Ht Hg Hf Hm Hmin Hd Hok Hn h port u.
  destruct (ports_run su p evs Ht Hg Hf Hm Hmin Hok Hn) as (Hcfg & (Hf0 & Ht0 & _) & _).
  destruct (ports_run su p (evs ++ [Reconciled now]) Ht Hg Hf Hm Hmin) as (_ & (_ & Ht' & _ & Hs & Hk) & [_ Hal]); [by apply Forall_app; split; [|repeat constructor]..|].
  fold h in Ht', Hs, Hk, Hal. set (h0 := handler (run (p_wiring p) evs (started p))) in *. set (w := aw_proxy (p_wiring p)) in *.
  assert (h = snd (reconcileListeners w now h0)) as Eh by (unfold h, h0; rewrite run_snoc; unfold step; by rewrite idle_run).
  pose proof (undisturbed_ListPorts (store h0)) as Hq. destruct (ListPorts (store h0)) as [[ports|e] s] eqn:El.
  2: { unfold ListPorts, query, sql, wrap, mbind, M_bind, mret, M_ret in El. by rewrite Hf0 in El. }
  simpl in Hq. destruct (reconcileListeners_inv (us := system_store) w now h0 ports s El) as (h' & E' & Est & Hp).
  rewrite E' in Eh. simpl in Eh. subst h'. assert (users (store h) = users (store h0)) as Eu by (rewrite Est; by destruct Hq as [(ts & fs & ->) _]).
  assert (forall v, listenerWanted w now h v = listenerWanted w now h0 v) as Ew.
  { intros v. rewrite <- (listenerWanted_after_list (us := system_store) w now h0 v). change (us_ListPorts (store h0)) with (ListPorts (store h0)).
    rewrite El. apply listenerWanted_ext; by rewrite Est. }
  rewrite Eu in *. specialize (Hp port). split.
  - intros [id Hl%Hk]. destruct (Hs _ _ Hl) as [Hpos Ho]. simpl in Ho. split; [done|].
    destruct (wanted_ports w now h0 ports !! port) as [v|] eqn:Ewp; [|destruct Hp as [Hp _]; congruence].
    unfold wanted_ports in Ewp. apply map_lookup_filter_Some in Ewp as [Hport Hw]. simpl in Hw. apply andb_true_iff in Hw as [Hr Hw].
    destruct (ListPorts_owns _ _ _ _ _ Ht0 El Hport) as [_ Hov]. assert (u = v) as -> by (by eapply unique_owner). by rewrite Ew.
  - intros (Ho & Hr & Hw). assert (0 < port) as Hpos by (unfold in_range in Hr; rewrite Hcfg in Hr; reflect_bools; lia).
    assert (wanted_ports w now h0 ports !! port = Some u) as Ewp.
    { apply map_lookup_filter_Some. split; [by eapply ListPorts_lookup|]. simpl. by rewrite Hr, <- Ew, Hw. }
    rewrite Ewp in Hp. assert (exists srv, userServers h !! port = Some srv) as [srv Hsrv].
    { destruct (userServers h0 !! port); [destruct Hp; eauto|]. destruct Hp as [[id ?] _]. eauto. }
    destruct (Hs _ _ Hsrv) as [_ Ho']. assert (u = sv_owner srv) as -> by (by eapply unique_owner).
    exists (sv_id srv). apply Hal; [done|]. by rewrite Hcfg.
Qed.

(** [C3] Reconciliation restores exactly the wanted ports, end to end, outside demo
    mode (where nothing is bound): on a database with distinct, non-empty, colon-free
    names and distinct ports, with a positive port range, and after any events among
    which no database statement failed from the start on, nothing came in the middle
    of a tick and no user with a colon was created, a tick of the reconciler leaves a
    server listening on a port for a user if and only if the database gives the user
    that port, it lies in the configured range, and the user should have a listener at
    that instant. *)
Theorem reconciled_ports_are_the_wanted_ones (su : surroundings) (p : program) (evs : list event) (now : Z) :
  table_ok (su_rows su) -> Forall good_name (usernames (su_rows su)) -> su_faults su = [] -> main loc ParseDuration load_ca su = Ok p ->
  0 < UserPortMin (p_cfg p) -> DemoMode (p_cfg p) = false -> Forall event_ok evs -> Forall orderly evs ->
  let h := handler (run (p_wiring p) (evs ++ [Reconciled now]) (started p)) in
  forall port u, (exists id, listening (trace h) port id u) <->
    owns (users (store h)) u port /\ in_range (aw_proxy (p_wiring p)) port = true /\ listenerWanted (aw_proxy (p_wiring p)) now h u = true.
Proof. exact (reconciled_ports su p evs now). Qed.

Lemma listening_listener tr port id u : listening tr port id u -> exists v, listener tr port id = Some v.
Proof.
  intros (Hl & Hs & Hf). unfold listener. destruct (existsb (ends port id) tr) eqn:E.
  - apply existsb_true_iff in E as (e & Hin & He).
    destruct e as [| | | | | | | | |p i|p i v|p i|]; try done; simpl in He; by apply andb_true_iff in He as [->%Z.eqb_eq ->%Nat.eqb_eq].
  - assert (u ∈ omap (starts port id) tr) as Hu.
    { apply list_elem_of_omap. exists (Listen port id u). split; [done|]. simpl. by rewrite Z.eqb_refl, Nat.eqb_refl. }
    destruct (omap _ tr) as [|v l]; [by apply not_elem_of_nil in Hu|]. by exists v.
Qed.

(** A password that is right for the stored hash is accepted while the engine works,
    if no other password with another digest is. *)
Lemma right_password_accepted since (d : DB) header user pass salt now row :
  history true since d -> faults d = [] -> parseBasicAuth header = Some (user, pass) -> row_of (users d) user = Some row ->
  verifyPassword pass (r_password_hash row) = true ->
  (forall other, verifyPassword other (r_password_hash row) = true -> Sum256 other = Sum256 pass) ->
  fst (Check header salt now d) = Ok user.
Proof.
  intros Hh Hf Hp Hr Hv Ho. eapply Check_complete; [done..|]. intros c Hc _.
  destruct (history_coherent _ _ _ user Hh) as (_ & _ & _ & _ & Hs). destruct (Hs c Hc) as (row' & other & Hr' & <- & Hv').
  apply Ho. cbn in Hr'. congruence.
Qed.

(** [C4] Who may pass, passes, outside demo mode (where nothing is bound): under the
    conditions of the reconciliation theorem (a well-formed database and a positive
    port range; no statement failed, nothing came in the middle of a tick, no user
    with a colon was created) a tick of the reconciler leaves a user with a row, a port
    in the configured range, not disabled and not in downtime with a server that
    listens on that port; and a CONNECT there right after it with the user's password,
    from an address the failure limiter still allows, on a connection that can be
    hijacked, to a host that resolves and answers, gets an established connection and
    its tunnel, and both ends of it are logged.  (The password is decided by its hash:
    no other password with another digest fits it.) *)
Theorem entitled_user_gets_out (su : surroundings) (p : program) (evs : list event) (now : Z)
    (u pass address : string) (row : Row) (r : http.Request) (cenv : connect_env) (fenv : forward_env) :
  table_ok (su_rows su) -> Forall good_name (usernames (su_rows su)) -> su_faults su = [] -> main loc ParseDuration load_ca su = Ok p ->
  0 < UserPortMin (p_cfg p) -> DemoMode (p_cfg p) = false -> Forall event_ok evs -> Forall orderly evs ->
  let w := p_wiring p in
  let s := run w (evs ++ [Reconciled now]) (started p) in
  let h := handler s in
  let header := http.Get (http.HeaderOf r) "Proxy-Authorization" in
  row_of (users (store h)) u = Some row -> in_range (aw_proxy w) (r_port row) = true ->
  IsEnabled (store h) u = true -> IsInDowntime loc now (store h) u = false -> IsInDowntime loc (ce_now cenv) (store h) u = false ->
  parseBasicAuth header = Some (u, pass) -> verifyPassword pass (r_password_hash row) = true ->
  (forall other, verifyPassword other (r_password_hash row) = true -> Sum256 other = Sum256 pass) ->
  http.Method r = http.MethodConnect -> ce_hijack cenv = Hijacked ->
  fst (Allow (clientAddr r) (ce_now cenv) (limiter h)) = true ->
  fst (dialWithBlockCheck (aw_proxy w) network
    (fst (ctxWithUserDNS (aw_proxy w) u (after_check header (ce_salt cenv) (ce_now cenv) h))) (http.Host r) h) = Ok address ->
  exists id ds, listening (trace h) (r_port row) id u /\
    trace (handler (step loc network qrcode_New CompareHashAndPassword w (Proxied (r_port row) id r cenv fenv) s)) =
    trace h ++ ds ++ tunnel_reply cenv (ce_now cenv) (clientAddr r) (http.Host r) u address ++ [Close].
Proof.
  intros Ht Hg Hf Hm Hmin Hd Hok Hn w s h header Hrow Hrange He Hdn Hdt Hp Hv Ho Hmethod Hj Ha Hdial.
  assert (0 < r_port row) as Hpos.
  { destruct (ports_run su p evs Ht Hg Hf Hm Hmin Hok Hn) as [Hcfg _]. unfold in_range, w in Hrange. rewrite Hcfg in Hrange. reflect_bools. lia. }
  assert (exists id, listening (trace h) (r_port row) id u) as [id Hl].
  { apply (reconciled_ports su p evs now Ht Hg Hf Hm Hmin Hd Hok Hn). split; [by exists row|]. split; [done|].
    change (listenerWanted (aw_proxy w) now h u = true). unfold listenerWanted.
    change (us_IsEnabled (store h) u) with (IsEnabled (store h) u). change (us_IsInDowntime now (store h) u) with (IsInDowntime loc now (store h) u).
    rewrite He, Hdn. by destruct (MITMEnabled (cfg (aw_proxy w))), (has_downtimeChecker (aw_proxy w)). }
  assert (Forall event_ok (evs ++ [Reconciled now]) /\ Forall orderly (evs ++ [Reconciled now])) as [Hok' Hn']
    by (split; apply Forall_app; split; [done|by repeat constructor|done|by repeat constructor]).
  destruct (ports_run su p _ Ht Hg Hf Hm Hmin Hok' Hn') as (_ & (Hf0 & _ & _ & _ & Hk) & _). change (faults (store h) = []) in Hf0. change (known h) in Hk.
  assert (listener (trace h) (r_port row) id = Some u) as Hlis.
  { destruct (listening_listener _ _ _ _ Hl) as [v Hlv]. pose proof (listener_listening _ _ _ _ Hlv) as Hl'.
    rewrite Hlv. f_equal. apply Hk in Hl, Hl'. congruence. }
  exists id.
  assert (handler (step loc network qrcode_New CompareHashAndPassword w (Proxied (r_port row) id r cenv fenv) s) =
    snd (ServeHTTP (aw_proxy w) network r u cenv fenv h)) as ->.
  { unfold step, api_step. unfold handler at 1. cbn [wo_api]. change (ap_proxy (wo_api s)) with h. by rewrite Hlis. }
  unfold ServeHTTP.
  assert (isPACRequest (aw_proxy w) r = false) as -> by (unfold isPACRequest; by rewrite Hmethod, andb_false_r).
  rewrite Hmethod, String.eqb_refl.
  destruct (entitled_connect_is_tunnelled (aw_proxy w) network r u cenv h u address) as [ds E]; try done.
  - eapply right_password_accepted; try done.
    apply sound_history, (sound_run loc network qrcode_New CompareHashAndPassword w (started p) (su_now su)); [|done].
    by apply started_sound; [destruct Ht|..].
  - by right.
  - unfold blockReason, gets. cbn [fst]. change (us_IsEnabled (store h) u) with (IsEnabled (store h) u).
    change (us_IsInDowntime (ce_now cenv) (store h) u) with (IsInDowntime loc (ce_now cenv) (store h) u).
    rewrite He, Hdt, !andb_false_r. done.
  - apply main_inv in Hm as (c & d & h' & resolver & ca & _ & _ & _ & _ & _ & E). unfold w. by rewrite E.
  - by exists ds.
Qed.

(** The end of [main]: the reconciler is stopped, so it ticks no more, and the user
    listeners are shut down. *)
Definition shutdown (s : world) : world := mkWorld (proxy_step ShutdownUserListeners (wo_api s)) (wo_waiting s) (wo_tick s).

(** After the shutdown nothing listens, as long as no statement failed and no tick of
    the reconciler runs. *)
Theorem shutdown_closes_every_port (su : surroundings) (p : program) (evs : list event) :
  table_ok (su_rows su) -> su_faults su = [] -> main loc ParseDuration load_ca su = Ok p ->
  0 < UserPortMin (p_cfg p) -> Forall event_ok evs -> Forall orderly evs ->
  forall port id u, ~ listening (trace (handler (shutdown (run (p_wiring p) evs (started p))))) port id u.
Proof.
  intros Ht Hf Hm Hmin Hok Hn. apply ShutdownUserListeners_closes, assigned_known.
  assert (cfg (aw_proxy (p_wiring p)) = p_cfg p) as Hcfg by (by apply main_inv in Hm as (c & d & h' & resolver & ca & _ & _ & _ & _ & _ & ->)).
  apply assigned_run; [by rewrite Hcfg|done..|]. by apply (started_assigned su p Ht Hf Hm).
Qed.
End start.
End system.

(** ** A concrete run *)

Section examples.
#[local] Existing Instance toy_crypto.
#[local] Existing Instance toy_codec.
#[local] Existing Instance toy_sqlite.

(** With a password, a sweep, without a password from the same address, and the
    deletion of the user by somebody who is not logged in. *)
Definition ex_events : list event :=
  [Proxied 9000 0 (ex_request "CONNECT" "example.com:443" true) ex_cenv ex_fenv; Reconciled 9; AuthSessionsSwept 9;
   Proxied 9000 0 (ex_request "CONNECT" "example.com:443" false) ex_cenv ex_fenv;
   Arrived 1 9000 0 (ex_request "CONNECT" "example.com:443" false) ex_cenv;
   Administered (http.mkRequest "DELETE" "admin" "" "/api/users" "/api/users" "192.0.2.9:1" ∅ [] [("username", "amy")]%string false)
     (mkBodies None None None None None None None None None) (mkRequestEnv 10 None [] None EmptyString 0)].

Definition ex_run (p : program) : world :=
  run time.UTC ex_network (fun _ => None) (fun _ _ => true) (p_wiring p) ex_events (started p).

Lemma ex_rows_good : table_ok (su_rows ex_su) /\ Forall good_name (usernames (su_rows ex_su)).
Proof.
  split; [split; [|split]|].
  - vm_compute. apply NoDup_singleton.
  - vm_compute. intros H. by apply list_elem_of_singleton in H.
  - vm_compute. split; [constructor|done].
  - constructor; [|constructor]. split; [done|by repeat split].
Qed.

Lemma ex_events_ok : Forall event_ok ex_events /\ Forall orderly ex_events.
Proof. split; repeat constructor; by intros req. Qed.

Definition dials_target (e : effect) : bool := match e with Dial address => (address =? ex_target)%string | _ => false end.

Lemma dials_target_in l : existsb dials_target l = true -> Dial ex_target ∈ l.
Proof.
  intros (e & Hin & He)%existsb_exists. destruct e as [| | | | |address| | | | | | |]; try done.
  simpl in He. apply String.eqb_eq in He as ->. by apply list_elem_of_In.
Qed.

Lemma nobody_gets_out_without_password_witness :
  match ex_main with
  | Ok p => attributed time.UTC ex_network (fun _ => None) (fun _ _ => true) (p_wiring p) (started p) ex_events (Dial ex_target)
  | Err _ => False
  end.
Proof.
  assert (match ex_main with Ok p => existsb dials_target (trace (handler (ex_run p))) | Err _ => false end = true) as Hc by (by vm_compute).
  destruct ex_main as [p|e] eqn:E; [|discriminate Hc]. apply dials_target_in in Hc. unfold ex_main in E.
  destruct ex_rows_good as [[Hu _] Hg]. destruct ex_events_ok as [Hok _].
  exact (nobody_gets_out_without_password time.UTC ex_network (fun _ => None) (fun _ _ => true) (fun _ => None) (fun _ _ _ => Ok ex_ca)
    ex_su p ex_events Hu Hg E Hok (Dial ex_target) Hc eq_refl).
Defined.

Lemma ports_follow_the_table_witness :
  match ex_main with
  | Ok p => listening (trace (handler (ex_run p))) 9000 0 "amy" /\ userServers (handler (ex_run p)) !! 9000 = Some (mkServer 0 "amy") /\
      portUsers (handler (ex_run p)) !! 9000 = Some "amy"%string
  | Err _ => False
  end.
Proof.
  assert (match ex_main with
          | Ok p => bool_decide (listener (trace (handler (ex_run p))) 9000 0 = Some "amy"%string) && (0 <? UserPortMin (p_cfg p))
          | Err _ => false end = true) as Hc by (by vm_compute).
  destruct ex_main as [p|e] eqn:E; [|discriminate Hc]. apply andb_true_iff in Hc as [Hs Hmin]. apply bool_decide_eq_true, listener_listening in Hs.
  apply Z.ltb_lt in Hmin. unfold ex_main in E. destruct ex_rows_good as [Ht Hg]. destruct ex_events_ok as [Hok Hn].
  destruct (ports_follow_the_table time.UTC ex_network (fun _ => None) (fun _ _ => true) (fun _ => None) (fun _ _ _ => Ok ex_ca)
    ex_su p ex_events Ht Hg eq_refl E Hmin Hok Hn) as (_ & Hk & H).
  split; [exact Hs|]. pose proof (Hk _ _ _ Hs) as Hsrv. split; [exact Hsrv|]. by destruct (H _ _ Hsrv) as (_ & Hp & _).
Defined.

Lemma reconciled_ports_are_the_wanted_ones_witness :
  match ex_main with
  | Ok p => exists id, listening (trace (handler (run time.UTC ex_network (fun _ => None) (fun _ _ => true) (p_wiring p) (ex_events ++ [Reconciled 10]) (started p)))) 9000 id "amy"
  | Err _ => False
  end.
Proof.
  assert (match ex_main with
          | Ok p => let h := handler (run time.UTC ex_network (fun _ => None) (fun _ _ => true) (p_wiring p) (ex_events ++ [Reconciled 10]) (started p)) in
              (0 <? UserPortMin (p_cfg p)) && negb (DemoMode (p_cfg p)) && in_range (aw_proxy (p_wiring p)) 9000 &&
              @listenerWanted DB (DB_UserStore time.UTC) (aw_proxy (p_wiring p)) 10 h "amy" &&
              match row_of (users (store h)) "amy" with Some row => r_port row =? 9000 | None => false end
          | Err _ => false end = true) as Hc by (by vm_compute).
  destruct ex_main as [p|e] eqn:E; [|discriminate Hc]. unfold ex_main in E.
  apply andb_true_iff in Hc as [[[[Hmin%Z.ltb_lt Hd%negb_true_iff]%andb_true_iff Hr]%andb_true_iff Hw]%andb_true_iff Ho].
  destruct ex_rows_good as [Ht Hg]. destruct ex_events_ok as [Hok Hn].
  apply (reconciled_ports_are_the_wanted_ones time.UTC ex_network (fun _ => None) (fun _ _ => true) (fun _ => None) (fun _ _ _ => Ok ex_ca)
    ex_su p ex_events 10 Ht Hg eq_refl E Hmin Hd Hok Hn). split; [|split; [exact Hr|exact Hw]].
  destruct (row_of _ _) as [row|] eqn:Er; [|discriminate Ho]. exists row. split; [exact Er|by apply Z.eqb_eq].
Defined.
(** ** A request that waits is not stopped *)

Definition ex_plain_environ (key : string) : string := if (key =? "MITM_ENABLED")%string then "false" else ex_environ key.

Definition ex_plain_su : surroundings := mkSurroundings ex_plain_environ true [ex_row] [] migrated_columns [] 5.

Definition ex_admin_call (method path : string) (cookies : list (string * string)) : http.Request :=
  http.mkRequest method "admin" "" path path "192.0.2.9:1" ∅ cookies [] false.

(** A CONNECT of amy's phone is challenged, the administrator disables amy, and then
    the phone answers. *)
Definition ex_disabling : list event :=
  [Arrived 1 9000 0 (ex_request "CONNECT" "example.com:443" false) (mkConnectEnv Hijacked 5 6 None None None 10 20 (Ok tt));
   Administered (ex_admin_call "POST" "/api/login" []) (mkBodies (Some (mkLogin "admin" "pw")) None None None None None None None None)
     (mkRequestEnv 6 None [1; 2] None EmptyString 0);
   Administered (ex_admin_call "PUT" "/api/users/enabled" [(sessionCookie, session_token [1; 2])])
     (mkBodies None None (Some (mkEnabledReq "amy" false)) None None None None None None) (mkRequestEnv 7 None [] None EmptyString 0)].

Definition ex_answer : event :=
  Answered 1 (mkConnectEnv Hijacked 5 8 None None (Some (ex_request "CONNECT" "example.com:443" true)) 10 20 (Ok tt)).

Definition tunnels (l : list effect) : bool := existsb (fun e => match e with Tunnel _ _ _ => true | _ => false end) l.

(** Without the block page the listener is what keeps a disabled user out, and it
    does not stop a request that waits for its answer: amy is disabled and her port
    closed, and the tunnel opens all the same. *)
Theorem waiting_request_outlives_disabling :
  match main time.UTC (fun _ => None) (fun _ _ _ => Ok ex_ca) ex_plain_su with
  | Ok p =>
      let run evs := run time.UTC ex_network (fun _ => None) (fun _ _ => true) (p_wiring p) evs (started p) in
      let s := run ex_disabling in
      IsEnabled (store (handler s)) "amy" = false /\ userServers (handler s) !! 9000 = None /\
      listener (trace (handler s)) 9000 0 = None /\
      tunnels (trace (handler s)) = false /\ tunnels (trace (handler (run (ex_disabling ++ [ex_answer])))) = true
  | Err _ => False
  end.
Proof. vm_compute. by repeat split. Qed.
End examples.



(** ** A tick outlives the shutdown *)

Section late_tick.
#[local] Existing Instance toy_crypto.
#[local] Existing Instance toy_codec.
#[local] Existing Instance toy_sqlite.

(** [StopReconciler] closes a channel and does not wait: a tick that has made its plan
    before starts the servers again that [ShutdownUserListeners] has just stopped. *)
Theorem tick_outlives_shutdown :
  match ex_main with
  | Ok p =>
      let moves := step time.UTC ex_network (fun _ => None) (fun _ _ => true) (p_wiring p) (ReconcilerMoves 9) in
      let s := shutdown (moves (started p)) in
      listener (trace (handler s)) 9000 0 = None /\ userServers (handler s) !! 9000 = None /\
      listener (trace (handler (moves (moves (moves s))))) 9000 1 = Some "amy"%string
  | Err _ => False
  end.
Proof. vm_compute. by repeat split. Qed.
End late_tick.

(** ** A user who gets out *)

(** A key function under which only one password fits its hash. *)
Definition one_password : Crypto := {|
  Sum256 s := s;
  IDKey password salt t m p n := pad_to n (if (password =? "pw")%string then "right" else "wrong");
  IDKey_length password salt t m p n := pad_to_length n (if (password =? "pw")%string then "right" else "wrong");
|}.

Section entitled.
#[local] Existing Instance one_password.
#[local] Existing Instance toy_codec.
#[local] Existing Instance toy_sqlite.

Definition ex_amy : Row := new_row 0 "amy" (hashPassword "pw" ex_salt) 9000.
Definition ex_amy_su : surroundings := mkSurroundings ex_environ true [ex_amy] [] migrated_columns [] 5.
Definition ex_amy_main : result start_error program := main time.UTC (fun _ => None) (fun _ _ _ => Ok ex_ca) ex_amy_su.

(** Before: amy's phone without and with the password, and a stranger. *)
Definition ex_before : list event :=
  [Arrived 1 9000 0 (ex_request "CONNECT" "example.com:443" false) ex_cenv; AuthSessionsSwept 5;
   Answered 1 (mkConnectEnv Hijacked 5 6 None None (Some (ex_request "CONNECT" "example.com:443" true)) 1 2 (Ok tt))].

Lemma ex_one_password other : verifyPassword other (r_password_hash ex_amy) = true -> Sum256 other = Sum256 "pw".
Proof.
  intros H. destruct (String.eqb other "pw") eqn:E; [by apply String.eqb_eq in E as ->|]. exfalso.
  cbv -[String.eqb] in H. rewrite E in H. vm_compute in H. done.
Qed.
Definition ex_after (p : program) : world :=
  run time.UTC ex_network (fun _ => None) (fun _ _ => true) (p_wiring p) (ex_before ++ [Reconciled 9]) (started p).

Definition ex_connect : http.Request := ex_request "CONNECT" "example.com:443" true.
Definition ex_second_cenv : connect_env := mkConnectEnv Hijacked 10 11 None None None 10 20 (Ok tt).

#[local] Instance ex_store : UserStore DB := DB_UserStore time.UTC.

(** The conditions of [entitled_user_gets_out], evaluated. *)
Definition ex_conditions (p : program) : bool :=
  let w := p_wiring p in let h := handler (ex_after p) in
  let header := http.Get (http.HeaderOf ex_connect) "Proxy-Authorization" in
  (0 <? UserPortMin (p_cfg p)) && negb (DemoMode (p_cfg p)) &&
  match row_of (users (store h)) "amy" with
  | Some row => (r_port row =? 9000) && (r_password_hash row =? r_password_hash ex_amy)%string && verifyPassword "pw" (r_password_hash row)
  | None => false
  end &&
  in_range (aw_proxy w) 9000 && IsEnabled (store h) "amy" && negb (IsInDowntime time.UTC 9 (store h) "amy") &&
  negb (IsInDowntime time.UTC 10 (store h) "amy") && bool_decide (parseBasicAuth header = Some ("amy", "pw")%string) &&
  fst (Allow (clientAddr ex_connect) 10 (limiter h)) &&
  match fst (dialWithBlockCheck (aw_proxy w) ex_network
    (fst (ctxWithUserDNS (aw_proxy w) "amy" (after_check header None 10 h))) "example.com:443" h) with
  | Ok a => (a =? ex_target)%string
  | Err _ => false
  end.

Lemma ex_amy_good : table_ok (su_rows ex_amy_su) /\ Forall good_name (usernames (su_rows ex_amy_su)).
Proof.
  split; [split; [|split]|].
  - vm_compute. apply NoDup_singleton.
  - vm_compute. intros H. by apply list_elem_of_singleton in H.
  - vm_compute. split; [constructor|done].
  - constructor; [|constructor]. split; [done|by repeat split].
Qed.

Lemma entitled_user_gets_out_witness :
  match ex_amy_main with
  | Ok p => exists id ds, listening (trace (handler (ex_after p))) 9000 id "amy" /\
      trace (handler (step time.UTC ex_network (fun _ => None) (fun _ _ => true) (p_wiring p) (Proxied 9000 id ex_connect ex_second_cenv ex_fenv) (ex_after p))) =
      trace (handler (ex_after p)) ++ ds ++ tunnel_reply ex_second_cenv 10 "192.0.2.7" "example.com:443" "amy" ex_target ++ [Close]
  | Err _ => False
  end.
Proof.
  assert (match ex_amy_main with Ok p => ex_conditions p | Err _ => false end = true) as Hc by (by vm_compute).
  destruct ex_amy_main as [p|e] eqn:E; [|discriminate Hc]. unfold ex_amy_main in E. unfold ex_conditions in Hc. cbv zeta in Hc.
  destruct (row_of _ _) as [row|] eqn:Er; [|by rewrite andb_false_r in Hc].
  apply andb_true_iff in Hc as [[[[[[[[[Hmin%Z.ltb_lt Hd%negb_true_iff]%andb_true_iff Hrow]%andb_true_iff Hr]%andb_true_iff He]%andb_true_iff
    Hn1%negb_true_iff]%andb_true_iff Hn2%negb_true_iff]%andb_true_iff Hp]%andb_true_iff Ha]%andb_true_iff Hdial].
  apply andb_true_iff in Hrow as [[Ep%Z.eqb_eq Eh%String.eqb_eq]%andb_true_iff Hv]. apply bool_decide_eq_true_1 in Hp.
  assert (fst (dialWithBlockCheck (aw_proxy (p_wiring p)) ex_network (fst (ctxWithUserDNS (aw_proxy (p_wiring p)) "amy"
    (after_check (http.Get (http.HeaderOf ex_connect) "Proxy-Authorization") None 10 (handler (ex_after p))))) "example.com:443" (handler (ex_after p))) = Ok ex_target) as Hdial'.
  { destruct (fst (dialWithBlockCheck _ _ _ _ _)) as [a|e]; [|discriminate Hdial]. f_equal. by apply String.eqb_eq. }
  destruct ex_amy_good as [Ht Hg].
  pose proof (entitled_user_gets_out time.UTC ex_network (fun _ => None) (fun _ _ => true) (fun _ => None) (fun _ _ _ => Ok ex_ca)
    ex_amy_su p ex_before 9 "amy" "pw" ex_target row ex_connect ex_second_cenv ex_fenv Ht Hg eq_refl E Hmin Hd
    ltac:(by repeat constructor) ltac:(by repeat constructor) Er) as H'.
  rewrite Ep in H'. refine (H' Hr He Hn1 Hn2 Hp Hv _ eq_refl eq_refl Ha Hdial').
  intros other. rewrite Eh. apply ex_one_password.
Defined.
End entitled.
