(* ===== verification/PauseHolds.v ===== *)
(** * A pause holds until it ends

    The end of an ad-hoc pause is a setting that only the pause route of the admin
    API writes.  So whatever else happens to the running program in the meantime, the
    user stays paused, and the user's requests reach nothing but the hosts a pause
    never intercepts. *)

From S2P Require Import Prelude GoStrings GoTime GoNet GoHTTP Downtime Password UserTable UserDB UserDBLemmas UserDBOps UserDBCoherence UserDBReach.
From S2P Require Import UserDBSpec RateLimit Dns Config Bypass Proxy Connect Forward ProxyFrame ProxySafety Challenge UserPorts UserPortsSpec Sockets.
From S2P Require Import ProxyOverDB Mitm DeviceTokens UserDBCalm AdminSession AdminServer AdminAPI AdminLemmas AdminSpec AdminFrame Main World System.

Open Scope list_scope.

Section pause.
Context {crypto : Crypto} {codec : ScheduleCodec} {sqlite : SQLiteClock}.
Variable loc : time.Location.
Variable network : Network.
Variable qrcode_New : string -> option (list (list bool)).
Variable CompareHashAndPassword : string -> string -> bool.

#[local] Instance pause_store : UserStore DB := DB_UserStore loc.

#[local] Abbreviation step := (step loc network qrcode_New CompareHashAndPassword).
#[local] Abbreviation run := (run loc network qrcode_New CompareHashAndPassword).
#[local] Abbreviation sound := (sound loc network qrcode_New CompareHashAndPassword).

Definition other_than (u v : string) : Prop := v <> u.

(** ** One operation of the database *)

Lemma run_op_pauses u op d :
  pauses_only (other_than u) op -> downtimeUntilCache (run_op op d) !! u = downtimeUntilCache d !! u.
Proof.
  assert (forall d d', only_faults d d' -> downtimeUntilCache d' = downtimeUntilCache d) as Ho by (by intros d1 d2 (fs & ->)).
  unfold other_than. destruct op; simpl; intros Hv;
    try (run_inv write_through_inv; destruct Hrun as [(? & _ & ->%Ho & _)|(row & fs & _ & _ & ->)];
         [done|simpl; by rewrite ?lookup_insert_ne, ?lookup_delete_ne by congruence]).
  - run_inv Add_inv. by destruct Hrun as [[_ ->%Ho]|(? & ? & ? & _ & _ & _ & _ & _ & _ & ->)].
  - run_inv ChangePassword_inv. by destruct Hrun as [[_ ->%Ho]|(? & ? & ? & _ & _ & _ & ->)].
  - unfold UpdatePort. run_inv affected_user_inv. by destruct Hrun as [(? & _ & ->%Ho & _)|(? & ? & _ & _ & ->)].
  - by destruct (Check_settings header salt now d) as (_ & _ & _ & ->).
Qed.

(** ** One event *)

(** Whoever pauses or lifts a pause means another user. *)
Definition spares (u : string) (ev : event) : Prop :=
  match ev with
  | Administered _ b _ => forall req, as_downtimeNow b = Some req -> other_than u (nw_Username req)
  | _ => True
  end.

Lemma undisturbed_pauses d d' : undisturbed d d' -> downtimeUntilCache d' = downtimeUntilCache d.
Proof. by intros [(ts & fs & ->) _]. Qed.

Lemma checked_pauses d d' : rtc checked d d' -> downtimeUntilCache d' = downtimeUntilCache d.
Proof.
  induction 1 as [d|d1 d2 d3 (header & salt & now & ->) _ IH]; [done|]. rewrite IH.
  by destruct (Check_settings header salt now d1) as (_ & _ & _ & ->).
Qed.

Lemma serve_pauses w since u r b e a :
  clock_ok (re_now e) -> (forall req, as_downtimeNow b = Some req -> other_than u (nw_Username req)) -> history true since (database a) ->
  downtimeUntilCache (database (snd (serve loc w network qrcode_New CompareHashAndPassword r b e a))) !! u = downtimeUntilCache (database a) !! u.
Proof.
  intros Hc Hs Hh.
  apply (stable_closed loc w network qrcode_New CompareHashAndPassword (other_than u)
    (fun d => history true since d /\ downtimeUntilCache d !! u = downtimeUntilCache (database a) !! u)); [..|done].
  - intros op d Hok Hp [H1 H2]. split; [by apply history_op|]. by rewrite run_op_pauses.
  - intros d d' Hd [H1 H2]. split; [by eapply history_devices|]. by destruct Hd as (ts & fs & ->).
  - intros d [H1 _]. by apply history_unique in H1.
  - done.
  - done.
Qed.

Lemma step_pauses w s0 since evs u ev :
  sound w s0 since evs -> event_ok ev -> spares u ev ->
  downtimeUntilCache (store (handler (step w ev (run w evs s0)))) !! u = downtimeUntilCache (store (handler (run w evs s0))) !! u.
Proof.
  intros [Hh _ _ _ _ _] Hok Hs. set (s := run w evs s0) in *.
  destruct ev as [port id r cenv fenv|conn port id r cenv|conn cenv|r b e|now|now|now|now|now|now|now|port id|fs]; simpl in Hok, Hs;
    [by rewrite (checked_pauses (store (handler s))) by (eapply step_request; eauto 10)..| | | | | | | | | |];
    unfold handler, World.step, api_step in *; cbn [wo_api] in *; try done.
  - destruct Hok as [_ Hc]. by apply (serve_pauses w since).
  - destruct (wo_tick s); [done|]. by rewrite (undisturbed_pauses (store (ap_proxy (wo_api s)))) by apply reconcile_undisturbed.
  - by rewrite (undisturbed_pauses (store (ap_proxy (wo_api s)))) by apply tick_undisturbed.
  - destruct (listener _ _ _); [|done]. cbn. by destruct (serverFailed_cases port id (ap_proxy (wo_api s))) as (-> & _).
Qed.

(** ** Any events *)

Lemma run_app w evs evs' s : run w (evs ++ evs') s = run w evs' (run w evs s).
Proof. unfold World.run. by rewrite foldl_app. Qed.

Lemma run_pauses w s0 since before after u :
  sound w s0 since [] -> Forall event_ok (before ++ after) -> Forall (spares u) after ->
  downtimeUntilCache (store (handler (run w (before ++ after) s0))) !! u = downtimeUntilCache (store (handler (run w before s0))) !! u.
Proof.
  intros H0. induction after as [|ev after IH] using rev_ind; [by rewrite app_nil_r|].
  rewrite app_assoc. intros [Hevs Hev]%Forall_app [Hs Hs1]%Forall_app. rewrite run_snoc, <- IH by done.
  apply (step_pauses w s0 since); [by apply sound_run|by inversion Hev|by inversion Hs1].
Qed.

(** Before its end, a pause goes before schedule and override. *)
Lemma paused_IsInDowntime now d u : 0 <= now < GetDowntimeUntil d u -> IsInDowntime loc now d u = true.
Proof.
  intros H. unfold IsInDowntime, time.IsZero, time.Before, time.zero, time.Second.
  destruct (Z.eqb_spec (GetDowntimeUntil d u) (-62135596800 * 1000000000)) as [E|E]; [lia|]. simpl.
  by destruct (Z.ltb_spec now (GetDowntimeUntil d u)) as [_|?]; [|lia].
Qed.

(** ** Requests of a paused user *)

(** The clock readings of a request and the hosts it asks for. *)
Definition readings (ev : event) : list Z :=
  match ev with
  | Proxied _ _ _ cenv fenv => [ce_now cenv; ce_now2 cenv; fe_now fenv]
  | Arrived _ _ _ _ cenv => [ce_now cenv]
  | Answered _ cenv => [ce_now2 cenv]
  | _ => []
  end.

Definition answer_host (cenv : connect_env) : list string := match ce_retry cenv with Some retry => [http.Host retry] | None => [] end.

Definition asked (ev : event) : list string :=
  match ev with
  | Proxied _ _ r cenv _ => http.Host r :: answer_host cenv
  | Arrived _ _ _ r _ => [http.Host r]
  | Answered _ cenv => answer_host cenv
  | _ => []
  end.

Section request.
Variables (w : Wiring) (h : Handler DB) (u : string).
Hypothesis Hchecker : has_downtimeChecker w = true.

Lemma may_pass_paused t host :
  0 <= t < GetDowntimeUntil (store h) u -> may_pass w h t u host -> MITMEnabled (cfg w) = true /\ Passthrough host = true.
Proof.
  intros Ht%paused_IsInDowntime [_ [Hb|(Hm & _ & Hp)]]; [exfalso|done]. revert Hb. unfold blockReason, gets. cbn [fst].
  change (us_IsInDowntime t (store h) u) with (IsInDowntime loc t (store h) u). rewrite Ht, Hchecker. by destruct (_ && _).
Qed.
End request.

Lemma cleared_paused w h u ev :
  has_downtimeChecker (aw_proxy w) = true ->
  Forall (fun t => 0 <= t < GetDowntimeUntil (store h) u) (readings ev) -> cleared loc w h ev u ->
  MITMEnabled (cfg (aw_proxy w)) = true /\ exists host, host ∈ asked ev /\ Passthrough host = true.
Proof.
  intros Hc Ht Hcl.
  assert (forall t host, t ∈ readings ev -> host ∈ asked ev -> may_pass (aw_proxy w) h t u host ->
    MITMEnabled (cfg (aw_proxy w)) = true /\ exists host, host ∈ asked ev /\ Passthrough host = true) as Hp.
  { intros t host Hin Ha Hm. rewrite Forall_forall in Ht. destruct (may_pass_paused _ h u Hc t host (Ht t Hin) Hm) as [H1 H2]. eauto. }
  destruct ev as [port id r cenv fenv|conn port id r cenv|conn cenv| | | | | | | | | |]; try done; simpl in *.
  - destruct (http.Method r =? http.MethodConnect)%string; [destruct Hcl as (host & t & Hcon & Hm)|destruct Hcl as [_ Hf]].
    + apply (Hp t host); [..|exact Hm]; destruct Hcon as [v _|retry v Er _ _]; [set_solver..|].
      unfold answer_host. rewrite Er. set_solver.
    + exfalso. rewrite Hc in Hf. change (us_IsInDowntime (fe_now fenv) (store h) u) with (IsInDowntime loc (fe_now fenv) (store h) u) in Hf.
      rewrite paused_IsInDowntime in Hf; [done|]. rewrite Forall_forall in Ht. apply Ht. set_solver.
  - eapply Hp; [..|exact Hcl]; set_solver.
  - destruct Hcl as (retry & Er & Hm). eapply Hp; [..|exact Hm]; [set_solver|]. unfold answer_host. rewrite Er. set_solver.
Qed.

(** ** The program *)

(** [C5] A pause holds until it ends: start the program on a database whose users'
    names are distinct, not empty and without colons; once a user is paused the pause
    keeps its end through any further events (requests, other calls of the admin API,
    deleting and creating the user again, failing statements, ticks of the background
    goroutines), unless a call of the pause route names the user, and as long as no
    admin request creates a user with a colon in the name and their clocks are between
    1970 and the year 9707 ([event_ok]).  Until then every look at the user finds a downtime, and a
    request on a server of the user, or one that waits for its answer, contacts
    nothing, except that with the block page a host that a pause never intercepts may
    be reached. *)
Theorem pause_holds_until_it_ends (ParseDuration : string -> option Z) (load_ca : string -> string -> Options -> result ca_error CA)
    (su : surroundings) (p : program) (before after : list event) (u : string) :
  unique_usernames (su_rows su) -> Forall good_name (usernames (su_rows su)) ->
  main loc ParseDuration load_ca su = Ok p -> Forall event_ok (before ++ after) -> Forall (spares u) after ->
  let until := GetDowntimeUntil (store (handler (run (p_wiring p) before (started p)))) u in
  let s := run (p_wiring p) (before ++ after) (started p) in
  GetDowntimeUntil (store (handler s)) u = until /\
  (forall now, 0 <= now < until -> IsInDowntime loc now (store (handler s)) u = true) /\
  (forall ev, belongs s ev u -> Forall (fun t => 0 <= t < until) (readings ev) ->
    exists new, trace (handler (step (p_wiring p) ev s)) = trace (handler s) ++ new /\
      forall e, e ∈ new -> contact e = true ->
        MITMEnabled (p_cfg p) = true /\ exists host, host ∈ asked ev /\ Passthrough host = true).
Proof.
  intros Hu Hg Hm Hok Hs until s.
  pose proof (started_sound loc network qrcode_New CompareHashAndPassword ParseDuration load_ca su p Hu Hg Hm) as H0.
  assert (GetDowntimeUntil (store (handler s)) u = until) as E
    by (unfold until, GetDowntimeUntil; by rewrite <- (run_pauses _ _ (su_now su) before after)).
  split; [done|]. split; [intros now Hnow; apply paused_IsInDowntime; by rewrite E|]. intros ev Hb Ht.
  destruct (request_contacts loc network qrcode_New CompareHashAndPassword (p_wiring p) (started p) (su_now su) (before ++ after)
    (sound_run _ _ _ _ _ _ _ _ H0 Hok) ev u Hb) as (new & Et & Hnew).
  exists new. split; [exact Et|]. intros e He Hc. specialize (Hnew e He Hc).
  apply main_inv in Hm as (c & d & h & resolver & ca & _ & _ & _ & _ & _ & ->).
  apply (cleared_paused _ (handler s) u ev) in Hnew; [done|done|by rewrite E].
Qed.
End pause.

(** ** An example *)

Section example.
#[local] Existing Instance toy_crypto.
#[local] Existing Instance toy_codec.
#[local] Existing Instance toy_sqlite.

Definition ex_call (path : string) (now : Z) (b : bodies) : event :=
  Administered (ex_admin_call "PUT" path [(sessionCookie, session_token [1; 2])]) b (mkRequestEnv now None [] None EmptyString 0).

(** The administrator logs in and pauses amy for half an hour, then grants an override
    and looks after another user; the reconciler runs. *)
Definition ex_pausing : list event :=
  [Administered (ex_admin_call "POST" "/api/login" []) (mkBodies (Some (mkLogin "admin" "pw")) None None None None None None None None)
     (mkRequestEnv 6 None [1; 2] None EmptyString 0);
   ex_call "/api/users/downtime-now" 7 (mkBodies None None None None None None None (Some (mkNowReq "amy" 30)) None)].

Definition ex_meanwhile : list event :=
  [ex_call "/api/users/downtime-override" 8 (mkBodies None None None None None None (Some (mkOverrideReq "amy" 60)) None None);
   ex_call "/api/users/downtime-now" 9 (mkBodies None None None None None None None (Some (mkNowReq "bob" 0)) None);
   Reconciled 9].

Definition ex_paused_request : event := Proxied 9000 0 (ex_request "CONNECT" "example.com:443" true) ex_cenv ex_fenv.

Lemma ex_pausing_ok : Forall event_ok (ex_pausing ++ ex_meanwhile) /\ Forall (spares "amy") ex_meanwhile.
Proof.
  split; repeat (apply Forall_cons; split); try apply Forall_nil; try done.
  - split; [|by repeat split]. by intros req [= <-].
  - by intros req [= <-].
Qed.

Definition ex_world (p : program) (evs : list event) : world :=
  run time.UTC ex_network (fun _ => None) (fun _ _ => true) (p_wiring p) evs (started p).

(** Amy's phone, with her password, ten seconds into the pause: nobody is contacted. *)
Lemma pause_holds_until_it_ends_witness :
  match ex_main with
  | Ok p => let s := ex_world p (ex_pausing ++ ex_meanwhile) in
      exists new, trace (handler (step time.UTC ex_network (fun _ => None) (fun _ _ => true) (p_wiring p) ex_paused_request s)) =
        trace (handler s) ++ new /\ forall e, e ∈ new -> contact e = false
  | Err _ => False
  end.
Proof.
  assert (match ex_main with
          | Ok p => (10 <? GetDowntimeUntil (store (handler (ex_world p ex_pausing))) "amy") &&
              bool_decide (listener (trace (handler (ex_world p (ex_pausing ++ ex_meanwhile)))) 9000 0 = Some "amy"%string)
          | Err _ => false end = true) as Hc by (by vm_compute).
  destruct ex_main as [p|e] eqn:E; [|discriminate Hc]. unfold ex_main in E. cbv zeta.
  apply andb_true_iff in Hc as [Hu%Z.ltb_lt Hl%bool_decide_eq_true_1].
  destruct ex_rows_good as [[Huniq _] Hg]. destruct ex_pausing_ok as [Hok Hs].
  destruct (pause_holds_until_it_ends time.UTC ex_network (fun _ => None) (fun _ _ => true) (fun _ => None) (fun _ _ _ => Ok ex_ca)
    ex_su p ex_pausing ex_meanwhile "amy" Huniq Hg E Hok Hs) as (_ & _ & H).
  assert (forall t, t <= 10 -> 0 <= t -> 0 <= t < GetDowntimeUntil (store (handler (ex_world p ex_pausing))) "amy") as Ht by lia.
  destruct (H ex_paused_request Hl) as (new & Et & Hnew); [by repeat (apply Forall_cons; split); [apply Ht..|apply Forall_nil]|].
  exists new. split; [exact Et|]. intros e He. destruct (contact e) eqn:Ec; [|done]. exfalso.
  destruct (Hnew e He Ec) as (_ & host & Hh & Hp). apply list_elem_of_singleton in Hh as ->. by vm_compute in Hp.
Defined.
End example.
